(* ===== verification/_CoqProject ===== *)
-Q . S2P
Prelude.v
Double.v
CppString.v
CppFormat.v
StringUtils.v
Money.v
Heap.v
Manifest.v
Abi.v
StockApi.v
Models.v
State.v
Equity.v
StateOps.v
StateInv.v
MarginAccounts.v
TimeUtils.v
Exchange.v
PositionCalc.v
Executor.v
ExecutorSpec.v
ExitBook.v
LimitBook.v
AbiConverter.v
Engine.v
EngineInv.v
EngineRun.v
EngineTermination.v
RunProtocol.v
TradeInduction.v
DataProps.v
DataStore.v
Effects.v
HttpModel.v
NetworkCache.v
HttpInterfaces.v
AtomicWrites.v
AtomicProps.v
CacheProps.v
CurlEasy.v
HeaderProps.v
CacheSpec.v
CacheSession.v
CurlProps.v
Json.v
Polygon.v
HttpScenario.v
StringStore.v
ManifestParser.v
ManifestProps.v
ManifestScenario.v
NativeLoader.v
NativeProps.v
PythonLoader.v
PythonProps.v
PluginManager.v
ManagerProps.v
ManagerRelease.v
ThreadPool.v
ThreadPoolInv.v
ThreadPoolProps.v
Forge.v
ForgeRun.v
ForgeProps.v
PluginScenario.v
Scenario.v
ExecutorProps.v
RiskProps.v
PortfolioProps.v
EngineProps.v
Ledger.v
NativeSession.v
PythonLock.v
SmaNative.v
SmaProps.v
