(* ===== verification/Prelude.v ===== *)
(** * QuantForge: a verification development

    QuantForge back-tests trading plugins: bars of market data are fetched over HTTP and
    fed to a plugin one by one, the plugin answers with signals and orders, and a simulator
    executes them against a portfolio with margin, commissions, slippage, limit orders and
    protective exit orders.  The program is C++ under [src/src]; this library models it
    from [main] down to the heaps of the simulator and proves what makes it correct.

    ** How the program runs

    [main] builds a [ForgeEngine], which loads plugins from a directory (manifest, loader,
    [on_init]), fetches the bars of every symbol of every plugin with one HTTP client per
    job of a thread pool, runs one back test per plugin with the jobs of a second pool, and
    prints the reports.

    ** Program and model

    Shared layer.  [Prelude] (this file) has the [outcome] monad (a C++ call returns,
    throws, or has not finished within the loop rounds it was given), the wrap-around of
    [int64_t] and [int], and the iteration order of [std::map].  [Effects] has [io], calls
    that change a state and may throw after having changed it.  [Double] is binary64: the
    executable specification of IEEE 754 arithmetic from the Standard Library, the
    constants of [utils/constants.hpp], and the order and exactness lemmas the proofs use.
    [CppString] has the [std::string] functions the sources call, [CppFormat]
    [std::to_string] and its inverse [strtol], [StringUtils] is [utils/string_utils.cpp],
    [StringStore] the address behaviour of a [std::vector<std::string>] and of the
    [c_str()] pointers into it.

    Data.  [Money] is [utils/money_utils], [Heap] is [utils/min_heap.hpp] and
    [utils/max_heap.hpp] (one loop, two comparisons), [TimeUtils] is
    [utils/time_utils.cpp], [Manifest] the parameter structs of
    [plugins/manifest/manifest.hpp], [Abi] the structs of [plugins/abi/abi.h],
    [StockApi] the bar structs of [http/api/stock_api.hpp], [Models] all of
    [simulators/back_test/models.hpp].

    Portfolio.  [State] is [state.hpp] (a record with the seventeen members), [Equity]
    is [equity_calculator.cpp], [StateOps] is [state.cpp].  [StateOps.fifo_plan] is the
    abstract account of "close the oldest lots first"; every loop of the program that
    walks the fills is shown to follow it.  [StateInv] has the portfolio invariant
    [State_wf] and the contract [Result_wf] between executor and portfolio,
    [MarginAccounts] the relation between the running margin total and the per-lot
    margins.

    Execution.  [Exchange] is [exchange.cpp] and [slippage_calculator.cpp],
    [PositionCalc] is [position_calculator.cpp], [Executor] is [executor.cpp] (which
    reads the state and returns a result), [ExecutorSpec] the inversion of a successful
    execution and the discharge of [Result_wf].

    Books and engine.  [ExitBook] is [exit_order_book.cpp], [LimitBook] is
    [limit_order_book.cpp]; their loops call back into the engine that owns them, so
    they are stated and proved against an interface (the classes [ExitBookHost] and
    [LimitBookHost] with laws) that [Engine] implements.  [AbiConverter] is
    [abi_converter.cpp].  [Engine] is [back_test_engine.cpp]: the phases of a bar and
    [run], over an arbitrary plugin (class [PluginLoader]).  [EngineInv] has the
    engine's invariant and the frame of one execution, [EngineRun] what each phase
    establishes, [EngineTermination] fuel monotonicity and termination, [TradeInduction]
    the induction principle of a run: what every trade keeps of the accounts, the run
    keeps.  [Ledger] reads a run as the list of its trades, [RunProtocol] as the calls it
    makes on its plugin.

    HTTP.  [HttpModel] is [http/model/model.hpp] and [http/error], [NetworkCache] is
    [http/cache/network_cache.cpp] on a disk of files, [CurlEasy] is
    [http/client/curl_easy.cpp] on a libcurl handle, [Json] the interface of simdjson,
    [Polygon] is [http/provider/polygon.cpp].  [HttpInterfaces] has the two interfaces
    between which [http/api/stock_api.cpp] stands ([IHttpClient], [IStockDataProvider])
    with what they promise, and [StockAPI] itself over any pair of them; [CurlEasy] and
    [Polygon] give the instances, [CurlProps] and [Polygon] keep the promises.
    [CacheSpec] is the contract of the client with its cache for one request
    ([get_step]), [CacheSession] for sequences of requests; [HeaderProps] says which
    header values survive the meta file, so that the contract needs no assumption about
    what the client stores; [CacheProps] and [CurlProps] have the files and the retries.
    [AtomicWrites] is [write_atomic] again, as the system calls of concurrent threads on
    inodes and names; [AtomicProps] has its invariant and the equivalence with the
    one-step model.

    Plugins.  [ManifestParser] is [plugins/manifest], [NativeLoader] is
    [native_loader.cpp] with [lib_handler.hpp] and the bar conversions of
    [loaders/interface.hpp], [PythonLoader] is [python_loader.cpp], [PluginManager] is
    [plugin_manager.cpp].  Both loaders are instances of the class [PluginLoader] the
    engine is proved against, so every theorem of the engine holds of them.
    [ManagerRelease] accounts for what the destructor of the manager gives back, whatever
    is called on the plugins in between.  [NativeSession] puts [RunProtocol] and the native
    loader together: the complete log of one plugin's life.  [PythonLock] runs the Python
    loader on a Python that knows its threads and its lock.
    [SmaNative] is the example plugin [.plugins/sma_native/sma_native.cpp] on a heap of
    its instances and texts, [SmaProps] what a session with it returns.

    Concurrency.  [ThreadPool] is [utils/thread_pool.cpp] as steps of its threads, the
    waits that end without a notification included; [ThreadPoolInv] has its invariant, the classification of the states in which nothing
    can move, and a measure that every step decreases.

    Around it.  [DataStore] is [forge/stores/data_store.cpp] with its mutex, [Forge] is
    the builder of [forge/forge_engine/forge.cpp], [report_store.cpp], the job that
    [ForgeEngine::run] gives each plugin, and the Monte Carlo placeholder; [ForgeRun] is
    the running half of [forge.cpp], [console_renderer.cpp], [curl_global.cpp] and
    [main.cpp].

    Properties are in [DataProps], [DataStore], [StringUtils], [CacheProps], [CacheSpec],
    [CacheSession], [AtomicProps], [HttpInterfaces], [CurlProps], [Polygon],
    [ManifestProps], [NativeProps], [PythonProps], [ManagerProps], [ManagerRelease],
    [SmaProps], [ThreadPoolProps], [Forge], [ForgeProps], [ExecutorProps],
    [RiskProps], [PortfolioProps], [EngineProps], [Ledger], [NativeSession] and
    [PythonLock].  Each theorem with a hypothesis is
    applied to a concrete input: the back test of [Scenario], the servers of
    [HttpScenario], the manifests of [ManifestScenario], the plugins of
    [PluginScenario].

    ** What is shown

    - Engine: any run, with any plugin and any data, leaves fills, lots, margins, exit
      orders and all heaps consistent; without a volume cap, and with a plugin that answers,
      a run ends exactly when the call that hands it its bars ends, and after the
      phases of a bar no queued order is due, no limit order is marketable and no exit
      order is triggered; each phase leaves none of its own kind also with a cap.
    - Accounting: a whole run is a sequence of trades, and its fills, cash and margin at
      the end are the sums over that sequence; opening a trade conserves cash plus margin up to the commission,
      closing one up to profit and commission; the margin total drifts from the per-lot
      margins only by residues of at most [EPSILON] dollars; lots closed whole leave
      none; the FIFO walks of a trade follow one plan, and a trade that opens nothing is
      paid out by that same plan.
    - Execution: it never throws; what it fills respects leverage, short-selling,
      margin and volume limits; a limit order fills at exactly the better of limit and
      close; inactive exit orders are rejected.
    - Data structures: both heaps are priority queues and their loops end; decimal
      amounts with six or more fractional digits are read exactly; market hours and the
      plugin's view of the state are characterized.
    - HTTP: any sequence of requests through the client is a session with a cache of one
      entry per request (served, revalidated, stored, other entries untouched), and asks
      the server once per URL hash while entries are fresh, every later request repeating
      the first answer; stored responses and their meta files are read back; freshness
      is decided by the first directive that decides it; a call makes a bounded number of
      attempts with bounded back-offs and always returns or throws; an answer is read bar
      for bar if each bar has a ticker of its own, and rejected otherwise; what a fetch returns or throws is determined by status and body,
      with any client and provider that keep their promises.
    - Files: while no two threads write the same path, every read of a cache file sees the
      old content or one complete write, in every interleaving of the system calls and
      with any of them failing; the entries of requests with different hashes are such
      paths.
    - Plugins: a parsed manifest has only allowed values and integers in range, a printed
      one is parsed back, the options are its parameters in a fixed order, none left out,
      and can be read from the second call on; the native
      loader never uses a library that is closed or an instance that is destroyed, in any
      sequence of calls and with any library; the instructions a Python plugin returns
      are those the engine reads once the storage of their strings has grown; the
      manager's map has exactly the requested plugins that have a directory, and its
      destructor closes and destroys what loading opened and created, whatever was called
      in between; a native plugin is called once to initialise it, once per bar in hours,
      once at the end and once to free what it returned; a session with the
      example plugin reports the profit of the round trips its averages define and uses
      its memory properly.
    - Thread pool: when [wait_all] returns every task has run, in every interleaving and
      with any spurious wake-ups; every execution with finitely many of those is finite, and
      the four ways in which it can end are classified (a task that threw, the pool
      destroyed, the lost wake-up, no worker); tasks start in the order they were queued.
    - Program: a fetch whose requests, made in the order in which the pool ended the jobs,
      are answered stores the last answer for every plugin and symbol, with any number of
      threads; [main] ends with status 1 on every machine.
    - Defects: short fractions of amounts throw, a bar without volume can hang the
      engine, a trade through flat records too little margin and can be paid out for a
      quantity that differs from the one closed, unknown actions fill free
      of charge, the data store blocks on its own mutex, the builder's validation cannot
      succeed, answers that call for a retry are cached and the retries read them back,
      answers in the documented layout are rejected, the pool's owner can miss its last
      wake-up, a machine with one processor has no thread to fetch with, the pointers of the first [get_options]
      and of the first Python instruction dangle, the native plugin is shown freed
      arrays, Python plugins are run without the interpreter's lock, [on_start] is never
      called, every manifest of the repository is rejected, two threads that store the
      same cache entry can show a reader an empty one.

    ** Conventions

    A [double] is exact binary64 with round-to-nearest-even; a cast of a [double] outside
    [int64_t] is the x86-64 result [INT64_MIN].  [int64_t] arithmetic wraps.  A
    [std::map] is a [gmap] walked in key order; an [std::unordered_map] is a [gmap]
    whose order is a parameter.  [create_uuid()] is a parameter [nat -> string]
    numbered by calls, assumed injective where identifiers must differ; the system clock
    is a parameter numbered by reads.

    Foreign code is a class whose methods the model calls: the operating system's files
    ([SystemCalls], [PluginFiles]), libcurl ([LibCurl]), simdjson ([Json]), the dynamic
    linker and a native plugin ([DynamicLoader]), Python and pybind11 ([Python]), the
    standard library's string and vector layout ([StringLayout]), and what a read of an
    invalid address gives ([InvalidMemory]).  The theorems hold for every instance; the
    scenario files give concrete ones.

    Loops bounded by data take their length as fuel: heap sifting, draining a heap and
    processing exit orders never need more, which is proved ([heap_loops_terminate],
    [exit_orders_leave_none_triggered]).  The order-book and limit-book loops can be
    refilled by partial fills and take [fuel] as an argument; [OutOfFuel] says they have
    not ended, [EngineTermination] when they do and [zero_volume_bar_never_ends] when
    they do not.  Splitting a header at its commas takes the length of the header, which
    is enough for every header; retrying takes the number of attempts.

    ** Not modelled

    The header [plugin_api.h] of the example plugin is not in the repository: [SmaNative]
    has of it the members the plugin reads, the order of the table it fills and the
    version as a parameter, and the plugin is not connected to the loaders, whose ABI is
    another one.  The Python example is not C++.  Boost's UUIDs and the insides of libcurl,
    simdjson, pybind11 and the dynamic linker are parameters.  Jobs of [fetch_data] and
    [run] take effect one after another, in an order in which the pool can finish them:
    each job has its own client and the stores are behind a mutex; the one thing the jobs
    share below that, the files of the cache, has its own model in [AtomicWrites].
    [set_stock_api] sets a member that nothing reads; [ROLLING_EQUITY_WINDOWS] and
    [OptimizationMode] of [manifest.cpp] are used nowhere; the Windows halves of
    [lib_handler.hpp] are not compiled on the machine the casts above assume.  The lines no
    definition covers are declarations: headers repeat what their source files define,
    copy and move operations are deleted.  What the release of a Python object does is
    Python's.  Nothing else of the program's own logic is left out. *)

From Stdlib Require Import ZArith Lia.
From stdpp Require Import base list gmap strings sorting.

(** ** Outcomes of C++ code

    A call returns a value, leaves with an exception, or (for a loop modelled
    with fuel) has not finished within the fuel given to it. *)
Inductive exn : Type :=
| out_of_range (what : string)
| invalid_argument (what : string)
| length_error (what : string)
| logic_error (what : string)
| system_error (what : string)
| runtime_error (what : string)
| http_error (status : Z) (url body_preview what : string)
| foreign_error (library what : string).

(** [e.what()] *)
Definition exn_what (e : exn) : string :=
  match e with
  | out_of_range what | invalid_argument what | length_error what | logic_error what
  | system_error what | runtime_error what => what
  | http_error _ _ _ what | foreign_error _ what => what
  end.

Inductive outcome (A : Type) : Type :=
| Ret (a : A)
| Throw (e : exn)
| OutOfFuel.
Arguments Ret {A} a.
Arguments Throw {A} e.
Arguments OutOfFuel {A}.

Definition obind {A B : Type} (c : outcome A) (k : A -> outcome B) : outcome B :=
  match c with
  | Ret a => k a
  | Throw e => Throw e
  | OutOfFuel => OutOfFuel
  end.

(** [try { c } catch (e) { h(e) }] *)
Definition ocatch {A : Type} (c : outcome A) (h : exn -> outcome A) : outcome A :=
  match c with
  | Throw e => h e
  | _ => c
  end.

Declare Scope outcome_scope.
Delimit Scope outcome_scope with outcome.
Notation "'let*' x ':=' c 'in' k" := (obind c (fun x => k))
  (at level 10, x name, c at level 100, k at level 200)
  : outcome_scope.
Notation "'let*' ' p ':=' c 'in' k" := (obind c (fun x => match x with p => k end))
  (at level 10, p pattern, c at level 100, k at level 200)
  : outcome_scope.
Open Scope outcome_scope.

(** A range-for loop whose body may throw. *)
Fixpoint ofold {A B : Type} (f : A -> B -> outcome A) (a : A) (l : list B) : outcome A :=
  match l with
  | [] => Ret a
  | x :: l' => let* a' := f a x in ofold f a' l'
  end.

Lemma obind_ret {A B} (c : outcome A) (k : A -> outcome B) (b : B) :
  obind c k = Ret b <-> exists a, c = Ret a /\ k a = Ret b.
Proof.
  split.
  - destruct c as [a|e|]; simpl; intros H; [eauto|discriminate|discriminate].
  - intros (a & -> & H). exact H.
Qed.

Lemma obind_assoc {A B C} (c : outcome A) (k : A -> outcome B) (h : B -> outcome C) :
  obind (obind c k) h = obind c (fun a => obind (k a) h).
Proof. by destruct c. Qed.

(** More fuel: [outcome_le a b] when [b] is [a] or [a] ran out of fuel. *)
Definition outcome_le {A : Type} (a b : outcome A) : Prop := a = OutOfFuel \/ a = b.

#[export] Instance outcome_le_preorder {A} : PreOrder (@outcome_le A).
Proof. split; [by right|]. intros a b c [->|<-] [?| <-]; by (left + right). Qed.

Lemma obind_mono {A B} (a a' : outcome A) (k k' : A -> outcome B) :
  outcome_le a a' -> (forall x, outcome_le (k x) (k' x)) -> outcome_le (obind a k) (obind a' k').
Proof. intros [-> | ->] Hk; [by left|]. destruct a'; simpl; [apply Hk|by right|by right]. Qed.

Lemma outcome_le_done {A} (a b : outcome A) : outcome_le a b -> a <> OutOfFuel -> b = a.
Proof. by intros [->| ->]. Qed.

Lemma ofold_mono {A B} (f f' : A -> B -> outcome A) (l : list B) :
  (forall a x, outcome_le (f a x) (f' a x)) -> forall a, outcome_le (ofold f a l) (ofold f' a l).
Proof.
  intros Hf. induction l as [|x l IH]; intros a; simpl; [by right|].
  apply obind_mono; [apply Hf|]. intros a'. apply IH.
Qed.

(** [ofold] keeps an invariant its body keeps. *)
Lemma ofold_invariant {A B} (P : A -> Prop) (f : A -> B -> outcome A) (l : list B) :
  (forall a x a', x ∈ l -> P a -> f a x = Ret a' -> P a') ->
  forall a a', P a -> ofold f a l = Ret a' -> P a'.
Proof.
  induction l as [|x l IH]; intros Hf a a' Ha; simpl.
  - by intros [= <-].
  - intros (a1 & H1 & H2)%obind_ret. apply (IH ltac:(by intros; eapply Hf; eauto using list_elem_of_further) a1); [|done].
    eapply Hf; eauto using list_elem_of_here.
Qed.

(** ** 64-bit two's-complement integers

    [int64_t] values are the integers in [-2^63, 2^63); arithmetic wraps. *)
Definition INT64_MIN : Z := - 2 ^ 63.
Definition INT64_MAX : Z := 2 ^ 63 - 1.
Definition in_int64 (z : Z) : Prop := (INT64_MIN <= z <= INT64_MAX)%Z.
Definition wrap64 (z : Z) : Z := ((z + 2 ^ 63) mod 2 ^ 64 - 2 ^ 63)%Z.

Lemma wrap64_in_int64 z : in_int64 (wrap64 z).
Proof.
  unfold in_int64, wrap64, INT64_MIN, INT64_MAX.
  pose proof (Z.mod_pos_bound (z + 2 ^ 63) (2 ^ 64)). lia.
Qed.

Lemma wrap64_id z : in_int64 z -> wrap64 z = z.
Proof.
  unfold in_int64, wrap64, INT64_MIN, INT64_MAX. intros H.
  rewrite Z.mod_small; lia.
Qed.

(** Two integers with the same residue modulo [2^64] wrap to the same value. *)
(** The values of [int], and the conversion to it. *)
Definition in_int32 (z : Z) : Prop := (- 2 ^ 31 <= z < 2 ^ 31)%Z.

Definition to_int (z : Z) : Z := ((z + 2 ^ 31) mod 2 ^ 32 - 2 ^ 31)%Z.

Lemma to_int_small z : in_int32 z -> to_int z = z.
Proof. unfold in_int32, to_int. intros Hz. rewrite Z.mod_small; lia. Qed.

Lemma to_int_in_int32 z : in_int32 (to_int z).
Proof. unfold in_int32, to_int. pose proof (Z.mod_pos_bound (z + 2 ^ 31) (2 ^ 32)). lia. Qed.

Lemma wrap64_congr x y : (exists k, x = y + k * 2 ^ 64)%Z -> wrap64 x = wrap64 y.
Proof.
  intros [k ->]. unfold wrap64.
  replace (y + k * 2 ^ 64 + 2 ^ 63)%Z with (y + 2 ^ 63 + k * 2 ^ 64)%Z by lia.
  by rewrite Z_mod_plus_full.
Qed.

Lemma wrap64_residue z : exists k, (wrap64 z = z + k * 2 ^ 64)%Z.
Proof.
  unfold wrap64. pose proof (Z.div_mod (z + 2 ^ 63) (2 ^ 64)) as H.
  exists (- ((z + 2 ^ 63) / 2 ^ 64))%Z. lia.
Qed.

(** An inner wrap-around is absorbed by an outer one. *)
Lemma wrap64_add_l x y : wrap64 (wrap64 x + y) = wrap64 (x + y).
Proof. destruct (wrap64_residue x) as [k ->]. apply wrap64_congr. exists k. lia. Qed.

Lemma wrap64_add_r x y : wrap64 (x + wrap64 y) = wrap64 (x + y).
Proof. destruct (wrap64_residue y) as [k ->]. apply wrap64_congr. exists k. lia. Qed.

Lemma wrap64_sub_l x y : wrap64 (wrap64 x - y) = wrap64 (x - y).
Proof. destruct (wrap64_residue x) as [k ->]. apply wrap64_congr. exists k. lia. Qed.

Lemma wrap64_sub_r x y : wrap64 (x - wrap64 y) = wrap64 (x - y).
Proof. destruct (wrap64_residue y) as [k ->]. apply wrap64_congr. exists (- k)%Z. lia. Qed.

Create Rewrite HintDb wrap64.
#[export] Hint Rewrite wrap64_add_l wrap64_add_r wrap64_sub_l wrap64_sub_r : wrap64.

Lemma wrap64_eq x y : ((x - y) mod 2 ^ 64 = 0)%Z -> wrap64 x = wrap64 y.
Proof.
  intros H. apply wrap64_congr. exists ((x - y) / 2 ^ 64)%Z.
  pose proof (Z.div_mod (x - y) (2 ^ 64)). lia.
Qed.

(** Closes an equation between sums and differences modulo [2^64], however the
    wrap-arounds are nested. *)
Ltac wrap64_solve :=
  apply wrap64_eq;
  repeat match goal with
         | |- context [wrap64 ?z] =>
             let k := fresh "k" in destruct (wrap64_residue z) as [k ->]
         end;
  Z.to_euclidean_division_equations; lia.

(** ** [std::map] with string keys

    The map itself is a [gmap]; iteration visits the keys in increasing
    byte-lexicographic order, the order of [std::less<std::string>]. *)
Definition string_le (a b : string) : Prop := String.leb a b = true.

#[export] Instance string_le_dec : RelDecision string_le.
Proof. intros a b. unfold string_le. apply _. Defined.

Definition key_le {A : Type} (x y : string * A) : Prop := string_le (fst x) (fst y).

#[export] Instance key_le_dec {A} : RelDecision (@key_le A).
Proof. intros x y. unfold key_le. apply _. Defined.

Definition map_in_order {A : Type} (m : gmap string A) : list (string * A) :=
  merge_sort key_le (map_to_list m).

Lemma map_in_order_perm {A} (m : gmap string A) : map_in_order m ≡ₚ map_to_list m.
Proof. apply merge_sort_Permutation. Qed.

Lemma elem_of_map_in_order {A} (m : gmap string A) k v :
  (k, v) ∈ map_in_order m <-> m !! k = Some v.
Proof. by rewrite map_in_order_perm, elem_of_map_to_list. Qed.

(** Is [s] after [k] in iteration order?  Every key is after the start. *)
Definition after_key (k : option string) (s : string) : bool :=
  match k with
  | None => true
  | Some k => String.ltb k s
  end.

(** [m.upper_bound(k)]: the first key after [k] in iteration order, or the first
    key of the map when no key is given. *)
Definition map_next_key {A : Type} (m : gmap string A) (k : option string) : option string :=
  option_map fst (List.find (fun x => after_key k (fst x)) (map_in_order m)).

Lemma string_le_stdpp a b : string_le a b <-> String.le a b.
Proof. unfold string_le, String.le. by rewrite Is_true_true. Qed.

#[export] Instance string_le_trans : Transitive string_le.
Proof. intros a b c. rewrite !string_le_stdpp. apply transitivity. Qed.

#[export] Instance string_le_total : Total string_le.
Proof. intros a b. apply String.leb_total. Qed.

#[export] Instance key_le_trans {A} : Transitive (@key_le A).
Proof. intros x y z. unfold key_le. apply string_le_trans. Qed.

#[export] Instance key_le_total {A} : Total (@key_le A).
Proof. intros x y. apply string_le_total. Qed.

Lemma string_ltb_le a b : String.ltb a b = true <-> ~ string_le b a.
Proof.
  unfold string_le, String.ltb, String.leb. rewrite String.compare_antisym.
  destruct (String.compare b a); simpl; intuition congruence.
Qed.

Lemma string_ltb_irrefl a : String.ltb a a = false.
Proof.
  apply not_true_iff_false. rewrite string_ltb_le. intros H. apply H.
  by destruct (string_le_total a a).
Qed.

Lemma string_ltb_le_trans a b c : String.ltb a b = true -> string_le b c -> String.ltb a c = true.
Proof. rewrite !string_ltb_le. intros H1 H2 H3. apply H1. by etrans. Qed.

Lemma string_le_ltb_eq a b : string_le a b -> String.ltb a b = true \/ a = b.
Proof.
  unfold string_le, String.leb, String.ltb. destruct (String.compare a b) eqn:E; try done; auto.
  right. by apply String.compare_eq_iff.
Qed.

Lemma map_in_order_sorted {A} (m : gmap string A) : StronglySorted key_le (map_in_order m).
Proof. apply StronglySorted_merge_sort; apply _. Qed.

Lemma find_sorted {A} (R : relation A) (f : A -> bool) (l : list A) x :
  StronglySorted R l -> List.find f l = Some x -> forall y, y ∈ l -> f y = true -> x = y \/ R x y.
Proof.
  induction 1 as [|a l Hs IH Hall]; simpl; [done|].
  destruct (f a) eqn:Hfa.
  - intros [= <-] y [->|Hy]%elem_of_cons _; [by left|]. right. by eapply Forall_forall in Hall.
  - intros Hf y [->|Hy]%elem_of_cons Hfy; [congruence|]. by apply IH.
Qed.

Lemma map_next_key_None {A} (m : gmap string A) k s :
  map_next_key m k = None -> is_Some (m !! s) -> after_key k s = false.
Proof.
  unfold map_next_key. destruct (List.find _ _) eqn:Hf; [done|]. intros _ [v Hv].
  by apply (List.find_none _ _ Hf (s, v)), list_elem_of_In, elem_of_map_in_order.
Qed.

Lemma map_next_key_Some {A} (m : gmap string A) k s :
  map_next_key m k = Some s ->
  is_Some (m !! s) /\ after_key k s = true /\
  forall s', is_Some (m !! s') -> after_key k s' = true -> string_le s s'.
Proof.
  unfold map_next_key. destruct (List.find _ _) as [[s0 v]|] eqn:Hf; [|done]. intros [= <-].
  pose proof Hf as [Hin Ha]%List.find_some. simpl in *. split_and!; [|done|].
  - exists v. by apply elem_of_map_in_order, list_elem_of_In.
  - intros s' [v' Hv'] Ha'.
    destruct (find_sorted _ _ _ _ (map_in_order_sorted m) Hf (s', v')) as [[= -> _]|Hle]; [|done| |done].
    + by apply elem_of_map_in_order.
    + by destruct (string_le_total s' s').
Qed.

(** The keys still to visit. *)
Definition keys_after {A : Type} (k : option string) (m : gmap string A) : nat :=
  length (filter (fun s => after_key k s = true) (elements (dom m))).

Lemma keys_after_next {A B} (m : gmap string A) (m' : gmap string B) k s :
  map_next_key m k = Some s -> dom m' ⊆ dom m -> (keys_after (Some s) m' < keys_after k m)%nat.
Proof.
  intros (Hs & Ha & _)%map_next_key_Some Hsub. unfold keys_after.
  assert (s :: filter (fun s' => after_key (Some s) s' = true) (elements (dom m'))
          ⊆+ filter (fun s' => after_key k s' = true) (elements (dom m))) as H.
  { apply NoDup_submseteq.
    - constructor; [|apply NoDup_filter, NoDup_elements].
      rewrite list_elem_of_filter. simpl. rewrite string_ltb_irrefl. by intros [? _].
    - intros x. rewrite elem_of_cons, !list_elem_of_filter, !elem_of_elements.
      intros [->|[Hx Hin]]; [split; [done|by apply elem_of_dom]|]. split; [|set_solver].
      destruct k as [k|]; [|done]. simpl in *. apply (string_ltb_le_trans _ s); [done|].
      rewrite string_ltb_le in Hx. by destruct (string_le_total s x). }
  by apply submseteq_length in H.
Qed.
