(* ===== verification/Double.v ===== *)
(** * IEEE-754 binary64 arithmetic, as C++ [double] uses it

    A [double] is a [spec_float] of the Standard Library (no NaN payload) and the
    operators are its correctly rounded binary64 operations (53 bits of mantissa,
    exponent limit 1024, round to nearest even).  Decimal literals are quotients of
    exact integers: division is correctly rounded, so [1.0 / 10000.0] is the double
    the compiler stores for [0.0001].

    The file also models what the program uses of [<cmath>] and [<algorithm>] on
    doubles ([std::floor], [std::round], [std::abs], [std::min], [std::max]), the
    conversions to and from [int64_t], and the constants of
    [src/utils/constants.hpp]. *)
From Stdlib Require Import ZArith Lia SpecFloat.
From stdpp Require Import base list gmap strings.
From S2P Require Import Prelude.
Open Scope Z_scope.

Abbreviation double := spec_float.

(** ** Operators *)
Definition dadd (x y : double) : double := SFadd 53 1024 x y.
Definition dsub (x y : double) : double := SFsub 53 1024 x y.
Definition dmul (x y : double) : double := SFmul 53 1024 x y.
Definition ddiv (x y : double) : double := SFdiv 53 1024 x y.
Definition dneg (x : double) : double := SFopp x.
Definition dabs (x : double) : double := SFabs x.
Definition dltb (x y : double) : bool := SFltb x y.
Definition dleb (x y : double) : bool := SFleb x y.
Definition deqb (x y : double) : bool := SFeqb x y.

(** [std::min] and [std::max]: both return their first argument when the
    comparison is false, in particular when an operand is a NaN. *)
Definition dmin (x y : double) : double := if dltb y x then y else x.
Definition dmax (x y : double) : double := if dltb x y then y else x.

Definition d_of_Z (z : Z) : double := binary_normalize 53 1024 z 0 false.

Definition dzero : double := S754_zero false.
Definition d_one : double := S754_finite false 4503599627370496 (-52).

Definition is_finite (x : double) : bool :=
  match x with S754_zero _ | S754_finite _ _ _ => true | _ => false end.
Definition is_nan (x : double) : bool :=
  match x with S754_nan => true | _ => false end.

(** [std::floor] and [std::round] (halves away from zero).  A finite double with a
    non-negative exponent is an integer and both return it. *)
Definition dfloor (x : double) : double :=
  match x with
  | S754_finite s m e =>
      if Z.leb 0 e then x
      else binary_normalize 53 1024 (Z.div (cond_Zopp s (Zpos m)) (2 ^ (- e))) 0 s
  | _ => x
  end.

Definition dround (x : double) : double :=
  match x with
  | S754_finite s m e =>
      if Z.leb 0 e then x
      else binary_normalize 53 1024
             (cond_Zopp s (Z.div (Zpos m + 2 ^ (- e - 1)) (2 ^ (- e)))) 0 s
  | _ => x
  end.

(** [static_cast<int64_t>]: truncation.  The language leaves a value outside the
    range undefined; the model gives it the value the x86-64 conversion does. *)
Definition dtrunc (x : double) : option Z :=
  match x with
  | S754_zero _ => Some 0
  | S754_finite s m e =>
      Some (cond_Zopp s (if Z.leb 0 e then Zpos m * 2 ^ e else Z.div (Zpos m) (2 ^ (- e))))
  | _ => None
  end.

Definition d_to_int64 (x : double) : Z :=
  match dtrunc x with
  | Some z => if (INT64_MIN <=? z) && (z <=? INT64_MAX) then z else INT64_MIN
  | None => INT64_MIN
  end.

(** ** [src/utils/constants.hpp] *)
Definition BASE_10 : Z := 10.
Definition ASCII_LOWERCASE_BIT : Z := 32.
Definition ONE_DAY_S : Z := 60 * 60 * 24.
Definition MONEY_SCALE : nat := 6.
Definition MONEY_BASE : Z := 10.
Definition MONEY_SCALED_BASE : Z := 1000000.
Definition NANOSECONDS_PER_MILLISECOND : Z := 1000000.
Definition NANOSECONDS_PER_SECOND : Z := 1000000000.
Definition STOP_LOSS : string := "stop_loss".
Definition TAKE_PROFIT : string := "take_profit".
Definition LIMIT : string := "limit".
Definition MARKET : string := "market".
Definition BUY : string := "buy".
Definition SELL : string := "sell".
Definition DEFAULT_POSITION_SIZE_VALUE : double := ddiv (d_of_Z 1) (d_of_Z 100).
Definition EPSILON : double := ddiv (d_of_Z 1) (d_of_Z 10000).

(** ** The order of doubles

    Comparison is the lexicographic order of a sign class, an exponent and a
    mantissa, so it is a total preorder on the values that are not NaN (the two
    zeros are equal). *)
Definition dkey (x : double) : Z * Z * Z :=
  match x with
  | S754_nan => (0, 0, 0)
  | S754_zero _ => (0, 0, 0)
  | S754_infinity s => (if s then -2 else 2, 0, 0)
  | S754_finite s m e => if s then (-1, - e, Z.neg m) else (1, e, Zpos m)
  end.

Definition klt (a b : Z * Z * Z) : Prop :=
  let '(a1, a2, a3) := a in
  let '(b1, b2, b3) := b in
  a1 < b1 \/ a1 = b1 /\ (a2 < b2 \/ a2 = b2 /\ a3 < b3).

Lemma dltb_key x y :
  dltb x y = true <-> is_nan x = false /\ is_nan y = false /\ klt (dkey x) (dkey y).
Proof.
  unfold dltb, SFltb, klt.
  destruct x as [[]|[]| |[] m e], y as [[]|[]| |[] m' e']; simpl;
    try (split; [discriminate|]; lia); try (split; [|reflexivity]; lia).
  all: destruct (Z.compare_spec e e'); subst; simpl;
    try (split; [discriminate|]; lia); try (split; [|reflexivity]; lia).
  all: change (Pos.compare_cont Eq m m') with (Pos.compare m m');
    destruct (Pos.compare_spec m m'); subst; simpl; split; intros; try discriminate; try done; lia.
Qed.

Lemma dleb_key x y :
  dleb x y = true <-> is_nan x = false /\ is_nan y = false /\ ~ klt (dkey y) (dkey x).
Proof.
  unfold dleb, SFleb, klt.
  destruct x as [[]|[]| |[] m e], y as [[]|[]| |[] m' e']; simpl;
    try (split; [discriminate|]; lia); try (split; [|reflexivity]; lia).
  all: destruct (Z.compare_spec e e'); subst; simpl;
    try (split; [discriminate|]; lia); try (split; [|reflexivity]; lia).
  all: change (Pos.compare_cont Eq m m') with (Pos.compare m m');
    destruct (Pos.compare_spec m m'); subst; simpl; split; intros; try discriminate; try done; lia.
Qed.

(** Turns hypotheses and goals about [dltb] and [dleb] into facts about keys that
    [lia] decides. *)
Ltac double_order :=
  repeat match goal with
         | H : dltb _ _ = true |- _ => apply dltb_key in H
         | H : dleb _ _ = true |- _ => apply dleb_key in H
         | H : dltb ?x ?y = false |- _ =>
             let H' := fresh in
             assert (~ dltb x y = true) as H' by congruence; clear H; rewrite dltb_key in H'
         | H : dleb ?x ?y = false |- _ =>
             let H' := fresh in
             assert (~ dleb x y = true) as H' by congruence; clear H; rewrite dleb_key in H'
         end;
  try match goal with
      | |- dltb ?x ?y = true => apply dltb_key
      | |- dleb ?x ?y = true => apply dleb_key
      | |- dltb ?x ?y = false => apply not_true_is_false; rewrite dltb_key
      | |- dleb ?x ?y = false => apply not_true_is_false; rewrite dleb_key
      end;
  unfold klt in *;
  repeat match goal with
         | |- context [dkey ?x] => destruct (dkey x) as [[? ?] ?]
         | _ : context [dkey ?x] |- _ => destruct (dkey x) as [[? ?] ?]
         end;
  intuition (congruence || lia).

Lemma dltb_irrefl x : dltb x x = false.
Proof. double_order. Qed.

Lemma dltb_trans x y z : dltb x y = true -> dltb y z = true -> dltb x z = true.
Proof. intros. double_order. Qed.

Lemma dleb_trans x y z : dleb x y = true -> dleb y z = true -> dleb x z = true.
Proof. intros. double_order. Qed.

Lemma dleb_dltb_trans x y z : dleb x y = true -> dltb y z = true -> dltb x z = true.
Proof. intros. double_order. Qed.

Lemma dltb_dleb x y : dltb x y = true -> dleb x y = true.
Proof. intros. double_order. Qed.

Lemma dleb_not_dltb x y : dleb x y = true -> dltb y x = false.
Proof. intros. double_order. Qed.

Lemma dltb_not_dleb x y : dltb x y = true -> dleb y x = false.
Proof. intros. double_order. Qed.

Lemma not_dleb_dltb x y :
  is_nan x = false -> is_nan y = false -> dleb x y = false -> dltb y x = true.
Proof. intros. double_order. Qed.

Lemma not_dltb_dleb x y :
  is_nan x = false -> is_nan y = false -> dltb x y = false -> dleb y x = true.
Proof. intros. double_order. Qed.

Lemma dltb_not_nan x y : dltb x y = true -> is_nan x = false /\ is_nan y = false.
Proof. intros H%dltb_key. tauto. Qed.

Lemma dleb_not_nan x y : dleb x y = true -> is_nan x = false /\ is_nan y = false.
Proof. intros H%dleb_key. tauto. Qed.

Lemma is_finite_not_nan x : is_finite x = true -> is_nan x = false.
Proof. by destruct x. Qed.

Create HintDb double.
#[export] Hint Resolve dltb_irrefl dltb_trans dleb_trans dltb_dleb dleb_not_dltb
  is_finite_not_nan : double.

(** [std::min] and [std::max] bound both arguments when neither is a NaN. *)
Lemma dmin_le_l x y : is_nan x = false -> is_nan y = false -> dleb (dmin x y) x = true.
Proof. unfold dmin. intros. destruct (dltb y x) eqn:?; double_order. Qed.

Lemma dmin_le_r x y : is_nan x = false -> is_nan y = false -> dleb (dmin x y) y = true.
Proof. unfold dmin. intros. destruct (dltb y x) eqn:?; double_order. Qed.

Lemma dmin_cases x y : dmin x y = x \/ dmin x y = y.
Proof. unfold dmin. destruct (dltb y x); auto. Qed.

Lemma dmax_cases x y : dmax x y = x \/ dmax x y = y.
Proof. unfold dmax. destruct (dltb x y); auto. Qed.

(** ** Operations that are exact *)
Lemma dsub_diag x : is_finite x = true -> dsub x x = dzero.
Proof.
  destruct x as [[]| | |s m e]; try discriminate; intros _; [done|done|].
  unfold dsub, SFsub. by rewrite Z.sub_diag.
Qed.

Lemma dadd_0_l x : is_nan x = false -> deqb x dzero = false -> dadd dzero x = x.
Proof. by destruct x as [[]|[]| |[] m e]. Qed.

Lemma dsub_0_r x : dsub x dzero = x \/ x = S754_zero true.
Proof. destruct x as [[]|[]| |[] m e]; auto. Qed.

(** A non-zero finite double divided by itself is exactly [1.0]. *)
Lemma ddiv_diag s m e : ddiv (S754_finite s m e) (S754_finite s m e) = d_one.
Proof.
  unfold ddiv, SFdiv. rewrite xorb_nilpotent.
  assert (SFdiv_core_binary 53 1024 (Zpos m) e (Zpos m) e = (2 ^ 53, -53, loc_Exact)) as ->.
  { unfold SFdiv_core_binary.
    rewrite !Z.sub_diag.
    change (Z.min (fexp 53 1024 0) 0) with (-53). change (0 - -53) with 53. cbv iota.
    assert (Z.div_eucl (Z.shiftl (Zpos m) 53) (Zpos m) = (2 ^ 53, 0)) as ->.
    { rewrite Z.shiftl_mul_pow2 by lia.
      pose proof (Z.div_mul (2 ^ 53) (Zpos m)) as Hq. pose proof (Z.mod_mul (2 ^ 53) (Zpos m)) as Hr.
      rewrite Z.mul_comm in Hq, Hr. unfold Z.div, Z.modulo in *.
      destruct (Z.div_eucl _ _). f_equal; [apply Hq | apply Hr]; done. }
    unfold new_location, new_location_even, new_location_odd. by destruct (Z.even _). }
  vm_compute. reflexivity.
Qed.

(** *** Integers below [2^53] convert without error *)
Lemma digits2_pos_bounds p : 2 ^ (Zpos (digits2_pos p) - 1) <= Zpos p < 2 ^ Zpos (digits2_pos p).
Proof.
  induction p as [p IH|p IH|]; simpl digits2_pos; [| |done].
  all: rewrite Pos2Z.inj_succ; replace (Z.succ (Zpos (digits2_pos p)) - 1) with (Zpos (digits2_pos p)) by lia.
  all: replace (2 ^ Z.succ (Zpos (digits2_pos p))) with (2 * 2 ^ Zpos (digits2_pos p)) by (rewrite Z.pow_succ_r; lia).
  all: assert (2 ^ Zpos (digits2_pos p) = 2 * 2 ^ (Zpos (digits2_pos p) - 1))
         by (rewrite <- Z.pow_succ_r by lia; f_equal; lia); lia.
Qed.

Lemma digits2_pos_unique p k : 2 ^ k <= Zpos p < 2 ^ (k + 1) -> 0 <= k -> Zpos (digits2_pos p) = k + 1.
Proof.
  intros [H1 H2] Hk. pose proof (digits2_pos_bounds p) as [H3 H4].
  assert (Zpos (digits2_pos p) - 1 < k + 1) by (apply (Z.pow_lt_mono_r_iff 2); lia).
  assert (k < Zpos (digits2_pos p)) by (apply (Z.pow_lt_mono_r_iff 2); lia).
  lia.
Qed.

Lemma shift_pos_mul m d : Zpos (Pos.iter xO m d) = Zpos m * 2 ^ Zpos d.
Proof.
  induction d as [|d IH] using Pos.peano_ind; [simpl; lia|].
  rewrite Pos.iter_succ, Pos2Z.inj_succ, Z.pow_succ_r by lia.
  change (Zpos (Pos.iter xO m d)~0) with (2 * Zpos (Pos.iter xO m d)). rewrite IH. lia.
Qed.

(** Rounding leaves a 53-bit mantissa with an exponent in range alone. *)
Lemma round_aux_canonical s m e :
  Zpos (digits2_pos m) = 53 -> -1074 <= e <= 971 ->
  binary_round_aux 53 1024 s (Zpos m) e loc_Exact = S754_finite s m e.
Proof.
  intros Hd He. unfold binary_round_aux, shr_fexp, Zdigits2. rewrite Hd.
  assert (fexp 53 1024 (53 + e) - e = 0) as -> by (unfold fexp, emin; lia).
  simpl. rewrite Hd.
  assert (fexp 53 1024 (53 + e) - e = 0) as -> by (unfold fexp, emin; lia).
  simpl. change (1024 - 53) with 971. by assert ((e <=? 971) = true) as -> by lia.
Qed.

Lemma shl_align_53 m :
  Zpos (digits2_pos m) <= 53 ->
  exists m' e', shl_align m 0 (fexp 53 1024 (Zpos (digits2_pos m) + 0)) = (m', e') /\
    Zpos (digits2_pos m') = 53 /\ -52 <= e' <= 0 /\ Zpos m' = Zpos m * 2 ^ (- e').
Proof.
  intros Hd. unfold shl_align. pose proof (digits2_pos_bounds m) as [Hb1 Hb2].
  assert (fexp 53 1024 (Zpos (digits2_pos m) + 0) - 0 = Zpos (digits2_pos m) - 53) as ->
    by (unfold fexp, emin; lia).
  destruct (Zpos (digits2_pos m) - 53) as [|p|p] eqn:E; [|lia|].
  - exists m, 0. split_and!; try done; lia.
  - assert (fexp 53 1024 (Zpos (digits2_pos m) + 0) = Zpos (digits2_pos m) - 53) as ->
      by (unfold fexp, emin; lia).
    rewrite E.
    eexists _, _. split; [done|]. rewrite shift_pos_mul. split; [|split; [lia|done]].
    change 53 with (52 + 1). apply digits2_pos_unique; [|lia]. rewrite shift_pos_mul.
    replace 52 with (Zpos (digits2_pos m) - 1 + Zpos p) by lia.
    replace (Zpos (digits2_pos m) - 1 + Zpos p + 1) with (Zpos (digits2_pos m) + Zpos p) by lia.
    rewrite !Z.pow_add_r by lia. split; [apply Z.mul_le_mono_nonneg_r|apply Z.mul_lt_mono_pos_r]; lia.
Qed.

Lemma binary_round_small s m :
  Zpos (digits2_pos m) <= 53 ->
  exists m' e', binary_round 53 1024 s m 0 = S754_finite s m' e' /\
    Zpos (digits2_pos m') = 53 /\ -52 <= e' <= 0 /\ Zpos m' = Zpos m * 2 ^ (- e').
Proof.
  intros Hd. destruct (shl_align_53 m Hd) as (m' & e' & E & H1 & H2 & H3).
  exists m', e'. unfold binary_round. rewrite E. rewrite round_aux_canonical by lia. done.
Qed.

Lemma small_digits p : Zpos p < 2 ^ 53 -> Zpos (digits2_pos p) <= 53.
Proof.
  intros H. pose proof (digits2_pos_bounds p) as [H1 _].
  assert (Zpos (digits2_pos p) - 1 < 53) by (apply (Z.pow_lt_mono_r_iff 2); lia). lia.
Qed.

(** The shape of a non-zero integer below [2^53] as a double. *)
Lemma d_of_Z_small z :
  z <> 0 -> Z.abs z < 2 ^ 53 ->
  exists m e, d_of_Z z = S754_finite (z <? 0) m e /\
    Zpos (digits2_pos m) = 53 /\ -52 <= e <= 0 /\ Zpos m = Z.abs z * 2 ^ (- e).
Proof.
  intros Hz Hb. unfold d_of_Z, binary_normalize.
  destruct z as [|p|p]; [done| |]; apply binary_round_small, small_digits; simpl in Hb; lia.
Qed.

(** Multiplying a canonical double by [1.0] returns it. *)
Lemma dmul_one_r s m e :
  Zpos (digits2_pos m) = 53 -> -1000 <= e <= 900 ->
  dmul (S754_finite s m e) d_one = S754_finite s m e.
Proof.
  intros Hd He. unfold dmul, SFmul, d_one. rewrite xorb_false_r.
  assert ((m * 4503599627370496)%positive = Pos.iter xO m 52) as ->.
  { apply (inj Zpos). rewrite shift_pos_mul. lia. }
  unfold binary_round_aux. unfold shr_fexp at 1. unfold Zdigits2.
  assert (Zpos (digits2_pos (Pos.iter xO m 52)) = 105) as ->.
  { pose proof (digits2_pos_bounds m) as Hb. rewrite Hd in Hb.
    change 105 with (104 + 1). apply digits2_pos_unique; [|lia]. rewrite shift_pos_mul. lia. }
  assert (fexp 53 1024 (105 + (e + -52)) - (e + -52) = 52) as -> by (unfold fexp, emin; lia).
  cbn [shr shr_record_of_loc].
  assert (SpecFloat.iter_pos shr_1 52 {| shr_m := Zpos (Pos.iter xO m 52); shr_r := false; shr_s := false |}
          = {| shr_m := Zpos m; shr_r := false; shr_s := false |}) as -> by reflexivity.
  replace (e + -52 + 52) with e by lia.
  cbn [loc_of_shr_record round_nearest_even shr_m].
  pose proof (round_aux_canonical s m e Hd ltac:(lia)) as H.
  unfold binary_round_aux in H. unfold shr_fexp at 1 in H. unfold Zdigits2 at 1 in H. rewrite Hd in H.
  assert (fexp 53 1024 (53 + e) - e = 0) as E by (unfold fexp, emin; lia).
  rewrite E in H. exact H.
Qed.

Lemma div_round_exact a k : 0 < k -> (a * 2 ^ k + 2 ^ (k - 1)) / 2 ^ k = a.
Proof.
  intros Hk. rewrite Z.div_add_l by lia. rewrite Z.div_small; [lia|].
  split; [lia|]. apply Z.pow_lt_mono_r; lia.
Qed.

(** [std::round] and the conversion to [int64_t] give back an integer below [2^53]. *)
Lemma round_trip_int z : Z.abs z < 2 ^ 53 -> d_to_int64 (dround (d_of_Z z)) = z.
Proof.
  intros Hb. destruct (decide (z = 0)) as [->|Hz]; [done|].
  destruct (d_of_Z_small z Hz Hb) as (m & e & E & Hd & He & Hm). rewrite E.
  assert (dround (S754_finite (z <? 0) m e) = S754_finite (z <? 0) m e) as ->.
  { unfold dround. destruct (0 <=? e) eqn:He0; [done|].
    rewrite Hm. replace (- e - 1) with ((- e) - 1) by lia. rewrite div_round_exact by lia.
    assert (cond_Zopp (z <? 0) (Z.abs z) = z) as -> by (unfold cond_Zopp; destruct (z <? 0) eqn:?; lia).
    rewrite <- E. unfold d_of_Z. by destruct z. }
  unfold d_to_int64, dtrunc.
  assert ((if 0 <=? e then Zpos m * 2 ^ e else Zpos m / 2 ^ (- e)) = Z.abs z) as ->.
  { rewrite Hm. destruct (0 <=? e) eqn:He0.
    - replace e with 0 by lia. simpl. lia.
    - rewrite Z.div_mul; lia. }
  assert (cond_Zopp (z <? 0) (Z.abs z) = z) as -> by (unfold cond_Zopp; destruct (z <? 0) eqn:?; lia).
  unfold INT64_MIN, INT64_MAX. by assert ((- 2 ^ 63 <=? z) && (z <=? 2 ^ 63 - 1) = true) as -> by lia.
Qed.

Lemma mul_one_int z : Z.abs z < 2 ^ 53 -> dmul (d_of_Z z) d_one = d_of_Z z.
Proof.
  intros Hb. destruct (decide (z = 0)) as [->|Hz]; [done|].
  destruct (d_of_Z_small z Hz Hb) as (m & e & E & Hd & He & Hm). rewrite E.
  apply dmul_one_r; lia.
Qed.
