(* ===== verification/CppString.v ===== *)
(** * The parts of [std::string] and [<cstdlib>] the program uses

    Strings are Rocq strings of bytes.  [stoll] and [strtol] share one scanner:
    leading white space, an optional sign, then at least one decimal digit. *)
From Stdlib Require Import ZArith Lia Ascii String.
From stdpp Require Import base list strings.
From S2P Require Import Prelude.
Open Scope Z_scope.

(** [std::isspace] in the "C" locale. *)
Definition is_space (c : ascii) : bool :=
  let n := nat_of_ascii c in
  (Nat.eqb n 32 || (Nat.leb 9 n && Nat.leb n 13))%bool.

(** [std::tolower] in the "C" locale. *)
Definition to_lower (c : ascii) : ascii :=
  let n := nat_of_ascii c in
  if (Nat.leb 65 n && Nat.leb n 90)%bool then ascii_of_nat (n + 32) else c.

(** [s.find(c)]: [None] is [npos]. *)
Fixpoint find_char (c : ascii) (s : string) : option nat :=
  match s with
  | EmptyString => None
  | String d s' => if Ascii.eqb c d then Some 0%nat else option_map S (find_char c s')
  end.

Fixpoint str_drop (n : nat) (s : string) : string :=
  match n, s with
  | S n', String _ s' => str_drop n' s'
  | _, _ => s
  end.

Fixpoint str_take (n : nat) (s : string) : string :=
  match n, s with
  | S n', String c s' => String c (str_take n' s')
  | _, _ => EmptyString
  end.

Fixpoint str_repeat (n : nat) (c : ascii) : string :=
  match n with
  | O => EmptyString
  | S n' => String c (str_repeat n' c)
  end.

(** [s.append(n, c)] with a 64-bit [size_t]: the call throws when the result would
    exceed [max_size()]. *)
Definition STRING_MAX_SIZE : Z := 2 ^ 63 - 1.

Definition str_append_n (s : string) (n : Z) (c : ascii) : outcome string :=
  let n := n mod 2 ^ 64 in
  if STRING_MAX_SIZE <? Z.of_nat (String.length s) + n
  then Throw (length_error "basic_string::append")
  else Ret (String.append s (str_repeat (Z.to_nat n) c)).

(** ** Decimal scanning *)
Definition digit_val (c : ascii) : option Z :=
  let n := nat_of_ascii c in
  if (Nat.leb 48 n && Nat.leb n 57)%bool then Some (Z.of_nat (n - 48)) else None.

Fixpoint skip_space (s : string) : string :=
  match s with
  | String c s' => if is_space c then skip_space s' else s
  | EmptyString => s
  end.

Fixpoint scan_digits (s : string) (acc : Z) : Z * string :=
  match s with
  | String c s' =>
      match digit_val c with
      | Some d => scan_digits s' (acc * 10 + d)
      | None => (acc, s)
      end
  | EmptyString => (acc, s)
  end.

Definition starts_with_digit (s : string) : bool :=
  match s with
  | String c _ => match digit_val c with Some _ => true | None => false end
  | EmptyString => false
  end.

(** The value scanned and the rest of the string; [None] when there is no digit. *)
Definition scan_integer (s : string) : option (Z * string) :=
  let s := skip_space s in
  let '(neg, s) :=
    match s with
    | String c s' =>
        if Ascii.eqb c "-" then (true, s')
        else if Ascii.eqb c "+" then (false, s') else (false, s)
    | EmptyString => (false, s)
    end in
  if starts_with_digit s then
    let '(v, rest) := scan_digits s 0 in
    Some (if (neg : bool) then - v else v, rest)
  else None.

(** [std::stoll(s)] *)
Definition stoll (s : string) : outcome Z :=
  match scan_integer s with
  | None => Throw (invalid_argument "stoll")
  | Some (v, _) =>
      if (INT64_MIN <=? v) && (v <=? INT64_MAX) then Ret v else Throw (out_of_range "stoll")
  end.

(** [std::strtol(s, &end, 10)]: the value, saturated, and what [end] points at. *)
Definition strtol (s : string) : Z * string :=
  match scan_integer s with
  | None => (0, s)
  | Some (v, rest) => (Z.max INT64_MIN (Z.min INT64_MAX v), rest)
  end.

(** ** Digit strings *)
Fixpoint all_digits (s : string) : bool :=
  match s with
  | EmptyString => true
  | String c s' => match digit_val c with Some _ => all_digits s' | None => false end
  end.

(** The number a digit string denotes. *)
Definition digits_value (s : string) : Z := fst (scan_digits s 0).

Lemma scan_digits_all s acc :
  all_digits s = true -> scan_digits s acc = (fst (scan_digits s acc), EmptyString).
Proof.
  revert acc. induction s as [|c s IH]; intros acc; simpl; [done|].
  destruct (digit_val c); [apply IH|discriminate].
Qed.

Lemma digit_not_space c d : digit_val c = Some d -> is_space c = false.
Proof.
  unfold digit_val, is_space. generalize (nat_of_ascii c). intros n.
  destruct (Nat.leb_spec 48 n); [|done]. intros _.
  destruct (Nat.eqb_spec n 32), (Nat.leb_spec 9 n), (Nat.leb_spec n 13); simpl; lia || done.
Qed.

Lemma digit_not_sign c d :
  digit_val c = Some d -> Ascii.eqb c "-" = false /\ Ascii.eqb c "+" = false.
Proof.
  intros H. split; apply not_true_is_false; rewrite Ascii.eqb_eq; intros ->; discriminate H.
Qed.

(** A non-empty digit string scans to its value, whatever its length. *)
Lemma scan_integer_digits s :
  s <> EmptyString -> all_digits s = true -> scan_integer s = Some (digits_value s, EmptyString).
Proof.
  intros Hne Hall. destruct s as [|c s]; [done|].
  assert (exists d, digit_val c = Some d) as [d Hd].
  { simpl in Hall. destruct (digit_val c); [eauto|done]. }
  unfold scan_integer, skip_space. rewrite (digit_not_space _ _ Hd).
  destruct (digit_not_sign _ _ Hd) as [-> ->]. simpl starts_with_digit. rewrite Hd.
  rewrite (scan_digits_all _ _ Hall). done.
Qed.

Lemma stoll_digits s :
  s <> EmptyString -> all_digits s = true -> digits_value s <= INT64_MAX ->
  0 <= digits_value s -> stoll s = Ret (digits_value s).
Proof.
  intros Hne Hall Hmax Hmin. unfold stoll. rewrite scan_integer_digits by done.
  assert ((INT64_MIN <=? digits_value s) && (digits_value s <=? INT64_MAX) = true) as -> by
    (unfold INT64_MIN in *; lia). done.
Qed.

Lemma scan_digits_mono s acc : 0 <= acc -> acc <= fst (scan_digits s acc).
Proof.
  revert acc. induction s as [|c s IH]; intros acc Hacc; simpl; [lia|].
  destruct (digit_val c) as [d|] eqn:Hd; simpl; [|lia].
  assert (0 <= d). { unfold digit_val in Hd. destruct (_ && _)%bool; [|done]. injection Hd. lia. }
  specialize (IH (acc * 10 + d)). lia.
Qed.

Lemma digits_value_nonneg s : 0 <= digits_value s.
Proof. apply scan_digits_mono. lia. Qed.

Lemma str_drop_app s t : str_drop (String.length s) (String.append s t) = t.
Proof. induction s as [|c s IH]; simpl; [by destruct t|exact IH]. Qed.

Lemma str_take_app s t : str_take (String.length s) (String.append s t) = s.
Proof. induction s as [|c s IH]; simpl; [done|by rewrite IH]. Qed.

Lemma find_char_app_first c s t :
  find_char c s = None -> find_char c (String.append s (String c t)) = Some (String.length s).
Proof.
  induction s as [|d s IH]; simpl.
  - by rewrite Ascii.eqb_refl.
  - destruct (Ascii.eqb c d); [discriminate|]. destruct (find_char c s); [discriminate|].
    intros _. by rewrite IH.
Qed.

Lemma all_digits_no_dot s : all_digits s = true -> find_char "." s = None.
Proof.
  induction s as [|c s IH]; cbn [all_digits find_char]; [done|].
  destruct (digit_val c) eqn:Hd; [|discriminate]. intros Hs. rewrite (IH Hs).
  destruct (Ascii.eqb "." c) eqn:E; [|done]. apply Ascii.eqb_eq in E. by subst c.
Qed.

Lemma all_digits_take n s : all_digits s = true -> all_digits (str_take n s) = true.
Proof.
  revert s. induction n as [|n IH]; intros [|c s]; simpl; try done.
  destruct (digit_val c); [apply IH|discriminate].
Qed.

#[local] Arguments String.append !_ _ /.

(** ** Searching for a class of characters

    [std::find_if] from the front and from the back; [None] is "not found". *)
Fixpoint find_if (f : ascii -> bool) (s : string) : option nat :=
  match s with
  | EmptyString => None
  | String c s' => if f c then Some 0%nat else option_map S (find_if f s')
  end.

Fixpoint find_last_if (f : ascii -> bool) (s : string) : option nat :=
  match s with
  | EmptyString => None
  | String c s' =>
      match find_last_if f s' with
      | Some n => Some (S n)
      | None => if f c then Some 0%nat else None
      end
  end.

Fixpoint all_chars (f : ascii -> bool) (s : string) : bool :=
  match s with
  | EmptyString => true
  | String c s' => f c && all_chars f s'
  end.

(** A string that starts and ends with a character of the class. *)
Definition first_is (f : ascii -> bool) (s : string) : bool :=
  match s with String c _ => f c | EmptyString => false end.

Fixpoint last_is (f : ascii -> bool) (s : string) : bool :=
  match s with
  | EmptyString => false
  | String c s' => match s' with EmptyString => f c | _ => last_is f s' end
  end.

Definition framed (f : ascii -> bool) (s : string) : bool := first_is f s && last_is f s.

Lemma str_length_app s t : String.length (s +:+ t) = (String.length s + String.length t)%nat.
Proof. induction s as [|c s IH]; simpl; [done|by rewrite IH]. Qed.

Lemma str_app_assoc s t u : (s +:+ t) +:+ u = s +:+ (t +:+ u).
Proof. induction s as [|c s IH]; simpl; [done|by rewrite IH]. Qed.

Lemma str_app_nil_r s : s +:+ "" = s.
Proof. induction s as [|c s IH]; simpl; [done|by rewrite IH]. Qed.

Lemma str_app_inj_l s t u : s +:+ t = s +:+ u -> t = u.
Proof. induction s as [|c s IH]; simpl; [done|]. intros [= H]. by apply IH. Qed.

Section FindIf.
Context (f : ascii -> bool).
#[local] Abbreviation outside := (all_chars (fun c => negb (f c))).

Lemma find_if_none s : find_if f s = None <-> outside s = true.
Proof.
  induction s as [|c s IH]; simpl; [done|]. destruct (f c); simpl; [done|].
  rewrite <- IH. by destruct (find_if f s).
Qed.

Lemma find_last_if_none s : find_last_if f s = None <-> outside s = true.
Proof.
  induction s as [|c s IH]; simpl; [done|]. destruct (find_last_if f s); simpl.
  - split; [done|]. intros [_ H]%andb_true_iff. by apply IH in H.
  - rewrite andb_true_iff, <- IH. destruct (f c); simpl; intuition congruence.
Qed.

Lemma find_if_skip l s :
  outside l = true -> find_if f (l +:+ s) = option_map (Nat.add (String.length l)) (find_if f s).
Proof.
  induction l as [|c l IH]; simpl; [by destruct (find_if f s)|].
  destruct (f c); simpl; [done|]. intros Hl. rewrite (IH Hl). by destruct (find_if f s).
Qed.

Lemma find_if_first s : first_is f s = true -> find_if f s = Some 0%nat.
Proof. destruct s as [|c s]; simpl; [done|]. by intros ->. Qed.

Lemma find_last_if_skip s r : outside r = true -> find_last_if f (s +:+ r) = find_last_if f s.
Proof.
  intros Hr. induction s as [|c s IH]; simpl; [by apply find_last_if_none|]. by rewrite IH.
Qed.

Lemma find_last_if_last s : last_is f s = true -> find_last_if f s = Some (String.length s - 1)%nat.
Proof.
  induction s as [|c s IH]; simpl; [done|]. destruct s as [|d s]; simpl in *; [by intros ->|].
  intros Hl. rewrite (IH Hl). f_equal. lia.
Qed.

(** Every string is a framed middle between two outer parts, or has no middle. *)
Lemma framed_split s :
  outside s = true \/
  exists l m r, s = l +:+ m +:+ r /\ outside l = true /\ outside r = true /\ framed f m = true.
Proof.
  unfold framed. induction s as [|c s IH]; simpl; [by left|]. destruct (f c) eqn:Hc; simpl.
  - right. destruct IH as [Hs|(l & m & r & -> & Hl & Hr & [_ Hm]%andb_true_iff)].
    + exists "", (String c ""), s. simpl. by rewrite Hc.
    + exists "", (String c (l +:+ m)), r. simpl. rewrite str_app_assoc, Hc. split_and!; try done.
      assert (last_is f (l +:+ m) = true) as Hlast.
      { clear Hl. induction l as [|d l IHl]; simpl; [done|]. destruct (l +:+ m) eqn:E; [|done].
        by destruct l, m. }
      simpl. by destruct (l +:+ m).
  - destruct IH as [Hs|(l & m & r & -> & Hl & Hr & Hm)]; [by left|]. right.
    exists (String c l), m, r. simpl. by rewrite Hc.
Qed.
End FindIf.

Lemma str_take_length s : str_take (String.length s) s = s.
Proof. induction s as [|c s IH]; simpl; [done|by rewrite IH]. Qed.

Lemma str_take_drop n s : str_take n s +:+ str_drop n s = s.
Proof. revert s. induction n as [|n IH]; intros [|c s]; simpl; try done. by rewrite IH. Qed.

Lemma all_chars_app f s t : all_chars f (s +:+ t) = all_chars f s && all_chars f t.
Proof. induction s as [|c s IH]; simpl; [done|]. by rewrite IH, andb_assoc. Qed.

Lemma all_chars_find_char (f : ascii -> bool) c s :
  f c = false -> all_chars f s = true -> find_char c s = None.
Proof.
  intros Hc. induction s as [|d s IH]; simpl; [done|]. intros [Hd Hs]%andb_true_iff.
  destruct (Ascii.eqb_spec c d) as [->|]; [congruence|]. by rewrite IH.
Qed.
