(* ===== verification/CppFormat.v ===== *)
(** * Numbers as text: [std::to_string], [operator<<] and [std::strtol]

    Integers print in decimal without padding, and scan back to themselves whatever text
    follows, as long as it does not start with a digit.  A [double] prints as [%f] does:
    its exact value rounded to six decimals, ties to even. *)
From Stdlib Require Import ZArith Lia Ascii String SpecFloat.
From Stdlib Require Import Decimal DecimalString DecimalPos DecimalZ.
From stdpp Require Import base tactics list strings.
From S2P Require Import Prelude Double CppString.
Open Scope string_scope.
Open Scope Z_scope.

#[local] Arguments String.append !_ _ /.

Definition to_string (z : Z) : string := NilZero.string_of_int (Z.to_int z).

(** [std::to_string(double)] *)
Definition pad_left (n : nat) (s : string) : string := str_repeat (n - String.length s) "0" +:+ s.

Definition round_half_even (num den : Z) : Z :=
  let q := num / den in
  let r := num mod den in
  if 2 * r <? den then q else if den <? 2 * r then q + 1 else if Z.even q then q else q + 1.

Definition fixed6 (neg : bool) (scaled : Z) : string :=
  (if neg then "-" else "") +:+ to_string (scaled / 10 ^ 6) +:+ "." +:+ pad_left 6 (to_string (scaled mod 10 ^ 6)).

Definition to_string_double (x : double) : string :=
  match x with
  | S754_zero s => fixed6 s 0
  | S754_infinity s => if s then "-inf" else "inf"
  | S754_nan => "nan"
  | S754_finite s m e =>
      fixed6 s (if 0 <=? e then Zpos m * 2 ^ e * 10 ^ 6 else round_half_even (Zpos m * 10 ^ 6) (2 ^ (- e)))
  end.

Definition to_string_bool (b : bool) : string := if b then "true" else "false".

(** ** Scanning what was printed *)
Fixpoint dec_val (d : uint) (acc : Z) : Z :=
  match d with
  | Nil => acc
  | D0 d => dec_val d (acc * 10 + 0)
  | D1 d => dec_val d (acc * 10 + 1)
  | D2 d => dec_val d (acc * 10 + 2)
  | D3 d => dec_val d (acc * 10 + 3)
  | D4 d => dec_val d (acc * 10 + 4)
  | D5 d => dec_val d (acc * 10 + 5)
  | D6 d => dec_val d (acc * 10 + 6)
  | D7 d => dec_val d (acc * 10 + 7)
  | D8 d => dec_val d (acc * 10 + 8)
  | D9 d => dec_val d (acc * 10 + 9)
  end.

Lemma scan_digits_uint d acc rest :
  starts_with_digit rest = false ->
  scan_digits (NilEmpty.string_of_uint d +:+ rest) acc = (dec_val d acc, rest).
Proof.
  intros Hr. revert acc. induction d as [|d IH|d IH|d IH|d IH|d IH|d IH|d IH|d IH|d IH|d IH]; intros acc.
  1: { destruct rest as [|c r]; [done|]. simpl in *. by destruct (digit_val c). }
  all: exact (IH _).
Qed.

Lemma dec_val_pos d p : dec_val d (Zpos p) = Zpos (Pos.of_uint_acc d p).
Proof.
  revert p. induction d as [|d IH|d IH|d IH|d IH|d IH|d IH|d IH|d IH|d IH|d IH]; intros p; [done|..].
  all: cbn [dec_val Pos.of_uint_acc]; rewrite <- IH; f_equal; lia.
Qed.

Lemma dec_val_0 d : dec_val d 0 = Z.of_N (Pos.of_uint d).
Proof.
  induction d as [|d IH|d IH|d IH|d IH|d IH|d IH|d IH|d IH|d IH|d IH]; [done|..].
  1: exact IH.
  all: apply dec_val_pos.
Qed.

Lemma dec_val_to_uint p : dec_val (Pos.to_uint p) 0 = Zpos p.
Proof. rewrite dec_val_0. by rewrite DecimalPos.Unsigned.of_to. Qed.

Lemma string_of_uint_digit d :
  d <> Nil -> starts_with_digit (NilEmpty.string_of_uint d) = true /\
    NilZero.string_of_uint d = NilEmpty.string_of_uint d.
Proof. by destruct d. Qed.

Lemma starts_with_digit_app s t : starts_with_digit s = true -> starts_with_digit (s +:+ t) = true.
Proof. by destruct s. Qed.

Lemma digit_start_scan s :
  starts_with_digit s = true -> scan_integer s = Some (scan_digits s 0) /\
    scan_integer (String "-" s) = Some (- fst (scan_digits s 0), snd (scan_digits s 0)).
Proof.
  intros Hs. destruct s as [|c s]; [done|]. assert (exists d, digit_val c = Some d) as [d Hd].
  { simpl in Hs. destruct (digit_val c); [eauto|done]. }
  assert (skip_space (String c s) = String c s) as Hsk by (simpl; by rewrite (digit_not_space _ _ Hd)).
  destruct (digit_not_sign _ _ Hd) as [Hm Hp]. unfold scan_integer. split.
  - rewrite Hsk. rewrite Hm, Hp, Hs. by destruct (scan_digits _ _).
  - change (skip_space (String "-" (String c s))) with (String "-" (String c s)).
    cbv beta iota. rewrite (Ascii.eqb_refl "-"), Hs. by destruct (scan_digits _ _).
Qed.

Lemma scan_to_string z rest :
  starts_with_digit rest = false -> scan_integer (to_string z +:+ rest) = Some (z, rest).
Proof.
  intros Hr. unfold to_string.
  destruct z as [|p|p]; cbn [Z.to_int NilZero.string_of_int].
  - change (NilZero.string_of_uint zero) with (NilEmpty.string_of_uint (D0 Nil)).
    destruct (digit_start_scan (NilEmpty.string_of_uint (D0 Nil) +:+ rest)) as [-> _]; [done|].
    by rewrite scan_digits_uint.
  - destruct (string_of_uint_digit _ (DecimalPos.Unsigned.to_uint_nonnil p)) as [Hd ->].
    destruct (digit_start_scan (NilEmpty.string_of_uint (Pos.to_uint p) +:+ rest)) as [-> _];
      [by apply starts_with_digit_app|].
    by rewrite scan_digits_uint, dec_val_to_uint.
  - destruct (string_of_uint_digit _ (DecimalPos.Unsigned.to_uint_nonnil p)) as [Hd ->].
    change (String "-" ?s +:+ rest) with (String "-" (s +:+ rest)).
    destruct (digit_start_scan (NilEmpty.string_of_uint (Pos.to_uint p) +:+ rest)) as [_ ->];
      [by apply starts_with_digit_app|].
    rewrite scan_digits_uint by done. cbn [fst snd]. by rewrite dec_val_to_uint.
Qed.

Lemma strtol_to_string z rest :
  in_int64 z -> starts_with_digit rest = false -> strtol (to_string z +:+ rest) = (z, rest).
Proof.
  intros Hz Hr. unfold strtol. rewrite scan_to_string by done. f_equal. unfold in_int64 in Hz. lia.
Qed.

Lemma to_string_inj a b r1 r2 :
  starts_with_digit r1 = false -> starts_with_digit r2 = false ->
  to_string a +:+ r1 = to_string b +:+ r2 -> a = b /\ r1 = r2.
Proof.
  intros H1 H2 E. apply (f_equal scan_integer) in E. rewrite !scan_to_string in E by done. by simplify_eq.
Qed.

(** Decimal text consists of digits and possibly a sign, so it holds no separator. *)
Definition digit_or_sign (c : ascii) : bool :=
  match digit_val c with Some _ => true | None => Ascii.eqb c "-" end.

Lemma to_string_chars z : all_chars digit_or_sign (to_string z) = true /\ to_string z <> "".
Proof.
  assert (forall d, all_chars digit_or_sign (NilEmpty.string_of_uint d) = true) as Hd.
  { intros d. induction d; simpl; done. }
  unfold to_string. destruct z as [|p|p]; simpl; [done|..].
  all: destruct (string_of_uint_digit _ (DecimalPos.Unsigned.to_uint_nonnil p)) as [Hs ->].
  - split; [apply Hd|]. by intros E; rewrite E in Hs.
  - by rewrite Hd.
Qed.
