(* ===== verification/StringUtils.v ===== *)
(** * [src/utils/string_utils.cpp]

    Byte strings are Rocq strings; a [std::string_view] is the string it shows.
    [create_uuid] is boost's generator and stays a parameter of the engine. *)
From Stdlib Require Import ZArith Lia Ascii String.
From stdpp Require Import base tactics list strings.
From S2P Require Import Prelude CppString.
Open Scope string_scope.
Open Scope Z_scope.

#[local] Arguments String.append !_ _ /.

(** The callback that collects a response body: [ptr] points at the bytes received,
    the product is a [size_t]. *)
Definition write_to_string (ptr : string) (size nmemb : Z) (body : string) : Z * string :=
  let total := (size * nmemb) mod 2 ^ 64 in
  (total, body +:+ str_take (Z.to_nat total) ptr).

(** Does [buf] (of [n] bytes) start with [key], ignoring case?  [key] ends at its
    terminating zero; an empty key is no prefix. *)
Fixpoint ieq_prefix (buf : string) (n : nat) (key : string) : bool :=
  match key, n with
  | EmptyString, _ => false
  | _, O => false
  | String k key', S n' =>
      match buf with
      | EmptyString => false
      | String b buf' =>
          if negb (Ascii.eqb (to_lower b) (to_lower k)) then false
          else match key' with
               | EmptyString => true
               | _ => ieq_prefix buf' n' key'
               end
      end
  end.

Definition not_space (c : ascii) : bool := negb (is_space c).

Definition trim (s : string) : string :=
  let s := str_drop (default (String.length s) (find_if not_space s)) s in
  str_take (match find_last_if not_space s with Some n => S n | None => O end) s.

Definition append_to_path (path str : string) : string := path +:+ str.

(** The characters that [find_first_not_of] with the set of space and tab stops at. *)
Definition not_blank (c : ascii) : bool :=
  negb (Ascii.eqb c " " || Ascii.eqb c (ascii_of_nat 9)).

(** The token between two commas, without the blanks around it, when one is left. *)
Definition comma_token (token : string) : list string :=
  match find_if not_blank token with
  | None => []
  | Some first =>
      let last := default O (find_last_if not_blank token) in
      [str_take (last - first + 1) (str_drop first token)]
  end.

(** One round of the loop per comma; [rest] is [sv] from [start] on. *)
Fixpoint split_comma_loop (fuel : nat) (rest : string) (out : list string) : outcome (list string) :=
  match fuel with
  | O => OutOfFuel
  | S fuel' =>
      let pos := find_char "," rest in
      let end_ := default (String.length rest) pos in
      let out := (out ++ comma_token (str_take end_ rest))%list in
      match pos with
      | None => Ret out
      | Some p => split_comma_loop fuel' (str_drop (p + 1) rest) out
      end
  end.

Definition split_comma_delimited_string (sv : string) : outcome (list string) :=
  split_comma_loop (S (String.length sv)) sv [].

(** ** Trimming *)

(** [s] with outer characters cut off is the framed middle. *)
Lemma cut_framed f l m r :
  all_chars (fun c => negb (f c)) l = true -> all_chars (fun c => negb (f c)) r = true ->
  framed f m = true ->
  find_if f (l +:+ m +:+ r) = Some (String.length l) /\
  find_last_if f (m +:+ r) = Some (String.length m - 1)%nat /\
  find_last_if f (l +:+ m +:+ r) = Some (String.length l + (String.length m - 1))%nat /\
  (0 < String.length m)%nat.
Proof.
  intros Hl Hr [Hf Hm]%andb_true_iff. destruct m as [|c m]; [done|].
  assert (find_last_if f (String c m +:+ r) = Some (String.length (String c m) - 1)%nat) as Hlast.
  { rewrite find_last_if_skip by done. by apply find_last_if_last. }
  split_and!; [|done| |simpl; lia].
  - rewrite find_if_skip by done. rewrite find_if_first by done. simpl. by rewrite Nat.add_0_r.
  - revert Hlast. generalize (String c m +:+ r) as t. clear. intros t Ht.
    induction l as [|d l IH]; [done|]. cbn [String.append find_last_if]. by rewrite IH.
Qed.

Lemma outside_space s : all_chars (fun c => negb (not_space c)) s = all_chars is_space s.
Proof.
  induction s as [|c s IH]; simpl; [done|]. rewrite IH. unfold not_space. by rewrite negb_involutive.
Qed.

Lemma trim_framed l m r :
  all_chars is_space l = true -> all_chars is_space r = true -> framed not_space m = true ->
  trim (l +:+ m +:+ r) = m.
Proof.
  intros Hl Hr Hm.
  destruct (cut_framed not_space l m r) as (H1 & H2 & _ & Hpos); rewrite ?outside_space; try done.
  unfold trim. rewrite H1. simpl. rewrite str_drop_app, H2.
  replace (S (String.length m - 1)) with (String.length m) by lia. apply str_take_app.
Qed.

Lemma trim_spaces s : all_chars is_space s = true -> trim s = "".
Proof.
  intros Hs. unfold trim.
  assert (find_if not_space s = None) as ->.
  { apply find_if_none. by rewrite outside_space. }
  simpl. assert (str_drop (String.length s) s = "") as ->; [|done].
  rewrite <- (str_app_nil_r s) at 2. apply str_drop_app.
Qed.

(** A string [trim] leaves alone. *)
Definition trimmed (s : string) : bool := String.eqb s "" || framed not_space s.

Lemma trim_trimmed s : trimmed s = true -> trim s = s.
Proof.
  unfold trimmed. intros [->%String.eqb_eq|H]%orb_true_iff; [done|].
  rewrite <- (trim_framed "" s "") at 2 by done. simpl. by rewrite str_app_nil_r.
Qed.

Lemma trim_spec s :
  exists l r, s = l +:+ trim s +:+ r /\ all_chars is_space l = true /\ all_chars is_space r = true /\
    trimmed (trim s) = true.
Proof.
  destruct (framed_split not_space s) as [Hs|(l & m & r & -> & Hl & Hr & Hm)]; rewrite ?outside_space in *.
  - exists s, "". rewrite trim_spaces by done. simpl. by rewrite str_app_nil_r.
  - exists l, r. rewrite trim_framed by done. unfold trimmed. rewrite Hm, orb_true_r. done.
Qed.

Lemma trim_lead c s : is_space c = true -> trim (String c s) = trim s.
Proof.
  intros Hc. destruct (trim_spec s) as (l & r & E & Hl & Hr & Ht). rewrite E at 1. unfold trimmed in Ht.
  apply orb_true_iff in Ht as [Ht%String.eqb_eq|Ht].
  - rewrite Ht in E |- *. simpl in E |- *. apply trim_spaces. simpl. by rewrite Hc, all_chars_app, Hl, Hr.
  - apply (trim_framed (String c l)); simpl; by rewrite ?Hc.
Qed.

(** ** Splitting at commas *)

(** Reference: the fields between commas, by recursion on the text. *)
Fixpoint comma_fields (s : string) : list string :=
  match s with
  | EmptyString => [""]
  | String c s' =>
      if Ascii.eqb "," c then "" :: comma_fields s'
      else match comma_fields s' with
           | t :: ts => String c t :: ts
           | [] => [String c ""]
           end
  end.

Lemma comma_fields_find s :
  comma_fields s =
  match find_char "," s with
  | None => [s]
  | Some p => str_take p s :: comma_fields (str_drop (p + 1) s)
  end.
Proof.
  induction s as [|c s IH]; cbn [comma_fields find_char]; [done|].
  destruct (Ascii.eqb "," c); [done|].
  rewrite IH. destruct (find_char "," s); done.
Qed.

Lemma str_drop_length n s : String.length (str_drop n s) = (String.length s - n)%nat.
Proof. revert s. induction n as [|n IH]; intros [|c s]; simpl; auto. Qed.

Lemma find_char_lt c s p : find_char c s = Some p -> (p < String.length s)%nat.
Proof.
  revert p. induction s as [|d s IH]; simpl; [done|]. intros p. destruct (Ascii.eqb c d).
  - intros [= <-]. lia.
  - destruct (find_char c s); [|done]. intros [= <-]. specialize (IH _ eq_refl). lia.
Qed.

Lemma split_comma_loop_spec fuel rest out :
  (String.length rest < fuel)%nat ->
  split_comma_loop fuel rest out = Ret (out ++ concat (comma_token <$> comma_fields rest))%list.
Proof.
  revert rest out. induction fuel as [|fuel IH]; intros rest out Hf; [lia|]. simpl.
  rewrite comma_fields_find. destruct (find_char "," rest) as [p|] eqn:Hp; simpl.
  - pose proof (find_char_lt _ _ _ Hp). rewrite IH by (rewrite str_drop_length; lia).
    by rewrite <- app_assoc.
  - by rewrite str_take_length, app_nil_r.
Qed.

Lemma split_comma_fields sv :
  split_comma_delimited_string sv = Ret (concat (comma_token <$> comma_fields sv)).
Proof. unfold split_comma_delimited_string. by rewrite split_comma_loop_spec by lia. Qed.

Definition blank (c : ascii) : bool := negb (not_blank c).

Lemma comma_token_framed l m r :
  all_chars blank l = true -> all_chars blank r = true -> framed not_blank m = true ->
  comma_token (l +:+ m +:+ r) = [m].
Proof.
  intros Hl Hr Hm. destruct (cut_framed not_blank l m r Hl Hr Hm) as (H1 & _ & H3 & Hpos).
  unfold comma_token. rewrite H1, H3. simpl.
  replace (String.length l + (String.length m - 1) - String.length l + 1)%nat with (String.length m) by lia.
  by rewrite str_drop_app, str_take_app.
Qed.

Lemma comma_token_blank s : all_chars blank s = true -> comma_token s = [].
Proof. intros Hs. unfold comma_token. by rewrite (proj2 (find_if_none _ _) Hs). Qed.

(** Every token is the framed middle of a field. *)
Lemma comma_token_spec t m :
  m ∈ comma_token t ->
  framed not_blank m = true /\ exists l r, t = l +:+ m +:+ r /\ all_chars blank l = true /\ all_chars blank r = true.
Proof.
  destruct (framed_split not_blank t) as [Ht|(l & m' & r & -> & Hl & Hr & Hm)].
  - rewrite comma_token_blank by done. by intros ?%elem_of_nil.
  - rewrite comma_token_framed by done. intros ->%list_elem_of_singleton. eauto 6.
Qed.

Fixpoint comma_join (ts : list string) : string :=
  match ts with
  | [] => ""
  | [t] => t
  | t :: ts => t +:+ ", " +:+ comma_join ts
  end.

Definition no_comma (s : string) : bool := all_chars (fun c => negb (Ascii.eqb "," c)) s.

Lemma comma_fields_cons t s :
  no_comma t = true -> comma_fields (t +:+ "," +:+ s) = t :: comma_fields s.
Proof.
  unfold no_comma. induction t as [|c t IH]; [done|]. cbn [String.append comma_fields all_chars].
  destruct (Ascii.eqb "," c); [done|]. cbn [negb andb]. intros Ht. by rewrite (IH Ht : comma_fields (t +:+ String "," s) = _).
Qed.

Lemma comma_fields_one t : no_comma t = true -> comma_fields t = [t].
Proof.
  intros Ht. rewrite comma_fields_find.
  by rewrite (all_chars_find_char (fun c => negb (Ascii.eqb "," c)) ",").
Qed.

Lemma comma_join_fields pad ts :
  all_chars blank pad = true -> no_comma pad = true ->
  Forall (fun t => framed not_blank t = true /\ no_comma t = true) ts -> ts <> [] ->
  concat (comma_token <$> comma_fields (pad +:+ comma_join ts)) = ts.
Proof.
  intros Hp Hpc Hts. revert pad Hp Hpc. induction Hts as [|t ts [Hf Hc] Hts IH]; intros pad Hp Hpc Hne; [done|].
  assert (no_comma (pad +:+ t) = true) as Hpt.
  { unfold no_comma in *. by rewrite all_chars_app, Hpc. }
  assert (comma_token (pad +:+ t) = [t]) as Htok.
  { rewrite <- (str_app_nil_r t) at 1. by apply comma_token_framed. }
  destruct ts as [|t' ts].
  - cbn [comma_join]. rewrite comma_fields_one by done. cbn. by rewrite Htok.
  - change (comma_join (t :: t' :: ts)) with (t +:+ "," +:+ (" " +:+ comma_join (t' :: ts))).
    rewrite <- str_app_assoc.
    rewrite comma_fields_cons by done. cbn [fmap list_fmap concat]. rewrite Htok.
    cbn [app]. f_equal. by apply (IH " ").
Qed.

(** ** Case-insensitive prefixes *)
Fixpoint str_lower (s : string) : string :=
  match s with
  | EmptyString => EmptyString
  | String c s' => String (to_lower c) (str_lower s')
  end.

Lemma ieq_prefix_spec buf key :
  ieq_prefix buf (String.length buf) key = true <->
  key <> "" /\ exists rest, str_lower buf = str_lower key +:+ rest.
Proof.
  revert buf. induction key as [|k key IH]; intros buf; [by split; [destruct buf|intros []]|].
  destruct buf as [|b buf]; [simpl; split; [done|]; intros [_ [r Hr]]; done|].
  cbn [ieq_prefix String.length str_lower String.append].
  destruct (Ascii.eqb_spec (to_lower b) (to_lower k)) as [E|E]; cbn [negb].
  - destruct key as [|k' key].
    + split; [|done]. intros _. split; [done|]. exists (str_lower buf). by rewrite E.
    + rewrite IH, E. split.
      * intros [_ [r Hr]]. split; [done|]. exists r. by rewrite Hr.
      * intros [_ [r [= Hr]]]. split; [done|]. by exists r.
  - split; [done|]. intros [_ [r [= Hr _]]]. done.
Qed.

Lemma comma_fields_no_comma s : Forall (fun t => no_comma t = true) (comma_fields s).
Proof.
  induction s as [|c s IH]; cbn [comma_fields]; [by constructor|].
  destruct (Ascii.eqb "," c) eqn:E; [by constructor|].
  destruct (comma_fields s) as [|t ts]; [constructor; [|done]; unfold no_comma; cbn [all_chars]; by rewrite E|].
  apply Forall_cons in IH as [Ht Hts]. constructor; [|done]. unfold no_comma in *. cbn [all_chars]. by rewrite E.
Qed.

(** A token that survives splitting: no comma, something in it, no blanks around it. *)
Definition clean_token (t : string) : Prop := framed not_blank t = true /\ no_comma t = true.

Lemma comma_tokens_clean sv : Forall clean_token (concat (comma_token <$> comma_fields sv)).
Proof.
  apply Forall_forall. intros m (ts & Hts & Hm)%list_elem_of_In%in_concat.
  apply list_elem_of_In, list_elem_of_fmap in Hts as (t & -> & Ht).
  pose proof (proj1 (Forall_forall _ _) (comma_fields_no_comma sv) t Ht) as Hc.
  apply list_elem_of_In, comma_token_spec in Hm as [Hf (l & r & -> & _)]. split; [done|].
  unfold no_comma in *. rewrite !all_chars_app in Hc. by apply andb_true_iff in Hc as [_ [? _]%andb_true_iff].
Qed.

(** Splitting at commas ends and finds, in order, what is left of the fields without
    the blanks around them; every token is clean, and joining the tokens and splitting
    again gives the same tokens. *)
Theorem split_comma_normalises sv :
  exists toks, split_comma_delimited_string sv = Ret toks /\
    toks = concat (comma_token <$> comma_fields sv) /\ Forall clean_token toks /\
    split_comma_delimited_string (comma_join toks) = Ret toks.
Proof.
  eexists. split; [apply split_comma_fields|]. split; [done|]. pose proof (comma_tokens_clean sv) as Hc.
  split; [done|]. rewrite split_comma_fields. f_equal.
  destruct (concat (comma_token <$> comma_fields sv)) as [|t ts]; [done|].
  by apply (comma_join_fields "" (t :: ts)).
Qed.
