(* ===== verification/Money.v ===== *)
(** * [src/utils/money_utils.hpp] and [src/utils/money_utils.cpp]

    [Money] is a count of micro-dollars in an [int64_t].  Sums and differences wrap
    at 64 bits; scaling by a [double] goes through binary64 and rounds to the
    nearest micro-dollar. *)
From Stdlib Require Import ZArith Lia SpecFloat Ascii String.
From stdpp Require Import base list gmap strings.
From S2P Require Import Prelude Double CppString.
Open Scope Z_scope.

Record Money : Type := mkMoney { microdollars_ : Z }.

#[export] Instance Money_eq_dec : EqDecision Money.
Proof. solve_decision. Defined.

Definition from_dollars (dollars : double) : Money :=
  mkMoney (d_to_int64 (dround (dmul dollars (d_of_Z MONEY_SCALED_BASE)))).

Definition to_microdollars (m : Money) : Z := microdollars_ m.
Definition to_dollars (m : Money) : double :=
  ddiv (d_of_Z (microdollars_ m)) (d_of_Z MONEY_SCALED_BASE).
Definition to_abi_int64 (m : Money) : Z := microdollars_ m.
Definition to_abi_double (m : Money) : double := to_dollars m.

Definition Money_add (a b : Money) : Money := mkMoney (wrap64 (microdollars_ a + microdollars_ b)).
Definition Money_sub (a b : Money) : Money := mkMoney (wrap64 (microdollars_ a - microdollars_ b)).
Definition Money_mul (a : Money) (scalar : double) : Money :=
  mkMoney (d_to_int64 (dround (dmul (d_of_Z (microdollars_ a)) scalar))).
Definition Money_div (a : Money) (scalar : double) : Money :=
  mkMoney (d_to_int64 (dround (ddiv (d_of_Z (microdollars_ a)) scalar))).

Definition Money_lt (a b : Money) : bool := microdollars_ a <? microdollars_ b.
Definition Money_le (a b : Money) : bool := microdollars_ a <=? microdollars_ b.
Definition Money_gt (a b : Money) : bool := microdollars_ b <? microdollars_ a.
Definition Money_ge (a b : Money) : bool := microdollars_ b <=? microdollars_ a.
Definition Money_eq (a b : Money) : bool := microdollars_ a =? microdollars_ b.

(** [std::min] and [std::max] on [Money]. *)
Definition Money_min (a b : Money) : Money := if Money_lt b a then b else a.
Definition Money_max (a b : Money) : Money := if Money_lt a b then b else a.

Declare Scope money_scope.
Delimit Scope money_scope with money.
Bind Scope money_scope with Money.
Notation "0" := (mkMoney 0) : money_scope.
Notation "a + b" := (Money_add a b) : money_scope.
Notation "a - b" := (Money_sub a b) : money_scope.
Notation "a *$ x" := (Money_mul a x) (at level 40, left associativity) : money_scope.
Notation "a /$ x" := (Money_div a x) (at level 40, left associativity) : money_scope.
Notation "a <? b" := (Money_lt a b) : money_scope.
Notation "a <=? b" := (Money_le a b) : money_scope.
Notation "a >? b" := (Money_gt a b) : money_scope.
Notation "a >=? b" := (Money_ge a b) : money_scope.

(** [Money::parse_microdollars].  [fractional_part.length() - MONEY_SCALE] is a
    [size_t] subtraction. *)
Definition parse_microdollars (money_string : string) : outcome Money :=
  let scaled_base := MONEY_BASE ^ Z.of_nat MONEY_SCALE in
  match find_char "."%char money_string with
  | None => let* v := stoll money_string in Ret (mkMoney (wrap64 (v * scaled_base)))
  | Some decimal_position =>
      let whole_part := str_take decimal_position money_string in
      let fractional_part := str_drop (decimal_position + 1) money_string in
      let* fractional_part :=
        if Nat.ltb (String.length fractional_part) MONEY_SCALE then
          str_append_n fractional_part
            (Z.of_nat (String.length fractional_part) - Z.of_nat MONEY_SCALE) "0"%char
        else if Nat.ltb MONEY_SCALE (String.length fractional_part) then
          Ret (str_take MONEY_SCALE fractional_part)
        else Ret fractional_part in
      let* whole := stoll whole_part in
      let* fractional := stoll fractional_part in
      Ret (mkMoney (wrap64 (wrap64 (whole * scaled_base) + fractional)))
  end.

(** ** Arithmetic facts *)
Lemma Money_ext a b : microdollars_ a = microdollars_ b -> a = b.
Proof. destruct a, b. simpl. congruence. Qed.

Definition Money_ok (m : Money) : Prop := in_int64 (microdollars_ m).

Lemma Money_add_ok a b : Money_ok (a + b)%money.
Proof. apply wrap64_in_int64. Qed.

Lemma Money_sub_ok a b : Money_ok (a - b)%money.
Proof. apply wrap64_in_int64. Qed.

Lemma Money_mul_ok a x : Money_ok (a *$ x)%money.
Proof.
  unfold Money_ok, Money_mul, d_to_int64; simpl. unfold in_int64, INT64_MIN, INT64_MAX.
  destruct (dtrunc _) as [z|]; [|lia]. destruct (_ && _)%bool eqn:?; lia.
Qed.

Lemma Money_add_comm a b : (a + b = b + a)%money.
Proof. apply Money_ext. simpl. by rewrite Z.add_comm. Qed.

Lemma Money_add_assoc a b c : (a + (b + c) = (a + b) + c)%money.
Proof. apply Money_ext. simpl. wrap64_solve. Qed.

Lemma Money_add_0_r a : Money_ok a -> (a + 0 = a)%money.
Proof. intros H. apply Money_ext. simpl. rewrite Z.add_0_r. by apply wrap64_id. Qed.

Lemma Money_sub_diag a : (a - a = 0)%money.
Proof. apply Money_ext. simpl. by rewrite Z.sub_diag. Qed.

Lemma Money_sub_add a b : Money_ok a -> ((a - b) + b = a)%money.
Proof.
  intros H. apply Money_ext. simpl. rewrite <- (wrap64_id (microdollars_ a)) at 2 by done.
  wrap64_solve.
Qed.

Lemma Money_lt_irrefl a : (a <? a)%money = false.
Proof. unfold Money_lt. lia. Qed.

(** Scaling by [1.0] is the identity below [2^53] micro-dollars. *)
Lemma Money_mul_one m : Z.abs (microdollars_ m) < 2 ^ 53 -> (m *$ d_one = m)%money.
Proof.
  intros H. apply Money_ext. simpl. rewrite mul_one_int by done. by apply round_trip_int.
Qed.

(** ** [parse_microdollars] *)

(** A decimal string with at least six fractional digits is read exactly, digits
    after the sixth being dropped. *)
Lemma parse_microdollars_exact_aux w f :
  all_digits w = true -> w <> EmptyString -> all_digits f = true ->
  (MONEY_SCALE <= String.length f)%nat ->
  digits_value w * 10 ^ 6 + digits_value (str_take MONEY_SCALE f) <= INT64_MAX ->
  parse_microdollars (String.append w (String "."%char f)) =
  Ret (mkMoney (digits_value w * 10 ^ 6 + digits_value (str_take MONEY_SCALE f))).
Proof.
  intros Hw Hwne Hf Hlen Hmax. unfold parse_microdollars.
  rewrite (find_char_app_first _ _ _ (all_digits_no_dot _ Hw)).
  rewrite str_take_app. rewrite Nat.add_1_r.
  assert (str_drop (S (String.length w)) (String.append w (String "."%char f)) = f) as ->.
  { clear. induction w as [|c w IH]; [by destruct f|exact IH]. }
  assert (Nat.ltb (String.length f) MONEY_SCALE = false) as -> by (apply Nat.ltb_ge; lia).
  assert ((if Nat.ltb MONEY_SCALE (String.length f) then Ret (str_take MONEY_SCALE f) else Ret f)
          = Ret (str_take MONEY_SCALE f)) as ->.
  { destruct (Nat.ltb_spec MONEY_SCALE (String.length f)); [done|].
    assert (String.length f = MONEY_SCALE) as <- by lia. f_equal.
    clear. induction f as [|c f IH]; simpl; congruence. }
  pose proof (digits_value_nonneg w). pose proof (digits_value_nonneg (str_take MONEY_SCALE f)).
  unfold obind. unfold INT64_MAX in *.
  rewrite stoll_digits by (done || unfold INT64_MAX; lia).
  rewrite stoll_digits; [| |by apply all_digits_take|unfold INT64_MAX; lia|done].
  - change (MONEY_BASE ^ Z.of_nat MONEY_SCALE) with (10 ^ 6).
    rewrite wrap64_add_l, wrap64_id; [done|]. unfold in_int64, INT64_MIN, INT64_MAX. lia.
  - destruct f; simpl in *; [unfold MONEY_SCALE in Hlen; lia|done].
Qed.
