(* ===== verification/Heap.v ===== *)
(** * [src/utils/min_heap.hpp] and [src/utils/max_heap.hpp]

    Both templates are the same array heap; [MinHeap] moves an element towards the
    root when it is [<] its parent, [MaxHeap] when it is [>].  The loops are stated
    once for a relation [before] ("belongs nearer the root") and instantiated with
    the element type's [operator<] and [operator>]. *)
From Stdlib Require Import ZArith Lia.
From stdpp Require Import base tactics list gmap.
From S2P Require Import Prelude.

(** The comparison operators of an element type. *)
Class CppOrd (T : Type) : Type := {
  op_lt : T -> T -> bool;
  op_gt : T -> T -> bool
}.

(** What an operator must satisfy for the heap to be one: the negation of [before]
    is a total preorder. *)
Class StrictWeakOrder {T : Type} (before : T -> T -> bool) : Prop := {
  before_irrefl : forall x, before x x = false;
  before_asym : forall x y, before x y = true -> before y x = false;
  not_before_trans : forall x y z, before x y = false -> before y z = false -> before x z = false
}.

Section Heap.
Context {T : Type} (before : T -> T -> bool).

Definition heap_parent (idx : nat) : nat := (idx - 1) / 2.

(** [std::swap(data_[i], data_[j])] *)
Definition heap_swap (data : list T) (i j : nat) : list T :=
  match data !! i, data !! j with
  | Some a, Some b => <[i := b]> (<[j := a]> data)
  | _, _ => data
  end.

Fixpoint heap_bubble_up_loop (fuel : nat) (data : list T) (idx : nat) : list T :=
  match fuel with
  | O => data
  | S fuel' =>
      if Nat.ltb 0 idx then
        let parent_idx := heap_parent idx in
        match data !! idx, data !! parent_idx with
        | Some x, Some p =>
            if before x p
            then heap_bubble_up_loop fuel' (heap_swap data idx parent_idx) parent_idx
            else data
        | _, _ => data
        end
      else data
  end.

Definition heap_bubble_up (data : list T) (idx : nat) : list T :=
  heap_bubble_up_loop idx data idx.

(** The index [bubble_down] swaps with: the child that goes before both its sibling
    and its parent, or the index itself. *)
Definition heap_pick (data : list T) (cand : nat) (best : nat) : nat :=
  match data !! cand, data !! best with
  | Some c, Some b => if before c b then cand else best
  | _, _ => best
  end.

Fixpoint heap_bubble_down_loop (fuel : nat) (data : list T) (idx : nat) : list T :=
  match fuel with
  | O => data
  | S fuel' =>
      let left_child_idx := 2 * idx + 1 in
      let right_child_idx := 2 * idx + 2 in
      let best := heap_pick data left_child_idx idx in
      let best := heap_pick data right_child_idx best in
      if Nat.eqb best idx then data
      else heap_bubble_down_loop fuel' (heap_swap data idx best) best
  end.

Definition heap_bubble_down (data : list T) (idx : nat) : list T :=
  heap_bubble_down_loop (length data) data idx.

Definition heap_push (data : list T) (value : T) : list T :=
  let data := data ++ [value] in
  heap_bubble_up data (length data - 1).

Definition heap_pop (data : list T) : list T :=
  match last data with
  | None => data
  | Some back =>
      let data := removelast (<[0 := back]> data) in
      match data with
      | [] => data
      | _ => heap_bubble_down data 0
      end
  end.

Definition heap_top (data : list T) : option T := head data.
Definition heap_empty (data : list T) : bool := match data with [] => true | _ => false end.
Definition heap_size (data : list T) : nat := length data.

(** No element goes before its parent. *)
Definition heap_rel (data : list T) (i : nat) : Prop :=
  forall x p, data !! i = Some x -> data !! heap_parent i = Some p -> before x p = false.

Definition heap_ok (data : list T) : Prop := forall i, 0 < i -> heap_rel data i.

(** ** Indices *)
Lemma heap_parent_lt i : 0 < i -> heap_parent i < i.
Proof. intros. unfold heap_parent. apply Nat.Div0.div_lt_upper_bound. lia. Qed.

Lemma heap_parent_left i : heap_parent (2 * i + 1) = i.
Proof. unfold heap_parent. replace (2 * i + 1 - 1) with (i * 2) by lia. by rewrite Nat.div_mul. Qed.

Lemma heap_parent_right i : heap_parent (2 * i + 2) = i.
Proof.
  unfold heap_parent. replace (2 * i + 2 - 1) with (1 + i * 2) by lia.
  rewrite Nat.div_add by lia. done.
Qed.

Lemma heap_parent_inv i p : 0 < i -> heap_parent i = p -> i = 2 * p + 1 \/ i = 2 * p + 2.
Proof.
  unfold heap_parent. intros Hi <-. pose proof (Nat.div_mod_eq (i - 1) 2).
  pose proof (Nat.mod_upper_bound (i - 1) 2). lia.
Qed.

(** ** Swaps *)
Lemma heap_swap_perm data i j : heap_swap data i j ≡ₚ data.
Proof.
  unfold heap_swap. destruct (data !! i) as [a|] eqn:Hi; [|done].
  destruct (data !! j) as [b|] eqn:Hj; [|done].
  destruct (decide (i = j)) as [->|Hne].
  - rewrite list_insert_insert_eq. simplify_eq. by rewrite list_insert_id.
  - apply Permutation_inj. split; [by rewrite !length_insert|].
    exists (fun k => if decide (k = i) then j else if decide (k = j) then i else k). split.
    + intros x y. repeat case_decide; congruence.
    + intros k. assert (i < length data) by eauto using lookup_lt_Some.
      assert (j < length data) by eauto using lookup_lt_Some.
      repeat case_decide; subst.
      * rewrite list_lookup_insert_eq by (by rewrite length_insert). done.
      * rewrite list_lookup_insert_ne by done. by rewrite list_lookup_insert_eq.
      * by rewrite !list_lookup_insert_ne by congruence.
Qed.

Lemma heap_swap_length data i j : length (heap_swap data i j) = length data.
Proof. apply Permutation_length, heap_swap_perm. Qed.

Lemma heap_swap_lookup data i j a b k :
  data !! i = Some a -> data !! j = Some b -> i ≠ j ->
  heap_swap data i j !! k =
  if decide (k = i) then Some b else if decide (k = j) then Some a else data !! k.
Proof.
  intros Hi Hj Hne. unfold heap_swap. rewrite Hi, Hj.
  assert (i < length data) by eauto using lookup_lt_Some.
  assert (j < length data) by eauto using lookup_lt_Some.
  repeat case_decide; subst.
  - rewrite list_lookup_insert_eq; [done|by rewrite length_insert].
  - rewrite list_lookup_insert_ne by done. by rewrite list_lookup_insert_eq.
  - by rewrite !list_lookup_insert_ne by congruence.
Qed.

(** ** The loops only rearrange *)
Lemma heap_bubble_up_loop_perm fuel data idx : heap_bubble_up_loop fuel data idx ≡ₚ data.
Proof.
  revert data idx. induction fuel as [|fuel IH]; intros data idx; simpl; [done|].
  destruct (Nat.ltb 0 idx); [|done]. repeat case_match; try done.
  rewrite IH. apply heap_swap_perm.
Qed.

Lemma heap_bubble_down_loop_perm fuel data idx : heap_bubble_down_loop fuel data idx ≡ₚ data.
Proof.
  revert data idx. induction fuel as [|fuel IH]; intros data idx; cbn [heap_bubble_down_loop]; [done|].
  destruct (Nat.eqb _ _); [done|]. rewrite IH. apply heap_swap_perm.
Qed.

Lemma heap_push_perm data x : heap_push data x ≡ₚ x :: data.
Proof.
  unfold heap_push, heap_bubble_up. rewrite heap_bubble_up_loop_perm.
  symmetry. apply Permutation_cons_append.
Qed.

Lemma heap_pop_perm data x : heap_top data = Some x -> x :: heap_pop data ≡ₚ data.
Proof.
  destruct data as [|y data]; [done|]. simpl. intros [= ->]. unfold heap_pop.
  destruct (last (x :: data)) as [b|] eqn:Hl; [|by apply last_None in Hl].
  destruct data as [|z data _] using rev_ind; [done|].
  rewrite app_comm_cons, last_snoc in Hl. injection Hl as ->.
  change (<[0 := b]> (x :: data ++ [b])) with ((b :: data) ++ [b]). rewrite removelast_last.
  unfold heap_bubble_down. rewrite heap_bubble_down_loop_perm. constructor.
  apply Permutation_cons_append.
Qed.

(** ** The loops end within the fuel they are given *)
Lemma heap_bubble_up_fuel fuel data idx :
  idx <= fuel -> heap_bubble_up_loop fuel data idx = heap_bubble_up data idx.
Proof.
  unfold heap_bubble_up. revert data fuel. induction idx as [idx IH] using lt_wf_ind.
  intros data fuel Hf. destruct idx as [|idx].
  - destruct fuel; done.
  - destruct fuel as [|fuel]; [lia|]. cbn [heap_bubble_up_loop].
    destruct (Nat.ltb 0 (S idx)); [|done]. repeat case_match; try done.
    pose proof (heap_parent_lt (S idx) ltac:(lia)).
    rewrite (IH (heap_parent (S idx))) by lia. symmetry. apply IH; lia.
Qed.

Lemma heap_pick_in data c b : heap_pick data c b = b \/ heap_pick data c b = c /\ c < length data.
Proof.
  unfold heap_pick. repeat case_match; auto. right. eauto using lookup_lt_Some.
Qed.

Lemma heap_bubble_down_fuel fuel fuel' data idx :
  length data <= fuel + idx -> length data <= fuel' + idx ->
  heap_bubble_down_loop fuel data idx = heap_bubble_down_loop fuel' data idx.
Proof.
  revert fuel' data idx. induction fuel as [|fuel IH]; intros fuel' data idx Hf Hf'.
  - destruct fuel' as [|fuel']; [done|]. cbn [heap_bubble_down_loop].
    destruct (heap_pick_in data (2 * idx + 1) idx) as [E|[E ?]]; [|lia]. rewrite E.
    destruct (heap_pick_in data (2 * idx + 2) idx) as [E2|[E2 ?]]; [|lia]. rewrite E2.
    by rewrite Nat.eqb_refl.
  - destruct fuel' as [|fuel'].
    + cbn [heap_bubble_down_loop].
      destruct (heap_pick_in data (2 * idx + 1) idx) as [E|[E ?]]; [|lia]. rewrite E.
      destruct (heap_pick_in data (2 * idx + 2) idx) as [E2|[E2 ?]]; [|lia]. rewrite E2.
      by rewrite Nat.eqb_refl.
    + cbn [heap_bubble_down_loop]. destruct (Nat.eqb_spec
        (heap_pick data (2 * idx + 2) (heap_pick data (2 * idx + 1) idx)) idx) as [|Hne]; [done|].
      assert (idx < heap_pick data (2 * idx + 2) (heap_pick data (2 * idx + 1) idx)).
      { destruct (heap_pick_in data (2 * idx + 2) (heap_pick data (2 * idx + 1) idx)) as [E|[E ?]]; [|lia].
        rewrite E in *. destruct (heap_pick_in data (2 * idx + 1) idx) as [E2|[E2 ?]]; lia. }
      apply IH; rewrite heap_swap_length; lia.
Qed.

(** ** Heap order *)
Context `{!StrictWeakOrder before}.

(** Heap order everywhere but between [idx] and its parent. *)
Definition up_inv (data : list T) (idx : nat) : Prop :=
  (forall i, 0 < i -> i ≠ idx -> heap_rel data i) /\
  (forall c x g, 0 < c -> heap_parent c = idx -> 0 < idx ->
     data !! c = Some x -> data !! heap_parent idx = Some g -> before x g = false).

(** Heap order everywhere but between [idx] and its children. *)
Definition down_inv (data : list T) (idx : nat) : Prop :=
  (forall i, 0 < i -> heap_parent i ≠ idx -> heap_rel data i) /\
  (forall c x g, 0 < c -> heap_parent c = idx -> 0 < idx ->
     data !! c = Some x -> data !! heap_parent idx = Some g -> before x g = false).

Lemma up_inv_step data idx x p :
  up_inv data idx -> 0 < idx ->
  data !! idx = Some x -> data !! heap_parent idx = Some p -> before x p = true ->
  up_inv (heap_swap data idx (heap_parent idx)) (heap_parent idx).
Proof.
  intros [HA HB] Hidx Hx Hp Hbefore.
  pose proof (heap_parent_lt idx Hidx) as Hlt.
  assert (forall k, heap_swap data idx (heap_parent idx) !! k =
    if decide (k = idx) then Some p else if decide (k = heap_parent idx) then Some x else data !! k)
    as Hlk by (intros; apply heap_swap_lookup; [done..|lia]).
  pose proof (before_asym _ _ Hbefore) as Hpx.
  split.
  - intros i Hi Hne y q. rewrite !Hlk. intros Hy Hq.
    pose proof (heap_parent_lt i Hi).
    repeat case_decide; simplify_eq; try congruence.
    + eapply HB; eauto.
    + apply (not_before_trans _ p); [|done]. eapply (HA i); eauto; congruence.
    + eapply HA; eauto.
  - intros c y g Hc Hpar Hpos. rewrite !Hlk.
    pose proof (heap_parent_lt _ Hpos).
    intros Hy Hg. repeat case_decide; simplify_eq; try lia.
    + eapply HA; eauto; lia.
    + apply (not_before_trans _ p); [eapply (HA c); eauto; congruence|].
      eapply (HA (heap_parent idx)); eauto; lia.
Qed.

Lemma heap_bubble_up_loop_ok fuel data idx :
  idx <= fuel -> up_inv data idx -> heap_ok (heap_bubble_up_loop fuel data idx).
Proof.
  revert data idx. induction fuel as [|fuel IH]; intros data idx Hf Hinv.
  - intros i Hi. apply Hinv; lia.
  - cbn [heap_bubble_up_loop]. destruct (Nat.ltb_spec 0 idx) as [Hpos|].
    + pose proof (heap_parent_lt idx Hpos).
      destruct (data !! idx) as [x|] eqn:Hx;
        [destruct (data !! heap_parent idx) as [p|] eqn:Hp; [destruct (before x p) eqn:Hb|]|].
      1: { apply IH; [lia|]. eapply up_inv_step; eauto. }
      all: intros i Hi; destruct (decide (i = idx)) as [->|]; [|by apply Hinv].
      all: intros y q Hy Hq; congruence.
    + intros i Hi. apply Hinv; lia.
Qed.

Lemma heap_pick_cases data c b y :
  data !! b = Some y ->
  (heap_pick data c b = b /\ forall z, data !! c = Some z -> before z y = false) \/
  (exists z, data !! c = Some z /\ before z y = true /\ heap_pick data c b = c).
Proof.
  intros Hy. unfold heap_pick. rewrite Hy.
  destruct (data !! c) as [z|]; [|by left]. destruct (before z y) eqn:Hb; [right; eauto|].
  left. split; [done|]. by intros ? [= <-].
Qed.

(** What the two comparisons of [bubble_down] choose. *)
Lemma heap_pick_spec data idx x best :
  data !! idx = Some x ->
  heap_pick data (2 * idx + 2) (heap_pick data (2 * idx + 1) idx) = best ->
  (best = idx /\ forall c y, 0 < c -> heap_parent c = idx -> data !! c = Some y -> before y x = false) \/
  (exists y, data !! best = Some y /\ 0 < best /\ idx < best /\ heap_parent best = idx /\ before y x = true /\
     forall c z, 0 < c -> heap_parent c = idx -> data !! c = Some z -> before z y = false).
Proof.
  intros Hx <-.
  assert (forall c, 0 < c -> heap_parent c = idx -> c = 2 * idx + 1 \/ c = 2 * idx + 2) as Hcs
    by (intros; by apply heap_parent_inv).
  destruct (heap_pick_cases data (2 * idx + 1) idx x Hx) as [[-> Hl]|(l & Hl & Hlx & ->)].
  - destruct (heap_pick_cases data (2 * idx + 2) idx x Hx) as [[-> Hr]|(r & Hr & Hrx & ->)].
    + left. split; [done|]. intros c y Hc Hp. destruct (Hcs c Hc Hp) as [->| ->]; auto.
    + right. exists r. rewrite heap_parent_right. repeat (split; [done || lia|]).
      intros c z Hc Hp Hz. destruct (Hcs c Hc Hp) as [->| ->].
      * apply (not_before_trans _ x); [by apply Hl|by apply before_asym].
      * simplify_eq. apply before_irrefl.
  - right. destruct (heap_pick_cases data (2 * idx + 2) (2 * idx + 1) l Hl) as [[-> Hr]|(r & Hr & Hrl & ->)].
    + exists l. rewrite heap_parent_left. repeat (split; [done || lia|]).
      intros c z Hc Hp Hz. destruct (Hcs c Hc Hp) as [->| ->]; [simplify_eq; apply before_irrefl|auto].
    + exists r. rewrite heap_parent_right. split; [done|]. split; [lia|]. split; [lia|]. split; [done|]. split.
      * destruct (before r x) eqn:Hrx; [done|].
        pose proof (not_before_trans _ _ _ Hrx (before_asym _ _ Hlx)). congruence.
      * intros c z Hc Hp Hz. destruct (Hcs c Hc Hp) as [->| ->]; simplify_eq;
          [by apply before_asym|apply before_irrefl].
Qed.

Lemma down_inv_step data idx x best y :
  down_inv data idx -> data !! idx = Some x -> data !! best = Some y -> 0 < best -> idx < best ->
  heap_parent best = idx -> before y x = true ->
  (forall c z, 0 < c -> heap_parent c = idx -> data !! c = Some z -> before z y = false) ->
  down_inv (heap_swap data idx best) best.
Proof.
  intros [HA HB] Hx Hy Hpos Hlt Hpar Hb Hbest.
  assert (forall k, heap_swap data idx best !! k =
    if decide (k = idx) then Some y else if decide (k = best) then Some x else data !! k)
    as Hlk by (intros; apply heap_swap_lookup; [done..|lia]).
  split.
  - intros i Hi Hne u v. rewrite !Hlk. pose proof (heap_parent_lt i Hi).
    intros Hu Hv. repeat case_decide; simplify_eq; try lia.
    all: first [by apply before_asym | by eapply (Hbest i) | by eapply (HB best) | by eapply (HA i)].
  - intros c u v Hc Hpc _. rewrite !Hlk. pose proof (heap_parent_lt c Hc).
    intros Hu Hv. repeat case_decide; simplify_eq; try lia.
    eapply (HA c); eauto; lia || congruence.
Qed.

Lemma heap_bubble_down_loop_ok fuel data idx :
  length data <= fuel + idx -> down_inv data idx -> heap_ok (heap_bubble_down_loop fuel data idx).
Proof.
  revert data idx. induction fuel as [|fuel IH]; intros data idx Hf Hinv.
  - cbn [heap_bubble_down_loop]. intros i Hi y q Hy Hq.
    destruct (decide (heap_parent i = idx)) as [Hp|].
    + apply lookup_lt_Some in Hq. lia.
    + by eapply (proj1 Hinv i).
  - cbn [heap_bubble_down_loop]. destruct (data !! idx) as [x|] eqn:Hx.
    + destruct (heap_pick_spec data idx x _ Hx eq_refl) as
        [[-> Hc]|(y & Hy & Hpos & Hlt & Hpar & Hb & Hc)].
      * rewrite Nat.eqb_refl. intros i Hi u v Hu Hv.
        destruct (decide (heap_parent i = idx)) as [Hp|]; [|by eapply (proj1 Hinv i)].
        rewrite Hp in Hv. simplify_eq. by eapply Hc.
      * destruct (Nat.eqb_spec (heap_pick data (2 * idx + 2) (heap_pick data (2 * idx + 1) idx)) idx);
          [lia|].
        apply IH; [rewrite heap_swap_length; lia|]. eapply down_inv_step; eauto.
    + assert (length data <= idx) by by apply lookup_ge_None.
      assert (heap_ok data) as Hok.
      { intros i Hi u v Hu Hv. destruct (decide (heap_parent i = idx)) as [Hp|]; [|by eapply (proj1 Hinv i)].
        apply lookup_lt_Some in Hv. lia. }
      assert (heap_pick data (2 * idx + 2) (heap_pick data (2 * idx + 1) idx) = idx) as ->.
      { destruct (heap_pick_in data (2 * idx + 1) idx) as [->|[-> ?]]; [|lia].
        destruct (heap_pick_in data (2 * idx + 2) idx) as [->|[-> ?]]; [done|lia]. }
      by rewrite Nat.eqb_refl.
Qed.

(** ** Operations keep heap order *)
Lemma heap_push_ok data x : heap_ok data -> heap_ok (heap_push data x).
Proof.
  intros Hok. unfold heap_push, heap_bubble_up. apply heap_bubble_up_loop_ok; [done|].
  rewrite length_app. simpl. replace (length data + 1 - 1) with (length data) by lia. split.
  - intros i Hi Hne y p Hy Hp. pose proof (heap_parent_lt i Hi).
    assert (i < length data).
    { apply lookup_lt_Some in Hy. rewrite length_app in Hy. simpl in Hy. lia. }
    rewrite lookup_app_l in Hy, Hp by lia. by eapply Hok.
  - intros c y g Hc Hp Hpos Hy. apply lookup_lt_Some in Hy. rewrite length_app in Hy. simpl in Hy.
    pose proof (heap_parent_lt c Hc). lia.
Qed.

Lemma heap_pop_ok data : heap_ok data -> heap_ok (heap_pop data).
Proof.
  intros Hok. unfold heap_pop. destruct (last data) as [b|] eqn:Hl; [|done].
  destruct data as [|x data]; [done|].
  destruct data as [|z data _] using rev_ind; [intros i Hi u v Hu; done|].
  change (<[0 := b]> (x :: data ++ [z])) with ((b :: data) ++ [z]). rewrite removelast_last.
  unfold heap_bubble_down. apply heap_bubble_down_loop_ok; [lia|]. split; [|lia].
  intros i Hi Hne u v Hu Hv. destruct i as [|i]; [lia|].
  destruct (heap_parent (S i)) as [|j] eqn:Hj; [done|]. simpl in Hu, Hv.
  eapply (Hok (S i)); [lia| |rewrite Hj]; simpl; rewrite lookup_app_l; eauto using lookup_lt_Some.
Qed.

(** The top goes before nothing it should not: no element goes before it. *)
Lemma heap_top_best data x y : heap_ok data -> heap_top data = Some x -> y ∈ data -> before y x = false.
Proof.
  intros Hok Ht [i Hi]%list_elem_of_lookup.
  assert (data !! 0 = Some x) as H0 by by destruct data.
  revert y Hi. induction i as [i IH] using lt_wf_ind. intros y Hi.
  destruct i as [|i]; [simplify_eq; apply before_irrefl|].
  pose proof (heap_parent_lt (S i) ltac:(lia)) as Hlt.
  destruct (data !! heap_parent (S i)) as [p|] eqn:Hp.
  - apply (not_before_trans _ p); [by eapply (Hok (S i)); eauto; lia|by eapply IH].
  - apply lookup_ge_None in Hp. apply lookup_lt_Some in Hi. lia.
Qed.

Lemma heap_push_not_nil data x : heap_push data x <> [].
Proof. intros E. pose proof (heap_push_perm data x) as H. rewrite E in H. by apply Permutation_nil_cons in H. Qed.

Lemma heap_push_length data x : length (heap_push data x) = S (length data).
Proof. by rewrite heap_push_perm. Qed.

Lemma heap_pop_length data : length (heap_pop data) = length data - 1.
Proof.
  destruct (heap_top data) as [x|] eqn:Ht; [|by destruct data].
  pose proof (Permutation_length (heap_pop_perm data x Ht)). simpl in *. lia.
Qed.

Lemma heap_empty_top data : heap_empty data = false -> is_Some (heap_top data).
Proof. destruct data; [done|]. simpl. eauto. Qed.
End Heap.

(** ** The two templates *)
Section Templates.
Context {T : Type} `{CppOrd T}.

Definition MinHeap_push : list T -> T -> list T := heap_push op_lt.
Definition MinHeap_pop : list T -> list T := heap_pop op_lt.
Definition MinHeap_top : list T -> option T := heap_top.
Definition MinHeap_empty : list T -> bool := heap_empty.
Definition MinHeap_size : list T -> nat := heap_size.
Definition MinHeap_bubble_up : list T -> nat -> list T := heap_bubble_up op_lt.
Definition MinHeap_bubble_down : list T -> nat -> list T := heap_bubble_down op_lt.

Definition MaxHeap_push : list T -> T -> list T := heap_push op_gt.
Definition MaxHeap_pop : list T -> list T := heap_pop op_gt.
Definition MaxHeap_top : list T -> option T := heap_top.
Definition MaxHeap_empty : list T -> bool := heap_empty.
Definition MaxHeap_size : list T -> nat := heap_size.
Definition MaxHeap_bubble_up : list T -> nat -> list T := heap_bubble_up op_gt.
Definition MaxHeap_bubble_down : list T -> nat -> list T := heap_bubble_down op_gt.
End Templates.

(** Operators that compare an integer key are strict weak orders. *)
Lemma swo_of_key {T} (key : T -> Z) (before : T -> T -> bool) :
  (forall x y, before x y = Z.ltb (key x) (key y)) -> StrictWeakOrder before.
Proof. intros H. split; intros *; rewrite !H; lia. Qed.
