(* ===== verification/Manifest.v ===== *)
(** * [src/plugins/manifest/manifest.hpp]: the host parameters of a plugin

    [Symbol] and [HostParams] with the source's fields; [std::optional] is [option],
    [int] and [int64_t] are integers. *)
From Stdlib Require Import ZArith.
From stdpp Require Import base list strings.
From S2P Require Import Prelude Double.
Open Scope Z_scope.

Record Symbol : Type := mkSymbol {
  Symbol_primary_ : bool;
  Symbol_timespan_ : Z;
  Symbol_symbol_ : string;
  Symbol_timespan_unit_ : string
}.

Record HostParams : Type := mkHostParams {
  market_hours_only_ : option bool;
  allow_fractional_shares_ : option bool;
  monte_carlo_runs_ : Z;
  monte_carlo_seed_ : Z;
  commission_ : option double;
  slippage_ : option double;
  initial_capital_ : Z;
  commission_type_ : option string;
  slippage_model_ : option string;
  default_currency_ : option string;
  timezone_ : option string;
  optimization_mode_ : option string;
  backtest_start_datetime_ : string;
  backtest_end_datetime_ : string;
  symbols_ : list Symbol;
  position_sizing_method_ : option string;
  position_size_value_ : option double;
  max_position_size_ : option double;
  use_stop_loss_ : option bool;
  stop_loss_pct_ : option double;
  use_take_profit_ : option bool;
  take_profit_pct_ : option double;
  fill_max_pct_of_volume_ : option double;
  risk_free_rate_ : option double;
  allow_short_selling_ : option bool;
  initial_margin_pct_ : option double;
  max_leverage_ : option double
}.

(** [opt.value_or(d)] *)
Definition value_or {A : Type} (o : option A) (d : A) : A := default d o.
