(* ===== verification/Abi.v ===== *)
(** * [src/plugins/abi/abi.h]: the C structs exchanged with plugins

    A [const char*] is the string it points to.  A pointer and its count are the
    list of the elements they delimit.  A tagged union keeps its tag as an integer
    (a plugin may write any value there) and one view per member; code reads the
    view its tag selects. *)
From Stdlib Require Import ZArith.
From stdpp Require Import base list strings.
From S2P Require Import Prelude Double.
Open Scope Z_scope.

Definition PLUGIN_API_VERSION : Z := 1.

Definition EXIT_ORDER_STOP_LOSS : Z := 0.
Definition EXIT_ORDER_TAKE_PROFIT : Z := 1.
Definition INSTRUCTION_TYPE_SIGNAL : Z := 0.
Definition INSTRUCTION_TYPE_ORDER : Z := 1.

Record CFill : Type := mkCFill {
  CFill_quantity_ : double;
  CFill_price_ : Z;
  CFill_created_at_ns_ : Z;
  CFill_symbol_ : string;
  CFill_uuid_ : string;
  CFill_action_ : string
}.

Record CStopLossExitOrder : Type := mkCStopLossExitOrder {
  CStopLossExitOrder_is_triggered_ : bool;
  CStopLossExitOrder_trigger_quantity_ : double;
  CStopLossExitOrder_stop_loss_price_ : Z;
  CStopLossExitOrder_price_ : Z;
  CStopLossExitOrder_created_at_ns_ : Z;
  CStopLossExitOrder_symbol_ : string;
  CStopLossExitOrder_fill_uuid_ : string
}.

Record CTakeProfitExitOrder : Type := mkCTakeProfitExitOrder {
  CTakeProfitExitOrder_is_triggered_ : bool;
  CTakeProfitExitOrder_trigger_quantity_ : double;
  CTakeProfitExitOrder_take_profit_price_ : Z;
  CTakeProfitExitOrder_price_ : Z;
  CTakeProfitExitOrder_created_at_ns_ : Z;
  CTakeProfitExitOrder_symbol_ : string;
  CTakeProfitExitOrder_fill_uuid_ : string
}.

(** The host writes exactly one member of this union and the matching tag. *)
Inductive CExitOrder : Type :=
| CExitOrder_stop_loss_ (d : CStopLossExitOrder)
| CExitOrder_take_profit_ (d : CTakeProfitExitOrder).

Definition CExitOrder_type_ (o : CExitOrder) : Z :=
  match o with
  | CExitOrder_stop_loss_ _ => EXIT_ORDER_STOP_LOSS
  | CExitOrder_take_profit_ _ => EXIT_ORDER_TAKE_PROFIT
  end.

Record CPosition : Type := mkCPosition {
  CPosition_symbol_ : string;
  CPosition_quantity_ : double;
  CPosition_average_price_ : double
}.

Record CSignal : Type := mkCSignal {
  CSignal_symbol_ : string;
  CSignal_action_ : string
}.

Record COrder : Type := mkCOrder {
  COrder_symbol_ : string;
  COrder_action_ : string;
  COrder_quantity_ : double;
  COrder_leverage_ : double;
  COrder_limit_price_ : Z;
  COrder_stop_loss_price_ : Z;
  COrder_take_profit_price_ : Z;
  COrder_order_type_ : string
}.

(** Written by the plugin: the tag selects the view the host reads. *)
Record CInstruction : Type := mkCInstruction {
  CInstruction_type_ : Z;
  CInstruction_signal_ : CSignal;
  CInstruction_order_ : COrder
}.

Record CEquitySnapshot : Type := mkCEquitySnapshot {
  CEquitySnapshot_timestamp_ns_ : Z;
  CEquitySnapshot_equity_ : Z;
  CEquitySnapshot_return_ : double;
  CEquitySnapshot_max_drawdown_ : double;
  CEquitySnapshot_sharpe_ratio_ : double;
  CEquitySnapshot_sortino_ratio_ : double;
  CEquitySnapshot_calmar_ratio_ : double;
  CEquitySnapshot_tail_ratio_ : double;
  CEquitySnapshot_value_at_risk_ : double;
  CEquitySnapshot_conditional_value_at_risk_ : double
}.

Record CState : Type := mkCState {
  CState_cash_ : Z;
  CState_positions_ : list CPosition;
  CState_positions_count_ : nat;
  CState_new_exit_orders_ : list CExitOrder;
  CState_new_exit_orders_count_ : nat;
  CState_new_fills_ : list CFill;
  CState_new_fills_count_ : nat;
  CState_equity_curve_ : list CEquitySnapshot;
  CState_equity_curve_count_ : nat
}.

Record CBar : Type := mkCBar {
  CBar_symbol_ : string;
  CBar_unix_ts_ns_ : Z;
  CBar_open_ : double;
  CBar_high_ : double;
  CBar_low_ : double;
  CBar_close_ : double;
  CBar_volume_ : double
}.

(** [instructions_] and [instructions_count_] are one list; a null [message_] is
    [None]. *)
Record PluginResult : Type := mkPluginResult {
  PluginResult_code_ : Z;
  PluginResult_message_ : option string;
  PluginResult_instructions_ : list CInstruction
}.
