(* ===== verification/StockApi.v ===== *)
(** * [src/http/api/stock_api.hpp]: the bars the simulators consume *)
From Stdlib Require Import ZArith.
From stdpp Require Import base list strings.
From S2P Require Import Prelude Double.
Open Scope Z_scope.

Record AggregateBarsArgs : Type := mkAggregateBarsArgs {
  AggregateBarsArgs_timespan_ : Z;
  AggregateBarsArgs_symbol_ : string;
  AggregateBarsArgs_from_ : string;
  AggregateBarsArgs_to_ : string;
  AggregateBarsArgs_timespan_unit_ : string
}.

Record AggregateBarResult : Type := mkAggregateBarResult {
  bar_symbol_ : string;
  bar_is_otc_ : bool;
  bar_tx_count_ : Z;
  bar_volume_ : double;
  bar_volume_weighted_price_ : double;
  bar_open_ : double;
  bar_close_ : double;
  bar_high_ : double;
  bar_low_ : double;
  bar_unix_ts_ns_ : Z
}.

Record AggregateBars : Type := mkAggregateBars {
  bars_adjusted_ : bool;
  bars_query_count_ : Z;
  bars_result_count_ : Z;
  bars_ticker_ : string;
  bars_results_ : list AggregateBarResult
}.
