(* ===== verification/Models.v ===== *)
(** * [src/simulators/back_test/models.hpp]: the simulator's data

    One record per struct, its fields prefixed with the struct's name; variants are
    inductive types.  A constructor that reads the system clock takes the value
    read as an argument, and [Fill]'s takes the UUID that [create_uuid()] returned. *)
From Stdlib Require Import ZArith Lia.
From stdpp Require Import base tactics list gmap strings.
From S2P Require Import Prelude Double Money Heap Abi.
Open Scope Z_scope.

Definition NULL_MARKET_TRIGGER_PRICE : Z := INT64_MIN.

Record Signal : Type := mkSignal {
  Signal_created_at_ns_ : Z;
  Signal_symbol_ : string;
  Signal_action_ : string
}.

Definition Signal_is_buy (s : Signal) : bool := String.eqb (Signal_action_ s) BUY.
Definition Signal_is_sell (s : Signal) : bool := String.eqb (Signal_action_ s) SELL.

(** [explicit Signal(const CSignal&)] *)
Definition Signal_of_CSignal (now : Z) (inst : CSignal) : Signal :=
  mkSignal now (CSignal_symbol_ inst) (CSignal_action_ inst).

Record Order : Type := mkOrder {
  Order_is_exit_order_ : bool;
  Order_quantity_ : double;
  Order_created_at_ns_ : Z;
  Order_symbol_ : string;
  Order_action_ : string;
  Order_order_type_ : string;
  Order_source_fill_uuid_ : option string;
  Order_limit_price_ : option Money;
  Order_stop_loss_price_ : option Money;
  Order_take_profit_price_ : option Money;
  Order_leverage_ : option double
}.

Definition Order_is_buy (o : Order) : bool := String.eqb (Order_action_ o) BUY.
Definition Order_is_sell (o : Order) : bool := String.eqb (Order_action_ o) SELL.

Definition has_value {A : Type} (o : option A) : bool :=
  match o with Some _ => true | None => false end.

Definition Order_is_limit_order (o : Order) : bool :=
  String.eqb (Order_order_type_ o) LIMIT && has_value (Order_limit_price_ o).
Definition Order_is_market_order (o : Order) : bool :=
  String.eqb (Order_order_type_ o) MARKET || negb (has_value (Order_limit_price_ o)).

Definition trigger_price (p : Z) : option Money :=
  if p =? NULL_MARKET_TRIGGER_PRICE then None else Some (mkMoney p).

(** [explicit Order(const COrder&)] *)
Definition Order_of_COrder (now : Z) (inst : COrder) : Order :=
  {| Order_is_exit_order_ := false;
     Order_quantity_ := COrder_quantity_ inst;
     Order_created_at_ns_ := now;
     Order_symbol_ := COrder_symbol_ inst;
     Order_action_ := COrder_action_ inst;
     Order_order_type_ := COrder_order_type_ inst;
     Order_source_fill_uuid_ := None;
     Order_limit_price_ := trigger_price (COrder_limit_price_ inst);
     Order_stop_loss_price_ := trigger_price (COrder_stop_loss_price_ inst);
     Order_take_profit_price_ := trigger_price (COrder_take_profit_price_ inst);
     Order_leverage_ := if dleb (COrder_leverage_ inst) dzero then None else Some (COrder_leverage_ inst) |}.

(** The member-wise constructor [Order(quantity, created_at_ns, ...)]. *)
Definition Order_make (quantity : double) (created_at_ns : Z) (symbol action order_type : string)
    (limit_price stop_loss_price take_profit_price : option Money) : Order :=
  {| Order_is_exit_order_ := false;
     Order_quantity_ := quantity;
     Order_created_at_ns_ := created_at_ns;
     Order_symbol_ := symbol;
     Order_action_ := action;
     Order_order_type_ := order_type;
     Order_source_fill_uuid_ := None;
     Order_limit_price_ := limit_price;
     Order_stop_loss_price_ := stop_loss_price;
     Order_take_profit_price_ := take_profit_price;
     Order_leverage_ := None |}.

(** [order.is_exit_order_ = true; order.source_fill_uuid_ = uuid;] *)
Definition Order_as_exit (o : Order) (uuid : string) : Order :=
  {| Order_is_exit_order_ := true;
     Order_quantity_ := Order_quantity_ o;
     Order_created_at_ns_ := Order_created_at_ns_ o;
     Order_symbol_ := Order_symbol_ o;
     Order_action_ := Order_action_ o;
     Order_order_type_ := Order_order_type_ o;
     Order_source_fill_uuid_ := Some uuid;
     Order_limit_price_ := Order_limit_price_ o;
     Order_stop_loss_price_ := Order_stop_loss_price_ o;
     Order_take_profit_price_ := Order_take_profit_price_ o;
     Order_leverage_ := Order_leverage_ o |}.

(** [partial_order.quantity_ = ...; partial_order.created_at_ns_ = ...;] *)
Definition Order_with_quantity (o : Order) (quantity : double) (created_at_ns : Z) : Order :=
  {| Order_is_exit_order_ := Order_is_exit_order_ o;
     Order_quantity_ := quantity;
     Order_created_at_ns_ := created_at_ns;
     Order_symbol_ := Order_symbol_ o;
     Order_action_ := Order_action_ o;
     Order_order_type_ := Order_order_type_ o;
     Order_source_fill_uuid_ := Order_source_fill_uuid_ o;
     Order_limit_price_ := Order_limit_price_ o;
     Order_stop_loss_price_ := Order_stop_loss_price_ o;
     Order_take_profit_price_ := Order_take_profit_price_ o;
     Order_leverage_ := Order_leverage_ o |}.

Inductive Instruction : Type :=
| Instruction_Signal (s : Signal)
| Instruction_Order (o : Order).

Record Fill : Type := mkFill {
  Fill_quantity_ : double;
  Fill_leverage_ : double;
  Fill_created_at_ns_ : Z;
  Fill_price_ : Money;
  Fill_margin_used_ : Money;
  Fill_symbol_ : string;
  Fill_uuid_ : string;
  Fill_action_ : string
}.

(** [Fill(symbol, action, quantity, price, created_at_ns, leverage, margin_used)] *)
Definition Fill_make (uuid symbol action : string) (quantity : double) (price : Money)
    (created_at_ns : Z) (leverage : double) (margin_used : Money) : Fill :=
  {| Fill_quantity_ := quantity;
     Fill_leverage_ := leverage;
     Fill_created_at_ns_ := created_at_ns;
     Fill_price_ := price;
     Fill_margin_used_ := margin_used;
     Fill_symbol_ := symbol;
     Fill_uuid_ := uuid;
     Fill_action_ := action |}.

Definition Fill_is_buy (f : Fill) : bool := String.eqb (Fill_action_ f) BUY.
Definition Fill_is_sell (f : Fill) : bool := String.eqb (Fill_action_ f) SELL.

Record StopLossExitOrder : Type := mkStopLossExitOrder {
  StopLossExitOrder_is_triggered_ : bool;
  StopLossExitOrder_is_short_position_ : bool;
  StopLossExitOrder_trigger_quantity_ : double;
  StopLossExitOrder_stop_loss_price_ : Money;
  StopLossExitOrder_price_ : Money;
  StopLossExitOrder_created_at_ns_ : Z;
  StopLossExitOrder_symbol_ : string;
  StopLossExitOrder_fill_uuid_ : string
}.

Definition StopLossExitOrder_make (symbol : string) (quantity : double) (stop_loss_price price : Money)
    (created_at_ns : Z) (fill_uuid : string) (is_short_position : bool) : StopLossExitOrder :=
  {| StopLossExitOrder_is_triggered_ := false;
     StopLossExitOrder_is_short_position_ := is_short_position;
     StopLossExitOrder_trigger_quantity_ := quantity;
     StopLossExitOrder_stop_loss_price_ := mkMoney (to_abi_int64 stop_loss_price);
     StopLossExitOrder_price_ := mkMoney (to_abi_int64 price);
     StopLossExitOrder_created_at_ns_ := created_at_ns;
     StopLossExitOrder_symbol_ := symbol;
     StopLossExitOrder_fill_uuid_ := fill_uuid |}.

Definition StopLossExitOrder_to_close_instruction (o : StopLossExitOrder) : Order :=
  let action := if StopLossExitOrder_is_short_position_ o then BUY else SELL in
  let order := Order_make (StopLossExitOrder_trigger_quantity_ o) (StopLossExitOrder_created_at_ns_ o)
                 (StopLossExitOrder_symbol_ o) action "market" None None None in
  Order_as_exit order (StopLossExitOrder_fill_uuid_ o).

(** [exit_order.trigger_quantity_ -= quantity_sold] *)
Definition StopLossExitOrder_reduce (o : StopLossExitOrder) (quantity_sold : double) : StopLossExitOrder :=
  {| StopLossExitOrder_is_triggered_ := StopLossExitOrder_is_triggered_ o;
     StopLossExitOrder_is_short_position_ := StopLossExitOrder_is_short_position_ o;
     StopLossExitOrder_trigger_quantity_ := dsub (StopLossExitOrder_trigger_quantity_ o) quantity_sold;
     StopLossExitOrder_stop_loss_price_ := StopLossExitOrder_stop_loss_price_ o;
     StopLossExitOrder_price_ := StopLossExitOrder_price_ o;
     StopLossExitOrder_created_at_ns_ := StopLossExitOrder_created_at_ns_ o;
     StopLossExitOrder_symbol_ := StopLossExitOrder_symbol_ o;
     StopLossExitOrder_fill_uuid_ := StopLossExitOrder_fill_uuid_ o |}.

Record TakeProfitExitOrder : Type := mkTakeProfitExitOrder {
  TakeProfitExitOrder_is_triggered_ : bool;
  TakeProfitExitOrder_is_short_position_ : bool;
  TakeProfitExitOrder_trigger_quantity_ : double;
  TakeProfitExitOrder_take_profit_price_ : Money;
  TakeProfitExitOrder_price_ : Money;
  TakeProfitExitOrder_created_at_ns_ : Z;
  TakeProfitExitOrder_symbol_ : string;
  TakeProfitExitOrder_fill_uuid_ : string
}.

Definition TakeProfitExitOrder_make (symbol : string) (quantity : double)
    (take_profit_price price : Money) (created_at_ns : Z) (fill_uuid : string)
    (is_short_position : bool) : TakeProfitExitOrder :=
  {| TakeProfitExitOrder_is_triggered_ := false;
     TakeProfitExitOrder_is_short_position_ := is_short_position;
     TakeProfitExitOrder_trigger_quantity_ := quantity;
     TakeProfitExitOrder_take_profit_price_ := mkMoney (to_abi_int64 take_profit_price);
     TakeProfitExitOrder_price_ := mkMoney (to_abi_int64 price);
     TakeProfitExitOrder_created_at_ns_ := created_at_ns;
     TakeProfitExitOrder_symbol_ := symbol;
     TakeProfitExitOrder_fill_uuid_ := fill_uuid |}.

Definition TakeProfitExitOrder_to_close_instruction (o : TakeProfitExitOrder) : Order :=
  let action := if TakeProfitExitOrder_is_short_position_ o then BUY else SELL in
  let order := Order_make (TakeProfitExitOrder_trigger_quantity_ o) (TakeProfitExitOrder_created_at_ns_ o)
                 (TakeProfitExitOrder_symbol_ o) action "market" None None None in
  Order_as_exit order (TakeProfitExitOrder_fill_uuid_ o).

(** [exit_order.trigger_quantity_ -= quantity_sold] *)
Definition TakeProfitExitOrder_reduce (o : TakeProfitExitOrder) (quantity_sold : double) : TakeProfitExitOrder :=
  {| TakeProfitExitOrder_is_triggered_ := TakeProfitExitOrder_is_triggered_ o;
     TakeProfitExitOrder_is_short_position_ := TakeProfitExitOrder_is_short_position_ o;
     TakeProfitExitOrder_trigger_quantity_ := dsub (TakeProfitExitOrder_trigger_quantity_ o) quantity_sold;
     TakeProfitExitOrder_take_profit_price_ := TakeProfitExitOrder_take_profit_price_ o;
     TakeProfitExitOrder_price_ := TakeProfitExitOrder_price_ o;
     TakeProfitExitOrder_created_at_ns_ := TakeProfitExitOrder_created_at_ns_ o;
     TakeProfitExitOrder_symbol_ := TakeProfitExitOrder_symbol_ o;
     TakeProfitExitOrder_fill_uuid_ := TakeProfitExitOrder_fill_uuid_ o |}.

Inductive ExitOrder : Type :=
| ExitOrder_StopLoss (o : StopLossExitOrder)
| ExitOrder_TakeProfit (o : TakeProfitExitOrder).

Record Position : Type := mkPosition {
  Position_symbol_ : string;
  Position_quantity_ : double;
  Position_average_price_ : Money
}.

Record EquitySnapshot : Type := mkEquitySnapshot {
  EquitySnapshot_timestamp_ns_ : Z;
  EquitySnapshot_equity_ : Money;
  EquitySnapshot_return_ : double;
  EquitySnapshot_max_drawdown_ : double;
  EquitySnapshot_sharpe_ratio_ : double;
  EquitySnapshot_sharpe_ratio_rolling_ : double;
  EquitySnapshot_sortino_ratio_ : double;
  EquitySnapshot_sortino_ratio_rolling_ : double;
  EquitySnapshot_calmar_ratio_ : double;
  EquitySnapshot_calmar_ratio_rolling_ : double;
  EquitySnapshot_tail_ratio_ : double;
  EquitySnapshot_tail_ratio_rolling_ : double;
  EquitySnapshot_value_at_risk_ : double;
  EquitySnapshot_value_at_risk_rolling_ : double;
  EquitySnapshot_conditional_value_at_risk_ : double;
  EquitySnapshot_conditional_value_at_risk_rolling_ : double
}.

Record ExecutionResultSuccess : Type := mkExecutionResultSuccess {
  ExecutionResultSuccess_message_ : string;
  ExecutionResultSuccess_cash_delta_ : Money;
  ExecutionResultSuccess_margin_used_ : Money;
  ExecutionResultSuccess_leverage_ : double;
  ExecutionResultSuccess_position_ : Position;
  ExecutionResultSuccess_fill_ : Fill;
  ExecutionResultSuccess_exit_orders_ : list ExitOrder;
  ExecutionResultSuccess_partial_order_ : option Order
}.

Definition ExecutionResultSuccess_make (cash_delta margin_used : Money) (leverage : double)
    (partial_order : option Order) (position : Position) (fill : Fill)
    (exit_orders : list ExitOrder) : ExecutionResultSuccess :=
  {| ExecutionResultSuccess_message_ :=
       if has_value partial_order then "Partial fill" else "Complete fill";
     ExecutionResultSuccess_cash_delta_ := cash_delta;
     ExecutionResultSuccess_margin_used_ := margin_used;
     ExecutionResultSuccess_leverage_ := leverage;
     ExecutionResultSuccess_position_ := position;
     ExecutionResultSuccess_fill_ := fill;
     ExecutionResultSuccess_exit_orders_ := exit_orders;
     ExecutionResultSuccess_partial_order_ := partial_order |}.

Definition is_partial_fill (r : ExecutionResultSuccess) : bool :=
  has_value (ExecutionResultSuccess_partial_order_ r).
Definition has_exit_strategy (r : ExecutionResultSuccess) : bool :=
  match ExecutionResultSuccess_exit_orders_ r with [] => false | _ => true end.

Inductive ExecutionResult : Type :=
| ExecutionResult_Success (r : ExecutionResultSuccess)
| ExecutionResult_Error (message : string).

Record ScheduledOrder : Type := mkScheduledOrder {
  ScheduledOrder_order_ : Order;
  ScheduledOrder_scheduled_fill_at_ns_ : Z
}.

Record LimitBuyOrder : Type := mkLimitBuyOrder {
  LimitBuyOrder_order_ : Order;
  LimitBuyOrder_limit_price_ : Money
}.

Record LimitSellOrder : Type := mkLimitSellOrder {
  LimitSellOrder_order_ : Order;
  LimitSellOrder_limit_price_ : Money
}.

Inductive ScheduledLimitOrder : Type :=
| ScheduledLimitOrder_Buy (o : LimitBuyOrder)
| ScheduledLimitOrder_Sell (o : LimitSellOrder).

(** ** Comparison operators *)
#[export] Instance StopLossExitOrder_ord : CppOrd StopLossExitOrder := {
  op_lt a b := (StopLossExitOrder_stop_loss_price_ a <? StopLossExitOrder_stop_loss_price_ b)%money;
  op_gt a b := (StopLossExitOrder_stop_loss_price_ a >? StopLossExitOrder_stop_loss_price_ b)%money
}.

(** The operators of [TakeProfitExitOrder] are reversed on purpose. *)
#[export] Instance TakeProfitExitOrder_ord : CppOrd TakeProfitExitOrder := {
  op_lt a b := (TakeProfitExitOrder_take_profit_price_ a >? TakeProfitExitOrder_take_profit_price_ b)%money;
  op_gt a b := (TakeProfitExitOrder_take_profit_price_ a <? TakeProfitExitOrder_take_profit_price_ b)%money
}.

(** [ScheduledOrder] declares only [operator<]; its heap is a [MinHeap]. *)
#[export] Instance ScheduledOrder_ord : CppOrd ScheduledOrder := {
  op_lt a b := ScheduledOrder_scheduled_fill_at_ns_ a <? ScheduledOrder_scheduled_fill_at_ns_ b;
  op_gt a b := false
}.

#[export] Instance LimitBuyOrder_ord : CppOrd LimitBuyOrder := {
  op_lt a b := (LimitBuyOrder_limit_price_ a <? LimitBuyOrder_limit_price_ b)%money;
  op_gt a b := (LimitBuyOrder_limit_price_ a >? LimitBuyOrder_limit_price_ b)%money
}.

#[export] Instance LimitSellOrder_ord : CppOrd LimitSellOrder := {
  op_lt a b := (LimitSellOrder_limit_price_ a <? LimitSellOrder_limit_price_ b)%money;
  op_gt a b := (LimitSellOrder_limit_price_ a >? LimitSellOrder_limit_price_ b)%money
}.

(** Every operator a heap of the program uses is a strict weak order. *)
#[export] Instance StopLossExitOrder_lt_swo : StrictWeakOrder (op_lt (T := StopLossExitOrder)).
Proof. apply (swo_of_key (fun o => microdollars_ (StopLossExitOrder_stop_loss_price_ o))). done. Qed.

#[export] Instance TakeProfitExitOrder_gt_swo : StrictWeakOrder (op_gt (T := TakeProfitExitOrder)).
Proof. apply (swo_of_key (fun o => microdollars_ (TakeProfitExitOrder_take_profit_price_ o))). done. Qed.

#[export] Instance ScheduledOrder_lt_swo : StrictWeakOrder (op_lt (T := ScheduledOrder)).
Proof. apply (swo_of_key ScheduledOrder_scheduled_fill_at_ns_). done. Qed.

#[export] Instance LimitBuyOrder_gt_swo : StrictWeakOrder (op_gt (T := LimitBuyOrder)).
Proof.
  apply (swo_of_key (fun o => - microdollars_ (LimitBuyOrder_limit_price_ o))). intros x y.
  simpl. unfold Money_gt. lia.
Qed.

#[export] Instance LimitSellOrder_lt_swo : StrictWeakOrder (op_lt (T := LimitSellOrder)).
Proof. apply (swo_of_key (fun o => microdollars_ (LimitSellOrder_limit_price_ o))). done. Qed.

(** A close instruction carries no protective prices of its own and names the fill
    it closes. *)
Lemma close_instruction_no_triggers o :
  Order_stop_loss_price_ (StopLossExitOrder_to_close_instruction o) = None /\
  Order_take_profit_price_ (StopLossExitOrder_to_close_instruction o) = None.
Proof. done. Qed.

Lemma buy_not_sell a : String.eqb a BUY = true -> String.eqb a SELL = false.
Proof. rewrite String.eqb_eq. by intros ->. Qed.
