(* ===== verification/State.v ===== *)
(** * [src/simulators/back_test/state.hpp]: the portfolio state

    One field per member of [State].  A [std::map] keyed by string is a [gmap];
    [m.at(k)] on an absent key throws [std::out_of_range]. *)
From Stdlib Require Import ZArith.
From stdpp Require Import base tactics list gmap strings.
From S2P Require Import Prelude Double Money Models.
Open Scope Z_scope.

Record CurrentBarPrices : Type := mkCurrentBarPrices {
  close_ : Money;
  open_ : Money;
  high_ : Money;
  low_ : Money
}.

Record State : Type := mkState {
  cash_ : Money;
  margin_in_use_ : Money;
  current_timestamp_ns_ : Z;
  positions_ : gmap string Position;
  current_bar_prices_ : gmap string CurrentBarPrices;
  current_bar_volumes_ : gmap string Z;
  fills_ : list Fill;
  exit_orders_ : list ExitOrder;
  equity_curve_ : list EquitySnapshot;
  new_fills_ : list Fill;
  new_exit_orders_ : list ExitOrder;
  active_buy_fills_ : gmap string double;
  active_sell_fills_ : gmap string double;
  active_margin_for_fills_ : gmap string Money;
  active_leverage_for_fills_ : gmap string double;
  peak_equity_ : Money;
  max_drawdown_ : double
}.

(** ** Assignments to one member *)
Definition set_cash (v : Money) (st : State) : State :=
  mkState v (margin_in_use_ st) (current_timestamp_ns_ st) (positions_ st)
    (current_bar_prices_ st) (current_bar_volumes_ st) (fills_ st) (exit_orders_ st)
    (equity_curve_ st) (new_fills_ st) (new_exit_orders_ st) (active_buy_fills_ st)
    (active_sell_fills_ st) (active_margin_for_fills_ st) (active_leverage_for_fills_ st)
    (peak_equity_ st) (max_drawdown_ st).

Definition set_margin_in_use (v : Money) (st : State) : State :=
  mkState (cash_ st) v (current_timestamp_ns_ st) (positions_ st) (current_bar_prices_ st)
    (current_bar_volumes_ st) (fills_ st) (exit_orders_ st) (equity_curve_ st)
    (new_fills_ st) (new_exit_orders_ st) (active_buy_fills_ st) (active_sell_fills_ st)
    (active_margin_for_fills_ st) (active_leverage_for_fills_ st) (peak_equity_ st)
    (max_drawdown_ st).

Definition set_current_timestamp_ns (v : Z) (st : State) : State :=
  mkState (cash_ st) (margin_in_use_ st) v (positions_ st) (current_bar_prices_ st)
    (current_bar_volumes_ st) (fills_ st) (exit_orders_ st) (equity_curve_ st)
    (new_fills_ st) (new_exit_orders_ st) (active_buy_fills_ st) (active_sell_fills_ st)
    (active_margin_for_fills_ st) (active_leverage_for_fills_ st) (peak_equity_ st)
    (max_drawdown_ st).

Definition set_positions (v : gmap string Position) (st : State) : State :=
  mkState (cash_ st) (margin_in_use_ st) (current_timestamp_ns_ st) v (current_bar_prices_ st)
    (current_bar_volumes_ st) (fills_ st) (exit_orders_ st) (equity_curve_ st)
    (new_fills_ st) (new_exit_orders_ st) (active_buy_fills_ st) (active_sell_fills_ st)
    (active_margin_for_fills_ st) (active_leverage_for_fills_ st) (peak_equity_ st)
    (max_drawdown_ st).

Definition set_current_bar_prices (v : gmap string CurrentBarPrices) (st : State) : State :=
  mkState (cash_ st) (margin_in_use_ st) (current_timestamp_ns_ st) (positions_ st) v
    (current_bar_volumes_ st) (fills_ st) (exit_orders_ st) (equity_curve_ st)
    (new_fills_ st) (new_exit_orders_ st) (active_buy_fills_ st) (active_sell_fills_ st)
    (active_margin_for_fills_ st) (active_leverage_for_fills_ st) (peak_equity_ st)
    (max_drawdown_ st).

Definition set_current_bar_volumes (v : gmap string Z) (st : State) : State :=
  mkState (cash_ st) (margin_in_use_ st) (current_timestamp_ns_ st) (positions_ st)
    (current_bar_prices_ st) v (fills_ st) (exit_orders_ st) (equity_curve_ st)
    (new_fills_ st) (new_exit_orders_ st) (active_buy_fills_ st) (active_sell_fills_ st)
    (active_margin_for_fills_ st) (active_leverage_for_fills_ st) (peak_equity_ st)
    (max_drawdown_ st).

Definition set_fills (v : list Fill) (st : State) : State :=
  mkState (cash_ st) (margin_in_use_ st) (current_timestamp_ns_ st) (positions_ st)
    (current_bar_prices_ st) (current_bar_volumes_ st) v (exit_orders_ st)
    (equity_curve_ st) (new_fills_ st) (new_exit_orders_ st) (active_buy_fills_ st)
    (active_sell_fills_ st) (active_margin_for_fills_ st) (active_leverage_for_fills_ st)
    (peak_equity_ st) (max_drawdown_ st).

Definition set_exit_orders (v : list ExitOrder) (st : State) : State :=
  mkState (cash_ st) (margin_in_use_ st) (current_timestamp_ns_ st) (positions_ st)
    (current_bar_prices_ st) (current_bar_volumes_ st) (fills_ st) v (equity_curve_ st)
    (new_fills_ st) (new_exit_orders_ st) (active_buy_fills_ st) (active_sell_fills_ st)
    (active_margin_for_fills_ st) (active_leverage_for_fills_ st) (peak_equity_ st)
    (max_drawdown_ st).

Definition set_equity_curve (v : list EquitySnapshot) (st : State) : State :=
  mkState (cash_ st) (margin_in_use_ st) (current_timestamp_ns_ st) (positions_ st)
    (current_bar_prices_ st) (current_bar_volumes_ st) (fills_ st) (exit_orders_ st) v
    (new_fills_ st) (new_exit_orders_ st) (active_buy_fills_ st) (active_sell_fills_ st)
    (active_margin_for_fills_ st) (active_leverage_for_fills_ st) (peak_equity_ st)
    (max_drawdown_ st).

Definition set_new_fills (v : list Fill) (st : State) : State :=
  mkState (cash_ st) (margin_in_use_ st) (current_timestamp_ns_ st) (positions_ st)
    (current_bar_prices_ st) (current_bar_volumes_ st) (fills_ st) (exit_orders_ st)
    (equity_curve_ st) v (new_exit_orders_ st) (active_buy_fills_ st)
    (active_sell_fills_ st) (active_margin_for_fills_ st) (active_leverage_for_fills_ st)
    (peak_equity_ st) (max_drawdown_ st).

Definition set_new_exit_orders (v : list ExitOrder) (st : State) : State :=
  mkState (cash_ st) (margin_in_use_ st) (current_timestamp_ns_ st) (positions_ st)
    (current_bar_prices_ st) (current_bar_volumes_ st) (fills_ st) (exit_orders_ st)
    (equity_curve_ st) (new_fills_ st) v (active_buy_fills_ st) (active_sell_fills_ st)
    (active_margin_for_fills_ st) (active_leverage_for_fills_ st) (peak_equity_ st)
    (max_drawdown_ st).

Definition set_active_buy_fills (v : gmap string double) (st : State) : State :=
  mkState (cash_ st) (margin_in_use_ st) (current_timestamp_ns_ st) (positions_ st)
    (current_bar_prices_ st) (current_bar_volumes_ st) (fills_ st) (exit_orders_ st)
    (equity_curve_ st) (new_fills_ st) (new_exit_orders_ st) v (active_sell_fills_ st)
    (active_margin_for_fills_ st) (active_leverage_for_fills_ st) (peak_equity_ st)
    (max_drawdown_ st).

Definition set_active_sell_fills (v : gmap string double) (st : State) : State :=
  mkState (cash_ st) (margin_in_use_ st) (current_timestamp_ns_ st) (positions_ st)
    (current_bar_prices_ st) (current_bar_volumes_ st) (fills_ st) (exit_orders_ st)
    (equity_curve_ st) (new_fills_ st) (new_exit_orders_ st) (active_buy_fills_ st) v
    (active_margin_for_fills_ st) (active_leverage_for_fills_ st) (peak_equity_ st)
    (max_drawdown_ st).

Definition set_active_margin_for_fills (v : gmap string Money) (st : State) : State :=
  mkState (cash_ st) (margin_in_use_ st) (current_timestamp_ns_ st) (positions_ st)
    (current_bar_prices_ st) (current_bar_volumes_ st) (fills_ st) (exit_orders_ st)
    (equity_curve_ st) (new_fills_ st) (new_exit_orders_ st) (active_buy_fills_ st)
    (active_sell_fills_ st) v (active_leverage_for_fills_ st) (peak_equity_ st)
    (max_drawdown_ st).

Definition set_active_leverage_for_fills (v : gmap string double) (st : State) : State :=
  mkState (cash_ st) (margin_in_use_ st) (current_timestamp_ns_ st) (positions_ st)
    (current_bar_prices_ st) (current_bar_volumes_ st) (fills_ st) (exit_orders_ st)
    (equity_curve_ st) (new_fills_ st) (new_exit_orders_ st) (active_buy_fills_ st)
    (active_sell_fills_ st) (active_margin_for_fills_ st) v (peak_equity_ st)
    (max_drawdown_ st).

Definition set_peak_equity (v : Money) (st : State) : State :=
  mkState (cash_ st) (margin_in_use_ st) (current_timestamp_ns_ st) (positions_ st)
    (current_bar_prices_ st) (current_bar_volumes_ st) (fills_ st) (exit_orders_ st)
    (equity_curve_ st) (new_fills_ st) (new_exit_orders_ st) (active_buy_fills_ st)
    (active_sell_fills_ st) (active_margin_for_fills_ st) (active_leverage_for_fills_ st) v
    (max_drawdown_ st).

Definition set_max_drawdown (v : double) (st : State) : State :=
  mkState (cash_ st) (margin_in_use_ st) (current_timestamp_ns_ st) (positions_ st)
    (current_bar_prices_ st) (current_bar_volumes_ st) (fills_ st) (exit_orders_ st)
    (equity_curve_ st) (new_fills_ st) (new_exit_orders_ st) (active_buy_fills_ st)
    (active_sell_fills_ st) (active_margin_for_fills_ st) (active_leverage_for_fills_ st)
    (peak_equity_ st) v.

(** ** Accessors *)
Definition map_at {A : Type} (m : gmap string A) (k : string) : outcome A :=
  match m !! k with
  | Some v => Ret v
  | None => Throw (out_of_range "map::at")
  end.

(** [m.find(k) != m.end()] *)
Definition map_has {A : Type} (m : gmap string A) (k : string) : bool :=
  match m !! k with Some _ => true | None => false end.

Definition get_symbol_close (st : State) (symbol : string) : outcome Money :=
  let* p := map_at (current_bar_prices_ st) symbol in Ret (close_ p).
Definition get_symbol_open (st : State) (symbol : string) : outcome Money :=
  let* p := map_at (current_bar_prices_ st) symbol in Ret (open_ p).
Definition get_symbol_high (st : State) (symbol : string) : outcome Money :=
  let* p := map_at (current_bar_prices_ st) symbol in Ret (high_ p).
Definition get_symbol_low (st : State) (symbol : string) : outcome Money :=
  let* p := map_at (current_bar_prices_ st) symbol in Ret (low_ p).
Definition has_symbol_prices (st : State) (symbol : string) : bool :=
  map_has (current_bar_prices_ st) symbol.
Definition get_symbol_volume (st : State) (symbol : string) : outcome Z :=
  map_at (current_bar_volumes_ st) symbol.
Definition has_symbol_volume (st : State) (symbol : string) : bool :=
  map_has (current_bar_volumes_ st) symbol.
Definition get_symbol_position (st : State) (symbol : string) : outcome Position :=
  map_at (positions_ st) symbol.
Definition get_symbol_position_or (st : State) (symbol : string) (default_position : Position) : Position :=
  match positions_ st !! symbol with
  | Some p => p
  | None => default_position
  end.
Definition has_symbol_position (st : State) (symbol : string) : bool :=
  map_has (positions_ st) symbol.

Lemma map_has_at {A} (m : gmap string A) k :
  map_has m k = true -> exists v, m !! k = Some v /\ map_at m k = Ret v.
Proof. unfold map_has, map_at. destruct (m !! k); [eauto|done]. Qed.
