(* ===== verification/Equity.v ===== *)
(** * [src/simulators/back_test/equity_calculator.cpp] *)
From Stdlib Require Import ZArith Lia.
From stdpp Require Import base tactics list gmap strings.
From S2P Require Import Prelude Double Money Models Manifest State.
Open Scope Z_scope.

(** The profit or loss of one position at the current close; a symbol without
    prices is skipped. *)
Definition position_pnl (st : State) (kv : string * Position) : option Money :=
  match current_bar_prices_ st !! fst kv with
  | Some p =>
      Some ((close_ p - Position_average_price_ (snd kv)) *$ Position_quantity_ (snd kv))%money
  | None => None
  end.

Definition calculate_equity (st : State) : Money :=
  let unrealized_pnl :=
    fold_left (fun acc kv => match position_pnl st kv with
                             | Some pnl => (acc + pnl)%money
                             | None => acc
                             end) (map_in_order (positions_ st)) (0)%money in
  (cash_ st + margin_in_use_ st + unrealized_pnl)%money.

Definition calculate_return (host_params : HostParams) (equity : Money) : double :=
  let initial_capital_money := mkMoney (initial_capital_ host_params) in
  let net_return := (equity - initial_capital_money)%money in
  ddiv (to_dollars net_return) (to_dollars initial_capital_money).

Definition calculate_max_drawdown (st : State) (current_equity : Money) : double :=
  let current_drawdown :=
    if dltb EPSILON (to_dollars (peak_equity_ st))
    then ddiv (to_dollars (peak_equity_ st - current_equity)%money) (to_dollars (peak_equity_ st))
    else dzero in
  dmax current_drawdown (max_drawdown_ st).

Definition calculate_available_margin (st : State) : Money :=
  (calculate_equity st - margin_in_use_ st)%money.
