(* ===== verification/StateOps.v ===== *)
(** * [src/simulators/back_test/state.cpp]: the operations of [State]

    [reduce_active_buy_fills_fifo] and [reduce_active_sell_fills_fifo] are the same
    loop on [active_buy_fills_] and [active_sell_fills_]; it is written once with
    the side as a parameter.  [fifo_plan] is the abstract account of that loop: the
    fills it visits, in order, with the quantity available and the quantity closed.
    The loops of [State], [position_calc] and [executor] are all shown to follow
    it. *)
From Stdlib Require Import ZArith Lia.
From stdpp Require Import base tactics list gmap strings.
From S2P Require Import Prelude Double Money Models Manifest StockApi State Equity.
Open Scope Z_scope.

Inductive side : Type := BuySide | SellSide.

Definition side_matches (s : side) (f : Fill) : bool :=
  match s with BuySide => Fill_is_buy f | SellSide => Fill_is_sell f end.

Definition active_fills (s : side) (st : State) : gmap string double :=
  match s with BuySide => active_buy_fills_ st | SellSide => active_sell_fills_ st end.

Definition set_active_fills (s : side) (m : gmap string double) (st : State) : State :=
  match s with BuySide => set_active_buy_fills m st | SellSide => set_active_sell_fills m st end.

(** ** Operations *)
Definition prepare_initial_state (host_params : HostParams) (st : State) : State :=
  set_max_drawdown dzero
    (set_peak_equity (mkMoney (initial_capital_ host_params))
      (set_margin_in_use (0)%money
        (set_cash (mkMoney (initial_capital_ host_params)) st))).

(** The margin part of the loop body: free the closed proportion of the fill's
    margin and forget the fill when what is left is at most [EPSILON] dollars. *)
Definition release_margin (uuid : string) (available to_close : double) (st : State) : State :=
  match active_margin_for_fills_ st !! uuid with
  | None => st
  | Some total_margin_for_fill =>
      let proportion_closed := ddiv to_close available in
      let margin_to_free := (total_margin_for_fill *$ proportion_closed)%money in
      let st := set_margin_in_use (margin_in_use_ st - margin_to_free)%money st in
      let left := (total_margin_for_fill - margin_to_free)%money in
      let st := set_active_margin_for_fills (<[uuid := left]> (active_margin_for_fills_ st)) st in
      if dleb (to_dollars left) EPSILON
      then set_active_leverage_for_fills (delete uuid (active_leverage_for_fills_ st))
             (set_active_margin_for_fills (delete uuid (active_margin_for_fills_ st)) st)
      else st
  end.

(** The loop body for a fill that is active with quantity [available]. *)
Definition close_fill (s : side) (uuid : string) (available to_close : double) (st : State) : State :=
  let left := dsub available to_close in
  let st := set_active_fills s (<[uuid := left]> (active_fills s st)) st in
  let st := if dleb left EPSILON
            then set_active_fills s (delete uuid (active_fills s st)) st
            else st in
  release_margin uuid available to_close st.

Fixpoint reduce_active_fills_loop (s : side) (symbol : string) (fills : list Fill)
    (remaining : double) (st : State) : State :=
  match fills with
  | [] => st
  | fill :: rest =>
      if dleb remaining EPSILON then st
      else if String.eqb (Fill_symbol_ fill) symbol && side_matches s fill then
        match active_fills s st !! Fill_uuid_ fill with
        | Some available =>
            let to_close := dmin available remaining in
            reduce_active_fills_loop s symbol rest (dsub remaining to_close)
              (close_fill s (Fill_uuid_ fill) available to_close st)
        | None => reduce_active_fills_loop s symbol rest remaining st
        end
      else reduce_active_fills_loop s symbol rest remaining st
  end.

Definition reduce_active_buy_fills_fifo (symbol : string) (quantity : double) (st : State) : State :=
  reduce_active_fills_loop BuySide symbol (fills_ st) quantity st.

Definition reduce_active_sell_fills_fifo (symbol : string) (quantity : double) (st : State) : State :=
  reduce_active_fills_loop SellSide symbol (fills_ st) quantity st.

Definition populate_active_fills (fill : Fill) (current_qty : double) (comparison : bool) (st : State)
  : State * option (string * double) :=
  if negb comparison then (st, Some (Fill_uuid_ fill, Fill_quantity_ fill))
  else
    let diff_qty := dmin (Fill_quantity_ fill) (dabs current_qty) in
    let st :=
      if dltb dzero diff_qty then
        if Fill_is_buy fill
        then reduce_active_sell_fills_fifo (Fill_symbol_ fill) diff_qty st
        else reduce_active_buy_fills_fifo (Fill_symbol_ fill) diff_qty st
      else st in
    let open_qty := dsub (Fill_quantity_ fill) diff_qty in
    if dltb EPSILON open_qty then (st, Some (Fill_uuid_ fill, open_qty)) else (st, None).

(** The block of [update_state] that registers a newly active fill. *)
Definition register_active_fill (r : ExecutionResultSuccess) (fill_uuid : string) (quantity : double)
    (st : State) : State :=
  let fill := ExecutionResultSuccess_fill_ r in
  let st :=
    if Fill_is_buy fill
    then set_active_buy_fills (<[fill_uuid := quantity]> (active_buy_fills_ st)) st
    else if Fill_is_sell fill
    then set_active_sell_fills (<[fill_uuid := quantity]> (active_sell_fills_ st)) st
    else st in
  let proportion := ddiv quantity (Fill_quantity_ fill) in
  let proportional_margin := (ExecutionResultSuccess_margin_used_ r *$ proportion)%money in
  let st := set_active_margin_for_fills
              (<[fill_uuid := proportional_margin]> (active_margin_for_fills_ st)) st in
  let st := set_active_leverage_for_fills
              (<[fill_uuid := ExecutionResultSuccess_leverage_ r]> (active_leverage_for_fills_ st)) st in
  set_margin_in_use (margin_in_use_ st + proportional_margin)%money st.

Definition update_state (r : ExecutionResultSuccess) (st : State) : State :=
  let fill := ExecutionResultSuccess_fill_ r in
  let st := set_cash (cash_ st + ExecutionResultSuccess_cash_delta_ r)%money st in
  let st := set_fills (fills_ st ++ [fill]) st in
  let st := set_new_fills (new_fills_ st ++ [fill]) st in
  let current_qty :=
    match positions_ st !! Fill_symbol_ fill with
    | Some p => Position_quantity_ p
    | None => dzero
    end in
  let comparison := if Fill_is_buy fill then dltb current_qty dzero else dltb dzero current_qty in
  let '(st, active_fills_optional) := populate_active_fills fill current_qty comparison st in
  let st :=
    match active_fills_optional with
    | Some (fill_uuid, quantity) => register_active_fill r fill_uuid quantity st
    | None => st
    end in
  let st := set_exit_orders (exit_orders_ st ++ ExecutionResultSuccess_exit_orders_ r) st in
  let st := set_new_exit_orders (new_exit_orders_ st ++ ExecutionResultSuccess_exit_orders_ r) st in
  let position := ExecutionResultSuccess_position_ r in
  if deqb (Position_quantity_ position) dzero
  then set_positions (delete (Position_symbol_ position) (positions_ st)) st
  else set_positions (<[Position_symbol_ position := position]> (positions_ st)) st.

Definition fresh_snapshot (st : State) (equity : Money) (ret : double) : EquitySnapshot :=
  {| EquitySnapshot_timestamp_ns_ := current_timestamp_ns_ st;
     EquitySnapshot_equity_ := equity;
     EquitySnapshot_return_ := ret;
     EquitySnapshot_max_drawdown_ := max_drawdown_ st;
     EquitySnapshot_sharpe_ratio_ := dzero;
     EquitySnapshot_sharpe_ratio_rolling_ := dzero;
     EquitySnapshot_sortino_ratio_ := dzero;
     EquitySnapshot_sortino_ratio_rolling_ := dzero;
     EquitySnapshot_calmar_ratio_ := dzero;
     EquitySnapshot_calmar_ratio_rolling_ := dzero;
     EquitySnapshot_tail_ratio_ := dzero;
     EquitySnapshot_tail_ratio_rolling_ := dzero;
     EquitySnapshot_value_at_risk_ := dzero;
     EquitySnapshot_value_at_risk_rolling_ := dzero;
     EquitySnapshot_conditional_value_at_risk_ := dzero;
     EquitySnapshot_conditional_value_at_risk_rolling_ := dzero |}.

(** The three assignments to [equity_curve_.back()]. *)
Definition refresh_snapshot (s : EquitySnapshot) (equity : Money) (ret max_drawdown : double)
  : EquitySnapshot :=
  {| EquitySnapshot_timestamp_ns_ := EquitySnapshot_timestamp_ns_ s;
     EquitySnapshot_equity_ := equity;
     EquitySnapshot_return_ := ret;
     EquitySnapshot_max_drawdown_ := max_drawdown;
     EquitySnapshot_sharpe_ratio_ := EquitySnapshot_sharpe_ratio_ s;
     EquitySnapshot_sharpe_ratio_rolling_ := EquitySnapshot_sharpe_ratio_rolling_ s;
     EquitySnapshot_sortino_ratio_ := EquitySnapshot_sortino_ratio_ s;
     EquitySnapshot_sortino_ratio_rolling_ := EquitySnapshot_sortino_ratio_rolling_ s;
     EquitySnapshot_calmar_ratio_ := EquitySnapshot_calmar_ratio_ s;
     EquitySnapshot_calmar_ratio_rolling_ := EquitySnapshot_calmar_ratio_rolling_ s;
     EquitySnapshot_tail_ratio_ := EquitySnapshot_tail_ratio_ s;
     EquitySnapshot_tail_ratio_rolling_ := EquitySnapshot_tail_ratio_rolling_ s;
     EquitySnapshot_value_at_risk_ := EquitySnapshot_value_at_risk_ s;
     EquitySnapshot_value_at_risk_rolling_ := EquitySnapshot_value_at_risk_rolling_ s;
     EquitySnapshot_conditional_value_at_risk_ := EquitySnapshot_conditional_value_at_risk_ s;
     EquitySnapshot_conditional_value_at_risk_rolling_ :=
       EquitySnapshot_conditional_value_at_risk_rolling_ s |}.

Definition record_bar_equity_snapshot (host_params : HostParams) (st : State) : State :=
  let equity := calculate_equity st in
  let st := if (equity >? peak_equity_ st)%money then set_peak_equity equity st else st in
  let current_drawdown := calculate_max_drawdown st equity in
  let st := if dltb (max_drawdown_ st) current_drawdown then set_max_drawdown current_drawdown st else st in
  let ret := calculate_return host_params equity in
  match last (equity_curve_ st) with
  | Some back =>
      if EquitySnapshot_timestamp_ns_ back =? current_timestamp_ns_ st
      then set_equity_curve
             (removelast (equity_curve_ st) ++ [refresh_snapshot back equity ret (max_drawdown_ st)]) st
      else set_equity_curve (equity_curve_ st ++ [fresh_snapshot st equity ret]) st
  | None => set_equity_curve (equity_curve_ st ++ [fresh_snapshot st equity ret]) st
  end.

Definition clear_previous_bar_state (st : State) : State :=
  set_new_exit_orders [] (set_new_fills [] st).

Definition prepare_next_bar_state (bar : AggregateBarResult) (st : State) : State :=
  let st := set_current_timestamp_ns (bar_unix_ts_ns_ bar) st in
  let prices := {| close_ := from_dollars (bar_close_ bar);
                   open_ := from_dollars (bar_open_ bar);
                   high_ := from_dollars (bar_high_ bar);
                   low_ := from_dollars (bar_low_ bar) |} in
  let st := set_current_bar_prices (<[bar_symbol_ bar := prices]> (current_bar_prices_ st)) st in
  set_current_bar_volumes
    (<[bar_symbol_ bar := d_to_int64 (bar_volume_ bar)]> (current_bar_volumes_ st)) st.

Definition recalculate_margin_in_use (st : State) : Money :=
  fold_left (fun acc kv => (acc + snd kv)%money) (map_in_order (active_margin_for_fills_ st)) (0)%money.

(** ** The FIFO plan *)
Definition closing : Type := Fill * double * double.

Fixpoint fifo_plan (active : gmap string double) (matches : Fill -> bool) (fills : list Fill)
    (remaining : double) : list closing :=
  match fills with
  | [] => []
  | fill :: rest =>
      if dleb remaining EPSILON then []
      else if matches fill then
        match active !! Fill_uuid_ fill with
        | Some available =>
            let to_close := dmin available remaining in
            (fill, available, to_close) :: fifo_plan active matches rest (dsub remaining to_close)
        | None => fifo_plan active matches rest remaining
        end
      else fifo_plan active matches rest remaining
  end.

Definition fill_matches (s : side) (symbol : string) (f : Fill) : bool :=
  String.eqb (Fill_symbol_ f) symbol && side_matches s f.

(** The plan of closing [quantity] of [symbol] on side [s] in state [st]. *)
Definition closing_plan (s : side) (symbol : string) (quantity : double) (st : State) : list closing :=
  fifo_plan (active_fills s st) (fill_matches s symbol) (fills_ st) quantity.

Definition apply_closing (s : side) (st : State) (c : closing) : State :=
  let '(fill, available, to_close) := c in close_fill s (Fill_uuid_ fill) available to_close st.

(** Extensionality in the active quantities of the fills the plan walks over. *)
Lemma fifo_plan_ext active active' matches fills q :
  (forall f, f ∈ fills -> matches f = true -> active !! Fill_uuid_ f = active' !! Fill_uuid_ f) ->
  fifo_plan active matches fills q = fifo_plan active' matches fills q.
Proof.
  revert q. induction fills as [|f fills IH]; intros q H; simpl; [done|].
  destruct (dleb q EPSILON); [done|]. destruct (matches f) eqn:Hm.
  - rewrite <- (H f) by (done || left). destruct (active !! Fill_uuid_ f).
    all: rewrite IH; [done|]; intros; apply H; [by right|done].
  - apply IH. intros. apply H; [by right|done].
Qed.

(** Fills that do not match play no part. *)
Lemma fifo_plan_snoc_irrelevant active matches fills f q :
  matches f = false \/ active !! Fill_uuid_ f = None ->
  fifo_plan active matches (fills ++ [f]) q = fifo_plan active matches fills q.
Proof.
  intros Hf. revert q. induction fills as [|g fills IH]; intros q; simpl.
  - destruct (dleb q EPSILON); [done|]. destruct (matches f) eqn:Hm; [|done].
    destruct Hf as [?| ->]; [congruence|done].
  - destruct (dleb q EPSILON); [done|]. destruct (matches g); [|done].
    destruct (active !! Fill_uuid_ g); [|done]. by rewrite IH.
Qed.

Lemma fifo_plan_elem active matches fills q f a c :
  (f, a, c) ∈ fifo_plan active matches fills q ->
  f ∈ fills /\ matches f = true /\ active !! Fill_uuid_ f = Some a.
Proof.
  revert q. induction fills as [|g fills IH]; intros q; simpl; [by intros ?%not_elem_of_nil|].
  destruct (dleb q EPSILON); [by intros ?%not_elem_of_nil|].
  destruct (matches g) eqn:Hm; [destruct (active !! Fill_uuid_ g) eqn:Ha|].
  - intros [[= -> -> ->]|H]%elem_of_cons; [split; [left|done]|].
    apply IH in H as (? & ?). split; [by right|done].
  - intros H%IH. destruct H. split; [by right|done].
  - intros H%IH. destruct H. split; [by right|done].
Qed.

Lemma fifo_plan_sublist active matches fills q :
  (fun c : closing => fst (fst c)) <$> fifo_plan active matches fills q `sublist_of` fills.
Proof.
  revert q. induction fills as [|g fills IH]; intros q; simpl; [constructor|].
  destruct (dleb q EPSILON); [apply sublist_nil_l|].
  destruct (matches g); [destruct (active !! Fill_uuid_ g)|]; simpl; constructor; apply IH.
Qed.

(** [close_fill] on one uuid leaves every other uuid's entries alone. *)
Lemma close_fill_active_ne s u a c st u' :
  u ≠ u' -> active_fills s (close_fill s u a c st) !! u' = active_fills s st !! u'.
Proof.
  intros Hne. unfold close_fill, release_margin.
  destruct s; simpl; repeat case_match; simpl; by simplify_map_eq.
Qed.

Lemma close_fill_margin_ne s u a c st u' :
  u ≠ u' -> active_margin_for_fills_ (close_fill s u a c st) !! u' = active_margin_for_fills_ st !! u'.
Proof.
  intros Hne. unfold close_fill, release_margin.
  destruct s; simpl; repeat case_match; simpl; by simplify_map_eq.
Qed.

Lemma close_fill_fills s u a c st : fills_ (close_fill s u a c st) = fills_ st.
Proof. unfold close_fill, release_margin. destruct s; simpl; by repeat case_match. Qed.

(** The reduction loop carries out the plan. *)
Lemma reduce_loop_follows_plan s symbol fills q st :
  NoDup (Fill_uuid_ <$> fills) ->
  reduce_active_fills_loop s symbol fills q st =
  fold_left (apply_closing s) (fifo_plan (active_fills s st) (fill_matches s symbol) fills q) st.
Proof.
  revert q st. induction fills as [|f fills IH]; intros q st Hnd; simpl; [done|].
  apply NoDup_cons in Hnd as [Hnin Hnd]. unfold fill_matches at 1.
  destruct (dleb q EPSILON); [done|].
  destruct (String.eqb (Fill_symbol_ f) symbol && side_matches s f); [|by apply IH].
  destruct (active_fills s st !! Fill_uuid_ f) as [a|]; [|by apply IH].
  simpl. rewrite IH by done. f_equal. apply fifo_plan_ext. intros g Hg _.
  apply close_fill_active_ne. intros E. apply Hnin. rewrite E. by apply list_elem_of_fmap_2.
Qed.

(** ** Margin released along a plan *)

(** The sum the executor computes: for each closing, the closed proportion of the
    margin recorded for the fill. *)
Definition closing_margin (margins : gmap string Money) (c : closing) : option Money :=
  let '(fill, available, to_close) := c in
  match margins !! Fill_uuid_ fill with
  | Some m => Some (m *$ ddiv to_close available)%money
  | None => None
  end.

Definition add_closing_margin (margins : gmap string Money) (acc : Money) (c : closing) : Money :=
  match closing_margin margins c with Some m => (acc + m)%money | None => acc end.

Definition margin_released (margins : gmap string Money) (plan : list closing) : Money :=
  fold_left (add_closing_margin margins) plan (0)%money.

Lemma close_fill_margin_in_use s f a c st :
  margin_in_use_ (close_fill s (Fill_uuid_ f) a c st) =
  match closing_margin (active_margin_for_fills_ st) (f, a, c) with
  | Some m => (margin_in_use_ st - m)%money
  | None => margin_in_use_ st
  end.
Proof.
  unfold close_fill, release_margin, closing_margin.
  destruct s, (dleb (dsub a c) EPSILON); simpl;
    destruct (active_margin_for_fills_ st !! Fill_uuid_ f); simpl; by repeat case_match.
Qed.

Lemma add_closing_margin_shift margins plan acc :
  Money_ok acc ->
  fold_left (add_closing_margin margins) plan acc = (acc + margin_released margins plan)%money.
Proof.
  unfold margin_released. revert acc. induction plan as [|c plan IH]; intros acc Hok; cbn [fold_left].
  - by rewrite Money_add_0_r.
  - assert (Money_ok (0)%money) by done.
    assert (forall acc', Money_ok acc' -> Money_ok (add_closing_margin margins acc' c)) as Hac.
    { intros acc' ?. unfold add_closing_margin. destruct (closing_margin _ _); [apply Money_add_ok|done]. }
    rewrite (IH (add_closing_margin margins acc c)), (IH (add_closing_margin margins (0)%money c)) by auto.
    unfold add_closing_margin. destruct (closing_margin margins c) as [m|].
    + apply Money_ext. simpl. wrap64_solve.
    + apply Money_ext. simpl. wrap64_solve.
Qed.

(** Closing along a plan takes out of [margin_in_use_] what [margin_released]
    counts, provided no fill occurs twice in it. *)
Lemma apply_plan_margin s plan st :
  NoDup ((fun c : closing => Fill_uuid_ (fst (fst c))) <$> plan) ->
  Money_ok (margin_in_use_ st) ->
  margin_in_use_ (fold_left (apply_closing s) plan st) =
  (margin_in_use_ st - margin_released (active_margin_for_fills_ st) plan)%money.
Proof.
  revert st. induction plan as [|[[f a] c] plan IH]; intros st Hnd Hok.
  - apply Money_ext. unfold margin_released. simpl. rewrite Z.sub_0_r. symmetry. by apply wrap64_id.
  - apply NoDup_cons in Hnd as [Hnin Hnd]. cbn [fold_left apply_closing].
    assert (Money_ok (margin_in_use_ (close_fill s (Fill_uuid_ f) a c st))) as Hok'.
    { rewrite close_fill_margin_in_use. destruct (closing_margin _ _); [apply Money_sub_ok|done]. }
    rewrite IH by done.
    assert (forall acc, fold_left (add_closing_margin
               (active_margin_for_fills_ (close_fill s (Fill_uuid_ f) a c st))) plan acc =
             fold_left (add_closing_margin (active_margin_for_fills_ st)) plan acc) as Hext.
    { clear -Hnin. induction plan as [|[[g b] d] plan IH]; intros acc; [done|].
      simpl in Hnin. apply not_elem_of_cons in Hnin as [Hne Hnin].
      cbn [fold_left]. rewrite IH by done. f_equal.
      unfold add_closing_margin, closing_margin. by rewrite close_fill_margin_ne by done. }
    unfold margin_released at 1. rewrite Hext. rewrite close_fill_margin_in_use.
    unfold margin_released at 1. cbn [fold_left]. unfold add_closing_margin at 3.
    destruct (closing_margin (active_margin_for_fills_ st) (f, a, c)) as [m|]; [|done].
    rewrite !add_closing_margin_shift by (apply Money_add_ok || done).
    apply Money_ext. simpl. wrap64_solve.
Qed.
