(* ===== verification/StateInv.v ===== *)
(** * The invariant of the portfolio state

    [State_wf] is what every operation of [state.cpp] keeps: fill identifiers are
    unique, the active maps only name recorded fills of their side, no stored
    position is empty, and money fields stay in [int64_t].  [Result_wf] is what
    [update_state] asks of an execution result; the executor provides it. *)
From Stdlib Require Import ZArith Lia.
From stdpp Require Import base tactics list gmap strings.
From S2P Require Import Prelude Double Money Models Manifest StockApi State Equity StateOps.
Open Scope Z_scope.

Definition fill_uuids (st : State) : list string := Fill_uuid_ <$> fills_ st.

Definition ExitOrder_fill_uuid (o : ExitOrder) : string :=
  match o with
  | ExitOrder_StopLoss o => StopLossExitOrder_fill_uuid_ o
  | ExitOrder_TakeProfit o => TakeProfitExitOrder_fill_uuid_ o
  end.

(** Every uuid of [m] belongs to a recorded fill that satisfies [P]. *)
Definition uuids_of {A : Type} (P : Fill -> Prop) (fills : list Fill) (m : gmap string A) : Prop :=
  forall u v, m !! u = Some v -> exists f, f ∈ fills /\ Fill_uuid_ f = u /\ P f.

Record State_wf (st : State) : Prop := {
  wf_uuids : NoDup (fill_uuids st);
  wf_buy : uuids_of (fun f => Fill_is_buy f = true) (fills_ st) (active_buy_fills_ st);
  wf_sell : uuids_of (fun f => Fill_is_sell f = true) (fills_ st) (active_sell_fills_ st);
  wf_margin : uuids_of (fun _ => True) (fills_ st) (active_margin_for_fills_ st);
  wf_positions : forall k p, positions_ st !! k = Some p ->
    Position_symbol_ p = k /\ deqb (Position_quantity_ p) dzero = false;
  wf_exits : forall o, o ∈ exit_orders_ st -> ExitOrder_fill_uuid o ∈ fill_uuids st;
  wf_new_fills : exists old, fills_ st = old ++ new_fills_ st;
  wf_cash : Money_ok (cash_ st);
  wf_margin_in_use : Money_ok (margin_in_use_ st)
}.

Record Result_wf (st : State) (r : ExecutionResultSuccess) : Prop := {
  rwf_fresh : Fill_uuid_ (ExecutionResultSuccess_fill_ r) ∉ fill_uuids st;
  rwf_symbol : Position_symbol_ (ExecutionResultSuccess_position_ r)
               = Fill_symbol_ (ExecutionResultSuccess_fill_ r);
  rwf_exits : forall o, o ∈ ExecutionResultSuccess_exit_orders_ r ->
    ExitOrder_fill_uuid o = Fill_uuid_ (ExecutionResultSuccess_fill_ r)
}.

(** ** What closing fills leaves alone *)
Definition static_part (st : State) :=
  (cash_ st, current_timestamp_ns_ st, positions_ st, current_bar_prices_ st, current_bar_volumes_ st,
   fills_ st, exit_orders_ st, equity_curve_ st, new_fills_ st, new_exit_orders_ st,
   peak_equity_ st, max_drawdown_ st).

Lemma close_fill_static s u a c st : static_part (close_fill s u a c st) = static_part st.
Proof. unfold close_fill, release_margin. destruct s; simpl; by repeat case_match. Qed.

Lemma reduce_loop_static s symbol fills q st :
  static_part (reduce_active_fills_loop s symbol fills q st) = static_part st.
Proof.
  revert q st. induction fills as [|f fills IH]; intros q st; simpl; [done|].
  repeat case_match; rewrite ?IH; [done|apply close_fill_static|done|done].
Qed.

Lemma populate_static fill q b st : static_part (fst (populate_active_fills fill q b st)) = static_part st.
Proof.
  unfold populate_active_fills, reduce_active_buy_fills_fifo, reduce_active_sell_fills_fifo.
  repeat case_match; simpl; rewrite ?reduce_loop_static; done.
Qed.

Lemma register_static r u q st : 
  static_part (register_active_fill r u q st) = static_part st.
Proof. unfold register_active_fill. by repeat case_match. Qed.

(** The state in which [update_state] runs [populate_active_fills]. *)
Definition update_state_entry (r : ExecutionResultSuccess) (st : State) : State :=
  set_new_fills (new_fills_ st ++ [ExecutionResultSuccess_fill_ r])
    (set_fills (fills_ st ++ [ExecutionResultSuccess_fill_ r])
      (set_cash (cash_ st + ExecutionResultSuccess_cash_delta_ r)%money st)).

Definition held_quantity (st : State) (symbol : string) : double :=
  match positions_ st !! symbol with Some p => Position_quantity_ p | None => dzero end.

(** Does the fill run against the position held in its symbol? *)
Definition fill_reduces (r : ExecutionResultSuccess) (st : State) : bool :=
  let fill := ExecutionResultSuccess_fill_ r in
  let q := held_quantity st (Fill_symbol_ fill) in
  if Fill_is_buy fill then dltb q dzero else dltb dzero q.

Definition update_state_margins (r : ExecutionResultSuccess) (st : State) : State :=
  let fill := ExecutionResultSuccess_fill_ r in
  match populate_active_fills fill (held_quantity st (Fill_symbol_ fill)) (fill_reduces r st)
          (update_state_entry r st) with
  | (st', Some (u, q)) => register_active_fill r u q st'
  | (st', None) => st'
  end.

Definition update_positions (r : ExecutionResultSuccess) (m : gmap string Position) : gmap string Position :=
  let position := ExecutionResultSuccess_position_ r in
  if deqb (Position_quantity_ position) dzero
  then delete (Position_symbol_ position) m
  else <[Position_symbol_ position := position]> m.

(** [update_state] as its margin part followed by the exit-order and position
    assignments. *)
Lemma update_state_unfold r st :
  update_state r st =
  set_positions (update_positions r (positions_ st))
    (set_new_exit_orders (new_exit_orders_ st ++ ExecutionResultSuccess_exit_orders_ r)
      (set_exit_orders (exit_orders_ st ++ ExecutionResultSuccess_exit_orders_ r)
        (update_state_margins r st))).
Proof.
  unfold update_state, update_state_margins, fill_reduces, held_quantity. cbv zeta.
  change (set_new_fills _ _) with (update_state_entry r st).
  change (positions_ (update_state_entry r st)) with (positions_ st).
  match goal with |- context [populate_active_fills ?f ?q ?b ?s] =>
    pose proof (populate_static f q b s) as Hs; destruct (populate_active_fills f q b s) as [st' [[u q']|]] end.
  - simpl fst in Hs. pose proof (register_static r u q' st') as Hr. rewrite Hs in Hr. clear Hs.
    revert Hr. generalize (register_active_fill r u q' st'). intros st2 Hr. injection Hr. intros.
    unfold update_positions. destruct (deqb _ _);
      unfold set_positions, set_new_exit_orders, set_exit_orders; simpl in *; f_equal; congruence.
  - simpl fst in Hs. injection Hs. intros. unfold update_positions. destruct (deqb _ _);
      unfold set_positions, set_new_exit_orders, set_exit_orders; simpl in *; f_equal; congruence.
Qed.

Lemma update_margins_static r st :
  static_part (update_state_margins r st) = static_part (update_state_entry r st).
Proof.
  unfold update_state_margins.
  match goal with |- context [populate_active_fills ?f ?q ?b ?s] =>
    pose proof (populate_static f q b s) as Hs; destruct (populate_active_fills f q b s) as [st' [[u q']|]] end;
    simpl in *; rewrite ?register_static; done.
Qed.

(** The fields [update_state] writes, outside the margin accounts. *)
Lemma update_state_fields r st :
  cash_ (update_state r st) = (cash_ st + ExecutionResultSuccess_cash_delta_ r)%money /\
  fills_ (update_state r st) = fills_ st ++ [ExecutionResultSuccess_fill_ r] /\
  new_fills_ (update_state r st) = new_fills_ st ++ [ExecutionResultSuccess_fill_ r] /\
  exit_orders_ (update_state r st) = exit_orders_ st ++ ExecutionResultSuccess_exit_orders_ r /\
  positions_ (update_state r st) = update_positions r (positions_ st) /\
  current_bar_prices_ (update_state r st) = current_bar_prices_ st /\
  current_bar_volumes_ (update_state r st) = current_bar_volumes_ st /\
  current_timestamp_ns_ (update_state r st) = current_timestamp_ns_ st /\
  peak_equity_ (update_state r st) = peak_equity_ st /\
  max_drawdown_ (update_state r st) = max_drawdown_ st /\
  equity_curve_ (update_state r st) = equity_curve_ st.
Proof.
  rewrite update_state_unfold. pose proof (update_margins_static r st) as Hs.
  injection Hs. intros. simpl in *. split_and!; congruence.
Qed.

(** ** Reductions never add an identifier *)
Definition keys_sub {A : Type} (m m' : gmap string A) : Prop :=
  forall u, is_Some (m' !! u) -> is_Some (m !! u).

#[export] Instance keys_sub_preorder {A} : PreOrder (@keys_sub A).
Proof. split; [by intros m u|]. intros m1 m2 m3 H1 H2 u Hu. by apply H1, H2. Qed.

Lemma keys_sub_insert {A} (m : gmap string A) u v : is_Some (m !! u) -> keys_sub m (<[u := v]> m).
Proof. intros Hu u'. destruct (decide (u = u')) as [->|]; [done|]. by rewrite lookup_insert_ne. Qed.

Lemma keys_sub_delete {A} (m : gmap string A) u : keys_sub m (delete u m).
Proof.
  intros u'. destruct (decide (u = u')) as [->|]; [rewrite lookup_delete_eq; by intros []|].
  by rewrite lookup_delete_ne.
Qed.

(** The three maps of a state that name fills. *)
Record keys_shrink (st st' : State) : Prop := {
  ks_buy : keys_sub (active_buy_fills_ st) (active_buy_fills_ st');
  ks_sell : keys_sub (active_sell_fills_ st) (active_sell_fills_ st');
  ks_margin : keys_sub (active_margin_for_fills_ st) (active_margin_for_fills_ st')
}.

#[export] Instance keys_shrink_preorder : PreOrder keys_shrink.
Proof.
  split; [intros st; by split|]. intros a b c [] []. split; by etrans.
Qed.

Create HintDb fills.
#[export] Hint Resolve keys_sub_insert keys_sub_delete : fills.

Lemma release_margin_shrink u a c st : keys_shrink st (release_margin u a c st).
Proof.
  unfold release_margin. destruct (active_margin_for_fills_ st !! u) eqn:Hm; [|done].
  destruct (dleb _ _); split; simpl; try done.
  - etrans; [|apply keys_sub_delete]. by apply keys_sub_insert.
  - by apply keys_sub_insert.
Qed.

Lemma close_fill_shrink s u a c st :
  is_Some (active_fills s st !! u) -> keys_shrink st (close_fill s u a c st).
Proof.
  intros Hu. unfold close_fill.
  destruct s; simpl in *; destruct (dleb (dsub a c) EPSILON);
    (etrans; [|apply release_margin_shrink]); split; simpl; try done;
    try (by apply keys_sub_insert); (etrans; [|apply keys_sub_delete]); by apply keys_sub_insert.
Qed.

Lemma reduce_loop_shrink s symbol fills q st :
  keys_shrink st (reduce_active_fills_loop s symbol fills q st).
Proof.
  revert q st. induction fills as [|f fills IH]; intros q st; simpl; [done|].
  destruct (dleb q EPSILON); [done|]. destruct (_ && _); [|apply IH].
  destruct (active_fills s st !! Fill_uuid_ f) as [a|] eqn:Ha; [|apply IH].
  etrans; [|apply IH]. apply close_fill_shrink. by rewrite Ha.
Qed.

Lemma populate_shrink fill q b st : keys_shrink st (fst (populate_active_fills fill q b st)).
Proof.
  unfold populate_active_fills, reduce_active_buy_fills_fifo, reduce_active_sell_fills_fifo.
  repeat case_match; simpl; first [done | apply reduce_loop_shrink].
Qed.

Lemma uuids_of_shrink {A} P fills (m m' : gmap string A) :
  keys_sub m m' -> uuids_of P fills m -> uuids_of P fills m'.
Proof. intros Hk Hm u v Hu. destruct (Hk u) as [v' Hv']; eauto. Qed.

Lemma uuids_of_mono {A} P fills f (m : gmap string A) :
  uuids_of P fills m -> uuids_of P (fills ++ [f]) m.
Proof.
  intros Hm u v Hu. destruct (Hm u v Hu) as (g & Hg & ?). exists g. rewrite elem_of_app. auto.
Qed.

Lemma uuids_of_insert {A} (P : Fill -> Prop) fills f u (v : A) m :
  uuids_of P fills m -> f ∈ fills -> Fill_uuid_ f = u -> P f -> uuids_of P fills (<[u := v]> m).
Proof.
  intros Hm Hf <- HP u' v'. rewrite lookup_insert. case_decide; subst; [|apply Hm].
  intros _. by exists f.
Qed.

Lemma populate_uuid fill q b st st' u q' :
  populate_active_fills fill q b st = (st', Some (u, q')) -> u = Fill_uuid_ fill.
Proof. unfold populate_active_fills. repeat case_match; congruence. Qed.

Lemma populate_margin_ok fill q b st :
  Money_ok (margin_in_use_ st) -> Money_ok (margin_in_use_ (fst (populate_active_fills fill q b st))).
Proof.
  assert (forall s sym fs q st, Money_ok (margin_in_use_ st) ->
    Money_ok (margin_in_use_ (reduce_active_fills_loop s sym fs q st))) as Hred.
  { clear. intros s sym fs. induction fs as [|f fs IH]; intros q st H; simpl; [done|].
    repeat case_match; auto. apply IH. rewrite close_fill_margin_in_use.
    case_match; [apply Money_sub_ok|done]. }
  intros H. unfold populate_active_fills, reduce_active_buy_fills_fifo, reduce_active_sell_fills_fifo.
  repeat case_match; simpl; auto.
Qed.

(** The margin part of [update_state] keeps the active maps well formed. *)
Lemma update_margins_wf r st :
  State_wf st ->
  let st' := update_state_margins r st in
  let fills := fills_ st ++ [ExecutionResultSuccess_fill_ r] in
  uuids_of (fun f => Fill_is_buy f = true) fills (active_buy_fills_ st') /\
  uuids_of (fun f => Fill_is_sell f = true) fills (active_sell_fills_ st') /\
  uuids_of (fun _ => True) fills (active_margin_for_fills_ st') /\
  Money_ok (margin_in_use_ st').
Proof.
  intros Hwf st' fills. subst st'. unfold update_state_margins.
  set (f := ExecutionResultSuccess_fill_ r) in *.
  match goal with |- context [populate_active_fills ?f ?q ?b ?s] =>
    pose proof (populate_shrink f q b s) as [Hb Hs Hm];
    pose proof (populate_margin_ok f q b s (wf_margin_in_use _ Hwf)) as Hok;
    pose proof (populate_uuid f q b s) as Hu;
    destruct (populate_active_fills f q b s) as [st1 [[u q']|]] end; simpl in Hb, Hs, Hm, Hok.
  all: assert (uuids_of (fun f => Fill_is_buy f = true) fills (active_buy_fills_ st1)) as Hb'
         by (eapply uuids_of_shrink; [exact Hb|]; apply uuids_of_mono, Hwf).
  all: assert (uuids_of (fun f => Fill_is_sell f = true) fills (active_sell_fills_ st1)) as Hs'
         by (eapply uuids_of_shrink; [exact Hs|]; apply uuids_of_mono, Hwf).
  all: assert (uuids_of (fun _ => True) fills (active_margin_for_fills_ st1)) as Hm'
         by (eapply uuids_of_shrink; [exact Hm|]; apply uuids_of_mono, Hwf).
  - specialize (Hu _ _ _ eq_refl) as ->.
    assert (f ∈ fills) as Hf by (unfold fills; rewrite elem_of_app, list_elem_of_singleton; auto).
    unfold register_active_fill. fold f.
    destruct (Fill_is_buy f) eqn:Eb; [|destruct (Fill_is_sell f) eqn:Es]; simpl;
      split_and!; try apply Money_add_ok; try done; by eapply uuids_of_insert.
  - done.
Qed.

(** [update_state] keeps the invariant on any result that satisfies the contract. *)
Lemma update_state_wf r st : State_wf st -> Result_wf st r -> State_wf (update_state r st).
Proof.
  intros Hwf [Hfresh Hsym Hex].
  destruct (update_state_fields r st) as (Ec & Ef & Enf & Eex & Ep & _).
  destruct (update_margins_wf r st Hwf) as (Hb & Hs & Hm & Hok).
  assert (fill_uuids (update_state r st) = fill_uuids st ++ [Fill_uuid_ (ExecutionResultSuccess_fill_ r)]) as Eu
    by (unfold fill_uuids; rewrite Ef, fmap_app; done).
  split; rewrite ?Ec, ?Ef, ?Enf, ?Eex, ?Ep, ?Eu.
  - apply NoDup_app. split; [apply Hwf|]. split; [|apply NoDup_singleton].
    intros u Hu ->%list_elem_of_singleton. done.
  - rewrite update_state_unfold. exact Hb.
  - rewrite update_state_unfold. exact Hs.
  - rewrite update_state_unfold. exact Hm.
  - intros k p. unfold update_positions. destruct (deqb _ _) eqn:Hq.
    + intros [_ Hl]%lookup_delete_Some. by apply (wf_positions _ Hwf).
    + rewrite lookup_insert. case_decide as E; [|apply Hwf]. intros [= <-]. done.
  - intros o [Ho|Ho]%elem_of_app; rewrite elem_of_app.
    + left. by apply (wf_exits _ Hwf).
    + right. rewrite (Hex o Ho). by apply list_elem_of_singleton.
  - destruct (wf_new_fills _ Hwf) as [old ->]. exists old. by rewrite app_assoc.
  - apply Money_add_ok.
  - rewrite update_state_unfold. exact Hok.
Qed.
