(* ===== verification/MarginAccounts.v ===== *)
(** * Margin accounts

    [margin_in_use_] is a running total of the per-fill margins of
    [active_margin_for_fills_].  The two can only drift apart by the residues that
    [release_margin] forgets (at most [EPSILON] dollars each); a fill closed whole
    leaves none. *)
From Stdlib Require Import ZArith Lia SpecFloat.
From stdpp Require Import base tactics list gmap strings.
From S2P Require Import Prelude Double Money Models Manifest StockApi State Equity StateOps StateInv.
Open Scope Z_scope.

(** The exact sum of a map of amounts. *)
Definition margin_total (m : gmap string Money) : Z :=
  map_fold (fun _ v acc => microdollars_ v + acc) 0 m.

Lemma margin_total_insert m u v :
  m !! u = None -> margin_total (<[u := v]> m) = microdollars_ v + margin_total m.
Proof. intros H. unfold margin_total. rewrite map_fold_insert_L; [done|lia|done]. Qed.

Lemma margin_total_delete m u v :
  m !! u = Some v -> margin_total (delete u m) = margin_total m - microdollars_ v.
Proof.
  intros H. rewrite <- (insert_delete_id m u v H) at 2.
  rewrite margin_total_insert by apply lookup_delete_eq. lia.
Qed.

Lemma margin_total_update m u v v' :
  m !! u = Some v -> margin_total (<[u := v']> m) = margin_total m - microdollars_ v + microdollars_ v'.
Proof.
  intros H. rewrite <- insert_delete_eq. rewrite margin_total_insert by apply lookup_delete_eq.
  rewrite (margin_total_delete _ _ _ H). lia.
Qed.

(** [recalculate_margin_in_use] is the exact sum, wrapped. *)
Lemma recalculate_margin_in_use_total st :
  recalculate_margin_in_use st = mkMoney (wrap64 (margin_total (active_margin_for_fills_ st))).
Proof.
  unfold recalculate_margin_in_use.
  assert (forall l a, fold_left (fun acc (kv : string * Money) => (acc + snd kv)%money) l (mkMoney (wrap64 a))
            = mkMoney (wrap64 (foldr (fun kv acc => microdollars_ (snd kv) + acc) a l))) as Hf.
  { induction l as [|kv l IH]; intros a; [done|]. simpl fold_left.
    assert ((mkMoney (wrap64 a) + snd kv)%money = mkMoney (wrap64 (a + microdollars_ (snd kv)))) as ->.
    { unfold Money_add. simpl. by rewrite wrap64_add_l. }
    rewrite IH. simpl. do 2 f_equal. clear. induction l as [|kv' l IH]; simpl; lia. }
  rewrite (Hf _ 0). do 2 f_equal. unfold margin_total. rewrite map_fold_foldr.
  rewrite (foldr_permutation_proper eq (fun (kv : string * Money) acc => microdollars_ (snd kv) + acc) 0);
    [|lia|apply map_in_order_perm].
  generalize (map_to_list (active_margin_for_fills_ st)). clear.
  induction l as [|[k v] l IH]; simpl; [done|]. by rewrite IH.
Qed.

(** How far the running total is from the sum of the accounts. *)
Definition margin_drift (st : State) : Z :=
  wrap64 (microdollars_ (margin_in_use_ st) - margin_total (active_margin_for_fills_ st)).

Lemma margin_drift_0 st :
  Money_ok (margin_in_use_ st) ->
  (margin_drift st = 0 <-> margin_in_use_ st = recalculate_margin_in_use st).
Proof.
  intros Hok. rewrite recalculate_margin_in_use_total. unfold margin_drift. split.
  - intros H. apply Money_ext. simpl. rewrite <- (wrap64_id (microdollars_ _) Hok).
    apply wrap64_congr. unfold wrap64 in H.
    exists ((microdollars_ (margin_in_use_ st) - margin_total (active_margin_for_fills_ st) + 2 ^ 63) / 2 ^ 64).
    pose proof (Z.div_mod (microdollars_ (margin_in_use_ st) - margin_total (active_margin_for_fills_ st) + 2 ^ 63) (2 ^ 64)).
    lia.
  - intros ->. simpl. rewrite wrap64_sub_l. by rewrite Z.sub_diag.
Qed.

(** The residue a closing makes the program forget. *)
Definition closing_dust (margins : gmap string Money) (c : closing) : Z :=
  let '(fill, available, to_close) := c in
  match margins !! Fill_uuid_ fill with
  | Some m =>
      let left := (m - m *$ ddiv to_close available)%money in
      if dleb (to_dollars left) EPSILON then microdollars_ left else 0
  | None => 0
  end.

Definition plan_dust (margins : gmap string Money) (plan : list closing) : Z :=
  foldr (fun c acc => closing_dust margins c + acc) 0 plan.

Lemma close_fill_drift s f a c st :
  margin_drift (close_fill s (Fill_uuid_ f) a c st) =
  wrap64 (margin_drift st + closing_dust (active_margin_for_fills_ st) (f, a, c)).
Proof.
  unfold margin_drift. rewrite close_fill_margin_in_use.
  unfold closing_dust, closing_margin.
  assert (active_margin_for_fills_ (close_fill s (Fill_uuid_ f) a c st) =
    match active_margin_for_fills_ st !! Fill_uuid_ f with
    | Some m => let left := (m - m *$ ddiv c a)%money in
        if dleb (to_dollars left) EPSILON
        then delete (Fill_uuid_ f) (active_margin_for_fills_ st)
        else <[Fill_uuid_ f := left]> (active_margin_for_fills_ st)
    | None => active_margin_for_fills_ st
    end) as ->.
  { unfold close_fill, release_margin. destruct s, (dleb (dsub a c) EPSILON); simpl;
      destruct (active_margin_for_fills_ st !! Fill_uuid_ f) as [m|]; try done;
      destruct (dleb (to_dollars _) EPSILON); simpl; by rewrite ?delete_insert_eq. }
  destruct (active_margin_for_fills_ st !! Fill_uuid_ f) as [m|] eqn:Hm; [|wrap64_solve].
  cbv zeta. destruct (dleb (to_dollars _) EPSILON).
  - rewrite (margin_total_delete _ _ _ Hm). simpl. wrap64_solve.
  - rewrite (margin_total_update _ _ _ _ Hm). simpl. wrap64_solve.
Qed.

Lemma plan_dust_ext margins margins' plan :
  (forall c, c ∈ plan -> margins !! Fill_uuid_ (fst (fst c)) = margins' !! Fill_uuid_ (fst (fst c))) ->
  plan_dust margins plan = plan_dust margins' plan.
Proof.
  unfold plan_dust. induction plan as [|[[f a] c] plan IH]; intros H; simpl; [done|].
  rewrite <- IH by (intros; apply H; by right). f_equal.
  specialize (H (f, a, c)). simpl in H. by rewrite <- H by left.
Qed.

(** Along a plan, the drift grows by the dust of its closings and nothing else. *)
Lemma apply_plan_drift s plan st :
  NoDup ((fun c : closing => Fill_uuid_ (fst (fst c))) <$> plan) ->
  margin_drift (fold_left (apply_closing s) plan st) =
  wrap64 (margin_drift st + plan_dust (active_margin_for_fills_ st) plan).
Proof.
  revert st. induction plan as [|[[f a] c] plan IH]; intros st Hnd.
  - simpl. unfold margin_drift. wrap64_solve.
  - apply NoDup_cons in Hnd as [Hnin Hnd]. cbn [fold_left apply_closing]. rewrite IH by done.
    rewrite close_fill_drift. cbn [plan_dust foldr]. fold (plan_dust (active_margin_for_fills_ st) plan).
    rewrite (plan_dust_ext _ (active_margin_for_fills_ st)).
    + wrap64_solve.
    + intros d Hd. apply close_fill_margin_ne. intros E. apply Hnin. simpl. rewrite E.
      apply (list_elem_of_fmap_2 (fun c : closing => Fill_uuid_ (fst (fst c))) _ _ Hd).
Qed.

(** A lot closed whole releases its margin to the last micro-dollar. *)
Lemma whole_closing_dust margins f s m e :
  (forall u v, margins !! u = Some v -> Z.abs (microdollars_ v) < 2 ^ 53) ->
  closing_dust margins (f, S754_finite s m e, S754_finite s m e) = 0.
Proof.
  intros Hb. unfold closing_dust. destruct (margins !! Fill_uuid_ f) as [v|] eqn:Hv; [|done].
  rewrite ddiv_diag, Money_mul_one, Money_sub_diag by eauto. reflexivity.
Qed.

(** Registering a fill under a new identifier leaves the drift alone. *)
Lemma register_drift r u q st :
  active_margin_for_fills_ st !! u = None -> margin_drift (register_active_fill r u q st) = margin_drift st.
Proof.
  intros Hu. unfold register_active_fill, margin_drift.
  generalize (ExecutionResultSuccess_margin_used_ r *$
    ddiv q (Fill_quantity_ (ExecutionResultSuccess_fill_ r)))%money. intros pm.
  destruct (Fill_is_buy _); [|destruct (Fill_is_sell _)]; simpl;
    rewrite margin_total_insert by done; wrap64_solve.
Qed.

(** ** [update_state] *)

(** The side a fill closes, and the lots it closes in [st]. *)
Definition closed_side (f : Fill) : side := if Fill_is_buy f then SellSide else BuySide.

Definition update_plan (r : ExecutionResultSuccess) (st : State) : list closing :=
  let fill := ExecutionResultSuccess_fill_ r in
  let diff_qty := dmin (Fill_quantity_ fill) (dabs (held_quantity st (Fill_symbol_ fill))) in
  if fill_reduces r st && dltb dzero diff_qty
  then closing_plan (closed_side fill) (Fill_symbol_ fill) diff_qty st
  else [].

Lemma closed_side_no_match f sym : fill_matches (closed_side f) sym f = false.
Proof.
  unfold fill_matches, closed_side. destruct (Fill_is_buy f) eqn:Hb; simpl.
  - unfold Fill_is_buy, Fill_is_sell in *. rewrite (buy_not_sell _ Hb). apply andb_false_r.
  - rewrite Hb. apply andb_false_r.
Qed.

Lemma update_entry_active s r st : active_fills s (update_state_entry r st) = active_fills s st.
Proof. by destruct s. Qed.

(** The new fill takes no part in the plan it triggers. *)
Lemma closing_plan_entry r st q :
  let f := ExecutionResultSuccess_fill_ r in
  closing_plan (closed_side f) (Fill_symbol_ f) q (update_state_entry r st) =
  closing_plan (closed_side f) (Fill_symbol_ f) q st.
Proof.
  intros f. unfold closing_plan. rewrite update_entry_active.
  change (fills_ (update_state_entry r st)) with (fills_ st ++ [f]).
  apply fifo_plan_snoc_irrelevant. left. apply closed_side_no_match.
Qed.

(** [populate_active_fills] inside [update_state] carries out [update_plan]. *)
Lemma populate_follows_plan r st :
  State_wf st -> Result_wf st r ->
  let f := ExecutionResultSuccess_fill_ r in
  fst (populate_active_fills f (held_quantity st (Fill_symbol_ f)) (fill_reduces r st)
         (update_state_entry r st)) =
  fold_left (apply_closing (closed_side f)) (update_plan r st) (update_state_entry r st).
Proof.
  intros Hwf Hr f. unfold populate_active_fills, update_plan. fold f.
  destruct (fill_reduces r st); simpl; [|done].
  set (d := dmin (Fill_quantity_ f) (dabs (held_quantity st (Fill_symbol_ f)))).
  assert (NoDup (Fill_uuid_ <$> fills_ (update_state_entry r st))) as Hnd.
  { change (fills_ (update_state_entry r st)) with (fills_ st ++ [f]). rewrite fmap_app. simpl.
    apply NoDup_app. split; [apply Hwf|]. split; [|apply NoDup_singleton].
    intros u Hu ->%list_elem_of_singleton. by apply (rwf_fresh _ _ Hr). }
  assert (forall s, reduce_active_fills_loop s (Fill_symbol_ f) (fills_ (update_state_entry r st)) d
    (update_state_entry r st) = fold_left (apply_closing s)
      (closing_plan s (Fill_symbol_ f) d (update_state_entry r st)) (update_state_entry r st)) as Hplan.
  { intros s. by apply reduce_loop_follows_plan. }
  destruct (dltb dzero d); [|by case_match].
  pose proof (closing_plan_entry r st d) as He. fold f in He. cbv zeta in He.
  unfold reduce_active_buy_fills_fifo, reduce_active_sell_fills_fifo. rewrite !Hplan.
  unfold closed_side in *. destruct (Fill_is_buy f); rewrite He; by case_match.
Qed.

Lemma closing_plan_NoDup s sym q st :
  State_wf st -> NoDup ((fun c : closing => Fill_uuid_ (fst (fst c))) <$> closing_plan s sym q st).
Proof.
  intros Hwf. pose proof (fifo_plan_sublist (active_fills s st) (fill_matches s sym) (fills_ st) q) as Hs.
  fold (closing_plan s sym q st) in Hs. apply (fmap_sublist Fill_uuid_) in Hs.
  rewrite <- list_fmap_compose in Hs. eapply sublist_NoDup; [apply Hwf|exact Hs].
Qed.

Lemma update_plan_NoDup r st :
  State_wf st -> NoDup ((fun c : closing => Fill_uuid_ (fst (fst c))) <$> update_plan r st).
Proof. intros Hwf. unfold update_plan. case_match; [by apply closing_plan_NoDup|constructor]. Qed.

(** The identifier being registered is new to the margin accounts. *)
Lemma populate_margin_fresh r st :
  State_wf st -> Result_wf st r ->
  let f := ExecutionResultSuccess_fill_ r in
  active_margin_for_fills_ (fst (populate_active_fills f (held_quantity st (Fill_symbol_ f))
    (fill_reduces r st) (update_state_entry r st))) !! Fill_uuid_ f = None.
Proof.
  intros Hwf Hr f. apply eq_None_not_Some. intros Hs.
  match type of Hs with is_Some (active_margin_for_fills_ (fst (populate_active_fills ?f ?q ?b ?s)) !! _) =>
    destruct (populate_shrink f q b s) as [_ _ Hm] end.
  apply Hm in Hs as [v Hv]. destruct (wf_margin _ Hwf _ _ Hv) as (g & Hg & Eg & _).
  apply (rwf_fresh _ _ Hr). fold f. rewrite <- Eg. by apply list_elem_of_fmap_2.
Qed.

Lemma update_state_drift r st :
  State_wf st -> Result_wf st r ->
  margin_drift (update_state r st) =
  wrap64 (margin_drift st + plan_dust (active_margin_for_fills_ st) (update_plan r st)).
Proof.
  intros Hwf Hr. rewrite update_state_unfold.
  change (margin_drift (update_state_margins r st) =
    wrap64 (margin_drift st + plan_dust (active_margin_for_fills_ st) (update_plan r st))).
  pose proof (populate_follows_plan r st Hwf Hr) as Hp.
  pose proof (populate_margin_fresh r st Hwf Hr) as Hf. cbv zeta in *.
  pose proof (apply_plan_drift (closed_side (ExecutionResultSuccess_fill_ r)) (update_plan r st)
    (update_state_entry r st) (update_plan_NoDup r st Hwf)) as Hd. rewrite <- Hp in Hd.
  change (margin_drift (update_state_entry r st)) with (margin_drift st) in Hd.
  change (active_margin_for_fills_ (update_state_entry r st)) with (active_margin_for_fills_ st) in Hd.
  unfold update_state_margins.
  match goal with |- context [populate_active_fills ?f ?q ?b ?s] =>
    pose proof (populate_uuid f q b s) as Hu;
    destruct (populate_active_fills f q b s) as [st1 [[u q']|]] end; simpl fst in *; [|done].
  rewrite (Hu _ _ _ eq_refl). by rewrite register_drift.
Qed.
