(* ===== verification/TimeUtils.v ===== *)
(** * [src/utils/time_utils.cpp]: market hours

    [std::chrono] on a clock that counts nanoseconds: the day is the floor of the
    timestamp over 24 hours, the weekday is counted from Thursday 1970-01-01, and the
    hour is taken from the time since midnight UTC. *)
From Stdlib Require Import ZArith Lia.
From stdpp Require Import base tactics.
From S2P Require Import Prelude.
Open Scope Z_scope.

Definition MARK_OPEN_HOUR : Z := 9.
Definition MARKET_CLOSE_HOUR : Z := 16.

Definition NS_PER_HOUR : Z := 3600 * 1000000000.
Definition NS_PER_DAY : Z := 24 * NS_PER_HOUR.

(** [floor<days>(tp)] *)
Definition day_of (timestamp_ns : Z) : Z := timestamp_ns / NS_PER_DAY.

(** [std::chrono::weekday]: 0 is Sunday. *)
Definition weekday_of (day : Z) : Z := (day + 4) mod 7.

Definition hour_of (timestamp_ns : Z) : Z :=
  (timestamp_ns - day_of timestamp_ns * NS_PER_DAY) / NS_PER_HOUR.

Definition is_within_market_hours (timestamp_ns : Z) : bool :=
  let wd := weekday_of (day_of timestamp_ns) in
  let hour := hour_of timestamp_ns in
  if (wd =? 0) || (wd =? 6) then false
  else if (hour <? MARK_OPEN_HOUR) || (MARKET_CLOSE_HOUR <=? hour) then false
  else true.

Lemma day_of_split d t : 0 <= t < NS_PER_DAY -> day_of (d * NS_PER_DAY + t) = d.
Proof.
  intros H. unfold day_of. assert (NS_PER_DAY <> 0) by done.
  rewrite Z.div_add_l by done. rewrite Z.div_small by done. lia.
Qed.

Lemma hour_of_split d t : 0 <= t < NS_PER_DAY -> hour_of (d * NS_PER_DAY + t) = t / NS_PER_HOUR.
Proof. intros H. unfold hour_of. rewrite day_of_split by done. f_equal. lia. Qed.
