(* ===== verification/Exchange.v ===== *)
(** * [src/simulators/back_test/exchange.cpp] and
      [src/simulators/back_test/slippage_calculator.cpp] *)
From Stdlib Require Import ZArith Lia.
From stdpp Require Import base tactics list gmap strings.
From S2P Require Import Prelude Double Money TimeUtils Manifest Models State.
Open Scope Z_scope.

Definition is_within_market_hour_restrictions (timestamp_ns : Z) (host_params : HostParams) : bool :=
  match market_hours_only_ host_params with
  | Some true => is_within_market_hours timestamp_ns
  | _ => true
  end.

Definition calculate_commision (fill : Fill) (host_params : HostParams) : Money :=
  let commission_type := value_or (commission_type_ host_params) "" in
  let commission_value := value_or (commission_ host_params) dzero in
  if String.eqb commission_type "" || deqb commission_value dzero then (0)%money
  else if String.eqb commission_type "per_share" then
    (from_dollars commission_value *$ Fill_quantity_ fill)%money
  else if String.eqb commission_type "percentage" then
    let trade_value := (Fill_price_ fill *$ Fill_quantity_ fill)%money in
    (trade_value *$ commission_value)%money
  else if String.eqb commission_type "flat" then from_dollars commission_value
  else (0)%money.

Definition calculate_slippage_time_ns (order : Order) (host_params : HostParams) (st : State) : Z :=
  match slippage_model_ host_params with
  | None => current_timestamp_ns_ st
  | Some model =>
      if String.eqb model "none" then current_timestamp_ns_ st
      else if String.eqb model "time_based" then
        let base_delay_ns := d_to_int64 (dmul (value_or (slippage_ host_params) dzero)
                                              (d_of_Z NANOSECONDS_PER_MILLISECOND)) in
        wrap64 (current_timestamp_ns_ st + base_delay_ns)
      else if String.eqb model "time_volume_based" then
        match current_bar_volumes_ st !! Order_symbol_ order with
        | None => current_timestamp_ns_ st
        | Some v =>
            let volume := d_of_Z v in
            let size_ratio := ddiv (Order_quantity_ order) volume in
            let delay_seconds := dmul (value_or (slippage_ host_params) (d_of_Z 1)) size_ratio in
            let delay_ns := d_to_int64 (dmul delay_seconds (d_of_Z NANOSECONDS_PER_SECOND)) in
            wrap64 (current_timestamp_ns_ st + delay_ns)
        end
      else current_timestamp_ns_ st
  end.
