(* ===== verification/PositionCalc.v ===== *)
(** * [src/simulators/back_test/position_calculator.cpp] *)
From Stdlib Require Import ZArith Lia.
From stdpp Require Import base tactics list gmap strings.
From S2P Require Import Prelude Double Money Manifest Models State Equity StateOps StateInv.
Open Scope Z_scope.

Definition calculate_signal_position_size (signal : Signal) (host_params : HostParams) (st : State)
  : outcome double :=
  let* current_price := get_symbol_close st (Signal_symbol_ signal) in
  let equity := calculate_equity st in
  let sizing_method := value_or (position_sizing_method_ host_params) "fixed_percentage" in
  let position_size_value := value_or (position_size_value_ host_params) DEFAULT_POSITION_SIZE_VALUE in
  let quantity := dzero in
  let quantity :=
    if String.eqb sizing_method "fixed_percentage" then
      let dollar_amount := (equity *$ position_size_value)%money in
      ddiv (to_dollars dollar_amount) (to_dollars current_price)
    else quantity in
  let quantity :=
    if String.eqb sizing_method "fixed_dollar" then ddiv position_size_value (to_dollars current_price)
    else quantity in
  let symbol_count := length (symbols_ host_params) in
  if String.eqb sizing_method "equal_weight" && Nat.eqb symbol_count 0 then Ret dzero
  else
    let quantity :=
      if String.eqb sizing_method "equal_weight" then
        let dollar_per_symbol := (equity /$ d_of_Z (Z.of_nat symbol_count))%money in
        ddiv (to_dollars dollar_per_symbol) (to_dollars current_price)
      else quantity in
    match max_position_size_ host_params with
    | Some m => if dltb m quantity then Ret m else Ret quantity
    | None => Ret quantity
    end.

Definition calculate_signal_stop_loss_price (signal : Signal) (host_params : HostParams) (st : State)
  : outcome (option Money) :=
  if negb (value_or (use_stop_loss_ host_params) false) then Ret None
  else
    let* current_price := get_symbol_close st (Signal_symbol_ signal) in
    match stop_loss_pct_ host_params with
    | None => Ret None
    | Some pct =>
        if Signal_is_buy signal then Ret (Some (current_price *$ dsub (d_of_Z 1) pct)%money)
        else if Signal_is_sell signal then Ret (Some (current_price *$ dadd (d_of_Z 1) pct)%money)
        else Ret None
    end.

Definition calculate_signal_take_profit_price (signal : Signal) (host_params : HostParams) (st : State)
  : outcome (option Money) :=
  if negb (value_or (use_take_profit_ host_params) false) then Ret None
  else
    let* current_price := get_symbol_close st (Signal_symbol_ signal) in
    match take_profit_pct_ host_params with
    | None => Ret None
    | Some pct =>
        if Signal_is_buy signal then Ret (Some (current_price *$ dadd (d_of_Z 1) pct)%money)
        else if Signal_is_sell signal then Ret (Some (current_price *$ dsub (d_of_Z 1) pct)%money)
        else Ret None
    end.

(** A position closer to flat than [EPSILON] is snapped to flat. *)
Definition calculate_position (order : Order) (fillable_quantity : double) (fill_price : Money) (st : State)
  : Position :=
  let position := get_symbol_position_or st (Order_symbol_ order)
                    (mkPosition (Order_symbol_ order) dzero (0)%money) in
  let old_quantity := Position_quantity_ position in
  let average_price := Position_average_price_ position in
  let position :=
    if Order_is_buy order then
      let new_quantity := dadd old_quantity fillable_quantity in
      let average_price :=
        if dltb old_quantity dzero && dltb dzero new_quantity then fill_price
        else if dleb dzero old_quantity then
          ((average_price *$ old_quantity + fill_price *$ fillable_quantity) /$ new_quantity)%money
        else average_price in
      mkPosition (Position_symbol_ position) new_quantity average_price
    else if Order_is_sell order then
      let new_quantity := dsub old_quantity fillable_quantity in
      let average_price :=
        if dltb dzero old_quantity && dltb new_quantity dzero then fill_price
        else if dleb old_quantity dzero then
          let abs_old := dabs old_quantity in
          let abs_new := dabs new_quantity in
          ((average_price *$ abs_old + fill_price *$ fillable_quantity) /$ abs_new)%money
        else average_price in
      mkPosition (Position_symbol_ position) new_quantity average_price
    else position in
  if dltb (dabs (Position_quantity_ position)) EPSILON
  then mkPosition (Position_symbol_ position) dzero (0)%money
  else position.

(** The two functions share the loop below; [remaining] starts at the closeable
    quantity. *)
Fixpoint closed_fills_loop (s : side) (symbol : string) (active : gmap string double)
    (fills : list Fill) (remaining : double) : list (string * double) :=
  match fills with
  | [] => []
  | existing_fill :: rest =>
      if dleb remaining EPSILON then []
      else if String.eqb (Fill_symbol_ existing_fill) symbol && side_matches s existing_fill then
        match active !! Fill_uuid_ existing_fill with
        | Some available =>
            let to_close := dmin available remaining in
            (Fill_uuid_ existing_fill, to_close)
              :: closed_fills_loop s symbol active rest (dsub remaining to_close)
        | None => closed_fills_loop s symbol active rest remaining
        end
      else closed_fills_loop s symbol active rest remaining
  end.

Definition find_buy_fill_uuids_closed_by_sell (sell_fill : Fill) (st : State) : list (string * double) :=
  match positions_ st !! Fill_symbol_ sell_fill with
  | None => []
  | Some p =>
      if dleb (Position_quantity_ p) dzero then []
      else
        let closeable := dmin (Fill_quantity_ sell_fill) (Position_quantity_ p) in
        closed_fills_loop BuySide (Fill_symbol_ sell_fill) (active_buy_fills_ st) (fills_ st) closeable
  end.

Definition find_sell_fill_uuids_closed_by_buy (buy_fill : Fill) (st : State) : list (string * double) :=
  match positions_ st !! Fill_symbol_ buy_fill with
  | None => []
  | Some p =>
      if dleb dzero (Position_quantity_ p) then []
      else
        let closeable := dmin (Fill_quantity_ buy_fill) (dabs (Position_quantity_ p)) in
        closed_fills_loop SellSide (Fill_symbol_ buy_fill) (active_sell_fills_ st) (fills_ st) closeable
  end.

(** ** The loop reports the FIFO plan *)
Definition closing_report (c : closing) : string * double :=
  let '(fill, _, to_close) := c in (Fill_uuid_ fill, to_close).

Lemma closed_fills_loop_plan s symbol active fills q :
  closed_fills_loop s symbol active fills q =
  closing_report <$> fifo_plan active (fill_matches s symbol) fills q.
Proof.
  revert q. induction fills as [|f fills IH]; intros q; simpl; [done|].
  unfold fill_matches at 1. destruct (dleb q EPSILON); [done|].
  destruct (_ && _); [|apply IH]. destruct (active !! Fill_uuid_ f); [|apply IH].
  simpl. by rewrite IH.
Qed.
