(* ===== verification/Executor.v ===== *)
(** * [src/simulators/back_test/executor.cpp]: order execution

    [execute_order] reads the state and returns a result; it never writes.  Each
    [Fill] it constructs draws one identifier from [create_uuid]; [n] counts the
    identifiers drawn so far and [create_uuid n] is the next one. *)
From Stdlib Require Import ZArith Lia.
From stdpp Require Import base tactics list gmap strings.
From S2P Require Import Prelude Double Money Manifest Models State Equity StateOps Exchange PositionCalc.
Open Scope Z_scope.

Definition get_fillable_and_remaining_quantities (order : Order) (host_params : HostParams) (st : State)
  : outcome (double * double) :=
  match fill_max_pct_of_volume_ host_params with
  | Some pct =>
      let* v := get_symbol_volume st (Order_symbol_ order) in
      let bar_volume := d_of_Z v in
      let max_fill_quantity := dmul bar_volume pct in
      if dltb max_fill_quantity (Order_quantity_ order)
      then Ret (max_fill_quantity, dsub (Order_quantity_ order) max_fill_quantity)
      else Ret (Order_quantity_ order, dzero)
  | None => Ret (Order_quantity_ order, dzero)
  end.

Definition calculate_position_opening_quantity (order : Order)
    (fillable_quantity current_position_quantity new_position_quantity : double) : double :=
  if Order_is_buy order then
    if dleb dzero current_position_quantity then fillable_quantity
    else dmax dzero new_position_quantity
  else if dleb current_position_quantity dzero then fillable_quantity
  else dmax dzero (dneg new_position_quantity).

Definition create_exit_orders (order : Order) (fill : Fill) (st : State)
    (position_opening_quantity new_position_quantity : double) : list ExitOrder :=
  if dleb position_opening_quantity EPSILON then []
  else
    let is_short_position_fill := Order_is_sell order && dleb new_position_quantity dzero in
    let stop_loss :=
      match Order_stop_loss_price_ order with
      | Some p => [ExitOrder_StopLoss
                     (StopLossExitOrder_make (Order_symbol_ order) position_opening_quantity p
                        (Fill_price_ fill) (current_timestamp_ns_ st) (Fill_uuid_ fill)
                        is_short_position_fill)]
      | None => []
      end in
    let take_profit :=
      match Order_take_profit_price_ order with
      | Some p => [ExitOrder_TakeProfit
                     (TakeProfitExitOrder_make (Order_symbol_ order) position_opening_quantity p
                        (Fill_price_ fill) (current_timestamp_ns_ st) (Fill_uuid_ fill)
                        is_short_position_fill)]
      | None => []
      end in
    stop_loss ++ take_profit.

Definition calculate_fill_price (order : Order) (st : State) : outcome Money :=
  let* current_bar_close := get_symbol_close st (Order_symbol_ order) in
  match Order_limit_price_ order with
  | Some limit_price =>
      if Order_is_limit_order order then
        if Order_is_buy order then Ret (Money_min limit_price current_bar_close)
        else Ret (Money_max limit_price current_bar_close)
      else Ret current_bar_close
  | None => Ret current_bar_close
  end.

Definition signal_to_order (signal : Signal) (host_params : HostParams) (st : State) : outcome Order :=
  let* stop_loss_price := calculate_signal_stop_loss_price signal host_params st in
  let* take_profit_price := calculate_signal_take_profit_price signal host_params st in
  let* quantity := calculate_signal_position_size signal host_params st in
  Ret (Order_make quantity (current_timestamp_ns_ st) (Signal_symbol_ signal) (Signal_action_ signal)
         MARKET None stop_loss_price take_profit_price).

Definition calculate_margin_required (host_params : HostParams) (fill_price : Money)
    (position_opening_quantity leverage : double) : Money :=
  let initial_margin_pct := value_or (initial_margin_pct_ host_params) (d_of_Z 1) in
  let opening_value_dollars := dmul (to_dollars fill_price) position_opening_quantity in
  let margin_from_leverage := ddiv opening_value_dollars leverage in
  let margin_from_initial := dmul opening_value_dollars initial_margin_pct in
  from_dollars (dmax margin_from_leverage margin_from_initial).

Record ClosingMarginInfo : Type := mkClosingMarginInfo {
  margin_to_release_ : Money;
  realized_pnl_ : Money
}.

(** The loop of [calculate_closing_margin_info] over [state.fills_]. *)
Fixpoint closing_margin_loop (order : Order) (fill_price : Money) (active : gmap string double)
    (margins : gmap string Money) (fills : list Fill) (remaining : double)
    (margin_to_release realized_pnl : Money) : ClosingMarginInfo :=
  match fills with
  | [] => mkClosingMarginInfo margin_to_release realized_pnl
  | fill :: rest =>
      if dleb remaining EPSILON then mkClosingMarginInfo margin_to_release realized_pnl
      else
        let is_matching_fill := (Order_is_sell order && Fill_is_buy fill)
                                || (Order_is_buy order && Fill_is_sell fill) in
        if String.eqb (Fill_symbol_ fill) (Order_symbol_ order) && is_matching_fill then
          match active !! Fill_uuid_ fill with
          | Some available =>
              let to_close := dmin available remaining in
              let margin_to_release :=
                match margins !! Fill_uuid_ fill with
                | Some m => (margin_to_release + m *$ ddiv to_close available)%money
                | None => margin_to_release
                end in
              let realized_pnl :=
                if Order_is_sell order
                then (realized_pnl + (fill_price - Fill_price_ fill) *$ to_close)%money
                else (realized_pnl + (Fill_price_ fill - fill_price) *$ to_close)%money in
              closing_margin_loop order fill_price active margins rest (dsub remaining to_close)
                margin_to_release realized_pnl
          | None => closing_margin_loop order fill_price active margins rest remaining
                      margin_to_release realized_pnl
          end
        else closing_margin_loop order fill_price active margins rest remaining
               margin_to_release realized_pnl
  end.

Definition calculate_closing_margin_info (order : Order) (fill_price : Money)
    (position_closing_quantity : double) (st : State) : ClosingMarginInfo :=
  if dleb position_closing_quantity EPSILON then mkClosingMarginInfo (0)%money (0)%money
  else
    let active := if Order_is_sell order then active_buy_fills_ st else active_sell_fills_ st in
    closing_margin_loop order fill_price active (active_margin_for_fills_ st) (fills_ st)
      position_closing_quantity (0)%money (0)%money.

Definition calculate_cash_delta (order : Order) (fill_price : Money) (fillable_quantity : double)
    (commission : Money) (position_opening_quantity : double) (margin_required : Money) (st : State) : Money :=
  let position_closing_quantity := dsub fillable_quantity position_opening_quantity in
  let closing_info := calculate_closing_margin_info order fill_price position_closing_quantity st in
  if Order_is_buy order then
    let opening_cost := margin_required in
    let closing_return := (margin_to_release_ closing_info + realized_pnl_ closing_info)%money in
    (closing_return - opening_cost - commission)%money
  else if Order_is_sell order then
    let opening_cost := margin_required in
    let closing_return := (margin_to_release_ closing_info + realized_pnl_ closing_info)%money in
    (closing_return - opening_cost - commission)%money
  else (0)%money.

Definition validate_margin (order : Order) (fill_price commission : Money) (host_params : HostParams)
    (st : State) (position_opening_quantity new_position_quantity : double) (margin_required : Money)
    (fillable_quantity : double) : option string :=
  if Order_is_sell order && negb (value_or (allow_short_selling_ host_params) true)
     && dltb new_position_quantity dzero
  then Some "Short selling is not allowed"
  else
    let leverage := value_or (Order_leverage_ order) (d_of_Z 1) in
    let max_leverage := value_or (max_leverage_ host_params) (d_of_Z 1) in
    if dltb leverage (d_of_Z 1) then Some "Leverage must be >= 1.0"
    else if dltb max_leverage leverage then Some "Order leverage exceeds maximum allowed"
    else if dleb position_opening_quantity EPSILON then
      let position_closing_quantity := fillable_quantity in
      let closing_info := calculate_closing_margin_info order fill_price position_closing_quantity st in
      let net_cash_flow :=
        (margin_to_release_ closing_info + realized_pnl_ closing_info - commission)%money in
      if (net_cash_flow <? 0)%money then
        let cash_required := (0 - net_cash_flow)%money in
        if (cash_required >? cash_ st)%money then Some "Insufficient cash to close position." else None
      else None
    else
      let total_required := (margin_required + commission)%money in
      let available_margin := calculate_available_margin st in
      if (total_required >? available_margin)%money then Some "Insufficient margin." else None.

Section ExecuteOrder.
Context (create_uuid : nat -> string).

(** What [execute_order] does once the quantity to fill is settled. *)
Definition execute_fill (n : nat) (order : Order) (host_params : HostParams) (st : State)
    (fillable_quantity remaining_quantity : double) : outcome (ExecutionResult * nat) :=
  let* fill_price := calculate_fill_price order st in
  let symbol_position := get_symbol_position_or st (Order_symbol_ order)
                           (mkPosition (Order_symbol_ order) dzero (0)%money) in
  let current_position_quantity :=
    if has_symbol_position st (Order_symbol_ order) then Position_quantity_ symbol_position else dzero in
  let new_position_quantity :=
    dadd current_position_quantity
      (if Order_is_buy order then fillable_quantity else dneg fillable_quantity) in
  let position_opening_quantity :=
    calculate_position_opening_quantity order fillable_quantity current_position_quantity
      new_position_quantity in
  let commission :=
    calculate_commision
      (Fill_make (create_uuid n) (Order_symbol_ order) (Order_action_ order) fillable_quantity fill_price
         (current_timestamp_ns_ st) (d_of_Z 1) (0)%money) host_params in
  let leverage := value_or (Order_leverage_ order) (d_of_Z 1) in
  let margin_required :=
    if dltb EPSILON position_opening_quantity
    then calculate_margin_required host_params fill_price position_opening_quantity leverage
    else (0)%money in
  match validate_margin order fill_price commission host_params st position_opening_quantity
          new_position_quantity margin_required fillable_quantity with
  | Some message => Ret (ExecutionResult_Error message, S n)
  | None =>
      let cash_delta := calculate_cash_delta order fill_price fillable_quantity commission
                          position_opening_quantity margin_required st in
      let fill := Fill_make (create_uuid (S n)) (Order_symbol_ order) (Order_action_ order)
                    fillable_quantity fill_price (current_timestamp_ns_ st) leverage margin_required in
      let exit_orders := create_exit_orders order fill st position_opening_quantity new_position_quantity in
      let position := calculate_position order fillable_quantity fill_price st in
      let partial_order :=
        if dltb dzero remaining_quantity
        then Some (Order_with_quantity order remaining_quantity (current_timestamp_ns_ st))
        else None in
      Ret (ExecutionResult_Success
             (ExecutionResultSuccess_make cash_delta margin_required leverage partial_order position fill
                exit_orders), S (S n))
  end.

Definition fill_still_active (st : State) (uuid : string) : bool :=
  map_has (active_buy_fills_ st) uuid || map_has (active_sell_fills_ st) uuid.

Definition execute_order (n : nat) (order : Order) (host_params : HostParams) (st : State)
  : outcome (ExecutionResult * nat) :=
  if dleb (Order_quantity_ order) dzero
  then Ret (ExecutionResult_Error "Order quantity must be positive", n)
  else if negb (has_symbol_prices st (Order_symbol_ order))
  then Ret (ExecutionResult_Error (String.append "No price data for symbol: " (Order_symbol_ order)), n)
  else if negb (has_symbol_volume st (Order_symbol_ order))
  then Ret (ExecutionResult_Error (String.append "No volume data for symbol: " (Order_symbol_ order)), n)
  else if Order_is_exit_order_ order
          && match Order_source_fill_uuid_ order with
             | Some uuid => negb (fill_still_active st uuid)
             | None => false
             end
  then Ret (ExecutionResult_Error "Exit order source fill no longer active - skipping", n)
  else
    let* '(fillable_quantity, remaining_quantity) :=
      get_fillable_and_remaining_quantities order host_params st in
    if negb (value_or (allow_fractional_shares_ host_params) false) then
      let fillable_quantity := dfloor fillable_quantity in
      if dleb fillable_quantity dzero
      then Ret (ExecutionResult_Error "Order quantity is too small to execute", n)
      else execute_fill n order host_params st fillable_quantity remaining_quantity
    else execute_fill n order host_params st fillable_quantity remaining_quantity.
End ExecuteOrder.
