(* ===== verification/ExecutorSpec.v ===== *)
(** * What the executor guarantees

    Inversion of a successful execution, the contract [Result_wf] that
    [State::update_state] relies on, and the agreement of
    [calculate_closing_margin_info] with the FIFO plan. *)
From Stdlib Require Import ZArith Lia SpecFloat.
From stdpp Require Import base tactics list gmap strings.
From S2P Require Import Prelude Double Money Manifest Models State Equity StateOps StateInv MarginAccounts.
From S2P Require Import Exchange PositionCalc Executor.
Open Scope Z_scope.

(** ** Quantities of an execution, by name *)
Definition signed_fill (order : Order) (q : double) : double :=
  if Order_is_buy order then q else dneg q.

Definition new_quantity (order : Order) (q : double) (st : State) : double :=
  dadd (held_quantity st (Order_symbol_ order)) (signed_fill order q).

Definition opening_quantity (order : Order) (q : double) (st : State) : double :=
  calculate_position_opening_quantity order q (held_quantity st (Order_symbol_ order))
    (new_quantity order q st).

Definition margin_required (hp : HostParams) (order : Order) (q : double) (price : Money) (st : State) : Money :=
  if dltb EPSILON (opening_quantity order q st)
  then calculate_margin_required hp price (opening_quantity order q st)
         (value_or (Order_leverage_ order) (d_of_Z 1))
  else (0)%money.

Definition commission_of (hp : HostParams) (order : Order) (q : double) (price : Money) (st : State) : Money :=
  calculate_commision
    (Fill_make "" (Order_symbol_ order) (Order_action_ order) q price (current_timestamp_ns_ st)
       (d_of_Z 1) (0)%money) hp.

(** The commission does not depend on the identifier of the fill. *)
Lemma commission_uuid u hp order q price st :
  calculate_commision
    (Fill_make u (Order_symbol_ order) (Order_action_ order) q price (current_timestamp_ns_ st)
       (d_of_Z 1) (0)%money) hp = commission_of hp order q price st.
Proof. done. Qed.

Lemma held_quantity_eq st sym :
  (if has_symbol_position st sym
   then Position_quantity_ (get_symbol_position_or st sym (mkPosition sym dzero (0)%money)) else dzero)
  = held_quantity st sym.
Proof. unfold has_symbol_position, map_has, get_symbol_position_or, held_quantity.
  by destruct (positions_ st !! sym). Qed.

(** The quantity the executor fills: capped by volume, floored without fractional
    shares. *)
Definition settled_quantity (hp : HostParams) (q : double) : double :=
  if value_or (allow_fractional_shares_ hp) false then q else dfloor q.

Section Success.
Context (create_uuid : nat -> string).

Definition success_result (n : nat) (order : Order) (hp : HostParams) (st : State)
    (q remaining : double) (price : Money) : ExecutionResultSuccess :=
  let margin := margin_required hp order q price st in
  let leverage := value_or (Order_leverage_ order) (d_of_Z 1) in
  let fill := Fill_make (create_uuid (S n)) (Order_symbol_ order) (Order_action_ order) q price
                (current_timestamp_ns_ st) leverage margin in
  ExecutionResultSuccess_make
    (calculate_cash_delta order price q (commission_of hp order q price st) (opening_quantity order q st)
       margin st)
    margin leverage
    (if dltb dzero remaining
     then Some (Order_with_quantity order remaining (current_timestamp_ns_ st)) else None)
    (calculate_position order q price st) fill
    (create_exit_orders order fill st (opening_quantity order q st) (new_quantity order q st)).

(** The facts behind a success. *)
Record success_facts (n : nat) (order : Order) (hp : HostParams) (st : State)
    (r : ExecutionResultSuccess) (n' : nat) (q0 remaining : double) (price : Money) : Prop := {
  sf_positive : dleb (Order_quantity_ order) dzero = false;
  sf_prices : has_symbol_prices st (Order_symbol_ order) = true;
  sf_volume : has_symbol_volume st (Order_symbol_ order) = true;
  sf_exit : forall u, Order_is_exit_order_ order = true -> Order_source_fill_uuid_ order = Some u ->
    fill_still_active st u = true;
  sf_quantities : get_fillable_and_remaining_quantities order hp st = Ret (q0, remaining);
  sf_whole : value_or (allow_fractional_shares_ hp) false = false -> dleb (dfloor q0) dzero = false;
  sf_price : calculate_fill_price order st = Ret price;
  sf_valid : validate_margin order price (commission_of hp order (settled_quantity hp q0) price st) hp st
    (opening_quantity order (settled_quantity hp q0) st) (new_quantity order (settled_quantity hp q0) st)
    (margin_required hp order (settled_quantity hp q0) price st) (settled_quantity hp q0) = None;
  sf_result : r = success_result n order hp st (settled_quantity hp q0) remaining price;
  sf_draws : n' = S (S n)
}.

Lemma execute_fill_cases n order hp st q remaining :
  execute_fill create_uuid n order hp st q remaining =
  let* price := calculate_fill_price order st in
  match validate_margin order price (commission_of hp order q price st) hp st
          (opening_quantity order q st) (new_quantity order q st)
          (margin_required hp order q price st) q with
  | Some message => Ret (ExecutionResult_Error message, S n)
  | None => Ret (ExecutionResult_Success (success_result n order hp st q remaining price), S (S n))
  end.
Proof.
  unfold execute_fill. destruct (calculate_fill_price order st) as [price| |]; [|done|done].
  cbn [obind]. rewrite held_quantity_eq. by rewrite commission_uuid.
Qed.

Lemma execute_order_success_inv n order hp st r n' :
  execute_order create_uuid n order hp st = Ret (ExecutionResult_Success r, n') ->
  exists q0 remaining price, success_facts n order hp st r n' q0 remaining price.
Proof.
  unfold execute_order.
  destruct (dleb (Order_quantity_ order) dzero) eqn:Hpos; [done|].
  destruct (has_symbol_prices st (Order_symbol_ order)) eqn:Hp; [|done].
  destruct (has_symbol_volume st (Order_symbol_ order)) eqn:Hv; [|done]. cbn [negb].
  destruct (_ && _) eqn:Hex; [done|].
  intros ([q0 remaining] & Hq & H)%obind_ret.
  assert (forall u, Order_is_exit_order_ order = true -> Order_source_fill_uuid_ order = Some u ->
    fill_still_active st u = true) as Hexit.
  { intros u H1 H2. rewrite H1, H2 in Hex. simpl in Hex. by apply negb_false_iff in Hex. }
  assert (execute_fill create_uuid n order hp st (settled_quantity hp q0) remaining
            = Ret (ExecutionResult_Success r, n') /\
          (value_or (allow_fractional_shares_ hp) false = false -> dleb (dfloor q0) dzero = false)) as [Hf Hw].
  { unfold settled_quantity. destruct (value_or (allow_fractional_shares_ hp) false); cbn [negb] in H; [done|].
    destruct (dleb (dfloor q0) dzero); [done|]. done. }
  rewrite execute_fill_cases in Hf. apply obind_ret in Hf as (price & Hprice & Hf).
  destruct (validate_margin _ _ _ _ _ _ _ _ _) eqn:Hval; [done|]. injection Hf as <- <-.
  exists q0, remaining, price. by split.
Qed.

(** The executor never leaves with an exception: its guards cover every [at]. *)
Lemma execute_order_returns n order hp st :
  exists res n', execute_order create_uuid n order hp st = Ret (res, n').
Proof.
  unfold execute_order. destruct (dleb _ _); [eauto|].
  destruct (has_symbol_prices st (Order_symbol_ order)) eqn:Hp; cbn [negb]; [|eauto].
  destruct (has_symbol_volume st (Order_symbol_ order)) eqn:Hv; cbn [negb]; [|eauto].
  destruct (_ && _); [eauto|].
  apply map_has_at in Hp as (pr & Hp & Hp'). apply map_has_at in Hv as (v & Hv & Hv').
  assert (exists price, calculate_fill_price order st = Ret price) as [price Hprice].
  { unfold calculate_fill_price, get_symbol_close. rewrite Hp'. cbn [obind].
    repeat case_match; eauto. }
  assert (forall q rem, exists res n', execute_fill create_uuid n order hp st q rem = Ret (res, n')) as Hf.
  { intros q rem. rewrite execute_fill_cases, Hprice. cbn [obind]. case_match; eauto. }
  assert (exists qs, get_fillable_and_remaining_quantities order hp st = Ret qs) as [[q0 rem] ->].
  { unfold get_fillable_and_remaining_quantities, get_symbol_volume. rewrite Hv'. cbn [obind].
    repeat case_match; eauto. }
  cbn [obind]. repeat case_match; eauto.
Qed.
End Success.

(** ** The contract of [update_state] *)
Lemma calculate_position_symbol order q price st :
  State_wf st -> Position_symbol_ (calculate_position order q price st) = Order_symbol_ order.
Proof.
  intros Hwf. unfold calculate_position.
  assert (Position_symbol_ (get_symbol_position_or st (Order_symbol_ order)
            (mkPosition (Order_symbol_ order) dzero (0)%money)) = Order_symbol_ order) as E.
  { unfold get_symbol_position_or. destruct (positions_ st !! Order_symbol_ order) as [p|] eqn:Hp; [|done].
    by apply (wf_positions _ Hwf) in Hp as [? _]. }
  destruct (Order_is_buy order), (Order_is_sell order); cbn [Position_symbol_ Position_quantity_];
    destruct (dltb (dabs _) EPSILON); exact E.
Qed.

Lemma create_exit_orders_uuid order fill st a b o :
  o ∈ create_exit_orders order fill st a b -> ExitOrder_fill_uuid o = Fill_uuid_ fill.
Proof.
  unfold create_exit_orders. destruct (dleb _ _); [by intros ?%not_elem_of_nil|].
  destruct (Order_stop_loss_price_ order), (Order_take_profit_price_ order); simpl;
    rewrite ?elem_of_cons; intros; destruct_or?; subst; try done; by apply not_elem_of_nil in H.
Qed.

Lemma success_result_wf create_uuid n order hp st q rem price :
  State_wf st -> create_uuid (S n) ∉ fill_uuids st ->
  Result_wf st (success_result create_uuid n order hp st q rem price).
Proof.
  intros Hwf Hf. split; simpl.
  - exact Hf.
  - by apply calculate_position_symbol.
  - intros o. apply create_exit_orders_uuid.
Qed.

(** ** [calculate_closing_margin_info] follows the FIFO plan *)
Definition Order_is_trade (order : Order) : bool := Order_is_buy order || Order_is_sell order.

(** The side an order closes. *)
Definition order_closes (order : Order) : side := if Order_is_sell order then BuySide else SellSide.

(** Profit on one lot. *)
Definition closing_pnl (order : Order) (price : Money) (c : closing) : Money :=
  let '(fill, _, to_close) := c in
  if Order_is_sell order then ((price - Fill_price_ fill) *$ to_close)%money
  else ((Fill_price_ fill - price) *$ to_close)%money.

Definition plan_pnl (order : Order) (price : Money) (plan : list closing) (acc : Money) : Money :=
  fold_left (fun acc c => (acc + closing_pnl order price c)%money) plan acc.

Lemma order_matching order fill :
  Order_is_trade order = true ->
  (Order_is_sell order && Fill_is_buy fill) || (Order_is_buy order && Fill_is_sell fill)
  = side_matches (order_closes order) fill.
Proof.
  unfold Order_is_trade, order_closes, Order_is_buy, Order_is_sell. intros H.
  destruct (String.eqb (Order_action_ order) BUY) eqn:Hb.
  - by rewrite (buy_not_sell _ Hb).
  - simpl in H. rewrite H. simpl. by rewrite orb_false_r.
Qed.

Lemma closing_margin_loop_plan order price active margins fills q acc pnl :
  Order_is_trade order = true ->
  closing_margin_loop order price active margins fills q acc pnl =
  let plan := fifo_plan active (fill_matches (order_closes order) (Order_symbol_ order)) fills q in
  mkClosingMarginInfo (fold_left (add_closing_margin margins) plan acc) (plan_pnl order price plan pnl).
Proof.
  intros Ht. cbv zeta. revert q acc pnl. induction fills as [|f fills IH]; intros q acc pnl; simpl; [done|].
  rewrite (order_matching _ _ Ht).
  change (String.eqb (Fill_symbol_ f) (Order_symbol_ order) && side_matches (order_closes order) f)
    with (fill_matches (order_closes order) (Order_symbol_ order) f).
  destruct (dleb q EPSILON); [done|]. destruct (fill_matches _ _ f); [|apply IH].
  destruct (active !! Fill_uuid_ f) as [a|]; [|apply IH]. rewrite IH. f_equal.
  - cbn [fold_left]. f_equal. unfold add_closing_margin. simpl. by destruct (margins !! Fill_uuid_ f).
  - unfold plan_pnl. cbn [fold_left]. f_equal. simpl. by destruct (Order_is_sell order).
Qed.

(** The margin and profit of a closing are those of its plan. *)
Lemma closing_info_plan order price q st :
  Order_is_trade order = true ->
  calculate_closing_margin_info order price q st =
  let plan := closing_plan (order_closes order) (Order_symbol_ order) q st in
  mkClosingMarginInfo (margin_released (active_margin_for_fills_ st) plan)
    (plan_pnl order price plan (0)%money).
Proof.
  intros Ht. unfold calculate_closing_margin_info, closing_plan.
  destruct (dleb q EPSILON) eqn:Hq.
  - destruct (fills_ st); simpl; [done|]. by rewrite Hq.
  - assert ((if Order_is_sell order then active_buy_fills_ st else active_sell_fills_ st)
            = active_fills (order_closes order) st) as -> by (unfold order_closes; by case_match).
    by rewrite closing_margin_loop_plan.
Qed.

(** ** Cash against margin *)

(** The side an order closes is the side its fill closes. *)
Lemma closed_side_order u order q price t l m :
  Order_is_trade order = true ->
  closed_side (Fill_make u (Order_symbol_ order) (Order_action_ order) q price t l m) = order_closes order.
Proof.
  unfold closed_side, order_closes, Order_is_trade, Order_is_buy, Order_is_sell, Fill_is_buy. simpl.
  intros H. destruct (String.eqb (Order_action_ order) BUY) eqn:Hb.
  - by rewrite (buy_not_sell _ Hb).
  - simpl in H. by rewrite H.
Qed.

(** The change of [margin_in_use_] over [update_state]: the plan's margin is given
    back, the new lot's margin is taken. *)
Lemma update_state_margin_in_use r st :
  State_wf st -> Result_wf st r ->
  let f := ExecutionResultSuccess_fill_ r in
  let released := margin_released (active_margin_for_fills_ st) (update_plan r st) in
  margin_in_use_ (update_state r st) =
  match snd (populate_active_fills f (held_quantity st (Fill_symbol_ f)) (fill_reduces r st)
               (update_state_entry r st)) with
  | Some (_, q) =>
      (margin_in_use_ st - released
       + ExecutionResultSuccess_margin_used_ r *$ ddiv q (Fill_quantity_ f))%money
  | None => (margin_in_use_ st - released)%money
  end.
Proof.
  intros Hwf Hr f released.
  pose proof (populate_follows_plan r st Hwf Hr) as Hp. cbv zeta in Hp. fold f in Hp.
  pose proof (apply_plan_margin (closed_side f) (update_plan r st) (update_state_entry r st)
    (update_plan_NoDup r st Hwf) (wf_margin_in_use _ Hwf)) as Hm.
  rewrite <- Hp in Hm. change (margin_in_use_ (update_state_entry r st)) with (margin_in_use_ st) in Hm.
  change (active_margin_for_fills_ (update_state_entry r st)) with (active_margin_for_fills_ st) in Hm.
  fold released in Hm. rewrite update_state_unfold.
  change (margin_in_use_ (set_positions _ _)) with (margin_in_use_ (update_state_margins r st)).
  unfold update_state_margins. fold f.
  destruct (populate_active_fills _ _ _ _) as [st1 [[u q]|]]; simpl in *; [|exact Hm].
  rewrite <- Hm. unfold register_active_fill. by repeat case_match.
Qed.
