(* ===== verification/ExitBook.v ===== *)
(** * [src/simulators/back_test/exit_order_book.cpp]

    The book is two heaps.  The processing loops call back into the engine, which
    owns the book and may change it (a closing fill shrinks other exit orders), so
    they run on the host's whole state [W]: the interface [ExitBookHost] says where
    the book and the portfolio live in it. *)
From Stdlib Require Import ZArith Lia.
From stdpp Require Import base tactics list gmap strings.
From S2P Require Import Prelude Double Money Heap Models State.
Open Scope Z_scope.

Record ExitOrderBook : Type := mkExitOrderBook {
  stop_loss_heap_ : list StopLossExitOrder;
  take_profit_heap_ : list TakeProfitExitOrder
}.

Definition set_stop_loss_heap (h : list StopLossExitOrder) (b : ExitOrderBook) : ExitOrderBook :=
  mkExitOrderBook h (take_profit_heap_ b).
Definition set_take_profit_heap (h : list TakeProfitExitOrder) (b : ExitOrderBook) : ExitOrderBook :=
  mkExitOrderBook (stop_loss_heap_ b) h.

Definition add_exit_order (order : ExitOrder) (b : ExitOrderBook) : ExitOrderBook :=
  match order with
  | ExitOrder_StopLoss o => set_stop_loss_heap (MinHeap_push (stop_loss_heap_ b) o) b
  | ExitOrder_TakeProfit o => set_take_profit_heap (MaxHeap_push (take_profit_heap_ b) o) b
  end.

(** ** Reduction after a fill was closed *)

(** [while (!heap.empty()) { top; pop; ... temp.push_back(...) }] for a heap with
    the given [pop]; one round per element, so the size is enough fuel. *)
Fixpoint heap_drain {T : Type} (pop : list T -> list T) (keep : T -> option T) (fuel : nat)
    (heap : list T) : list T :=
  match fuel with
  | O => []
  | S fuel' =>
      match heap_top heap with
      | None => []
      | Some x =>
          match keep x with
          | Some y => y :: heap_drain pop keep fuel' (pop heap)
          | None => heap_drain pop keep fuel' (pop heap)
          end
      end
  end.

(** [for (order : temp) heap.push(order);] *)
Definition heap_push_all {T : Type} (push : list T -> T -> list T) (temp : list T) (heap : list T) : list T :=
  fold_left push temp heap.

Definition reduce_stop_loss (fill_uuid : string) (quantity_sold : double) (o : StopLossExitOrder)
  : option StopLossExitOrder :=
  if String.eqb (StopLossExitOrder_fill_uuid_ o) fill_uuid then
    if dltb quantity_sold (StopLossExitOrder_trigger_quantity_ o)
    then Some (StopLossExitOrder_reduce o quantity_sold)
    else None
  else Some o.

Definition reduce_take_profit (fill_uuid : string) (quantity_sold : double) (o : TakeProfitExitOrder)
  : option TakeProfitExitOrder :=
  if String.eqb (TakeProfitExitOrder_fill_uuid_ o) fill_uuid then
    if dltb quantity_sold (TakeProfitExitOrder_trigger_quantity_ o)
    then Some (TakeProfitExitOrder_reduce o quantity_sold)
    else None
  else Some o.

Definition reduce_exit_orders_by_fill_uuid (fill_uuid : string) (quantity_sold : double)
    (b : ExitOrderBook) : ExitOrderBook :=
  let temp_stop_loss := heap_drain MinHeap_pop (reduce_stop_loss fill_uuid quantity_sold)
                          (MinHeap_size (stop_loss_heap_ b)) (stop_loss_heap_ b) in
  let b := set_stop_loss_heap (heap_push_all MinHeap_push temp_stop_loss []) b in
  let temp_take_profit := heap_drain MaxHeap_pop (reduce_take_profit fill_uuid quantity_sold)
                            (MaxHeap_size (take_profit_heap_ b)) (take_profit_heap_ b) in
  set_take_profit_heap (heap_push_all MaxHeap_push temp_take_profit []) b.

Definition reduce_exit_orders_by_fills (closed_fills : list (string * double)) (b : ExitOrderBook)
  : ExitOrderBook :=
  fold_left (fun b '(fill_uuid, quantity) => reduce_exit_orders_by_fill_uuid fill_uuid quantity b)
    closed_fills b.

(** ** Triggering *)
Class ExitBookHost (W : Type) : Type := {
  host_exit_book : W -> ExitOrderBook;
  host_set_exit_book : ExitOrderBook -> W -> W;
  host_exit_state : W -> State
}.

(** The laws of that view. *)
Class ExitBookHostLaws (W : Type) `{ExitBookHost W} : Prop := {
  host_exit_get_set : forall b w, host_exit_book (host_set_exit_book b w) = b;
  host_exit_state_set : forall b w, host_exit_state (host_set_exit_book b w) = host_exit_state w
}.

Definition stop_loss_triggers (st : State) (o : StopLossExitOrder) : outcome bool :=
  let* current_bar_low := get_symbol_low st (StopLossExitOrder_symbol_ o) in
  let* current_bar_high := get_symbol_high st (StopLossExitOrder_symbol_ o) in
  Ret (if StopLossExitOrder_is_short_position_ o
       then (current_bar_high >=? StopLossExitOrder_stop_loss_price_ o)%money
       else (current_bar_low <=? StopLossExitOrder_stop_loss_price_ o)%money).

Definition take_profit_triggers (st : State) (o : TakeProfitExitOrder) : outcome bool :=
  let* current_bar_high := get_symbol_high st (TakeProfitExitOrder_symbol_ o) in
  let* current_bar_low := get_symbol_low st (TakeProfitExitOrder_symbol_ o) in
  Ret (if TakeProfitExitOrder_is_short_position_ o
       then (current_bar_low <=? TakeProfitExitOrder_take_profit_price_ o)%money
       else (current_bar_high >=? TakeProfitExitOrder_take_profit_price_ o)%money).

(** [process_stop_loss_heap] and [process_take_profit_heap] are the same loop over
    different heaps. *)
Record ExitSide (T : Type) : Type := mkExitSide {
  exit_before : T -> T -> bool;
  exit_heap : ExitOrderBook -> list T;
  exit_set_heap : list T -> ExitOrderBook -> ExitOrderBook;
  exit_symbol : T -> string;
  exit_triggers : State -> T -> outcome bool
}.
Arguments exit_before {T}.
Arguments exit_heap {T}.
Arguments exit_set_heap {T}.
Arguments exit_symbol {T}.
Arguments exit_triggers {T}.

(** A [MinHeap] under [operator<]. *)
Definition stop_loss_side : ExitSide StopLossExitOrder := {|
  exit_before := op_lt;
  exit_heap := stop_loss_heap_;
  exit_set_heap := set_stop_loss_heap;
  exit_symbol := StopLossExitOrder_symbol_;
  exit_triggers := stop_loss_triggers
|}.

(** A [MaxHeap] under [operator>]. *)
Definition take_profit_side : ExitSide TakeProfitExitOrder := {|
  exit_before := op_gt;
  exit_heap := take_profit_heap_;
  exit_set_heap := set_take_profit_heap;
  exit_symbol := TakeProfitExitOrder_symbol_;
  exit_triggers := take_profit_triggers
|}.

Section Process.
Context {W : Type} `{ExitBookHost W} {T : Type} (side : ExitSide T).

Definition host_exits (w : W) : list T := exit_heap side (host_exit_book w).

Definition host_set_exits (h : list T) (w : W) : W :=
  host_set_exit_book (exit_set_heap side h (host_exit_book w)) w.

Definition pop_exit (w : W) : W := host_set_exits (heap_pop (exit_before side) (host_exits w)) w.

Fixpoint process_exit_loop (callback : T -> W -> outcome W) (fuel : nat) (w : W)
    (not_triggered : list T) : outcome (W * list T) :=
  match fuel with
  | O => OutOfFuel
  | S fuel' =>
      match heap_top (host_exits w) with
      | None => Ret (w, not_triggered)
      | Some exit_order =>
          let st := host_exit_state w in
          if negb (has_symbol_position st (exit_symbol side exit_order))
          then process_exit_loop callback fuel' (pop_exit w) not_triggered
          else if negb (has_symbol_prices st (exit_symbol side exit_order))
          then process_exit_loop callback fuel' (pop_exit w) not_triggered
          else
            let* should_trigger := exit_triggers side st exit_order in
            let w := pop_exit w in
            if (should_trigger : bool)
            then let* w := callback exit_order w in
                 process_exit_loop callback fuel' w not_triggered
            else process_exit_loop callback fuel' w (not_triggered ++ [exit_order])
      end
  end.

Definition process_exit_heap (callback : T -> W -> outcome W) (fuel : nat) (w : W) : outcome W :=
  let* '(w, not_triggered) := process_exit_loop callback fuel w [] in
  Ret (host_set_exits (heap_push_all (heap_push (exit_before side)) not_triggered (host_exits w)) w).
End Process.

Definition process_stop_loss_heap {W} `{ExitBookHost W} (callback : StopLossExitOrder -> W -> outcome W)
    (fuel : nat) (w : W) : outcome W := process_exit_heap stop_loss_side callback fuel w.

Definition process_take_profit_heap {W} `{ExitBookHost W}
    (callback : TakeProfitExitOrder -> W -> outcome W) (fuel : nat) (w : W) : outcome W :=
  process_exit_heap take_profit_side callback fuel w.

(** ** Draining and refilling *)
Lemma heap_drain_perm {T} (before : T -> T -> bool) keep (heap : list T) fuel :
  (length heap <= fuel)%nat -> heap_drain (heap_pop before) keep fuel heap ≡ₚ omap keep heap.
Proof.
  revert heap. induction fuel as [|fuel IH]; intros heap Hf.
  - destruct heap; [done|simpl in Hf; lia].
  - cbn [heap_drain]. destruct (heap_top heap) as [x|] eqn:Ht; [|by destruct heap].
    pose proof (heap_pop_perm before heap x Ht) as Hp.
    pose proof (heap_pop_length before heap) as Hl.
    assert ((length (heap_pop before heap) <= fuel)%nat) as Hf' by lia.
    transitivity (omap keep (x :: heap_pop before heap)).
    + cbn [omap list_omap]. destruct (keep x); by rewrite (IH _ Hf').
    + by apply omap_Permutation.
Qed.

Lemma length_omap_le {A B} (f : A -> option B) (l : list A) : (length (omap f l) <= length l)%nat.
Proof. induction l as [|x l IH]; csimpl; [done|]. destruct (f x); simpl; lia. Qed.

Lemma heap_push_all_perm {T} (before : T -> T -> bool) temp (heap : list T) :
  heap_push_all (heap_push before) temp heap ≡ₚ temp ++ heap.
Proof.
  unfold heap_push_all. revert heap. induction temp as [|x temp IH]; intros heap; simpl; [done|].
  rewrite IH, heap_push_perm. symmetry. apply Permutation_middle.
Qed.

Lemma heap_push_all_ok {T} (before : T -> T -> bool) `{!StrictWeakOrder before} temp (heap : list T) :
  heap_ok before heap -> heap_ok before (heap_push_all (heap_push before) temp heap).
Proof.
  unfold heap_push_all. revert heap. induction temp as [|x temp IH]; intros heap Hok; simpl; [done|].
  by apply IH, heap_push_ok.
Qed.

Lemma heap_ok_nil {T} (before : T -> T -> bool) : heap_ok before [].
Proof. by intros i Hi x p Hx. Qed.

(** Both heaps are in heap order. *)
Definition ExitOrderBook_ok (b : ExitOrderBook) : Prop :=
  heap_ok op_lt (stop_loss_heap_ b) /\ heap_ok op_gt (take_profit_heap_ b).

Lemma add_exit_order_ok o b : ExitOrderBook_ok b -> ExitOrderBook_ok (add_exit_order o b).
Proof.
  intros [H1 H2]. destruct o; split; simpl; try done; apply heap_push_ok; try done; apply _.
Qed.

(** The reduction acts on the orders as a map, one by one. *)
Lemma reduce_by_uuid_perm u q b :
  stop_loss_heap_ (reduce_exit_orders_by_fill_uuid u q b) ≡ₚ omap (reduce_stop_loss u q) (stop_loss_heap_ b) /\
  take_profit_heap_ (reduce_exit_orders_by_fill_uuid u q b)
    ≡ₚ omap (reduce_take_profit u q) (take_profit_heap_ b).
Proof.
  unfold reduce_exit_orders_by_fill_uuid. simpl.
  unfold MinHeap_push, MaxHeap_push, MinHeap_pop, MaxHeap_pop, MinHeap_size, MaxHeap_size, heap_size.
  split; rewrite heap_push_all_perm, heap_drain_perm, app_nil_r by done; done.
Qed.

Lemma reduce_by_uuid_ok u q b : ExitOrderBook_ok (reduce_exit_orders_by_fill_uuid u q b).
Proof. split; simpl; apply heap_push_all_ok; (apply _ || apply heap_ok_nil). Qed.

Lemma reduce_by_fills_ok closed b : ExitOrderBook_ok b -> ExitOrderBook_ok (reduce_exit_orders_by_fills closed b).
Proof.
  unfold reduce_exit_orders_by_fills. revert b. induction closed as [|[u q] closed IH]; intros b Hb; simpl; [done|].
  apply IH, reduce_by_uuid_ok.
Qed.

(** Reductions never add orders. *)
Lemma reduce_by_fills_length closed b :
  (length (stop_loss_heap_ (reduce_exit_orders_by_fills closed b)) <= length (stop_loss_heap_ b))%nat /\
  (length (take_profit_heap_ (reduce_exit_orders_by_fills closed b)) <= length (take_profit_heap_ b))%nat.
Proof.
  unfold reduce_exit_orders_by_fills. revert b. induction closed as [|[u q] closed IH]; intros b; simpl; [done|].
  destruct (IH (reduce_exit_orders_by_fill_uuid u q b)) as [H1 H2].
  destruct (reduce_by_uuid_perm u q b) as [P1 P2].
  apply Permutation_length in P1, P2.
  pose proof (length_omap_le (reduce_stop_loss u q) (stop_loss_heap_ b)).
  pose proof (length_omap_le (reduce_take_profit u q) (take_profit_heap_ b)). lia.
Qed.

(** ** The processing loop

    Proved against the interface: any host whose callback returns, keeps the bar's
    prices and pushes no exit order back. *)
Class ExitSideLaws {T : Type} (side : ExitSide T) : Prop := {
  exit_get_set : forall h b, exit_heap side (exit_set_heap side h b) = h;
  exit_triggers_prices : forall st st' o, current_bar_prices_ st' = current_bar_prices_ st ->
    exit_triggers side st' o = exit_triggers side st o;
  exit_triggers_returns : forall st o, has_symbol_prices st (exit_symbol side o) = true ->
    exists b, exit_triggers side st o = Ret b
}.

#[export] Instance stop_loss_side_laws : ExitSideLaws stop_loss_side.
Proof.
  split; simpl.
  - done.
  - intros st st' o E. unfold stop_loss_triggers, get_symbol_low, get_symbol_high. by rewrite E.
  - intros st o (p & _ & Hp)%map_has_at. unfold stop_loss_triggers, get_symbol_low, get_symbol_high.
    rewrite Hp. simpl. eauto.
Qed.

#[export] Instance take_profit_side_laws : ExitSideLaws take_profit_side.
Proof.
  split; simpl.
  - done.
  - intros st st' o E. unfold take_profit_triggers, get_symbol_low, get_symbol_high. by rewrite E.
  - intros st o (p & _ & Hp)%map_has_at. unfold take_profit_triggers, get_symbol_low, get_symbol_high.
    rewrite Hp. simpl. eauto.
Qed.

Definition host_exit_prices {W} `{ExitBookHost W} (w : W) := current_bar_prices_ (host_exit_state w).

Section ProcessLaws.
Context {W : Type} `{!ExitBookHost W, !ExitBookHostLaws W} {T : Type} (side : ExitSide T).
Context `{!ExitSideLaws side} (callback : T -> W -> outcome W).
(** [Inv] is the host's invariant, [ok w o] what it says of a single exit order. *)
Context (Inv : W -> Prop) (ok : W -> T -> Prop).

Record exit_host_spec : Prop := {
  ehs_elem : forall w o, Inv w -> o ∈ host_exits side w -> ok w o;
  ehs_pop : forall w, Inv w -> Inv (pop_exit side w) /\ forall o, ok w o -> ok (pop_exit side w) o;
  ehs_push : forall w l, Inv w -> host_exits side w = [] -> Forall (ok w) l ->
    Inv (host_set_exits side (heap_push_all (heap_push (exit_before side)) l []) w);
  ehs_callback : forall o w, Inv w -> exists w', callback o w = Ret w' /\ Inv w' /\
    (length (host_exits side w') <= length (host_exits side w))%nat /\
    host_exit_prices w' = host_exit_prices w /\ forall o', ok w o' -> ok w' o'
}.
Context (Hspec : exit_host_spec).

Lemma pop_exit_facts w :
  host_exits side (pop_exit side w) = heap_pop (exit_before side) (host_exits side w) /\
  host_exit_state (pop_exit side w) = host_exit_state w.
Proof.
  unfold pop_exit, host_set_exits, host_exits.
  by rewrite host_exit_get_set, host_exit_state_set, exit_get_set.
Qed.

(** What the loop establishes of the orders it sets aside. *)
Definition set_aside (w : W) (o : T) : Prop := ok w o /\ exit_triggers side (host_exit_state w) o = Ret false.

Lemma set_aside_mono w w' :
  host_exit_prices w' = host_exit_prices w -> (forall o, ok w o -> ok w' o) ->
  forall l, Forall (set_aside w) l -> Forall (set_aside w') l.
Proof.
  intros Hp Hok l Hl. eapply Forall_impl; [exact Hl|]. intros o [H1 H2]. split; [by apply Hok|].
  by rewrite (exit_triggers_prices _ _ _ Hp).
Qed.

Lemma process_exit_loop_total fuel w nt :
  Inv w -> (length (host_exits side w) < fuel)%nat -> Forall (set_aside w) nt ->
  exists w' nt', process_exit_loop side callback fuel w nt = Ret (w', nt') /\ Inv w' /\
    host_exits side w' = [] /\ Forall (set_aside w') nt' /\ host_exit_prices w' = host_exit_prices w.
Proof.
  revert w nt. induction fuel as [|fuel IH]; intros w nt HI Hf Hnt; [lia|].
  cbn [process_exit_loop]. destruct (heap_top (host_exits side w)) as [o|] eqn:Ht.
  2:{ exists w, nt. split_and!; try done. by destruct (host_exits side w). }
  destruct (pop_exit_facts w) as [Epop Est]. destruct (ehs_pop Hspec w HI) as [HI1 Hok1].
  assert (host_exit_prices (pop_exit side w) = host_exit_prices w) as Epr
    by (unfold host_exit_prices; by rewrite Est).
  pose proof (heap_pop_length (exit_before side) (host_exits side w)) as Hl. rewrite <- Epop in Hl.
  assert (0 < length (host_exits side w))%nat as Hpos by (destruct (host_exits side w); simpl in *; [done|lia]).
  pose proof (set_aside_mono _ _ Epr Hok1 nt Hnt) as Hnt1.
  assert (exists w' nt', process_exit_loop side callback fuel (pop_exit side w) nt = Ret (w', nt') /\ Inv w' /\
    host_exits side w' = [] /\ Forall (set_aside w') nt' /\ host_exit_prices w' = host_exit_prices w) as Hskip.
  { destruct (IH _ nt HI1 ltac:(lia) Hnt1) as (w' & nt' & ? & ? & ? & ? & E). exists w', nt'.
    split_and!; try done. by rewrite E. }
  destruct (has_symbol_position _ _); [|exact Hskip].
  destruct (has_symbol_prices _ _) eqn:Hpr; [|exact Hskip]. cbn [negb].
  destruct (exit_triggers_returns _ _ Hpr) as [[] Htr]; rewrite Htr; cbn [obind].
  - destruct (ehs_callback Hspec o _ HI1) as (w1 & -> & HI2 & Hl2 & Ep2 & Hok2). cbn [obind].
    destruct (IH w1 nt HI2 ltac:(lia) (set_aside_mono _ _ Ep2 Hok2 nt Hnt1)) as (w' & nt' & ? & ? & ? & ? & E).
    exists w', nt'. split_and!; try done. by rewrite E, Ep2.
  - assert (Forall (set_aside (pop_exit side w)) (nt ++ [o])) as Hnt2.
    { apply Forall_app. split; [done|]. apply Forall_singleton. split.
      - apply Hok1, (ehs_elem Hspec); [done|]. destruct (host_exits side w); [done|]. simpl in Ht.
        injection Ht as ->. apply list_elem_of_here.
      - by rewrite Est. }
    destruct (IH _ (nt ++ [o]) HI1 ltac:(lia) Hnt2) as (w' & nt' & ? & ? & ? & ? & E).
    exists w', nt'. split_and!; try done. by rewrite E.
Qed.

(** The heap is worked off within its size; what stays in it does not trigger. *)
Lemma process_exit_heap_total w fuel :
  Inv w -> (length (host_exits side w) < fuel)%nat ->
  exists w', process_exit_heap side callback fuel w = Ret w' /\ Inv w' /\
    host_exit_prices w' = host_exit_prices w /\
    forall o, o ∈ host_exits side w' -> exit_triggers side (host_exit_state w') o = Ret false.
Proof.
  intros HI Hf. destruct (process_exit_loop_total fuel w [] HI Hf ltac:(constructor))
    as (w1 & nt & Hl & HI1 & Hnil & Hnt & Ep).
  unfold process_exit_heap. rewrite Hl. cbn [obind]. rewrite Hnil.
  assert (Forall (ok w1) nt) as Hok by (eapply Forall_impl; [exact Hnt|]; by intros o []).
  eexists. split_and!; [done|by apply (ehs_push Hspec)| |].
  - unfold host_exit_prices, host_set_exits. by rewrite host_exit_state_set.
  - intros o. unfold host_exits, host_set_exits.
    rewrite host_exit_get_set, exit_get_set, host_exit_state_set.
    rewrite heap_push_all_perm, app_nil_r. intros Ho.
    eapply Forall_forall in Hnt; [|exact Ho]. apply Hnt.
Qed.
End ProcessLaws.
