(* ===== verification/LimitBook.v ===== *)
(** * [src/simulators/back_test/limit_order_book.cpp]

    One heap of limit orders per symbol and side.  The processing functions walk the
    map in key order and, per symbol, pop while the best order is marketable; the
    callback may add orders to the book, so the walk runs on the host's state, as in
    the exit book. *)
From Stdlib Require Import ZArith Lia.
From stdpp Require Import base tactics list gmap strings.
From S2P Require Import Prelude Double Money Heap Models State.
Open Scope Z_scope.

Record LimitOrderBook : Type := mkLimitOrderBook {
  buy_limits_ : gmap string (list LimitBuyOrder);
  sell_limits_ : gmap string (list LimitSellOrder)
}.

Definition set_buy_limits (m : gmap string (list LimitBuyOrder)) (b : LimitOrderBook) : LimitOrderBook :=
  mkLimitOrderBook m (sell_limits_ b).
Definition set_sell_limits (m : gmap string (list LimitSellOrder)) (b : LimitOrderBook) : LimitOrderBook :=
  mkLimitOrderBook (buy_limits_ b) m.

(** [limits[symbol]], an empty heap when there is none. *)
Definition limits_at {T : Type} (m : gmap string (list T)) (symbol : string) : list T :=
  default [] (m !! symbol).

Definition add_limit_order (order : ScheduledLimitOrder) (b : LimitOrderBook) : LimitOrderBook :=
  match order with
  | ScheduledLimitOrder_Buy arg =>
      let symbol := Order_symbol_ (LimitBuyOrder_order_ arg) in
      set_buy_limits (<[symbol := MaxHeap_push (limits_at (buy_limits_ b) symbol) arg]> (buy_limits_ b)) b
  | ScheduledLimitOrder_Sell arg =>
      let symbol := Order_symbol_ (LimitSellOrder_order_ arg) in
      set_sell_limits (<[symbol := MinHeap_push (limits_at (sell_limits_ b) symbol) arg]> (sell_limits_ b)) b
  end.

Definition cancel_orders_for_symbol (symbol : string) (b : LimitOrderBook) : LimitOrderBook :=
  mkLimitOrderBook (delete symbol (buy_limits_ b)) (delete symbol (sell_limits_ b)).

Definition LimitOrderBook_empty (b : LimitOrderBook) : bool :=
  forallb (fun pair => MaxHeap_empty (snd pair)) (map_in_order (buy_limits_ b)) &&
  forallb (fun pair => MinHeap_empty (snd pair)) (map_in_order (sell_limits_ b)).

Class LimitBookHost (W : Type) : Type := {
  host_limit_book : W -> LimitOrderBook;
  host_set_limit_book : LimitOrderBook -> W -> W;
  host_limit_state : W -> State
}.

Class LimitBookHostLaws (W : Type) `{LimitBookHost W} : Prop := {
  host_limit_get_set : forall b w, host_limit_book (host_set_limit_book b w) = b;
  host_limit_state_set : forall b w, host_limit_state (host_set_limit_book b w) = host_limit_state w
}.

(** ** The two sides

    [process_buy_limits] and [process_sell_limits] are the same loops over different
    maps: a side says which map and heap, and when its best order is out of reach. *)
Record LimitSide (T : Type) : Type := mkLimitSide {
  limit_before : T -> T -> bool;
  side_limits : LimitOrderBook -> gmap string (list T);
  side_set_limits : gmap string (list T) -> LimitOrderBook -> LimitOrderBook;
  side_order : T -> Order;
  side_bar_price : State -> string -> outcome Money;
  side_out_of_reach : Money -> T -> bool
}.
Arguments limit_before {T}.
Arguments side_limits {T}.
Arguments side_set_limits {T}.
Arguments side_order {T}.
Arguments side_bar_price {T}.
Arguments side_out_of_reach {T}.

(** [MaxHeap] by limit price; stop at [current_bar_low > limit_price_]. *)
Definition buy_side : LimitSide LimitBuyOrder := {|
  limit_before := op_gt;
  side_limits := buy_limits_;
  side_set_limits := set_buy_limits;
  side_order := LimitBuyOrder_order_;
  side_bar_price := get_symbol_low;
  side_out_of_reach low o := (low >? LimitBuyOrder_limit_price_ o)%money
|}.

(** [MinHeap] by limit price; stop at [current_bar_high < limit_price_]. *)
Definition sell_side : LimitSide LimitSellOrder := {|
  limit_before := op_lt;
  side_limits := sell_limits_;
  side_set_limits := set_sell_limits;
  side_order := LimitSellOrder_order_;
  side_bar_price := get_symbol_high;
  side_out_of_reach high o := (high <? LimitSellOrder_limit_price_ o)%money
|}.

Section Process.
Context {W : Type} `{LimitBookHost W} {T : Type} (side : LimitSide T).

Definition host_limits (w : W) (symbol : string) : list T :=
  limits_at (side_limits side (host_limit_book w)) symbol.

Definition pop_limit (symbol : string) (w : W) : W :=
  let b := host_limit_book w in
  host_set_limit_book
    (side_set_limits side
       (<[symbol := heap_pop (limit_before side) (host_limits w symbol)]> (side_limits side b)) b) w.

(** The inner [while (!heap.empty())]. *)
Fixpoint process_limit_heap (callback : Order -> W -> outcome W) (symbol : string)
    (bar_price : Money) (fuel : nat) (w : W) : outcome W :=
  match fuel with
  | O => OutOfFuel
  | S fuel' =>
      match heap_top (host_limits w symbol) with
      | None => Ret w
      | Some limit_order =>
          if side_out_of_reach side bar_price limit_order then Ret w
          else
            let* w := callback (side_order side limit_order) (pop_limit symbol w) in
            process_limit_heap callback symbol bar_price fuel' w
      end
  end.

(** [for (auto& [symbol, heap] : limits)]: after [previous], the next key of the map
    as it is then. *)
Fixpoint process_limit_keys (callback : Order -> W -> outcome W) (fuel keys : nat)
    (previous : option string) (w : W) : outcome W :=
  match keys with
  | O => OutOfFuel
  | S keys' =>
      match map_next_key (side_limits side (host_limit_book w)) previous with
      | None => Ret w
      | Some symbol =>
          if negb (has_symbol_prices (host_limit_state w) symbol)
          then process_limit_keys callback fuel keys' (Some symbol) w
          else
            let* bar_price := side_bar_price side (host_limit_state w) symbol in
            let* w := process_limit_heap callback symbol bar_price fuel w in
            process_limit_keys callback fuel keys' (Some symbol) w
      end
  end.
End Process.

Definition process_buy_limits {W} `{LimitBookHost W} (callback : Order -> W -> outcome W) (fuel : nat)
    (w : W) : outcome W :=
  process_limit_keys buy_side callback fuel fuel None w.

Definition process_sell_limits {W} `{LimitBookHost W} (callback : Order -> W -> outcome W) (fuel : nat)
    (w : W) : outcome W :=
  process_limit_keys sell_side callback fuel fuel None w.

(** ** The book's invariant *)
Definition LimitSide_ok {T : Type} (side : LimitSide T) (good : Order -> Prop) (b : LimitOrderBook) : Prop :=
  forall s h, side_limits side b !! s = Some h ->
    heap_ok (limit_before side) h /\
    forall o, o ∈ h -> Order_symbol_ (side_order side o) = s /\ good (side_order side o).

Lemma limits_at_insert {T} (m : gmap string (list T)) s s' h :
  limits_at (<[s := h]> m) s' = if decide (s = s') then h else limits_at m s'.
Proof. unfold limits_at. rewrite lookup_insert. by case_decide. Qed.

Lemma LimitSide_ok_at {T} (side : LimitSide T) good b s :
  LimitSide_ok side good b ->
  heap_ok (limit_before side) (limits_at (side_limits side b) s) /\
  forall o, o ∈ limits_at (side_limits side b) s ->
    Order_symbol_ (side_order side o) = s /\ good (side_order side o).
Proof.
  intros Hok. unfold limits_at. destruct (side_limits side b !! s) as [h|] eqn:Hh; simpl; [by apply Hok|].
  split; [by intros i Hi x p Hx|]. by intros o ?%not_elem_of_nil.
Qed.

Class LimitSideLaws {T : Type} (side : LimitSide T) : Prop := {
  limit_swo :: StrictWeakOrder (limit_before side);
  side_get_set : forall m b, side_limits side (side_set_limits side m b) = m;
  side_reach_mono : forall p x y, side_out_of_reach side p x = true -> limit_before side y x = false ->
    side_out_of_reach side p y = true;
  side_bar_price_prices : forall st st' s, current_bar_prices_ st' = current_bar_prices_ st ->
    side_bar_price side st' s = side_bar_price side st s;
  side_bar_price_has : forall st s p, side_bar_price side st s = Ret p -> has_symbol_prices st s = true;
  side_bar_price_returns : forall st s, has_symbol_prices st s = true -> exists p, side_bar_price side st s = Ret p
}.

#[export] Instance buy_side_laws : LimitSideLaws buy_side.
Proof.
  split; simpl.
  - apply _.
  - done.
  - intros p x y. unfold Money_gt. lia.
  - intros st st' s E. unfold get_symbol_low. by rewrite E.
  - intros st s p. unfold get_symbol_low, map_at, has_symbol_prices, map_has. by case_match.
  - intros st s (p & _ & Hp)%map_has_at. unfold get_symbol_low. rewrite Hp. simpl. eauto.
Qed.

#[export] Instance sell_side_laws : LimitSideLaws sell_side.
Proof.
  split; simpl.
  - apply _.
  - done.
  - intros p x y. unfold Money_lt. lia.
  - intros st st' s E. unfold get_symbol_high. by rewrite E.
  - intros st s p. unfold get_symbol_high, map_at, has_symbol_prices, map_has. by case_match.
  - intros st s (p & _ & Hp)%map_has_at. unfold get_symbol_high. rewrite Hp. simpl. eauto.
Qed.

(** When the best order is out of reach, every order of the heap is. *)
Lemma top_out_of_reach {T} (side : LimitSide T) `{!LimitSideLaws side} h x p :
  heap_ok (limit_before side) h -> heap_top h = Some x -> side_out_of_reach side p x = true ->
  forall y, y ∈ h -> side_out_of_reach side p y = true.
Proof. intros Hok Ht Hx y Hy. apply (side_reach_mono _ x); [done|]. by apply (heap_top_best _ h). Qed.

Definition host_limit_prices {W} `{LimitBookHost W} (w : W) := current_bar_prices_ (host_limit_state w).

Section ProcessLaws.
Context {W : Type} `{!LimitBookHost W, !LimitBookHostLaws W} {T : Type} (side : LimitSide T).
Context `{!LimitSideLaws side} (callback : Order -> W -> outcome W) (good : Order -> Prop) (Inv : W -> Prop).

(** What an execution of an order of [s] may do to the book: change the heap of [s]. *)
Record limit_frame (s : string) (w w' : W) : Prop := {
  lf_inv : Inv w';
  lf_prices : host_limit_prices w' = host_limit_prices w;
  lf_other : forall s', s' <> s -> host_limits side w' s' = host_limits side w s';
  lf_dom : dom (side_limits side (host_limit_book w')) ⊆ {[s]} ∪ dom (side_limits side (host_limit_book w))
}.

Record limit_host_spec : Prop := {
  lhs_ok : forall w, Inv w -> LimitSide_ok side good (host_limit_book w);
  lhs_pop : forall s w, Inv w -> Inv (pop_limit side s w);
  lhs_callback : forall o w w', good o -> Inv w -> callback o w = Ret w' -> limit_frame (Order_symbol_ o) w w'
}.
Context (Hspec : limit_host_spec).

Lemma limit_frame_trans s w1 w2 w3 : limit_frame s w1 w2 -> limit_frame s w2 w3 -> limit_frame s w1 w3.
Proof.
  intros [_ Hp1 Ho1 Hd1] [HI Hp2 Ho2 Hd2]. split; [done|congruence| |].
  - intros s' Hne. by rewrite Ho2, Ho1.
  - intros x [Hx|Hx]%Hd2%elem_of_union; [apply elem_of_union; by left|by apply Hd1].
Qed.

Lemma pop_limit_facts s w :
  host_limits side (pop_limit side s w) s = heap_pop (limit_before side) (host_limits side w s) /\
  (Inv w -> limit_frame s w (pop_limit side s w)).
Proof.
  assert (forall s', host_limits side (pop_limit side s w) s' =
    if decide (s = s') then heap_pop (limit_before side) (host_limits side w s) else host_limits side w s') as Hl.
  { intros s'. unfold host_limits at 1, pop_limit. rewrite host_limit_get_set, side_get_set.
    apply limits_at_insert. }
  split; [rewrite Hl; by case_decide|]. intros HI. split.
  - by apply (lhs_pop Hspec).
  - unfold host_limit_prices, pop_limit. by rewrite host_limit_state_set.
  - intros s' Hne. rewrite Hl. by case_decide.
  - unfold pop_limit. rewrite host_limit_get_set, side_get_set, dom_insert. done.
Qed.

Definition unreachable (w : W) (s : string) : Prop :=
  forall p, side_bar_price side (host_limit_state w) s = Ret p ->
  forall o, o ∈ host_limits side w s -> side_out_of_reach side p o = true.

Lemma process_limit_heap_spec s p fuel w w' :
  Inv w -> process_limit_heap side callback s p fuel w = Ret w' ->
  (limit_frame s w w' \/ w' = w) /\ forall o, o ∈ host_limits side w' s -> side_out_of_reach side p o = true.
Proof.
  revert w. induction fuel as [|fuel IH]; intros w HI; cbn [process_limit_heap]; [done|].
  destruct (LimitSide_ok_at side good _ s (lhs_ok Hspec w HI)) as [Hheap Hgood].
  destruct (heap_top (host_limits side w s)) as [x|] eqn:Ht.
  2:{ intros [= <-]. split; [by right|]. destruct (host_limits side w s); [|done].
      by intros o ?%not_elem_of_nil. }
  destruct (side_out_of_reach side p x) eqn:Hr.
  { intros [= <-]. split; [by right|]. by apply (top_out_of_reach side _ x). }
  intros (w1 & Hc & Hrest)%obind_ret. destruct (pop_limit_facts s w) as [_ Hfr]. specialize (Hfr HI).
  destruct (Hgood x) as [Hs Hg].
  { unfold host_limits in Ht. destruct (limits_at _ s); [done|]. injection Ht as ->. apply list_elem_of_here. }
  apply (lhs_callback Hspec) in Hc; [|done|apply Hfr]. rewrite Hs in Hc.
  destruct (IH w1 (lf_inv _ _ _ Hc) Hrest) as [Hfr' Hreach]. split; [|done]. left.
  eapply limit_frame_trans; [exact Hfr|]. destruct Hfr' as [Hfr'| ->]; [|done].
  by eapply limit_frame_trans.
Qed.

(** Behind the cursor every heap is unreachable. *)
Definition cleared (previous : option string) (w : W) : Prop :=
  forall s, after_key previous s = false -> unreachable w s.

Lemma cleared_step previous s p w w' :
  map_next_key (side_limits side (host_limit_book w)) previous = Some s ->
  cleared previous w -> side_bar_price side (host_limit_state w) s = Ret p ->
  limit_frame s w w' \/ w' = w ->
  (forall o, o ∈ host_limits side w' s -> side_out_of_reach side p o = true) ->
  cleared (Some s) w'.
Proof.
  intros (Hin & Ha & Hmin)%map_next_key_Some Hcl Hp Hfr Hreach s' Hs' p' Hp' o Ho.
  assert (host_limit_prices w' = host_limit_prices w) as Epr by (destruct Hfr as [[]| ->]; done).
  rewrite (side_bar_price_prices _ _ _ Epr) in Hp'.
  destruct (decide (s' = s)) as [->|Hne]; [rewrite Hp in Hp'; injection Hp' as <-; by apply Hreach|].
  assert (host_limits side w' s' = host_limits side w s') as Eh.
  { destruct Hfr as [Hfr| ->]; [|done]. by apply (lf_other _ _ _ Hfr). }
  rewrite Eh in Ho. destruct (after_key previous s') eqn:Ha'; [|by apply (Hcl s' Ha')].
  exfalso. unfold host_limits, limits_at in Ho.
  destruct (side_limits side (host_limit_book w) !! s') as [h|] eqn:Hh; [|by apply not_elem_of_nil in Ho].
  assert (string_le s s') as Hle by (apply Hmin; [by eexists|done]).
  apply string_le_ltb_eq in Hle as [Hlt| ->]; [simpl in Hs'; congruence|done].
Qed.

(** The same, for a symbol the bar has no prices for. *)
Lemma cleared_skip previous s w :
  map_next_key (side_limits side (host_limit_book w)) previous = Some s ->
  has_symbol_prices (host_limit_state w) s = false -> cleared previous w -> cleared (Some s) w.
Proof.
  intros (Hin & Ha & Hmin)%map_next_key_Some Hno Hcl s' Hs' p' Hp' o Ho.
  destruct (decide (s' = s)) as [->|Hne]; [apply side_bar_price_has in Hp'; congruence|].
  destruct (after_key previous s') eqn:Ha'; [|by apply (Hcl s' Ha')]. exfalso.
  unfold host_limits, limits_at in Ho.
  destruct (side_limits side (host_limit_book w) !! s') as [h|] eqn:Hh; [|by apply not_elem_of_nil in Ho].
  assert (string_le s s') as Hle by (apply Hmin; [by eexists|done]).
  apply string_le_ltb_eq in Hle as [Hlt| ->]; [simpl in Hs'; congruence|done].
Qed.

Lemma process_limit_keys_spec fuel keys previous w w' :
  Inv w -> cleared previous w -> process_limit_keys side callback fuel keys previous w = Ret w' ->
  Inv w' /\ host_limit_prices w' = host_limit_prices w /\ forall s, unreachable w' s.
Proof.
  revert previous w. induction keys as [|keys IH]; intros previous w HI Hcl; cbn [process_limit_keys]; [done|].
  destruct (map_next_key _ _) as [s|] eqn:Hk.
  2:{ intros [= <-]. split_and!; [done..|]. intros s.
      destruct (after_key previous s) eqn:Ha; [|by apply Hcl]. intros p Hp o Ho. exfalso.
      unfold host_limits, limits_at in Ho.
      destruct (side_limits side (host_limit_book w) !! s) as [h|] eqn:Hh; [|by apply not_elem_of_nil in Ho].
      assert (after_key previous s = false) as E by by eapply map_next_key_None. congruence. }
  destruct (has_symbol_prices (host_limit_state w) s) eqn:Hpr; cbn [negb].
  - intros (p & Hp & (w1 & Hw1 & Hrest)%obind_ret)%obind_ret.
    destruct (process_limit_heap_spec s p fuel w w1 HI Hw1) as [Hfr Hreach].
    assert (Inv w1 /\ host_limit_prices w1 = host_limit_prices w) as [HI1 Ep] by (destruct Hfr as [[]| ->]; done).
    apply IH in Hrest as (? & E & ?); [|done|by eapply cleared_step]. split_and!; [done|congruence|done].
  - apply IH; [done|by eapply cleared_skip].
Qed.

(** ** Termination: a callback that puts nothing back *)
Record limit_total_spec : Prop := {
  lts_returns : forall o w, good o -> Inv w -> exists w', callback o w = Ret w' /\
    (length (host_limits side w' (Order_symbol_ o)) <= length (host_limits side w (Order_symbol_ o)))%nat
}.
Context (Htotal : limit_total_spec).

Definition limits_bound (fuel : nat) (w : W) : Prop := forall s, (length (host_limits side w s) < fuel)%nat.

Lemma process_limit_heap_total s p fuel w :
  Inv w -> (length (host_limits side w s) < fuel)%nat ->
  exists w', process_limit_heap side callback s p fuel w = Ret w' /\
    (length (host_limits side w' s) <= length (host_limits side w s))%nat.
Proof.
  revert w. induction fuel as [|fuel IH]; intros w HI Hf; [lia|]. cbn [process_limit_heap].
  destruct (LimitSide_ok_at side good _ s (lhs_ok Hspec w HI)) as [_ Hgood].
  destruct (heap_top (host_limits side w s)) as [x|] eqn:Ht; [|by eauto].
  destruct (side_out_of_reach side p x); [by eauto|].
  destruct (pop_limit_facts s w) as [Epop Hfr]. specialize (Hfr HI).
  destruct (Hgood x) as [Hs Hg].
  { unfold host_limits in Ht. destruct (limits_at _ s); [done|]. injection Ht as ->. apply list_elem_of_here. }
  destruct (lts_returns Htotal (side_order side x) (pop_limit side s w) Hg (lf_inv _ _ _ Hfr)) as (w1 & Hc & Hl).
  rewrite Hs, Epop, heap_pop_length in Hl. rewrite Hc. cbn [obind].
  pose proof (lhs_callback Hspec _ _ _ Hg (lf_inv _ _ _ Hfr) Hc) as Hfr1.
  assert (0 < length (host_limits side w s))%nat by (destruct (host_limits side w s); simpl in *; [done|lia]).
  destruct (IH w1 (lf_inv _ _ _ Hfr1) ltac:(lia)) as (w' & -> & ?). exists w'. split; [done|lia].
Qed.

Lemma process_limit_keys_total fuel keys previous w :
  Inv w -> limits_bound fuel w ->
  (keys_after previous (side_limits side (host_limit_book w)) < keys)%nat ->
  exists w', process_limit_keys side callback fuel keys previous w = Ret w'.
Proof.
  revert previous w. induction keys as [|keys IH]; intros previous w HI Hb Hk; [lia|]. cbn [process_limit_keys].
  destruct (map_next_key _ _) as [s|] eqn:Hn; [|by eauto].
  destruct (has_symbol_prices (host_limit_state w) s) eqn:Hpr; cbn [negb].
  - destruct (side_bar_price_returns _ _ Hpr) as [p ->]. cbn [obind].
    destruct (process_limit_heap_total s p fuel w HI (Hb s)) as (w1 & Hw1 & Hl1). rewrite Hw1. cbn [obind].
    destruct (process_limit_heap_spec s p fuel w w1 HI Hw1) as [[Hfr| ->] _].
    + apply IH; [apply Hfr| |].
      * intros s'. destruct (decide (s' = s)) as [->|Hne]; [specialize (Hb s); lia|].
        rewrite (lf_other _ _ _ Hfr) by done. apply Hb.
      * apply Nat.lt_le_trans with (keys_after previous (side_limits side (host_limit_book w))); [|lia].
        apply (keys_after_next _ _ _ _ Hn). pose proof (lf_dom _ _ _ Hfr).
        apply map_next_key_Some in Hn as (Hin & _). apply elem_of_dom in Hin. set_solver.
    + apply IH; [done..|]. pose proof (keys_after_next _ _ _ _ Hn (reflexivity (R := subseteq) _)). lia.
  - apply IH; [done..|]. pose proof (keys_after_next _ _ _ _ Hn (reflexivity (R := subseteq) _)). lia.
Qed.
End ProcessLaws.
