(* ===== verification/AbiConverter.v ===== *)
(** * [src/simulators/back_test/abi_converter.cpp]

    Every [c_str()] is the string itself, every [data()]/[size()] pair the list with
    its length.  A conversion that constructs a [Signal] or an [Order] reads the
    clock; [now] is the value read. *)
From Stdlib Require Import ZArith Lia.
From stdpp Require Import base tactics list gmap strings.
From S2P Require Import Prelude Double Money Abi Models State.
Open Scope Z_scope.

Definition to_c_fills (fills : list Fill) : list CFill :=
  (fun fill => {| CFill_quantity_ := Fill_quantity_ fill;
                  CFill_price_ := to_abi_int64 (Fill_price_ fill);
                  CFill_created_at_ns_ := Fill_created_at_ns_ fill;
                  CFill_symbol_ := Fill_symbol_ fill;
                  CFill_uuid_ := Fill_uuid_ fill;
                  CFill_action_ := Fill_action_ fill |}) <$> fills.

Definition to_c_positions (positions : gmap string Position) : list CPosition :=
  (fun '(symbol, position) =>
     {| CPosition_symbol_ := symbol;
        CPosition_quantity_ := Position_quantity_ position;
        CPosition_average_price_ := to_abi_double (Position_average_price_ position) |})
  <$> map_in_order positions.

Definition to_c_equity_snapshots (equity_snapshots : list EquitySnapshot) : list CEquitySnapshot :=
  (fun s => {| CEquitySnapshot_timestamp_ns_ := EquitySnapshot_timestamp_ns_ s;
               CEquitySnapshot_equity_ := to_abi_int64 (EquitySnapshot_equity_ s);
               CEquitySnapshot_return_ := EquitySnapshot_return_ s;
               CEquitySnapshot_max_drawdown_ := EquitySnapshot_max_drawdown_ s;
               CEquitySnapshot_sharpe_ratio_ := EquitySnapshot_sharpe_ratio_ s;
               CEquitySnapshot_sortino_ratio_ := EquitySnapshot_sortino_ratio_ s;
               CEquitySnapshot_calmar_ratio_ := EquitySnapshot_calmar_ratio_ s;
               CEquitySnapshot_tail_ratio_ := EquitySnapshot_tail_ratio_ s;
               CEquitySnapshot_value_at_risk_ := EquitySnapshot_value_at_risk_ s;
               CEquitySnapshot_conditional_value_at_risk_ :=
                 EquitySnapshot_conditional_value_at_risk_ s |}) <$> equity_snapshots.

Definition to_c_stop_loss_exit_order (stop_loss : StopLossExitOrder) : CStopLossExitOrder :=
  {| CStopLossExitOrder_is_triggered_ := StopLossExitOrder_is_triggered_ stop_loss;
     CStopLossExitOrder_trigger_quantity_ := StopLossExitOrder_trigger_quantity_ stop_loss;
     CStopLossExitOrder_stop_loss_price_ := to_abi_int64 (StopLossExitOrder_stop_loss_price_ stop_loss);
     CStopLossExitOrder_price_ := to_abi_int64 (StopLossExitOrder_price_ stop_loss);
     CStopLossExitOrder_created_at_ns_ := StopLossExitOrder_created_at_ns_ stop_loss;
     CStopLossExitOrder_symbol_ := StopLossExitOrder_symbol_ stop_loss;
     CStopLossExitOrder_fill_uuid_ := StopLossExitOrder_fill_uuid_ stop_loss |}.

Definition to_c_take_profit_exit_order (take_profit : TakeProfitExitOrder) : CTakeProfitExitOrder :=
  {| CTakeProfitExitOrder_is_triggered_ := TakeProfitExitOrder_is_triggered_ take_profit;
     CTakeProfitExitOrder_trigger_quantity_ := TakeProfitExitOrder_trigger_quantity_ take_profit;
     CTakeProfitExitOrder_take_profit_price_ :=
       to_abi_int64 (TakeProfitExitOrder_take_profit_price_ take_profit);
     CTakeProfitExitOrder_price_ := to_abi_int64 (TakeProfitExitOrder_price_ take_profit);
     CTakeProfitExitOrder_created_at_ns_ := TakeProfitExitOrder_created_at_ns_ take_profit;
     CTakeProfitExitOrder_symbol_ := TakeProfitExitOrder_symbol_ take_profit;
     CTakeProfitExitOrder_fill_uuid_ := TakeProfitExitOrder_fill_uuid_ take_profit |}.

Definition to_c_exit_orders (exit_orders : list ExitOrder) : list CExitOrder :=
  (fun exit_order =>
     match exit_order with
     | ExitOrder_StopLoss o => CExitOrder_stop_loss_ (to_c_stop_loss_exit_order o)
     | ExitOrder_TakeProfit o => CExitOrder_take_profit_ (to_c_take_profit_exit_order o)
     end) <$> exit_orders.

Definition to_c_state (st : State) : CState :=
  let c_positions_cache_ := to_c_positions (positions_ st) in
  let c_fills_cache_ := to_c_fills (new_fills_ st) in
  let c_equity_cache_ := to_c_equity_snapshots (equity_curve_ st) in
  let c_exit_orders_cache_ := to_c_exit_orders (new_exit_orders_ st) in
  {| CState_cash_ := to_abi_int64 (cash_ st);
     CState_positions_ := c_positions_cache_;
     CState_positions_count_ := length c_positions_cache_;
     CState_new_exit_orders_ := c_exit_orders_cache_;
     CState_new_exit_orders_count_ := length c_exit_orders_cache_;
     CState_new_fills_ := c_fills_cache_;
     CState_new_fills_count_ := length c_fills_cache_;
     CState_equity_curve_ := c_equity_cache_;
     CState_equity_curve_count_ := length c_equity_cache_ |}.

Definition to_instruction (now : Z) (c_instruction : CInstruction) : outcome Instruction :=
  if CInstruction_type_ c_instruction =? INSTRUCTION_TYPE_SIGNAL
  then Ret (Instruction_Signal (Signal_of_CSignal now (CInstruction_signal_ c_instruction)))
  else if CInstruction_type_ c_instruction =? INSTRUCTION_TYPE_ORDER
  then Ret (Instruction_Order (Order_of_COrder now (CInstruction_order_ c_instruction)))
  else Throw (runtime_error "Invalid instruction type").

Definition iterate_c_instructions {W : Type} (result : PluginResult)
    (callback : W -> CInstruction -> outcome W) (w : W) : outcome W :=
  ofold callback w (PluginResult_instructions_ result).

(** ** What a plugin can see *)

(** A position is visible to the plugin exactly when it is held, in key order. *)
Lemma to_c_positions_elem m c :
  c ∈ to_c_positions m <->
  exists p, m !! CPosition_symbol_ c = Some p /\ CPosition_quantity_ c = Position_quantity_ p /\
    CPosition_average_price_ c = to_dollars (Position_average_price_ p).
Proof.
  unfold to_c_positions. rewrite list_elem_of_fmap. split.
  - intros ([s p] & -> & Hin%elem_of_map_in_order). simpl. eauto.
  - intros (p & Hp & Hq & Ha). exists (CPosition_symbol_ c, p). rewrite elem_of_map_in_order. split; [|done].
    destruct c; simpl in *. by subst.
Qed.

Lemma to_c_positions_symbols m : CPosition_symbol_ <$> to_c_positions m = fst <$> map_in_order m.
Proof.
  unfold to_c_positions. rewrite <- list_fmap_compose. apply list_fmap_ext. by intros _ [s p] _.
Qed.

Lemma map_in_order_NoDup {A} (m : gmap string A) : NoDup (fst <$> map_in_order m).
Proof. rewrite map_in_order_perm. apply NoDup_fst_map_to_list. Qed.

Lemma map_in_order_length {A} (m : gmap string A) : length (map_in_order m) = size m.
Proof. by rewrite map_in_order_perm, length_map_to_list. Qed.
