(* ===== verification/Engine.v ===== *)
(** * [src/simulators/back_test/back_test_engine.cpp]

    The engine owns the portfolio state and the three books and runs the plugin bar
    by bar.  Two counters stand for the outside world: [uuids_drawn] numbers the
    calls of [create_uuid()] and [clock_reads] the reads of the system clock.  The
    plugin behind [IPluginLoader] is an interface: it has a state [P] of its own and
    answers each call.  Loops that the source bounds only by their own progress take
    [fuel]. *)
From Stdlib Require Import ZArith Lia.
From stdpp Require Import base tactics list gmap strings.
From S2P Require Import Prelude Double Money Heap Manifest Abi StockApi Models State StateOps Exchange.
From S2P Require Import PositionCalc Executor ExitBook LimitBook AbiConverter.
Open Scope Z_scope.

Record BackTestReport : Type := mkBackTestReport {
  some_value_ : string;
  another_value_ : string
}.

Record BackTestEngine : Type := mkBackTestEngine {
  state_ : State;
  order_book_ : list ScheduledOrder;
  exit_order_book_ : ExitOrderBook;
  limit_order_book_ : LimitOrderBook;
  report_ : BackTestReport;
  uuids_drawn : nat;
  clock_reads : nat
}.

(** The default member initializer of [state_]. *)
Definition initial_state : State :=
  {| cash_ := (0)%money; margin_in_use_ := (0)%money; current_timestamp_ns_ := 0;
     positions_ := ∅; current_bar_prices_ := ∅; current_bar_volumes_ := ∅; fills_ := [];
     exit_orders_ := []; equity_curve_ := []; new_fills_ := []; new_exit_orders_ := [];
     active_buy_fills_ := ∅; active_sell_fills_ := ∅; active_margin_for_fills_ := ∅;
     active_leverage_for_fills_ := ∅; peak_equity_ := (0)%money; max_drawdown_ := dzero |}.

(** [BackTestEngine::BackTestEngine] *)
Definition new_engine : BackTestEngine :=
  mkBackTestEngine initial_state [] (mkExitOrderBook [] []) (mkLimitOrderBook ∅ ∅)
    (mkBackTestReport "" "") 0 0.

Definition set_state (st : State) (e : BackTestEngine) : BackTestEngine :=
  mkBackTestEngine st (order_book_ e) (exit_order_book_ e) (limit_order_book_ e) (report_ e)
    (uuids_drawn e) (clock_reads e).
Definition set_order_book (b : list ScheduledOrder) (e : BackTestEngine) : BackTestEngine :=
  mkBackTestEngine (state_ e) b (exit_order_book_ e) (limit_order_book_ e) (report_ e)
    (uuids_drawn e) (clock_reads e).
Definition set_exit_order_book (b : ExitOrderBook) (e : BackTestEngine) : BackTestEngine :=
  mkBackTestEngine (state_ e) (order_book_ e) b (limit_order_book_ e) (report_ e)
    (uuids_drawn e) (clock_reads e).
Definition set_limit_order_book (b : LimitOrderBook) (e : BackTestEngine) : BackTestEngine :=
  mkBackTestEngine (state_ e) (order_book_ e) (exit_order_book_ e) b (report_ e)
    (uuids_drawn e) (clock_reads e).
Definition set_report (r : BackTestReport) (e : BackTestEngine) : BackTestEngine :=
  mkBackTestEngine (state_ e) (order_book_ e) (exit_order_book_ e) (limit_order_book_ e) r
    (uuids_drawn e) (clock_reads e).
Definition set_uuids_drawn (n : nat) (e : BackTestEngine) : BackTestEngine :=
  mkBackTestEngine (state_ e) (order_book_ e) (exit_order_book_ e) (limit_order_book_ e) (report_ e)
    n (clock_reads e).
Definition tick_clock (e : BackTestEngine) : BackTestEngine :=
  mkBackTestEngine (state_ e) (order_book_ e) (exit_order_book_ e) (limit_order_book_ e) (report_ e)
    (uuids_drawn e) (S (clock_reads e)).

(** The engine is the host of both books. *)
#[export] Instance engine_exit_host : ExitBookHost BackTestEngine := {
  host_exit_book := exit_order_book_;
  host_set_exit_book := set_exit_order_book;
  host_exit_state := state_
}.

#[export] Instance engine_exit_host_laws : ExitBookHostLaws BackTestEngine.
Proof. split; done. Qed.

#[export] Instance engine_limit_host : LimitBookHost BackTestEngine := {
  host_limit_book := limit_order_book_;
  host_set_limit_book := set_limit_order_book;
  host_limit_state := state_
}.

#[export] Instance engine_limit_host_laws : LimitBookHostLaws BackTestEngine.
Proof. split; done. Qed.

Definition create_scheduled_order (order : Order) (host_params : HostParams) (st : State) : ScheduledOrder :=
  mkScheduledOrder order (calculate_slippage_time_ns order host_params st).

Definition create_scheduled_limit_order (order : Order) : outcome ScheduledLimitOrder :=
  match Order_limit_price_ order with
  | None => Throw (runtime_error "Cannot create limit order without limit price")
  | Some limit_price =>
      if Order_is_buy order
      then Ret (ScheduledLimitOrder_Buy (mkLimitBuyOrder order limit_price))
      else Ret (ScheduledLimitOrder_Sell (mkLimitSellOrder order limit_price))
  end.

(** [if (order.is_limit_order()) limit_order_book_.add_limit_order(...); else
    order_book_.push(...);], which the engine does in two places. *)
Definition enqueue_order (order : Order) (host_params : HostParams) (e : BackTestEngine)
  : outcome BackTestEngine :=
  if Order_is_limit_order order then
    let* limit_order := create_scheduled_limit_order order in
    Ret (set_limit_order_book (add_limit_order limit_order (limit_order_book_ e)) e)
  else
    Ret (set_order_book
           (MinHeap_push (order_book_ e) (create_scheduled_order order host_params (state_ e))) e).

Definition handle_execution_result (result : ExecutionResult) (host_params : HostParams)
    (e : BackTestEngine) : outcome BackTestEngine :=
  match result with
  | ExecutionResult_Error _ => Ret e
  | ExecutionResult_Success arg =>
      let fill := ExecutionResultSuccess_fill_ arg in
      let e :=
        if Fill_is_sell fill
        then set_exit_order_book
               (reduce_exit_orders_by_fills (find_buy_fill_uuids_closed_by_sell fill (state_ e))
                  (exit_order_book_ e)) e
        else e in
      let e :=
        if Fill_is_buy fill
        then set_exit_order_book
               (reduce_exit_orders_by_fills (find_sell_fill_uuids_closed_by_buy fill (state_ e))
                  (exit_order_book_ e)) e
        else e in
      let e :=
        if has_exit_strategy arg
        then set_exit_order_book
               (fold_left (fun b o => add_exit_order o b) (ExecutionResultSuccess_exit_orders_ arg)
                  (exit_order_book_ e)) e
        else e in
      let* e :=
        match ExecutionResultSuccess_partial_order_ arg with
        | Some partial_order => enqueue_order partial_order host_params e
        | None => Ret e
        end in
      Ret (set_state (update_state arg (state_ e)) e)
  end.

(** What one call of a plugin's loader can do. *)
Class PluginLoader (P : Type) : Type := {
  loader_on_bar : AggregateBarResult -> State -> P -> outcome (PluginResult * P);
  loader_on_end : P -> outcome (PluginResult * option string * P);
  loader_free_string : option string -> P -> P;
  loader_get_host_params : P -> HostParams;
  loader_get_plugin_name : P -> string
}.

Section Engine.
Context (create_uuid : nat -> string) (clock : nat -> Z).

(** [handle_execution_result(executor::execute_order(order, host_params, state_), ...)] *)
Definition execute_and_handle (host_params : HostParams) (order : Order) (e : BackTestEngine)
  : outcome BackTestEngine :=
  let* '(execution_result, n) := execute_order create_uuid (uuids_drawn e) order host_params (state_ e) in
  handle_execution_result execution_result host_params (set_uuids_drawn n e).

Fixpoint execute_order_book (bar : AggregateBarResult) (host_params : HostParams) (fuel : nat)
    (e : BackTestEngine) : outcome BackTestEngine :=
  match fuel with
  | O => OutOfFuel
  | S fuel' =>
      match MinHeap_top (order_book_ e) with
      | None => Ret e
      | Some scheduled_order =>
          if bar_unix_ts_ns_ bar <? ScheduledOrder_scheduled_fill_at_ns_ scheduled_order then Ret e
          else
            let e := set_order_book (MinHeap_pop (order_book_ e)) e in
            let* e := execute_and_handle host_params (ScheduledOrder_order_ scheduled_order) e in
            execute_order_book bar host_params fuel' e
      end
  end.

Definition execute_limit_orders (host_params : HostParams) (fuel : nat) (e : BackTestEngine)
  : outcome BackTestEngine :=
  let* e := process_buy_limits (execute_and_handle host_params) fuel e in
  process_sell_limits (execute_and_handle host_params) fuel e.

(** An exit order is popped before its callback runs and close orders push no exit
    orders, so a heap's size bounds its rounds. *)
Definition execute_exit_orders (host_params : HostParams) (e : BackTestEngine) : outcome BackTestEngine :=
  let* e := process_stop_loss_heap
              (fun o => execute_and_handle host_params (StopLossExitOrder_to_close_instruction o))
              (S (MinHeap_size (stop_loss_heap_ (exit_order_book_ e)))) e in
  process_take_profit_heap
    (fun o => execute_and_handle host_params (TakeProfitExitOrder_to_close_instruction o))
    (S (MaxHeap_size (take_profit_heap_ (exit_order_book_ e)))) e.

Definition schedule_instruction (host_params : HostParams) (e : BackTestEngine) (c_instruction : CInstruction)
  : outcome BackTestEngine :=
  let* instruction := to_instruction (clock (clock_reads e)) c_instruction in
  let e := tick_clock e in
  let* order :=
    match instruction with
    | Instruction_Signal s => signal_to_order s host_params (state_ e)
    | Instruction_Order o => Ret o
    end in
  enqueue_order order host_params e.

Definition schedule_plugin_instructions (result : PluginResult) (host_params : HostParams)
    (e : BackTestEngine) : outcome BackTestEngine :=
  iterate_c_instructions result (schedule_instruction host_params) e.

(** [std::string(result.message_)]: constructing from a null pointer throws. *)
Definition plugin_failure (what : string) (result : PluginResult) : exn :=
  match PluginResult_message_ result with
  | Some message => runtime_error (String.append what message)
  | None => logic_error "basic_string: construction from null is not valid"
  end.

Section Run.
Context {P : Type} `{PluginLoader P}.

(** The lambda of [run], one bar. *)
Definition run_bar (host_params : HostParams) (fuel : nat) (w : BackTestEngine * P)
    (bar : AggregateBarResult) : outcome (BackTestEngine * P) :=
  let '(e, p) := w in
  if negb (is_within_market_hour_restrictions (bar_unix_ts_ns_ bar) host_params) then Ret (e, p)
  else
    let e := set_state (prepare_next_bar_state bar (state_ e)) e in
    let* e := execute_order_book bar host_params fuel e in
    let* e := execute_limit_orders host_params fuel e in
    let* e := execute_exit_orders host_params e in
    let* '(result, p) := loader_on_bar bar (state_ e) p in
    if negb (PluginResult_code_ result =? 0)
    then Throw (plugin_failure "Plugin on_bar failed: " result)
    else
      let* e := schedule_plugin_instructions result host_params e in
      let e := set_state (record_bar_equity_snapshot host_params (state_ e)) e in
      Ret (set_state (clear_previous_bar_state (state_ e)) e, p).

(** [BackTestEngine::run]; [get_iterable_plugin_data] is the data store's. *)
Definition run (get_iterable_plugin_data : string -> outcome (list AggregateBarResult)) (fuel : nat)
    (w : BackTestEngine * P) : outcome (BackTestEngine * P) :=
  let '(e, p) := w in
  let host_params := loader_get_host_params p in
  let e := set_state (prepare_initial_state host_params (state_ e)) e in
  let* iterable_plugin_data := get_iterable_plugin_data (loader_get_plugin_name p) in
  let* '(e, p) := ofold (run_bar host_params fuel) (e, p) iterable_plugin_data in
  let* '(result, json_out, p) := loader_on_end p in
  if negb (PluginResult_code_ result =? 0)
  then Throw (plugin_failure "Plugin on_end failed: " result)
  else
    let p := loader_free_string json_out p in
    Ret (set_report (mkBackTestReport "some_value" "another_value") e, p).
End Run.
End Engine.

Definition get_report (e : BackTestEngine) : BackTestReport := report_ e.
