(* ===== verification/EngineInv.v ===== *)
(** * The engine's invariant

    [Engine_wf] ties the portfolio to the books: every fill identifier was drawn from
    [create_uuid], every exit order names a recorded fill, every limit order lies in
    the heap of its symbol and side, and all heaps are in heap order.  Executing one
    order keeps it and cannot throw. *)
From Stdlib Require Import ZArith Lia.
From stdpp Require Import base tactics list gmap strings.
From S2P Require Import Prelude Double Money Heap Manifest Abi StockApi Models State Equity StateOps StateInv.
From S2P Require Import MarginAccounts Exchange PositionCalc Executor ExecutorSpec ExitBook LimitBook Engine.
Open Scope Z_scope.

(** ** Exit orders and their fills *)
Definition exit_uuids (b : ExitOrderBook) : list string :=
  (StopLossExitOrder_fill_uuid_ <$> stop_loss_heap_ b) ++
  (TakeProfitExitOrder_fill_uuid_ <$> take_profit_heap_ b).

Lemma add_exit_order_uuids o b : exit_uuids (add_exit_order o b) ≡ₚ ExitOrder_fill_uuid o :: exit_uuids b.
Proof.
  unfold exit_uuids. destruct o as [o|o]; simpl; unfold MinHeap_push, MaxHeap_push; rewrite heap_push_perm; simpl.
  - done.
  - symmetry. apply Permutation_middle.
Qed.

Lemma omap_fmap_subseteq {A B} (f : A -> option A) (g : A -> B) (l : list A) :
  (forall x y, f x = Some y -> g y = g x) -> g <$> omap f l ⊆ g <$> l.
Proof.
  intros Hf u (y & -> & Hy)%list_elem_of_fmap.
  apply list_elem_of_omap in Hy as (x & Hx & Hxy). rewrite (Hf _ _ Hxy). by apply list_elem_of_fmap_2.
Qed.

(** A reduced exit order is the same order with another quantity. *)
Lemma reduce_stop_loss_same u q o o' : reduce_stop_loss u q o = Some o' ->
  StopLossExitOrder_fill_uuid_ o' = StopLossExitOrder_fill_uuid_ o /\
  forall st, stop_loss_triggers st o' = stop_loss_triggers st o.
Proof. unfold reduce_stop_loss. repeat case_match; by intros [= <-]. Qed.

Lemma reduce_take_profit_same u q o o' : reduce_take_profit u q o = Some o' ->
  TakeProfitExitOrder_fill_uuid_ o' = TakeProfitExitOrder_fill_uuid_ o /\
  forall st, take_profit_triggers st o' = take_profit_triggers st o.
Proof. unfold reduce_take_profit. repeat case_match; by intros [= <-]. Qed.

Lemma reduce_by_fills_uuids closed b : exit_uuids (reduce_exit_orders_by_fills closed b) ⊆ exit_uuids b.
Proof.
  unfold reduce_exit_orders_by_fills. revert b. induction closed as [|[u q] closed IH]; intros b; simpl; [done|].
  etrans; [apply IH|]. destruct (reduce_by_uuid_perm u q b) as [P1 P2]. unfold exit_uuids. rewrite P1, P2.
  intros x. rewrite !elem_of_app. intros [Hx|Hx]; [left|right].
  - revert Hx. apply omap_fmap_subseteq. by intros ?? [? _]%reduce_stop_loss_same.
  - revert Hx. apply omap_fmap_subseteq. by intros ?? [? _]%reduce_take_profit_same.
Qed.

Definition stop_losses_quiet (st : State) (b : ExitOrderBook) : Prop :=
  forall o, o ∈ stop_loss_heap_ b -> stop_loss_triggers st o = Ret false.

Lemma reduce_by_fills_quiet st closed b :
  stop_losses_quiet st b -> stop_losses_quiet st (reduce_exit_orders_by_fills closed b).
Proof.
  unfold reduce_exit_orders_by_fills. revert b. induction closed as [|[u q] closed IH]; intros b Hq; simpl; [done|].
  apply IH. intros o. destruct (reduce_by_uuid_perm u q b) as [-> _].
  intros (o' & Ho' & Hr)%list_elem_of_omap. apply reduce_stop_loss_same in Hr as [_ ->]. by apply Hq.
Qed.

(** ** One execution, without the error plumbing *)
Definition limit_entry (order : Order) (limit_price : Money) : ScheduledLimitOrder :=
  if Order_is_buy order then ScheduledLimitOrder_Buy (mkLimitBuyOrder order limit_price)
  else ScheduledLimitOrder_Sell (mkLimitSellOrder order limit_price).

Definition enqueued (order : Order) (hp : HostParams) (e : BackTestEngine) : BackTestEngine :=
  if Order_is_limit_order order then
    match Order_limit_price_ order with
    | Some p => set_limit_order_book (add_limit_order (limit_entry order p) (limit_order_book_ e)) e
    | None => e
    end
  else set_order_book (MinHeap_push (order_book_ e) (create_scheduled_order order hp (state_ e))) e.

(** An order classified as a limit order has a limit price, so nothing throws. *)
Lemma enqueue_order_returns order hp e : enqueue_order order hp e = Ret (enqueued order hp e).
Proof.
  unfold enqueue_order, enqueued, create_scheduled_limit_order, limit_entry, Order_is_limit_order.
  destruct (Order_limit_price_ order); simpl; repeat case_match; simpl in *; try done.
  all: rewrite andb_false_r in *; done.
Qed.

Definition closed_by (fill : Fill) (st : State) : list (string * double) :=
  if Fill_is_sell fill then find_buy_fill_uuids_closed_by_sell fill st
  else if Fill_is_buy fill then find_sell_fill_uuids_closed_by_buy fill st
  else [].

Definition settled_exit_book (r : ExecutionResultSuccess) (st : State) (b : ExitOrderBook) : ExitOrderBook :=
  fold_left (fun b o => add_exit_order o b) (ExecutionResultSuccess_exit_orders_ r)
    (reduce_exit_orders_by_fills (closed_by (ExecutionResultSuccess_fill_ r) st) b).

Definition settled_books (r : ExecutionResultSuccess) (hp : HostParams) (e : BackTestEngine) : BackTestEngine :=
  let e := set_exit_order_book (settled_exit_book r (state_ e) (exit_order_book_ e)) e in
  match ExecutionResultSuccess_partial_order_ r with
  | Some o => enqueued o hp e
  | None => e
  end.

Definition settled (r : ExecutionResultSuccess) (hp : HostParams) (e : BackTestEngine) : BackTestEngine :=
  set_state (update_state r (state_ e)) (settled_books r hp e).

Lemma enqueued_state order hp e : state_ (enqueued order hp e) = state_ e.
Proof. unfold enqueued. by repeat case_match. Qed.

Lemma handle_success r hp e : handle_execution_result (ExecutionResult_Success r) hp e = Ret (settled r hp e).
Proof.
  unfold handle_execution_result, settled, settled_books, settled_exit_book, closed_by, has_exit_strategy.
  set (f := ExecutionResultSuccess_fill_ r).
  assert (Fill_is_sell f = true -> Fill_is_buy f = false) as Hsb.
  { unfold Fill_is_sell, Fill_is_buy. rewrite String.eqb_eq. by intros ->. }
  destruct (Fill_is_sell f); [rewrite Hsb by done|destruct (Fill_is_buy f)];
    destruct (ExecutionResultSuccess_exit_orders_ r), (ExecutionResultSuccess_partial_order_ r) as [o|];
    rewrite ?enqueue_order_returns; cbn [obind]; rewrite ?enqueued_state; by destruct e.
Qed.

Section Exec.
Context (create_uuid : nat -> string).

Lemma execute_order_draws n order hp st res n' :
  execute_order create_uuid n order hp st = Ret (res, n') -> (n <= n')%nat.
Proof.
  unfold execute_order.
  destruct (dleb _ _); [intros [= _ <-]; done|].
  destruct (has_symbol_prices _ _); cbn [negb]; [|intros [= _ <-]; done].
  destruct (has_symbol_volume _ _); cbn [negb]; [|intros [= _ <-]; done].
  destruct (_ && _); [intros [= _ <-]; done|].
  intros ([q rem] & _ & H)%obind_ret.
  assert (forall q, execute_fill create_uuid n order hp st q rem = Ret (res, n') -> (n <= n')%nat) as Hf.
  { intros q'. rewrite execute_fill_cases. intros (p & _ & Hp)%obind_ret. case_match; injection Hp as _ <-; lia. }
  destruct (value_or _ _); cbn [negb] in H; [by eapply Hf|].
  destruct (dleb _ _); [injection H as _ <-; done|by eapply Hf].
Qed.

Lemma execute_and_handle_cases hp order e :
  (exists n', (uuids_drawn e <= n')%nat /\
     execute_and_handle create_uuid hp order e = Ret (set_uuids_drawn n' e)) \/
  (exists r n' q0 rem price,
     success_facts create_uuid (uuids_drawn e) order hp (state_ e) r n' q0 rem price /\
     execute_and_handle create_uuid hp order e = Ret (settled r hp (set_uuids_drawn n' e))).
Proof.
  unfold execute_and_handle.
  destruct (execute_order_returns create_uuid (uuids_drawn e) order hp (state_ e)) as ([r|msg] & n' & Hx); rewrite Hx; cbn [obind].
  - right. destruct (execute_order_success_inv _ _ _ _ _ _ _ Hx) as (q0 & rem & price & Hf).
    rewrite handle_success. by exists r, n', q0, rem, price.
  - left. exists n'. split; [by eapply execute_order_draws|done].
Qed.
End Exec.

(** ** The invariant *)
Definition buy_limit_good (o : Order) : Prop := Order_is_limit_order o = true /\ Order_is_buy o = true.
Definition sell_limit_good (o : Order) : Prop := Order_is_limit_order o = true /\ Order_is_buy o = false.

Definition LimitOrderBook_ok (b : LimitOrderBook) : Prop :=
  LimitSide_ok buy_side buy_limit_good b /\ LimitSide_ok sell_side sell_limit_good b.

Lemma LimitSide_ok_push {T} (side : LimitSide T) `{!LimitSideLaws side} good b b' x :
  side_limits side b' = <[Order_symbol_ (side_order side x) :=
    heap_push (limit_before side) (limits_at (side_limits side b) (Order_symbol_ (side_order side x))) x]>
    (side_limits side b) ->
  good (side_order side x) -> LimitSide_ok side good b -> LimitSide_ok side good b'.
Proof.
  intros E Hx Hok s h. rewrite E, lookup_insert. case_decide as Es; [|apply Hok]. intros [= <-]. subst s.
  destruct (LimitSide_ok_at side good b (Order_symbol_ (side_order side x)) Hok) as [Hh Hg].
  split; [by apply heap_push_ok; [apply _|]|].
  intros o. rewrite heap_push_perm, elem_of_cons. intros [->|Ho]; [done|by apply Hg].
Qed.

Lemma LimitSide_ok_pop {T} (side : LimitSide T) `{!LimitSideLaws side} good b b' s :
  side_limits side b' = <[s := heap_pop (limit_before side) (limits_at (side_limits side b) s)]>
    (side_limits side b) ->
  LimitSide_ok side good b -> LimitSide_ok side good b'.
Proof.
  intros E Hok s' h. rewrite E, lookup_insert. case_decide as Es; [|apply Hok]. intros [= <-]. subst s'.
  destruct (LimitSide_ok_at side good b s Hok) as [Hh Hg]. split; [by apply heap_pop_ok; [apply _|]|].
  intros o Ho. apply Hg. destruct (heap_top (limits_at (side_limits side b) s)) as [x|] eqn:Ht.
  - rewrite <- (heap_pop_perm (limit_before side) _ x Ht). by apply list_elem_of_further.
  - destruct (limits_at (side_limits side b) s); [done|done].
Qed.

(** The limit book after [limit_entry] was added. *)
Lemma add_limit_entry_ok order p b :
  Order_is_limit_order order = true -> LimitOrderBook_ok b ->
  LimitOrderBook_ok (add_limit_order (limit_entry order p) b).
Proof.
  intros Hl [Hb Hs]. unfold limit_entry. destruct (Order_is_buy order) eqn:Eb; split; simpl; try done.
  - by eapply (LimitSide_ok_push buy_side _ b _ (mkLimitBuyOrder order p)).
  - by eapply (LimitSide_ok_push sell_side _ b _ (mkLimitSellOrder order p)).
Qed.

Section Invariant.
Context (create_uuid : nat -> string).

Record Engine_wf (e : BackTestEngine) : Prop := {
  ewf_state : State_wf (state_ e);
  ewf_uuids : forall u, u ∈ fill_uuids (state_ e) -> exists i, (i < uuids_drawn e)%nat /\ u = create_uuid i;
  ewf_orders : heap_ok op_lt (order_book_ e);
  ewf_exits : ExitOrderBook_ok (exit_order_book_ e);
  ewf_exit_fills : exit_uuids (exit_order_book_ e) ⊆ fill_uuids (state_ e);
  ewf_limits : LimitOrderBook_ok (limit_order_book_ e)
}.

(** What executing [order] leaves alone. *)
Record exec_frame (hp : HostParams) (order : Order) (e e' : BackTestEngine) : Prop := {
  ef_prices : current_bar_prices_ (state_ e') = current_bar_prices_ (state_ e);
  ef_time : current_timestamp_ns_ (state_ e') = current_timestamp_ns_ (state_ e);
  ef_fills : fill_uuids (state_ e) `prefix_of` fill_uuids (state_ e');
  ef_buys : forall s, s <> Order_symbol_ order ->
    limits_at (buy_limits_ (limit_order_book_ e')) s = limits_at (buy_limits_ (limit_order_book_ e)) s;
  ef_sells : forall s, s <> Order_symbol_ order ->
    limits_at (sell_limits_ (limit_order_book_ e')) s = limits_at (sell_limits_ (limit_order_book_ e)) s;
  ef_dom_buys : dom (buy_limits_ (limit_order_book_ e'))
    ⊆ {[Order_symbol_ order]} ∪ dom (buy_limits_ (limit_order_book_ e));
  ef_dom_sells : dom (sell_limits_ (limit_order_book_ e'))
    ⊆ {[Order_symbol_ order]} ∪ dom (sell_limits_ (limit_order_book_ e));
  ef_side : (Order_is_buy order = false ->
      buy_limits_ (limit_order_book_ e') = buy_limits_ (limit_order_book_ e)) /\
    (Order_is_buy order = true ->
      sell_limits_ (limit_order_book_ e') = sell_limits_ (limit_order_book_ e));
  ef_whole : fill_max_pct_of_volume_ hp = None ->
    order_book_ e' = order_book_ e /\ limit_order_book_ e' = limit_order_book_ e;
  ef_no_exits : Order_stop_loss_price_ order = None -> Order_take_profit_price_ order = None ->
    (length (stop_loss_heap_ (exit_order_book_ e')) <= length (stop_loss_heap_ (exit_order_book_ e)))%nat /\
    (length (take_profit_heap_ (exit_order_book_ e')) <= length (take_profit_heap_ (exit_order_book_ e)))%nat /\
    (stop_losses_quiet (state_ e) (exit_order_book_ e) -> stop_losses_quiet (state_ e') (exit_order_book_ e'))
}.

Lemma frame_error hp order n e : exec_frame hp order e (set_uuids_drawn n e).
Proof. split; simpl; try done; set_solver. Qed.

Lemma wf_error n e : (uuids_drawn e <= n)%nat -> Engine_wf e -> Engine_wf (set_uuids_drawn n e).
Proof.
  intros Hn [H1 H2 H3 H4 H5 H6]. split; simpl; try done. intros u Hu. destruct (H2 u Hu) as (i & ? & ?).
  exists i. split; [lia|done].
Qed.

(** ** Success: the exit book *)
Lemma settled_exit_book_ok r st b : ExitOrderBook_ok b -> ExitOrderBook_ok (settled_exit_book r st b).
Proof.
  intros Hb. unfold settled_exit_book.
  assert (forall l b, ExitOrderBook_ok b -> ExitOrderBook_ok (fold_left (fun b o => add_exit_order o b) l b)) as H.
  { induction l as [|o l IH]; intros b' Hb'; simpl; [done|]. by apply IH, add_exit_order_ok. }
  by apply H, reduce_by_fills_ok.
Qed.

Lemma settled_exit_book_uuids r st b u :
  (forall o, o ∈ ExecutionResultSuccess_exit_orders_ r ->
     ExitOrder_fill_uuid o = Fill_uuid_ (ExecutionResultSuccess_fill_ r)) ->
  u ∈ exit_uuids (settled_exit_book r st b) ->
  u = Fill_uuid_ (ExecutionResultSuccess_fill_ r) \/ u ∈ exit_uuids b.
Proof.
  intros Hr. unfold settled_exit_book.
  assert (forall l b, (forall o, o ∈ l -> ExitOrder_fill_uuid o = Fill_uuid_ (ExecutionResultSuccess_fill_ r)) ->
    u ∈ exit_uuids (fold_left (fun b o => add_exit_order o b) l b) ->
    u = Fill_uuid_ (ExecutionResultSuccess_fill_ r) \/ u ∈ exit_uuids b) as H.
  { clear. induction l as [|o l IH]; intros b Hl; simpl; [by right|]. intros [?|Hu]%IH; [by left| |].
    - rewrite add_exit_order_uuids, elem_of_cons in Hu. destruct Hu as [->|?]; [left|by right].
      apply Hl, list_elem_of_here.
    - intros o' Ho'. by apply Hl, list_elem_of_further. }
  intros [?|Hu]%H; [by left| |done]. right. by apply reduce_by_fills_uuids in Hu.
Qed.

Lemma create_exit_orders_none order fill st a b :
  Order_stop_loss_price_ order = None -> Order_take_profit_price_ order = None ->
  create_exit_orders order fill st a b = [].
Proof. intros H1 H2. unfold create_exit_orders. rewrite H1, H2. by case_match. Qed.

(** ** Success: what is put back into the books *)
Lemma enqueued_fields o hp e :
  exit_order_book_ (enqueued o hp e) = exit_order_book_ e /\ uuids_drawn (enqueued o hp e) = uuids_drawn e /\
  state_ (enqueued o hp e) = state_ e.
Proof. unfold enqueued. by repeat case_match. Qed.

Lemma limits_at_other {T} (m : gmap string (list T)) s s' h :
  s' <> s -> limits_at (<[s := h]> m) s' = limits_at m s'.
Proof. intros Hne. rewrite limits_at_insert. by case_decide. Qed.

Lemma enqueued_limits o hp e :
  let b := limit_order_book_ e in
  let b' := limit_order_book_ (enqueued o hp e) in
  (forall s, s <> Order_symbol_ o -> limits_at (buy_limits_ b') s = limits_at (buy_limits_ b) s) /\
  (forall s, s <> Order_symbol_ o -> limits_at (sell_limits_ b') s = limits_at (sell_limits_ b) s) /\
  dom (buy_limits_ b') ⊆ {[Order_symbol_ o]} ∪ dom (buy_limits_ b) /\
  dom (sell_limits_ b') ⊆ {[Order_symbol_ o]} ∪ dom (sell_limits_ b) /\
  (Order_is_buy o = false -> buy_limits_ b' = buy_limits_ b) /\
  (Order_is_buy o = true -> sell_limits_ b' = sell_limits_ b).
Proof.
  unfold enqueued, limit_entry. repeat case_match; simpl; rewrite ?dom_insert;
    split_and!; intros; try (by apply limits_at_other); try done; apply union_subseteq_r.
Qed.

Lemma enqueued_ok o hp e :
  heap_ok op_lt (order_book_ e) -> LimitOrderBook_ok (limit_order_book_ e) ->
  heap_ok op_lt (order_book_ (enqueued o hp e)) /\ LimitOrderBook_ok (limit_order_book_ (enqueued o hp e)).
Proof.
  intros Ho Hl. unfold enqueued. destruct (Order_is_limit_order o) eqn:El.
  - destruct (Order_limit_price_ o); simpl; [|done]. split; [done|]. by apply add_limit_entry_ok.
  - simpl. split; [|done]. apply heap_push_ok; [apply _|done].
Qed.

(** Without a volume cap nothing remains of a filled order. *)
Lemma success_partial n order hp st r n' q0 rem price :
  success_facts create_uuid n order hp st r n' q0 rem price ->
  (ExecutionResultSuccess_partial_order_ r = None \/
   ExecutionResultSuccess_partial_order_ r = Some (Order_with_quantity order rem (current_timestamp_ns_ st))) /\
  (fill_max_pct_of_volume_ hp = None -> ExecutionResultSuccess_partial_order_ r = None).
Proof.
  intros Hf. rewrite (sf_result _ _ _ _ _ _ _ _ _ _ Hf). simpl. split; [case_match; auto|].
  intros Hn. pose proof (sf_quantities _ _ _ _ _ _ _ _ _ _ Hf) as Hq.
  unfold get_fillable_and_remaining_quantities in Hq. rewrite Hn in Hq. by injection Hq as <- <-.
Qed.

Lemma update_state_prices r st :
  current_bar_prices_ (update_state r st) = current_bar_prices_ st /\
  current_timestamp_ns_ (update_state r st) = current_timestamp_ns_ st /\
  fill_uuids (update_state r st) = fill_uuids st ++ [Fill_uuid_ (ExecutionResultSuccess_fill_ r)].
Proof.
  destruct (update_state_fields r st) as (_ & Ef & _ & _ & _ & Ep & _ & Et & _). split_and!; [done|done|].
  unfold fill_uuids. by rewrite Ef, fmap_app.
Qed.

Lemma stop_losses_quiet_prices st st' b :
  current_bar_prices_ st' = current_bar_prices_ st -> stop_losses_quiet st b -> stop_losses_quiet st' b.
Proof. intros E Hq o Ho. rewrite <- (Hq o Ho). by apply (exit_triggers_prices (side := stop_loss_side)). Qed.

Lemma settled_frame hp order e r n' q0 rem price :
  success_facts create_uuid (uuids_drawn e) order hp (state_ e) r n' q0 rem price ->
  exec_frame hp order e (settled r hp (set_uuids_drawn n' e)).
Proof.
  intros Hf. destruct (success_partial _ _ _ _ _ _ _ _ _ Hf) as [Hpart Hwhole].
  destruct (update_state_prices r (state_ e)) as (Ep & Et & Eu).
  set (e1 := set_exit_order_book (settled_exit_book r (state_ e) (exit_order_book_ e)) (set_uuids_drawn n' e)).
  assert (settled_books r hp (set_uuids_drawn n' e) = e1 \/
    settled_books r hp (set_uuids_drawn n' e)
      = enqueued (Order_with_quantity order rem (current_timestamp_ns_ (state_ e))) hp e1) as Hb.
  { unfold settled_books. destruct Hpart as [-> | ->]; auto. }
  destruct (enqueued_limits (Order_with_quantity order rem (current_timestamp_ns_ (state_ e))) hp e1)
    as (L1 & L2 & L3 & L4 & L5).
  destruct (enqueued_fields (Order_with_quantity order rem (current_timestamp_ns_ (state_ e))) hp e1)
    as (F1 & _ & _).
  assert (exit_order_book_ (settled_books r hp (set_uuids_drawn n' e)) =
    settled_exit_book r (state_ e) (exit_order_book_ e)) as Ex by (destruct Hb as [-> | ->]; done).
  split; unfold settled; cbn [state_ set_state limit_order_book_ order_book_ exit_order_book_].
  - done.
  - done.
  - simpl state_. rewrite Eu. by eexists.
  - destruct Hb as [-> | ->]; [done|exact L1].
  - destruct Hb as [-> | ->]; [done|exact L2].
  - destruct Hb as [-> | ->]; [apply union_subseteq_r|exact L3].
  - destruct Hb as [-> | ->]; [apply union_subseteq_r|exact L4].
  - destruct Hb as [-> | ->]; [done|exact L5].
  - intros Hn. unfold settled_books. by rewrite (Hwhole Hn).
  - intros Hs Ht. rewrite Ex. unfold settled_exit_book.
    assert (ExecutionResultSuccess_exit_orders_ r = []) as ->
      by (rewrite (sf_result _ _ _ _ _ _ _ _ _ _ Hf); by apply create_exit_orders_none).
    cbn [fold_left].
    destruct (reduce_by_fills_length (closed_by (ExecutionResultSuccess_fill_ r) (state_ e))
      (exit_order_book_ e)) as [Hl1 Hl2].
    split_and!; [done|done|]. intros Hq. apply (stop_losses_quiet_prices (state_ e)); [done|].
    by apply reduce_by_fills_quiet.
Qed.

Context `{!Inj (=) (=) create_uuid}.

Lemma fresh_uuid e n : Engine_wf e -> (uuids_drawn e <= n)%nat -> create_uuid n ∉ fill_uuids (state_ e).
Proof. intros Hwf Hn Hin. destruct (ewf_uuids _ Hwf _ Hin) as (i & Hi & E%(inj _)). lia. Qed.

Lemma settled_wf hp order e r n' q0 rem price :
  Engine_wf e -> success_facts create_uuid (uuids_drawn e) order hp (state_ e) r n' q0 rem price ->
  Engine_wf (settled r hp (set_uuids_drawn n' e)).
Proof.
  intros Hwf Hf.
  assert (Result_wf (state_ e) r) as Hr.
  { rewrite (sf_result _ _ _ _ _ _ _ _ _ _ Hf). apply success_result_wf; [apply Hwf|].
    apply fresh_uuid; [done|lia]. }
  assert (Fill_uuid_ (ExecutionResultSuccess_fill_ r) = create_uuid (S (uuids_drawn e))) as Eu
    by (by rewrite (sf_result _ _ _ _ _ _ _ _ _ _ Hf)).
  pose proof (sf_draws _ _ _ _ _ _ _ _ _ _ Hf) as En.
  destruct (update_state_prices r (state_ e)) as (_ & _ & Eus).
  set (e1 := set_exit_order_book (settled_exit_book r (state_ e) (exit_order_book_ e)) (set_uuids_drawn n' e)).
  assert (exists b l, settled r hp (set_uuids_drawn n' e) =
    set_state (update_state r (state_ e)) (set_limit_order_book l (set_order_book b e1)) /\
    heap_ok op_lt b /\ LimitOrderBook_ok l) as (b & l & -> & Hb & Hl).
  { unfold settled, settled_books. change (state_ (set_uuids_drawn n' e)) with (state_ e). fold e1.
    destruct (ExecutionResultSuccess_partial_order_ r) as [o|].
    - destruct (enqueued_ok o hp e1 (ewf_orders _ Hwf) (ewf_limits _ Hwf)) as [H1 H2].
      eexists _, _. split; [|split; [exact H1|exact H2]].
      unfold enqueued. by repeat case_match.
    - exists (order_book_ e), (limit_order_book_ e). split; [done|]. split; apply Hwf. }
  split; simpl.
  - apply update_state_wf; [apply Hwf|done].
  - rewrite Eus. intros u [Hu|Hu]%elem_of_app.
    + destruct (ewf_uuids _ Hwf _ Hu) as (i & ? & ?). exists i. split; [lia|done].
    + apply list_elem_of_singleton in Hu as ->. exists (S (uuids_drawn e)). split; [lia|done].
  - done.
  - apply settled_exit_book_ok, Hwf.
  - rewrite Eus. intros u [->|Hu]%settled_exit_book_uuids; [| |apply Hr]; rewrite elem_of_app.
    + right. by apply list_elem_of_singleton.
    + left. by apply (ewf_exit_fills _ Hwf).
  - done.
Qed.

(** Executing an order returns, keeps the invariant and respects the frame. *)
Lemma execute_and_handle_wf hp order e :
  Engine_wf e ->
  exists e', execute_and_handle create_uuid hp order e = Ret e' /\ Engine_wf e' /\ exec_frame hp order e e'.
Proof.
  intros Hwf. destruct (execute_and_handle_cases create_uuid hp order e) as
    [(n' & Hn & ->)|(r & n' & q0 & rem & price & Hf & ->)].
  - eexists. split_and!; [done|by apply wf_error|apply frame_error].
  - eexists. split_and!; [done|by eapply settled_wf|by eapply settled_frame].
Qed.
End Invariant.
