(* ===== verification/EngineRun.v ===== *)
(** * What each phase of a bar establishes

    The loops of [BackTestEngine::run], phase by phase: the books keep no order that
    the bar makes due, the invariant survives any plugin, and the phases end. *)
From Stdlib Require Import ZArith Lia.
From stdpp Require Import base tactics list gmap strings.
From S2P Require Import Prelude Double Money Heap Manifest Abi StockApi Models State Equity StateOps StateInv.
From S2P Require Import Exchange PositionCalc Executor ExecutorSpec ExitBook LimitBook AbiConverter Engine EngineInv.
Open Scope Z_scope.

Section Phases.
Context (create_uuid : nat -> string) `{!Inj (=) (=) create_uuid} (hp : HostParams).

#[local] Abbreviation wf := (Engine_wf create_uuid).

Definition prices_kept (e e' : BackTestEngine) : Prop :=
  current_bar_prices_ (state_ e') = current_bar_prices_ (state_ e).

(** ** Market orders *)
Lemma pop_order_wf e : wf e -> wf (set_order_book (MinHeap_pop (order_book_ e)) e).
Proof. intros []. split; simpl; try done. apply heap_pop_ok; [apply _|done]. Qed.

Definition none_due (bar : AggregateBarResult) (e : BackTestEngine) : Prop :=
  forall o, o ∈ order_book_ e -> bar_unix_ts_ns_ bar < ScheduledOrder_scheduled_fill_at_ns_ o.

Lemma execute_order_book_spec bar fuel e e' :
  wf e -> execute_order_book create_uuid bar hp fuel e = Ret e' ->
  wf e' /\ prices_kept e e' /\ none_due bar e'.
Proof.
  revert e. induction fuel as [|fuel IH]; intros e Hwf; cbn [execute_order_book]; [done|].
  destruct (MinHeap_top (order_book_ e)) as [o|] eqn:Ht.
  2:{ intros [= <-]. split_and!; [done..|]. intros o Ho.
      unfold MinHeap_top in Ht. destruct (order_book_ e); [by apply not_elem_of_nil in Ho|done]. }
  destruct (bar_unix_ts_ns_ bar <? _) eqn:Hlt.
  - intros [= <-]. split_and!; [done..|]. intros o' Ho'.
    pose proof (heap_top_best op_lt _ _ _ (ewf_orders _ _ Hwf) Ht Ho') as Hb. simpl in Hb. lia.
  - destruct (execute_and_handle_wf create_uuid hp (ScheduledOrder_order_ o) _ (pop_order_wf e Hwf))
      as (e1 & He1 & Hwf1 & Hfr). rewrite He1. cbn [obind]. intros Hrest.
    destruct (IH e1 Hwf1 Hrest) as (? & Hp & ?). split_and!; [done| |done].
    unfold prices_kept in *. rewrite Hp. apply (ef_prices _ _ _ _ Hfr).
Qed.

(** Without a volume cap each round removes one order for good. *)
Lemma execute_order_book_total bar fuel e :
  wf e -> fill_max_pct_of_volume_ hp = None -> (length (order_book_ e) < fuel)%nat ->
  exists e', execute_order_book create_uuid bar hp fuel e = Ret e'.
Proof.
  intros Hwf Hn. revert e Hwf. induction fuel as [|fuel IH]; intros e Hwf Hf; [lia|]. cbn [execute_order_book].
  destruct (MinHeap_top (order_book_ e)) as [o|] eqn:Ht; [|by eauto].
  destruct (bar_unix_ts_ns_ bar <? _); [by eauto|].
  destruct (execute_and_handle_wf create_uuid hp (ScheduledOrder_order_ o) _ (pop_order_wf e Hwf))
    as (e1 & -> & Hwf1 & Hfr). cbn [obind]. apply IH; [done|].
  destruct (ef_whole _ _ _ _ Hfr Hn) as [-> _]. simpl. unfold MinHeap_pop. rewrite heap_pop_length.
  unfold MinHeap_top in Ht. destruct (order_book_ e); simpl in *; [done|lia].
Qed.

(** ** Limit orders *)
Lemma pop_buy_wf s e : wf e -> wf (pop_limit buy_side s e).
Proof.
  intros [H1 H2 H3 H4 H5 [Hb Hs]]. split; simpl; try done. split; [|exact Hs].
  by eapply (LimitSide_ok_pop buy_side _ (limit_order_book_ e) _ s).
Qed.

Lemma pop_sell_wf s e : wf e -> wf (pop_limit sell_side s e).
Proof.
  intros [H1 H2 H3 H4 H5 [Hb Hs]]. split; simpl; try done. split; [exact Hb|].
  by eapply (LimitSide_ok_pop sell_side _ (limit_order_book_ e) _ s).
Qed.

Lemma buy_host_spec :
  limit_host_spec buy_side (execute_and_handle create_uuid hp) buy_limit_good wf.
Proof.
  split.
  - intros e He. apply He.
  - apply pop_buy_wf.
  - intros o e e' _ Hwf He. destruct (execute_and_handle_wf create_uuid hp o e Hwf) as (e1 & He1 & Hwf1 & Hfr).
    rewrite He1 in He. injection He as <-. split; [done|by apply Hfr..].
Qed.

(** While sell orders are processed the buy book stays as the buy pass left it. *)
Definition buys_quiet (e : BackTestEngine) : Prop := forall s, unreachable buy_side e s.
Definition sells_quiet (e : BackTestEngine) : Prop := forall s, unreachable sell_side e s.

Lemma buys_quiet_mono e e' :
  prices_kept e e' -> buy_limits_ (limit_order_book_ e') = buy_limits_ (limit_order_book_ e) ->
  buys_quiet e -> buys_quiet e'.
Proof.
  intros Hp Hb Hq s p Hbp o Ho. unfold host_limits in Ho. simpl in Ho. rewrite Hb in Ho.
  apply (Hq s p); [|exact Ho]. rewrite <- Hbp. symmetry. by apply (side_bar_price_prices (side := buy_side)).
Qed.

Lemma sell_host_spec :
  limit_host_spec sell_side (execute_and_handle create_uuid hp) sell_limit_good (fun e => wf e /\ buys_quiet e).
Proof.
  split.
  - intros e [He _]. apply He.
  - intros s e [He Hq]. split; [by apply pop_sell_wf|]. by apply (buys_quiet_mono e).
  - intros o e e' [_ Hns] [Hwf Hq] He.
    destruct (execute_and_handle_wf create_uuid hp o e Hwf) as (e1 & He1 & Hwf1 & Hfr).
    rewrite He1 in He. injection He as <-. split; [split; [done|]|by apply Hfr..].
    apply (buys_quiet_mono e); [apply Hfr| |done]. by apply (ef_side _ _ _ _ Hfr).
Qed.

Lemma execute_limit_orders_spec fuel e e' :
  wf e -> execute_limit_orders create_uuid hp fuel e = Ret e' ->
  wf e' /\ prices_kept e e' /\ buys_quiet e' /\ sells_quiet e'.
Proof.
  intros Hwf. unfold execute_limit_orders, process_buy_limits, process_sell_limits.
  intros (e1 & Hb & Hs)%obind_ret.
  apply (process_limit_keys_spec buy_side _ _ _ buy_host_spec) in Hb as (Hwf1 & Hp1 & Hq1); [|done|done].
  apply (process_limit_keys_spec sell_side _ _ _ sell_host_spec) in Hs as ([Hwf2 Hq2] & Hp2 & Hq3); [|done|done].
  split_and!; [done| |done|done]. unfold prices_kept, host_limit_prices in *. simpl in *. congruence.
Qed.

(** Fuel for the limit book: more than the orders of any heap and than the symbols. *)
Record limit_fuel (fuel : nat) (b : LimitOrderBook) : Prop := {
  lfu_buys : forall s, (length (limits_at (buy_limits_ b) s) < fuel)%nat;
  lfu_sells : forall s, (length (limits_at (sell_limits_ b) s) < fuel)%nat;
  lfu_buy_keys : (size (dom (buy_limits_ b)) < fuel)%nat;
  lfu_sell_keys : (size (dom (sell_limits_ b)) < fuel)%nat
}.

Lemma keys_after_start {A} (m : gmap string A) : (keys_after None m <= size (dom m))%nat.
Proof. unfold keys_after. etrans; [apply length_filter|]. done. Qed.

(** The buy pass does not touch the sell side. *)
Lemma buy_host_spec_frame m :
  limit_host_spec buy_side (execute_and_handle create_uuid hp) buy_limit_good
    (fun e => wf e /\ sell_limits_ (limit_order_book_ e) = m).
Proof.
  split.
  - intros e [He _]. apply He.
  - intros s e [He Hm]. split; [by apply pop_buy_wf|done].
  - intros o e e' [_ Hb] [Hwf Hm] He.
    destruct (execute_and_handle_wf create_uuid hp o e Hwf) as (e1 & He1 & Hwf1 & Hfr).
    rewrite He1 in He. injection He as <-. split; [split; [done|]|by apply Hfr..].
    destruct (ef_side _ _ _ _ Hfr) as [_ Hs]. by rewrite Hs.
Qed.

Lemma limit_callback_total {T} (side : LimitSide T) good (Inv : BackTestEngine -> Prop) :
  (forall e, Inv e -> wf e) -> fill_max_pct_of_volume_ hp = None ->
  limit_total_spec side (execute_and_handle create_uuid hp) good Inv.
Proof.
  intros HI Hn. split. intros o e _ Hwf%HI.
  destruct (execute_and_handle_wf create_uuid hp o e Hwf) as (e1 & He1 & _ & Hfr). exists e1. split; [done|].
  unfold host_limits. simpl. by destruct (ef_whole _ _ _ _ Hfr Hn) as [_ ->].
Qed.

Lemma execute_limit_orders_total fuel e :
  wf e -> fill_max_pct_of_volume_ hp = None -> limit_fuel fuel (limit_order_book_ e) ->
  exists e', execute_limit_orders create_uuid hp fuel e = Ret e'.
Proof.
  intros Hwf Hn [F1 F2 F3 F4]. unfold execute_limit_orders, process_buy_limits, process_sell_limits.
  set (m := sell_limits_ (limit_order_book_ e)).
  destruct (process_limit_keys_total buy_side _ _ _ (buy_host_spec_frame m)
    (limit_callback_total buy_side _ _ (fun e He => proj1 He) Hn) fuel fuel None e) as [e1 He1]; [done|done| |].
  { eapply Nat.le_lt_trans; [apply keys_after_start|exact F3]. }
  rewrite He1. cbn [obind].
  apply (process_limit_keys_spec buy_side _ _ _ (buy_host_spec_frame m)) in He1 as ([Hwf1 Hm] & _ & Hq); [|done|done].
  apply (process_limit_keys_total sell_side _ _ _ sell_host_spec
    (limit_callback_total sell_side _ _ (fun e He => proj1 He) Hn)).
  - done.
  - intros s. unfold host_limits. simpl. rewrite Hm. apply F2.
  - simpl. rewrite Hm. eapply Nat.le_lt_trans; [apply keys_after_start|exact F4].
Qed.

(** ** Exit orders *)
Definition stop_loss_known (e : BackTestEngine) (o : StopLossExitOrder) : Prop :=
  StopLossExitOrder_fill_uuid_ o ∈ fill_uuids (state_ e).
Definition take_profit_known (e : BackTestEngine) (o : TakeProfitExitOrder) : Prop :=
  TakeProfitExitOrder_fill_uuid_ o ∈ fill_uuids (state_ e).

Lemma heap_pop_elem {T} (before : T -> T -> bool) (h : list T) x : x ∈ heap_pop before h -> x ∈ h.
Proof.
  destruct (heap_top h) as [y|] eqn:Ht; [|by destruct h].
  rewrite <- (heap_pop_perm before h y Ht) at 2. apply list_elem_of_further.
Qed.

(** Any change of the exit book to heaps of known orders keeps the invariant. *)
Lemma exit_book_wf e b :
  wf e -> ExitOrderBook_ok b ->
  (forall o, o ∈ stop_loss_heap_ b -> stop_loss_known e o) ->
  (forall o, o ∈ take_profit_heap_ b -> take_profit_known e o) ->
  wf (set_exit_order_book b e).
Proof.
  intros [H1 H2 H3 H4 H5 H6] Hb Hs Ht. split; simpl; try done.
  intros u [(o & -> & Ho)%list_elem_of_fmap|(o & -> & Ho)%list_elem_of_fmap]%elem_of_app; [by apply Hs|by apply Ht].
Qed.

Lemma wf_exits_known e :
  wf e -> (forall o, o ∈ stop_loss_heap_ (exit_order_book_ e) -> stop_loss_known e o) /\
          (forall o, o ∈ take_profit_heap_ (exit_order_book_ e) -> take_profit_known e o).
Proof.
  intros Hwf. split; intros o Ho; apply (ewf_exit_fills _ _ Hwf), elem_of_app; [left|right];
    by apply list_elem_of_fmap_2.
Qed.

Lemma stop_loss_host_spec :
  exit_host_spec stop_loss_side
    (fun o => execute_and_handle create_uuid hp (StopLossExitOrder_to_close_instruction o)) wf stop_loss_known.
Proof.
  split.
  - intros e o Hwf. by apply wf_exits_known.
  - intros e Hwf. split; [|done]. destruct (wf_exits_known e Hwf) as [Hs Ht].
    apply exit_book_wf; [done| | |done]; simpl.
    + split; [apply heap_pop_ok; [apply _|]|]; apply (ewf_exits _ _ Hwf).
    + intros o Ho%heap_pop_elem. by apply Hs.
  - intros e l Hwf Hnil Hl. destruct (wf_exits_known e Hwf) as [Hs Ht]. apply exit_book_wf; [done| | |done]; simpl.
    + split; [apply heap_push_all_ok; [apply _|apply heap_ok_nil]|apply (ewf_exits _ _ Hwf)].
    + intros o. rewrite heap_push_all_perm, app_nil_r. by apply Forall_forall.
  - intros o e Hwf. destruct (execute_and_handle_wf create_uuid hp (StopLossExitOrder_to_close_instruction o) e Hwf)
      as (e' & He & Hwf' & Hfr). exists e'. destruct (ef_no_exits _ _ _ _ Hfr eq_refl eq_refl) as (? & _ & _).
    split_and!; [done|done|done|apply Hfr|]. intros o' Ho'. eapply elem_of_prefix; [exact Ho'|]. apply Hfr.
Qed.

Lemma take_profit_host_spec :
  exit_host_spec take_profit_side
    (fun o => execute_and_handle create_uuid hp (TakeProfitExitOrder_to_close_instruction o))
    (fun e => wf e /\ stop_losses_quiet (state_ e) (exit_order_book_ e)) take_profit_known.
Proof.
  split.
  - intros e o [Hwf _]. by apply wf_exits_known.
  - intros e [Hwf Hq]. split; [|done]. destruct (wf_exits_known e Hwf) as [Hs Ht]. split; [|done].
    apply exit_book_wf; [done| |done|]; simpl.
    + split; [|apply heap_pop_ok; [apply _|]]; apply (ewf_exits _ _ Hwf).
    + intros o Ho%heap_pop_elem. by apply Ht.
  - intros e l [Hwf Hq] Hnil Hl. destruct (wf_exits_known e Hwf) as [Hs Ht]. split; [|done].
    apply exit_book_wf; [done| |done|]; simpl.
    + split; [apply (ewf_exits _ _ Hwf)|apply heap_push_all_ok; [apply _|apply heap_ok_nil]].
    + intros o. rewrite heap_push_all_perm, app_nil_r. by apply Forall_forall.
  - intros o e [Hwf Hq].
    destruct (execute_and_handle_wf create_uuid hp (TakeProfitExitOrder_to_close_instruction o) e Hwf)
      as (e' & He & Hwf' & Hfr). exists e'. destruct (ef_no_exits _ _ _ _ Hfr eq_refl eq_refl) as (_ & ? & Hq').
    split_and!; [done|done|by apply Hq'|done|apply Hfr|].
    intros o' Ho'. eapply elem_of_prefix; [exact Ho'|]. apply Hfr.
Qed.

(** No exit order left in the book triggers on the bar. *)
Definition exits_quiet (e : BackTestEngine) : Prop :=
  stop_losses_quiet (state_ e) (exit_order_book_ e) /\
  forall o, o ∈ take_profit_heap_ (exit_order_book_ e) -> take_profit_triggers (state_ e) o = Ret false.

Lemma execute_exit_orders_total e :
  wf e -> exists e', execute_exit_orders create_uuid hp e = Ret e' /\ wf e' /\ prices_kept e e' /\ exits_quiet e'.
Proof.
  intros Hwf. unfold execute_exit_orders, process_stop_loss_heap, process_take_profit_heap.
  destruct (process_exit_heap_total stop_loss_side _ _ _ stop_loss_host_spec e
    (S (MinHeap_size (stop_loss_heap_ (exit_order_book_ e)))) Hwf) as (e1 & -> & Hwf1 & Hp1 & Hq1).
  { unfold MinHeap_size, heap_size, host_exits. simpl. lia. }
  cbn [obind].
  destruct (process_exit_heap_total take_profit_side _ _ _ take_profit_host_spec e1
    (S (MaxHeap_size (take_profit_heap_ (exit_order_book_ e1))))) as (e2 & -> & [Hwf2 Hq2] & Hp2 & Hq3).
  { done. }
  { unfold MaxHeap_size, heap_size, host_exits. simpl. lia. }
  exists e2. split_and!; [done|done| |by split].
  unfold prices_kept, host_exit_prices in *. simpl in *. congruence.
Qed.

(** ** Scheduling and the bar loop *)
Lemma enqueued_wf o e : wf e -> wf (enqueued o hp e).
Proof.
  intros Hwf. destruct (enqueued_fields o hp e) as (Ex & En & Es).
  destruct (enqueued_ok o hp e (ewf_orders _ _ Hwf) (ewf_limits _ _ Hwf)) as [Ho Hl].
  destruct Hwf. by split; rewrite ?Ex, ?En, ?Es.
Qed.

Context (clock : nat -> Z).

Lemma schedule_spec result e e' :
  wf e -> schedule_plugin_instructions clock result hp e = Ret e' ->
  wf e' /\ state_ e' = state_ e /\ exit_order_book_ e' = exit_order_book_ e.
Proof.
  intros Hwf. unfold schedule_plugin_instructions, iterate_c_instructions. intros Hs.
  refine (ofold_invariant (fun e1 => wf e1 /\ state_ e1 = state_ e /\ exit_order_book_ e1 = exit_order_book_ e)
    _ _ _ e e' _ Hs); [|done].
  intros e1 ci e2 _ (Hwf1 & Est & Eex). unfold schedule_instruction.
  intros (i & _ & (o & _ & Ho)%obind_ret)%obind_ret. rewrite enqueue_order_returns in Ho. injection Ho as <-.
  destruct (enqueued_fields o hp (tick_clock e1)) as (Ex & _ & Es).
  rewrite Ex, Es. split_and!; [|done|done]. apply enqueued_wf. by destruct Hwf1.
Qed.
End Phases.

(** The per-bar operations on the portfolio keep its invariant. *)
Lemma State_wf_ext st st' :
  fills_ st' = fills_ st -> active_buy_fills_ st' = active_buy_fills_ st ->
  active_sell_fills_ st' = active_sell_fills_ st ->
  active_margin_for_fills_ st' = active_margin_for_fills_ st -> positions_ st' = positions_ st ->
  exit_orders_ st' = exit_orders_ st -> (new_fills_ st' = new_fills_ st \/ new_fills_ st' = []) ->
  Money_ok (cash_ st') -> margin_in_use_ st' = margin_in_use_ st -> State_wf st -> State_wf st'.
Proof.
  intros E1 E2 E3 E4 E5 E6 E7 Hc E8 []. split; unfold fill_uuids in *; rewrite ?E1, ?E2, ?E3, ?E4, ?E5, ?E6, ?E8; try done.
  destruct E7 as [-> | ->]; [done|]. exists (fills_ st). by rewrite app_nil_r.
Qed.

Lemma prepare_next_bar_wf bar st : State_wf st -> State_wf (prepare_next_bar_state bar st).
Proof. intros Hwf. eapply State_wf_ext; [..|exact Hwf]; try done; [by left|apply Hwf]. Qed.

Lemma record_snapshot_fields hp st :
  let st' := record_bar_equity_snapshot hp st in
  fills_ st' = fills_ st /\ active_buy_fills_ st' = active_buy_fills_ st /\
  active_sell_fills_ st' = active_sell_fills_ st /\
  active_margin_for_fills_ st' = active_margin_for_fills_ st /\ positions_ st' = positions_ st /\
  exit_orders_ st' = exit_orders_ st /\ new_fills_ st' = new_fills_ st /\ cash_ st' = cash_ st /\
  margin_in_use_ st' = margin_in_use_ st /\ current_bar_prices_ st' = current_bar_prices_ st /\
  current_timestamp_ns_ st' = current_timestamp_ns_ st.
Proof. unfold record_bar_equity_snapshot. simpl. repeat case_match; split_and!; done. Qed.

Lemma record_snapshot_wf hp st : State_wf st -> State_wf (record_bar_equity_snapshot hp st).
Proof.
  intros Hwf. destruct (record_snapshot_fields hp st) as (E1 & E2 & E3 & E4 & E5 & E6 & E7 & E8 & E9 & _).
  eapply State_wf_ext; [..|exact Hwf]; try done; [by left|]. rewrite E8. apply Hwf.
Qed.

Lemma clear_previous_bar_wf st : State_wf st -> State_wf (clear_previous_bar_state st).
Proof. intros Hwf. eapply State_wf_ext; [..|exact Hwf]; try done; [by right|apply Hwf]. Qed.

Lemma initial_state_wf hp :
  in_int64 (initial_capital_ hp) -> State_wf (prepare_initial_state hp initial_state).
Proof.
  intros Hc. split; simpl; try done; try (by intros ??).
  - constructor.
  - by intros o ?%not_elem_of_nil.
  - by exists [].
Qed.
