(* ===== verification/EngineTermination.v ===== *)
(** * The backtest ends

    More fuel never changes a result, and without a cap on the filled volume there
    is enough fuel for any plugin and any data. *)
From Stdlib Require Import ZArith Lia.
From stdpp Require Import base tactics list gmap strings.
From S2P Require Import Prelude Double Money Heap Manifest Abi StockApi Models State StateOps StateInv.
From S2P Require Import Exchange PositionCalc Executor ExecutorSpec ExitBook LimitBook AbiConverter.
From S2P Require Import Engine EngineInv EngineRun.
Open Scope Z_scope.

(** ** Fuel monotonicity *)
Lemma execute_order_book_mono u bar hp fuel fuel' e :
  (fuel <= fuel')%nat ->
  outcome_le (execute_order_book u bar hp fuel e) (execute_order_book u bar hp fuel' e).
Proof.
  revert fuel' e. induction fuel as [|fuel IH]; intros fuel' e Hf; [by left|].
  destruct fuel' as [|fuel']; [lia|]. cbn [execute_order_book].
  destruct (MinHeap_top _); [|done]. destruct (_ <? _); [done|].
  apply obind_mono; [done|]. intros e1. apply IH. lia.
Qed.

Section LimitMono.
Context {W : Type} `{LimitBookHost W} {T : Type} (side : LimitSide T) (callback : Order -> W -> outcome W).

Lemma process_limit_heap_mono s p fuel fuel' w :
  (fuel <= fuel')%nat ->
  outcome_le (process_limit_heap side callback s p fuel w) (process_limit_heap side callback s p fuel' w).
Proof.
  revert fuel' w. induction fuel as [|fuel IH]; intros fuel' w Hf; [by left|].
  destruct fuel' as [|fuel']; [lia|]. cbn [process_limit_heap].
  destruct (heap_top _); [|done]. destruct (side_out_of_reach _ _ _); [done|].
  apply obind_mono; [done|]. intros w1. apply IH. lia.
Qed.

Lemma process_limit_keys_mono fuel fuel' keys keys' k w :
  (fuel <= fuel')%nat -> (keys <= keys')%nat ->
  outcome_le (process_limit_keys side callback fuel keys k w) (process_limit_keys side callback fuel' keys' k w).
Proof.
  intros Hf. revert keys' k w. induction keys as [|keys IH]; intros keys' k w Hk; [by left|].
  destruct keys' as [|keys']; [lia|]. cbn [process_limit_keys].
  destruct (map_next_key _ _); [|done]. destruct (has_symbol_prices _ _); cbn [negb]; [|apply IH; lia].
  apply obind_mono; [done|]. intros p. apply obind_mono; [by apply process_limit_heap_mono|].
  intros w1. apply IH. lia.
Qed.
End LimitMono.

Lemma execute_limit_orders_mono u hp fuel fuel' e :
  (fuel <= fuel')%nat ->
  outcome_le (execute_limit_orders u hp fuel e) (execute_limit_orders u hp fuel' e).
Proof.
  intros Hf. unfold execute_limit_orders, process_buy_limits, process_sell_limits.
  apply obind_mono; [|intros e1]; by apply process_limit_keys_mono.
Qed.

Lemma run_bar_mono u clock {P} `{PluginLoader P} hp fuel fuel' w bar :
  (fuel <= fuel')%nat ->
  outcome_le (run_bar u clock hp fuel w bar) (run_bar u clock hp fuel' w bar).
Proof.
  intros Hf. unfold run_bar. destruct w as [e p]. destruct (negb _); [done|].
  apply obind_mono; [by apply execute_order_book_mono|]. intros e1.
  apply obind_mono; [by apply execute_limit_orders_mono|]. done.
Qed.

(** ** Enough fuel *)
Lemma limits_bound_exists {T} (m : gmap string (list T)) :
  exists n, forall s, (length (limits_at m s) < n)%nat.
Proof.
  induction m as [|s h m Hs [n IH]] using map_ind.
  - exists 1%nat. intros s. unfold limits_at. rewrite lookup_empty. simpl. lia.
  - exists (S (n + length h)). intros s'. rewrite limits_at_insert. specialize (IH s'). case_decide; lia.
Qed.

Lemma limit_fuel_exists b : exists fuel, limit_fuel fuel b.
Proof.
  destruct (limits_bound_exists (buy_limits_ b)) as [n1 H1].
  destruct (limits_bound_exists (sell_limits_ b)) as [n2 H2].
  exists (S (n1 + n2 + size (dom (buy_limits_ b)) + size (dom (sell_limits_ b)))).
  split; [intros s; specialize (H1 s); lia|intros s; specialize (H2 s); lia|lia|lia].
Qed.

Section Run.
Context (create_uuid : nat -> string) `{!Inj (=) (=) create_uuid} (clock : nat -> Z).
Context {P : Type} `{!PluginLoader P}.

Lemma set_state_wf e st' :
  Engine_wf create_uuid e -> State_wf st' -> fill_uuids st' = fill_uuids (state_ e) ->
  Engine_wf create_uuid (set_state st' e).
Proof. intros [] Hst Eu. split; simpl; rewrite ?Eu; done. Qed.

Lemma snapshot_end_wf hp e :
  Engine_wf create_uuid e ->
  Engine_wf create_uuid
    (set_state (clear_previous_bar_state (record_bar_equity_snapshot hp (state_ e))) e).
Proof.
  intros Hwf. apply set_state_wf; [done|by apply clear_previous_bar_wf, record_snapshot_wf, Hwf|].
  unfold fill_uuids. simpl. by destruct (record_snapshot_fields hp (state_ e)) as [-> _].
Qed.

Lemma prepare_bar_wf bar e :
  Engine_wf create_uuid e -> Engine_wf create_uuid (set_state (prepare_next_bar_state bar (state_ e)) e).
Proof. intros Hwf. apply set_state_wf; [done|apply prepare_next_bar_wf, Hwf|done]. Qed.

(** A bar keeps the invariant, whatever the plugin answers. *)
Lemma run_bar_wf hp fuel e p bar e' p' :
  Engine_wf create_uuid e -> run_bar create_uuid clock hp fuel (e, p) bar = Ret (e', p') ->
  Engine_wf create_uuid e'.
Proof.
  intros Hwf. unfold run_bar. destruct (negb _); [by intros [= <- <-]|].
  intros (e1 & H1 & H)%obind_ret. apply execute_order_book_spec in H1 as (Hwf1 & _); [|done|by apply prepare_bar_wf].
  apply obind_ret in H as (e2 & H2 & H). apply execute_limit_orders_spec in H2 as (Hwf2 & _); [|done|done].
  apply obind_ret in H as (e3 & H3 & H).
  destruct (execute_exit_orders_total create_uuid hp e2 Hwf2) as (e3' & E3 & Hwf3 & _).
  rewrite E3 in H3. injection H3 as ->.
  apply obind_ret in H as ([res p1] & _ & H). destruct (negb _); [done|].
  apply obind_ret in H as (e4 & H4 & H). apply (schedule_spec create_uuid hp) in H4 as (Hwf4 & _); [|done].
  injection H as <- _. by apply (snapshot_end_wf hp e4).
Qed.

(** The plugin and the signal conversions answer each call. *)
Class LoaderAnswers : Prop := {
  answers_on_bar : forall bar st p, loader_on_bar bar st p <> OutOfFuel;
  answers_on_end : forall p, loader_on_end p <> OutOfFuel
}.

Lemma obind_done {A B} (c : outcome A) (k : A -> outcome B) :
  c <> OutOfFuel -> (forall a, c = Ret a -> k a <> OutOfFuel) -> obind c k <> OutOfFuel.
Proof. destruct c; simpl; auto; congruence. Qed.

Lemma ofold_done {A B} (f : A -> B -> outcome A) (l : list B) :
  (forall a x, f a x <> OutOfFuel) -> forall a, ofold f a l <> OutOfFuel.
Proof. intros Hf. induction l as [|x l IH]; intros a; simpl; [done|]. apply obind_done; auto. Qed.

Lemma map_at_done {A} (m : gmap string A) k : map_at m k <> OutOfFuel.
Proof. unfold map_at. by case_match. Qed.

Lemma get_symbol_close_done st s : get_symbol_close st s <> OutOfFuel.
Proof. apply obind_done; [apply map_at_done|done]. Qed.

Lemma signal_to_order_done s hp st : signal_to_order s hp st <> OutOfFuel.
Proof.
  unfold signal_to_order, calculate_signal_stop_loss_price, calculate_signal_take_profit_price,
    calculate_signal_position_size.
  repeat first [done | apply get_symbol_close_done | apply map_at_done
               | apply obind_done; [|intros ? _] | case_match].
Qed.

Lemma schedule_done result hp e : schedule_plugin_instructions clock result hp e <> OutOfFuel.
Proof.
  apply ofold_done. intros e1 ci. unfold schedule_instruction.
  apply obind_done; [unfold to_instruction; by repeat case_match|]. intros i _.
  apply obind_done; [destruct i; [apply signal_to_order_done|done]|].
  intros o _. by rewrite enqueue_order_returns.
Qed.

Context `{!LoaderAnswers}.

(** Enough fuel for one bar. *)
Lemma run_bar_done hp e p bar :
  Engine_wf create_uuid e -> fill_max_pct_of_volume_ hp = None ->
  exists fuel, forall fuel', (fuel <= fuel')%nat -> run_bar create_uuid clock hp fuel' (e, p) bar <> OutOfFuel.
Proof.
  intros Hwf Hn. set (e0 := set_state (prepare_next_bar_state bar (state_ e)) e).
  assert (Engine_wf create_uuid e0) as Hwf0 by by apply prepare_bar_wf.
  destruct (execute_order_book_total create_uuid hp bar (S (length (order_book_ e0))) e0 Hwf0 Hn ltac:(lia))
    as [e1 H1].
  pose proof (execute_order_book_spec _ _ _ _ _ _ Hwf0 H1) as (Hwf1 & _).
  destruct (limit_fuel_exists (limit_order_book_ e1)) as [n Hlf].
  destruct (execute_limit_orders_total create_uuid hp n e1 Hwf1 Hn Hlf) as [e2 H2].
  pose proof (execute_limit_orders_spec _ _ _ _ _ Hwf1 H2) as (Hwf2 & _).
  exists (S (length (order_book_ e0)) + n)%nat. intros fuel' Hf. unfold run_bar.
  destruct (negb _); [done|]. fold e0.
  assert (execute_order_book create_uuid bar hp fuel' e0 = Ret e1) as ->.
  { rewrite <- H1. apply outcome_le_done; [apply execute_order_book_mono; lia|by rewrite H1]. }
  cbn [obind].
  assert (execute_limit_orders create_uuid hp fuel' e1 = Ret e2) as ->.
  { rewrite <- H2. apply outcome_le_done; [apply execute_limit_orders_mono; lia|by rewrite H2]. }
  cbn [obind]. destruct (execute_exit_orders_total create_uuid hp e2 Hwf2) as (e3 & -> & _). cbn [obind].
  apply obind_done; [apply answers_on_bar|]. intros [res p1] _. destruct (negb _); [done|].
  apply obind_done; [apply schedule_done|done].
Qed.

Lemma run_bars_done hp bars e p :
  Engine_wf create_uuid e -> fill_max_pct_of_volume_ hp = None ->
  exists fuel, forall fuel', (fuel <= fuel')%nat ->
    ofold (run_bar create_uuid clock hp fuel') (e, p) bars <> OutOfFuel.
Proof.
  intros Hwf Hn. revert e p Hwf. induction bars as [|bar bars IH]; intros e p Hwf; [by exists 0%nat|].
  destruct (run_bar_done hp e p bar Hwf Hn) as [n Hd].
  destruct (run_bar create_uuid clock hp n (e, p) bar) as [[e1 p1]|x|] eqn:Hr.
  - destruct (IH e1 p1 (run_bar_wf _ _ _ _ _ _ _ Hwf Hr)) as [n' Hd']. exists (n + n')%nat.
    intros fuel' Hf. cbn [ofold].
    rewrite (outcome_le_done _ _ (run_bar_mono create_uuid clock hp n fuel' (e, p) bar ltac:(lia))) by by rewrite Hr.
    rewrite Hr. cbn [obind]. apply Hd'. lia.
  - exists n. intros fuel' Hf. cbn [ofold].
    rewrite (outcome_le_done _ _ (run_bar_mono create_uuid clock hp n fuel' (e, p) bar Hf)) by by rewrite Hr.
    by rewrite Hr.
  - by destruct (Hd n).
Qed.

Lemma run_bars_wf hp fuel bars e p e' p' :
  Engine_wf create_uuid e -> ofold (run_bar create_uuid clock hp fuel) (e, p) bars = Ret (e', p') ->
  Engine_wf create_uuid e'.
Proof.
  intros Hwf Hr.
  refine (ofold_invariant (fun w : BackTestEngine * P => Engine_wf create_uuid (fst w)) _ _ _ (e, p) (e', p') Hwf Hr).
  intros [e1 p1] bar [e2 p2] _ Hw Hb. exact (run_bar_wf _ _ _ _ _ _ _ Hw Hb).
Qed.

Lemma new_engine_wf hp :
  in_int64 (initial_capital_ hp) ->
  Engine_wf create_uuid (set_state (prepare_initial_state hp initial_state) new_engine).
Proof.
  intros Hc. split; simpl; try (by intros ? ?%not_elem_of_nil).
  - by apply initial_state_wf.
  - apply heap_ok_nil.
  - split; apply heap_ok_nil.
  - split; intros s h; simpl; by rewrite lookup_empty.
Qed.

(** ** The whole run *)
Lemma run_mono data fuel fuel' (w : BackTestEngine * P) :
  (fuel <= fuel')%nat ->
  outcome_le (run create_uuid clock data fuel w) (run create_uuid clock data fuel' w).
Proof.
  intros Hf. unfold run. destruct w as [e p]. apply obind_mono; [done|]. intros bars.
  apply obind_mono; [|done]. apply ofold_mono. intros a x. by apply run_bar_mono.
Qed.

(** A data call that hands over no bars decides the run. *)
Lemma run_without_bars data fuel e (p : P) :
  (forall bars, data (loader_get_plugin_name p) <> Ret bars) ->
  run create_uuid clock data fuel (e, p) =
  match data (loader_get_plugin_name p) with Throw x => Throw x | _ => OutOfFuel end.
Proof. intros Hno. unfold run. destruct (data _) as [bars|x|]; [by destruct (Hno bars)|done|done]. Qed.

Lemma run_outcome_exists data (p : P) :
  in_int64 (initial_capital_ (loader_get_host_params p)) ->
  fill_max_pct_of_volume_ (loader_get_host_params p) = None ->
  exists fuel, forall fuel', (fuel <= fuel')%nat ->
    (run create_uuid clock data fuel' (new_engine, p) = OutOfFuel <->
       data (loader_get_plugin_name p) = OutOfFuel).
Proof.
  intros Hc Hn. destruct (data (loader_get_plugin_name p)) as [bars|x|] eqn:Hdata.
  2,3: exists 0%nat; intros fuel' _; rewrite run_without_bars; rewrite Hdata; done.
  destruct (run_bars_done (loader_get_host_params p) bars
    (set_state (prepare_initial_state (loader_get_host_params p) initial_state) new_engine) p
    (new_engine_wf _ Hc) Hn) as [fuel Hf].
  exists fuel. intros fuel' Hle. split; [|done]. intros E. exfalso. revert E.
  unfold run. rewrite Hdata. cbn [obind]. apply obind_done; [by apply Hf|].
  intros [e1 p1] _. apply obind_done; [apply answers_on_end|]. intros [[res json] p2] _. by destruct (negb _).
Qed.
End Run.
