(* ===== verification/RunProtocol.v ===== *)
(** * How a run drives its plugin

    Whatever the plugin, a run that ends has called it in one way only: [on_bar] once for
    every bar inside the permitted hours, in the order of the data, each answered with
    status zero; then [on_end], answered with status zero; then [free_string] with the
    very string [on_end] left. *)
From Stdlib Require Import ZArith Lia.
From stdpp Require Import base tactics list gmap strings.
From S2P Require Import Prelude Double Money Heap Manifest Abi StockApi Models State StateOps Exchange.
From S2P Require Import PositionCalc Executor ExitBook LimitBook AbiConverter Engine.
Open Scope Z_scope.

Section Protocol.
Context {P : Type} `{!PluginLoader P}.

(** The bars the lambda of [run] does not skip. *)
Definition bars_in_hours (hp : HostParams) (bars : list AggregateBarResult) : list AggregateBarResult :=
  filter (fun bar => is_within_market_hour_restrictions (bar_unix_ts_ns_ bar) hp = true) bars.

(** The calls of [on_bar], one per bar, with the states the engine shows. *)
Inductive bar_calls : list AggregateBarResult -> P -> P -> Prop :=
| bar_calls_nil p : bar_calls [] p p
| bar_calls_cons bar bars st result p p1 p2 :
    loader_on_bar bar st p = Ret (result, p1) -> PluginResult_code_ result = 0 ->
    bar_calls bars p1 p2 -> bar_calls (bar :: bars) p p2.

(** What holds between the plugin before and after every call holds across them. *)
Lemma bar_calls_relate (R : P -> P -> Prop) `{!PreOrder R} bars p p' :
  (forall bar st p r p1, loader_on_bar bar st p = Ret (r, p1) -> R p p1) ->
  bar_calls bars p p' -> R p p'.
Proof. intros HR. induction 1; [done|]. etrans; [by eapply HR|done]. Qed.

(** The protocol. *)
Inductive plugin_driven (hp : HostParams) (bars : list AggregateBarResult) (p p' : P) : Prop :=
| driven p1 p2 result json :
    bar_calls (bars_in_hours hp bars) p p1 ->
    loader_on_end p1 = Ret (result, json, p2) -> PluginResult_code_ result = 0 ->
    p' = loader_free_string json p2 -> plugin_driven hp bars p p'.

Context (create_uuid : nat -> string) (clock : nat -> Z).

Lemma run_bar_call hp fuel e p bar e' p' :
  run_bar create_uuid clock hp fuel (e, p) bar = Ret (e', p') ->
  bar_calls (bars_in_hours hp [bar]) p p'.
Proof.
  unfold run_bar, bars_in_hours. rewrite filter_cons, filter_nil.
  destruct (is_within_market_hour_restrictions _ _); cbn [negb]; simpl.
  2: { intros [= _ <-]. apply bar_calls_nil. }
  intros (e1 & _ & H)%obind_ret. apply obind_ret in H as (e2 & _ & H). apply obind_ret in H as (e3 & _ & H).
  apply obind_ret in H as ([res p1] & Hp & H). destruct (Z.eqb_spec (PluginResult_code_ res) 0) as [Hc|]; [|done].
  cbn [negb] in H. apply obind_ret in H as (e4 & _ & H). injection H as _ <-.
  eapply bar_calls_cons; [exact Hp|exact Hc|apply bar_calls_nil].
Qed.

Lemma bar_calls_app bars bars' p p1 p2 :
  bar_calls bars p p1 -> bar_calls bars' p1 p2 -> bar_calls (bars ++ bars') p p2.
Proof. induction 1; [done|]. intros. eapply bar_calls_cons; eauto. Qed.

Lemma run_bars_calls hp fuel bars e p e' p' :
  ofold (run_bar create_uuid clock hp fuel) (e, p) bars = Ret (e', p') ->
  bar_calls (bars_in_hours hp bars) p p'.
Proof.
  revert e p. induction bars as [|bar bars IH]; intros e p; cbn [ofold].
  - intros [= _ <-]. apply bar_calls_nil.
  - intros ([e1 p1] & Hb & Hr)%obind_ret. apply run_bar_call in Hb.
    change (bar :: bars) with ([bar] ++ bars). unfold bars_in_hours. rewrite filter_app.
    eapply bar_calls_app; [exact Hb|exact (IH _ _ Hr)].
Qed.

(** A run that ends followed the protocol. *)
Lemma run_drives_plugin data fuel e p e' p' :
  run create_uuid clock data fuel (e, p) = Ret (e', p') ->
  exists bars, data (loader_get_plugin_name p) = Ret bars /\
    plugin_driven (loader_get_host_params p) bars p p'.
Proof.
  unfold run. intros (bars & Hd & H)%obind_ret. apply obind_ret in H as ([e1 p1] & Hr & H).
  apply obind_ret in H as ([[res json] p2] & Hend & H).
  destruct (Z.eqb_spec (PluginResult_code_ res) 0) as [Hc|]; [|done]. cbn [negb] in H. injection H as _ <-.
  exists bars. split; [done|]. eapply driven; [exact (run_bars_calls _ _ _ _ _ _ _ Hr)|exact Hend|exact Hc|done].
Qed.
End Protocol.
