(* ===== verification/TradeInduction.v ===== *)
(** * What holds of the accounts after every trade holds after a run

    The engine touches fills, lots, margins, positions and cash only by applying the
    result of a successful [execute_order]; everything else it does to the state is
    bookkeeping of the bar.  So a predicate of these accounts that each trade keeps
    is kept by every phase of a bar and by the whole bar loop, whatever the plugin
    answers. *)
From Stdlib Require Import ZArith Lia.
From stdpp Require Import base tactics list gmap strings.
From S2P Require Import Prelude Double Money Heap Manifest Abi StockApi Models State Equity StateOps StateInv.
From S2P Require Import Exchange PositionCalc Executor ExecutorSpec ExitBook LimitBook AbiConverter Engine EngineInv.
From S2P Require Import EngineRun EngineTermination.
Open Scope Z_scope.

(** The part of the state that only trades write. *)
Definition accounts (st : State) :=
  (fills_ st, cash_ st, margin_in_use_ st, active_buy_fills_ st, active_sell_fills_ st,
   active_margin_for_fills_ st, active_leverage_for_fills_ st, positions_ st).

Lemma snapshot_accounts hp st : accounts (record_bar_equity_snapshot hp st) = accounts st.
Proof. unfold record_bar_equity_snapshot. simpl. by repeat case_match. Qed.

(** ** A second invariant beside the one of a host specification *)
Lemma limit_host_spec_and {W} `{!LimitBookHost W, !LimitBookHostLaws W} {T} (side : LimitSide T)
    callback good (Inv K : W -> Prop) :
  limit_host_spec side callback good Inv ->
  (forall s w, K w -> K (pop_limit side s w)) ->
  (forall o w w', Inv w -> K w -> callback o w = Ret w' -> K w') ->
  limit_host_spec side callback good (fun w => Inv w /\ K w).
Proof.
  intros [H1 H2 H3] Hpop Hcall. split.
  - intros w [HI _]. by apply H1.
  - intros s w [HI HK]. split; [by apply H2|by apply Hpop].
  - intros o w w' Hg [HI HK] Hc. destruct (H3 o w w' Hg HI Hc) as [HI' Hp Ho Hd].
    split; [split; [done|exact (Hcall o w w' HI HK Hc)]|done..].
Qed.

Lemma exit_host_spec_and {W} `{!ExitBookHost W, !ExitBookHostLaws W} {T} (side : ExitSide T)
    callback (Inv K : W -> Prop) ok :
  exit_host_spec side callback Inv ok ->
  (forall h w, K w -> K (host_set_exits side h w)) ->
  (forall o w w', Inv w -> K w -> callback o w = Ret w' -> K w') ->
  exit_host_spec side callback (fun w => Inv w /\ K w) ok.
Proof.
  intros [H1 H2 H3 H4] Hset Hcall. split.
  - intros w o [HI _]. by apply H1.
  - intros w [HI HK]. destruct (H2 w HI) as [? ?]. split; [split; [done|by apply Hset]|done].
  - intros w l [HI HK] Hn Hl. split; [by apply H3|by apply Hset].
  - intros o w [HI HK]. destruct (H4 o w HI) as (w' & Hc & HI' & ?). exists w'.
    split; [done|]. split; [split; [done|exact (Hcall o w w' HI HK Hc)]|done].
Qed.

(** ** What the limit and exit phases keep *)
Section Phases.
Context (create_uuid : nat -> string) `{!Inj (=) (=) create_uuid} (hp : HostParams).
#[local] Abbreviation wf := (Engine_wf create_uuid).
Context (K : BackTestEngine -> Prop).
Context (K_execute : forall o e e', wf e -> K e -> execute_and_handle create_uuid hp o e = Ret e' -> K e').

Lemma limit_phase_keeps fuel e e' :
  (forall e b, K e -> K (set_limit_order_book b e)) ->
  wf e -> K e -> execute_limit_orders create_uuid hp fuel e = Ret e' -> K e'.
Proof.
  intros HKl Hwf HK. unfold execute_limit_orders, process_buy_limits, process_sell_limits.
  intros (e1 & Hb & Hs)%obind_ret.
  apply (process_limit_keys_spec buy_side _ _ _ (limit_host_spec_and buy_side _ _ _ K
    (buy_host_spec create_uuid hp) (fun s w => HKl w _) K_execute)) in Hb as ([Hwf1 HK1] & _ & Hq); [|done|done].
  apply (process_limit_keys_spec sell_side _ _ _ (limit_host_spec_and sell_side _ _ _ K
    (sell_host_spec create_uuid hp) (fun s w => HKl w _)
    (fun o w w' Hw => K_execute o w w' (proj1 Hw)))) in Hs as ([_ HK2] & _); done.
Qed.

Lemma exit_phase_keeps e e' :
  (forall e b, K e -> K (set_exit_order_book b e)) ->
  wf e -> K e -> execute_exit_orders create_uuid hp e = Ret e' -> K e'.
Proof.
  intros HKx Hwf HK. unfold execute_exit_orders, process_stop_loss_heap, process_take_profit_heap.
  destruct (process_exit_heap_total stop_loss_side _ _ _ (exit_host_spec_and stop_loss_side _ _ K _
    (stop_loss_host_spec create_uuid hp) (fun h w => HKx w _)
    (fun o w w' Hw => K_execute _ w w' Hw)) e
    (S (MinHeap_size (stop_loss_heap_ (exit_order_book_ e)))) (conj Hwf HK))
    as (e1 & -> & [Hwf1 HK1] & _ & Hq1).
  { unfold MinHeap_size, heap_size, host_exits. simpl. lia. }
  cbn [obind].
  destruct (process_exit_heap_total take_profit_side _ _ _ (exit_host_spec_and take_profit_side _ _ K _
    (take_profit_host_spec create_uuid hp) (fun h w => HKx w _)
    (fun o w w' Hw => K_execute _ w w' (proj1 Hw))) e1
    (S (MaxHeap_size (take_profit_heap_ (exit_order_book_ e1)))) (conj (conj Hwf1 Hq1) HK1))
    as (e2 & -> & [_ HK2] & _).
  { unfold MaxHeap_size, heap_size, host_exits. simpl. lia. }
  by intros [= <-].
Qed.
End Phases.

(** Without a volume cap nothing is put back, so the phases leave each other's books. *)
Section WholeFills.
Context (create_uuid : nat -> string) `{!Inj (=) (=) create_uuid} (hp : HostParams).
Context (Hwhole : fill_max_pct_of_volume_ hp = None).
#[local] Abbreviation wf := (Engine_wf create_uuid).

Lemma execute_keeps_books o e e' :
  wf e -> execute_and_handle create_uuid hp o e = Ret e' ->
  order_book_ e' = order_book_ e /\ limit_order_book_ e' = limit_order_book_ e.
Proof.
  intros Hwf He. destruct (execute_and_handle_wf create_uuid hp o e Hwf) as (e1 & He1 & _ & Hfr).
  rewrite He1 in He. injection He as <-. exact (ef_whole _ _ _ _ Hfr Hwhole).
Qed.

Lemma limit_phase_order_book fuel e e' :
  wf e -> execute_limit_orders create_uuid hp fuel e = Ret e' -> order_book_ e' = order_book_ e.
Proof.
  intros Hwf He. refine (limit_phase_keeps create_uuid hp (fun e' => order_book_ e' = order_book_ e) _ fuel e e' _ Hwf eq_refl He).
  - intros o e1 e2 Hwf1 HK Hx. by rewrite (proj1 (execute_keeps_books o e1 e2 Hwf1 Hx)).
  - done.
Qed.

Lemma exit_phase_books e e' :
  wf e -> execute_exit_orders create_uuid hp e = Ret e' ->
  order_book_ e' = order_book_ e /\ limit_order_book_ e' = limit_order_book_ e.
Proof.
  intros Hwf He. refine (exit_phase_keeps create_uuid hp
    (fun e' => order_book_ e' = order_book_ e /\ limit_order_book_ e' = limit_order_book_ e) _ e e' _ Hwf (conj eq_refl eq_refl) He).
  - intros o e1 e2 Hwf1 [HK1 HK2] Hx. destruct (execute_keeps_books o e1 e2 Hwf1 Hx) as [-> ->]. done.
  - done.
Qed.

(** The three phases of a bar: what is left in the books cannot be executed on it. *)
Lemma phases_leave_nothing bar fuel e e1 e2 :
  wf e -> execute_order_book create_uuid bar hp fuel e = Ret e1 ->
  execute_limit_orders create_uuid hp fuel e1 = Ret e2 ->
  exists e3, execute_exit_orders create_uuid hp e2 = Ret e3 /\ wf e3 /\ prices_kept e e3 /\
    none_due bar e3 /\ buys_quiet e3 /\ sells_quiet e3 /\ exits_quiet e3.
Proof.
  intros Hwf H1 H2. pose proof (execute_order_book_spec _ _ _ _ _ _ Hwf H1) as (Hwf1 & Hp1 & Hdue).
  pose proof (limit_phase_order_book _ _ _ Hwf1 H2) as Eob.
  pose proof (execute_limit_orders_spec _ _ _ _ _ Hwf1 H2) as (Hwf2 & Hp2 & Hbuy & Hsell).
  destruct (execute_exit_orders_total create_uuid hp e2 Hwf2) as (e3 & H3 & Hwf3 & Hp3 & Hex).
  destruct (exit_phase_books _ _ Hwf2 H3) as [Eob3 Elb3]. exists e3. unfold prices_kept in *.
  split_and!; [done|done|congruence| | | |done].
  - unfold none_due in *. by rewrite Eob3, Eob.
  - apply (buys_quiet_mono e2); [done|by rewrite Elb3|done].
  - intros s p Hbp o Ho. unfold host_limits in Ho. simpl in Ho. rewrite Elb3 in Ho.
    apply (Hsell s p); [|exact Ho]. rewrite <- Hbp. symmetry. by apply (side_bar_price_prices (side := sell_side)).
Qed.
End WholeFills.

Section Trades.
Context (create_uuid : nat -> string) `{!Inj (=) (=) create_uuid} (hp : HostParams).
Context (K : State -> Prop) (K_accounts : forall st st', accounts st' = accounts st -> K st -> K st').
Context (K_trade : forall n n' order st r,
  State_wf st -> create_uuid (S n) ∉ fill_uuids st -> K st ->
  execute_order create_uuid n order hp st = Ret (ExecutionResult_Success r, n') -> K (update_state r st)).

#[local] Abbreviation wf := (Engine_wf create_uuid).
#[local] Abbreviation Ke := (fun e : BackTestEngine => K (state_ e)).

Lemma execute_and_handle_keeps order e e' :
  wf e -> Ke e -> execute_and_handle create_uuid hp order e = Ret e' -> Ke e'.
Proof.
  intros Hwf HK. unfold execute_and_handle. intros ([res n'] & Hx & H)%obind_ret.
  destruct res as [r|msg]; [|by injection H as <-].
  rewrite handle_success in H. injection H as <-. simpl. eapply K_trade; [..|exact Hx]; try done.
  - apply Hwf.
  - apply (fresh_uuid create_uuid e); [done|lia].
Qed.

Lemma order_book_keeps bar fuel e e' :
  wf e -> Ke e -> execute_order_book create_uuid bar hp fuel e = Ret e' -> Ke e'.
Proof.
  revert e. induction fuel as [|fuel IH]; intros e Hwf HK; cbn [execute_order_book]; [done|].
  destruct (MinHeap_top (order_book_ e)) as [o|]; [|by intros [= <-]].
  destruct (bar_unix_ts_ns_ bar <? _); [by intros [= <-]|].
  destruct (execute_and_handle_wf create_uuid hp (ScheduledOrder_order_ o) _ (pop_order_wf create_uuid e Hwf))
    as (e1 & He1 & Hwf1 & _).
  rewrite He1. cbn [obind]. apply IH; [done|]. eapply execute_and_handle_keeps; [..|exact He1]; [|done].
  by apply pop_order_wf.
Qed.

Lemma limit_orders_keep fuel e e' :
  wf e -> Ke e -> execute_limit_orders create_uuid hp fuel e = Ret e' -> Ke e'.
Proof. by apply (limit_phase_keeps create_uuid hp Ke execute_and_handle_keeps). Qed.

Lemma exit_orders_keep e e' :
  wf e -> Ke e -> execute_exit_orders create_uuid hp e = Ret e' -> Ke e'.
Proof. by apply (exit_phase_keeps create_uuid hp Ke execute_and_handle_keeps). Qed.

Context (clock : nat -> Z) {P : Type} `{!PluginLoader P}.

Lemma run_bar_keeps fuel e (p : P) bar e' p' :
  wf e -> Ke e -> run_bar create_uuid clock hp fuel (e, p) bar = Ret (e', p') -> Ke e'.
Proof.
  intros Hwf HK. unfold run_bar. destruct (negb _); [by intros [= <- <-]|].
  intros (e1 & H1 & H)%obind_ret. pose proof (prepare_bar_wf create_uuid bar e Hwf) as Hwf0.
  pose proof (execute_order_book_spec _ _ _ _ _ _ Hwf0 H1) as (Hwf1 & _).
  apply order_book_keeps in H1; [|done|by apply (K_accounts (state_ e))].
  apply obind_ret in H as (e2 & H2 & H). pose proof (execute_limit_orders_spec _ _ _ _ _ Hwf1 H2) as (Hwf2 & _).
  apply limit_orders_keep in H2; [|done|done].
  apply obind_ret in H as (e3 & H3 & H). destruct (execute_exit_orders_total create_uuid hp e2 Hwf2) as (e3' & E3 & Hwf3 & _).
  rewrite E3 in H3. injection H3 as ->. apply exit_orders_keep in E3; [|done|done].
  apply obind_ret in H as ([res p1] & _ & H). destruct (negb _); [done|].
  apply obind_ret in H as (e4 & H4 & H). apply (schedule_spec create_uuid hp) in H4 as (_ & Est & _); [|done].
  injection H as <- _. simpl. apply (K_accounts (state_ e3)); [|done]. rewrite <- Est.
  exact (snapshot_accounts hp (state_ e4)).
Qed.

(** The bar loop keeps what every trade keeps. *)
Lemma run_bars_keep fuel bars e (p : P) e' p' :
  wf e -> Ke e -> ofold (run_bar create_uuid clock hp fuel) (e, p) bars = Ret (e', p') -> Ke e'.
Proof.
  intros Hwf HK Hr.
  refine (proj2 (ofold_invariant (fun w : BackTestEngine * P => wf (fst w) /\ Ke (fst w)) _ _ _ (e, p) (e', p')
    (conj Hwf HK) Hr)).
  intros [e1 p1] bar [e2 p2] _ [Hw HK1] Hb.
  split; [exact (run_bar_wf _ _ _ _ _ _ _ _ _ Hw Hb)|exact (run_bar_keeps _ _ _ _ _ _ Hw HK1 Hb)].
Qed.
End Trades.
