(* ===== verification/DataProps.v ===== *)
(** * Properties of the data structures and utilities: heaps, money, market hours *)
From Stdlib Require Import ZArith Lia Ascii String.
From stdpp Require Import base tactics list gmap strings sorting.
From S2P Require Import Prelude Double CppString Money Heap TimeUtils Models ExitBook.
Open Scope Z_scope.

(** ** Heaps as priority queues *)

(** Popping a heap empty visits its elements from the root outwards: no later
    element goes before an earlier one. *)
Lemma heap_drain_sorted {T} (before : T -> T -> bool) `{!StrictWeakOrder before} fuel (h : list T) :
  heap_ok before h -> (length h <= fuel)%nat ->
  StronglySorted (fun x y => before y x = false) (heap_drain (heap_pop before) Some fuel h).
Proof.
  revert h. induction fuel as [|fuel IH]; intros h Hok Hf; cbn [heap_drain]; [constructor|].
  destruct (heap_top h) as [x|] eqn:Ht; [|constructor].
  pose proof (heap_pop_length before h) as Hl.
  assert (length (heap_pop before h) <= fuel)%nat as Hf' by lia.
  constructor; [by apply IH; [apply heap_pop_ok|]|].
  apply Forall_forall. intros y Hy. rewrite (heap_drain_perm before Some _ fuel Hf') in Hy.
  apply (heap_top_best before h); [done|done|].
  rewrite <- (heap_pop_perm before h x Ht). apply list_elem_of_further.
  clear -Hy. induction (heap_pop before h) as [|z l IHl]; [done|]. csimpl in Hy.
  apply elem_of_cons in Hy as [->|Hy]; [apply list_elem_of_here|by apply list_elem_of_further, IHl].
Qed.

(** C39: a [MinHeap] is a priority queue: [push] keeps heap order and adds exactly
    the new element; [pop] keeps heap order and removes exactly the element [top]
    reports, and no stored element is [operator<] that one. *)
Theorem MinHeap_priority_queue {T} `{CppOrd T} `{!StrictWeakOrder (op_lt (T := T))} (h : list T) (x : T) :
  heap_ok op_lt h ->
  heap_ok op_lt (MinHeap_push h x) /\ MinHeap_push h x ≡ₚ x :: h /\ heap_ok op_lt (MinHeap_pop h) /\
  forall t, MinHeap_top h = Some t ->
    t :: MinHeap_pop h ≡ₚ h /\ forall y, y ∈ h -> op_lt y t = false.
Proof.
  intros Hok. split_and!; [by apply heap_push_ok|apply heap_push_perm|by apply heap_pop_ok|].
  intros t Ht. split; [by apply heap_pop_perm|]. intros y. by apply heap_top_best.
Qed.

Definition demo_limits : list LimitSellOrder :=
  (fun p => mkLimitSellOrder (Order_make dzero 0 "AAPL" SELL LIMIT None None None) (mkMoney p))
  <$> [5; 3; 8; 1; 4].

Lemma MinHeap_priority_queue_witness :
  exists h, h ≡ₚ demo_limits /\
    (forall t, MinHeap_top h = Some t -> t :: MinHeap_pop h ≡ₚ h) /\
    option_map (fun o => microdollars_ (LimitSellOrder_limit_price_ o)) (MinHeap_top h) = Some 1.
Proof.
  exists (heap_push_all MinHeap_push demo_limits []). split.
  { unfold MinHeap_push. by rewrite heap_push_all_perm, app_nil_r. }
  split; [|by vm_compute].
  apply (MinHeap_priority_queue (heap_push_all MinHeap_push demo_limits [])
           (mkLimitSellOrder (Order_make dzero 0 "AAPL" SELL LIMIT None None None) (mkMoney 2))).
  apply heap_push_all_ok; [apply _|apply heap_ok_nil].
Defined.

(** Popping a [MaxHeap] until it is empty, as the exit book does, lists all its
    elements, none of them [operator>] an element listed before it; likewise a
    [MinHeap] under [operator<]. *)
Theorem heaps_drain_in_order {T} `{CppOrd T} `{!StrictWeakOrder (op_lt (T := T)), !StrictWeakOrder (op_gt (T := T))}
    (lo hi : list T) :
  heap_ok op_lt lo -> heap_ok op_gt hi ->
  (StronglySorted (fun x y => op_lt y x = false) (heap_drain MinHeap_pop Some (MinHeap_size lo) lo) /\
   heap_drain MinHeap_pop Some (MinHeap_size lo) lo ≡ₚ lo) /\
  (StronglySorted (fun x y => op_gt y x = false) (heap_drain MaxHeap_pop Some (MaxHeap_size hi) hi) /\
   heap_drain MaxHeap_pop Some (MaxHeap_size hi) hi ≡ₚ hi).
Proof.
  intros Hlo Hhi.
  assert (forall l : list T, omap Some l = l) as Hid.
  { induction l as [|x l IH]; csimpl; congruence. }
  split; (split; [by apply heap_drain_sorted|]).
  - unfold MinHeap_pop. by rewrite heap_drain_perm, Hid.
  - unfold MaxHeap_pop. by rewrite heap_drain_perm, Hid.
Qed.

#[export] Instance LimitSellOrder_gt_swo : StrictWeakOrder (op_gt (T := LimitSellOrder)).
Proof.
  apply (swo_of_key (fun o => - microdollars_ (LimitSellOrder_limit_price_ o))). intros x y.
  simpl. unfold Money_gt. lia.
Qed.

Definition demo_min : list LimitSellOrder := heap_push_all MinHeap_push demo_limits [].
Definition demo_max : list LimitSellOrder := heap_push_all MaxHeap_push demo_limits [].

Lemma heaps_drain_in_order_witness :
  (fun o => microdollars_ (LimitSellOrder_limit_price_ o)) <$>
    heap_drain MinHeap_pop Some (MinHeap_size demo_min) demo_min = [1; 3; 4; 5; 8] /\
  heap_drain MinHeap_pop Some (MinHeap_size demo_min) demo_min ≡ₚ demo_min.
Proof.
  split; [by vm_compute|].
  refine (proj2 (proj1 (heaps_drain_in_order demo_min demo_max _ _))).
  - apply heap_push_all_ok; [apply _|apply heap_ok_nil].
  - apply heap_push_all_ok; [apply _|apply heap_ok_nil].
Defined.

(** The sifting loops stop by themselves: with any larger fuel they return what
    the operations return with the fuel they use. *)
Theorem heap_loops_terminate {T} (before : T -> T -> bool) (data : list T) (idx extra : nat) :
  heap_bubble_up_loop before (idx + extra) data idx = heap_bubble_up before data idx /\
  heap_bubble_down_loop before (length data + extra) data idx = heap_bubble_down before data idx.
Proof.
  split.
  - apply heap_bubble_up_fuel. lia.
  - apply heap_bubble_down_fuel; lia.
Qed.

(** ** Money *)

(** A decimal string with at least six fractional digits is read exactly, the
    digits after the sixth being dropped, as long as it fits in 64 bits. *)
Theorem parse_microdollars_exact (w f : string) :
  all_digits w = true -> w <> EmptyString -> all_digits f = true ->
  (MONEY_SCALE <= String.length f)%nat ->
  digits_value w * 10 ^ 6 + digits_value (str_take MONEY_SCALE f) <= INT64_MAX ->
  parse_microdollars (String.append w (String "."%char f)) =
  Ret (mkMoney (digits_value w * 10 ^ 6 + digits_value (str_take MONEY_SCALE f))).
Proof. apply parse_microdollars_exact_aux. Qed.

Lemma parse_microdollars_exact_witness : parse_microdollars "100000.5000009" = Ret (mkMoney 100000500000).
Proof.
  apply (parse_microdollars_exact "100000" "5000009"); [reflexivity|discriminate|reflexivity| |].
  - unfold MONEY_SCALE. simpl. lia.
  - vm_compute. discriminate.
Defined.

(** A decimal string with fewer than six fractional digits is never read: the
    padding length is a [size_t] subtraction that wraps, and [append] throws. *)
Theorem parse_microdollars_short_fraction (w f : string) :
  all_digits w = true -> (String.length f < MONEY_SCALE)%nat ->
  parse_microdollars (String.append w (String "."%char f)) = Throw (length_error "basic_string::append").
Proof.
  intros Hw Hf. unfold parse_microdollars.
  rewrite (find_char_app_first _ _ _ (all_digits_no_dot _ Hw)), Nat.add_1_r.
  assert (str_drop (S (String.length w)) (String.append w (String "."%char f)) = f) as ->.
  { clear. induction w as [|c w IH]; [by destruct f|exact IH]. }
  destruct (Nat.ltb_spec (String.length f) MONEY_SCALE) as [_|]; [|lia].
  unfold str_append_n, STRING_MAX_SIZE. unfold MONEY_SCALE in *.
  destruct (Z.ltb_spec (2 ^ 63 - 1)
    (Z.of_nat (String.length f) + (Z.of_nat (String.length f) - Z.of_nat 6) mod 2 ^ 64)) as [_|H]; [done|].
  exfalso. revert H. rewrite <- (Z.mod_unique_pos _ (2 ^ 64) (-1) (Z.of_nat (String.length f) - 6 + 2 ^ 64));
    lia.
Qed.

Lemma parse_microdollars_short_fraction_witness :
  parse_microdollars "100000.50" = Throw (length_error "basic_string::append").
Proof.
  apply (parse_microdollars_short_fraction "100000" "50"); [reflexivity|]. unfold MONEY_SCALE. simpl. lia.
Defined.

(** [Money] addition and subtraction are exact modulo [2^64]: they form a
    commutative group on 64-bit amounts, and scaling by [1.0] is the identity below
    [2^53] micro-dollars. *)
Theorem Money_arithmetic (a b c : Money) :
  Money_ok a ->
  (a + b = b + a)%money /\ (a + (b + c) = (a + b) + c)%money /\ (a + 0 = a)%money /\
  ((a - b) + b = a)%money /\ (Z.abs (microdollars_ a) < 2 ^ 53 -> (a *$ d_one = a)%money).
Proof.
  intros Ha. split_and!; [apply Money_add_comm|apply Money_add_assoc|by apply Money_add_0_r
    |by apply Money_sub_add|apply Money_mul_one].
Qed.

Lemma Money_arithmetic_witness : (mkMoney 1500000 *$ d_one = mkMoney 1500000)%money.
Proof.
  apply (Money_arithmetic (mkMoney 1500000) (mkMoney 0) (mkMoney 0)); [|vm_compute; reflexivity].
  vm_compute. split; discriminate.
Defined.

(** ** Market hours *)

(** A timestamp is within market hours exactly when, in UTC, its day is neither
    Saturday nor Sunday (day 0 is Thursday 1970-01-01) and its time of day lies in
    [09:00, 16:00).  This is total: negative timestamps included. *)
Theorem market_hours_characterized (day tod : Z) :
  0 <= tod < NS_PER_DAY ->
  is_within_market_hours (day * NS_PER_DAY + tod) = true <->
  (1 <= (day + 4) mod 7 <= 5 /\ 9 * NS_PER_HOUR <= tod < 16 * NS_PER_HOUR).
Proof.
  intros Ht. unfold is_within_market_hours, weekday_of. rewrite day_of_split, hour_of_split by done.
  unfold MARK_OPEN_HOUR, MARKET_CLOSE_HOUR, NS_PER_DAY, NS_PER_HOUR in *.
  pose proof (Z.mod_pos_bound (day + 4) 7 ltac:(lia)) as Hd.
  pose proof (Z.div_mod tod (3600 * 1000000000) ltac:(lia)) as Hdm.
  pose proof (Z.mod_pos_bound tod (3600 * 1000000000) ltac:(lia)) as Hm.
  set (wd := (day + 4) mod 7) in *. set (h := tod / (3600 * 1000000000)) in *.
  destruct (Z.eqb_spec wd 0), (Z.eqb_spec wd 6), (Z.ltb_spec h 9), (Z.leb_spec 16 h); simpl; split;
    intros; try discriminate; try lia; split; lia.
Qed.

(** Friday 2024-01-05 15:00 UTC. *)
Lemma market_hours_characterized_witness : is_within_market_hours 1704466800000000000 = true.
Proof.
  apply (market_hours_characterized 19727 (15 * NS_PER_HOUR)); [vm_compute; split; [discriminate|reflexivity]|].
  vm_compute. repeat split; discriminate || reflexivity.
Defined.
