(* ===== verification/DataStore.v ===== *)
(** * [src/forge/stores/data_store.cpp] and [src/forge/stores/report_store.cpp]

    Each member function holds a [std::lock_guard] on the store's [std::mutex] for its
    whole body.  The mutex is not recursive: locking it again on the thread that holds
    it does not return, which is [OutOfFuel], the outcome of a call that has not
    finished.  An [std::unordered_map] is a [gmap]; the order in which it is iterated
    is a parameter, and so is [std::sort] (it is not stable), each with the law the
    library documents. *)
From Stdlib Require Import ZArith Lia.
From stdpp Require Import base tactics list gmap strings sorting.
From S2P Require Import Prelude Double StockApi.
Open Scope Z_scope.

Record DataStore : Type := mkDataStore {
  mutex_held : bool;
  bars_ : gmap string (gmap string AggregateBars);
  iterable_plugin_data_ : gmap string (list AggregateBarResult)
}.

Definition new_data_store : DataStore := mkDataStore false ∅ ∅.

Definition set_mutex (b : bool) (s : DataStore) : DataStore :=
  mkDataStore b (bars_ s) (iterable_plugin_data_ s).

(** [std::lock_guard<std::mutex> lock(mutex_);] around [body]. *)
Definition with_lock {A : Type} (body : DataStore -> outcome (A * DataStore)) (s : DataStore)
  : outcome (A * DataStore) :=
  if mutex_held s then OutOfFuel
  else
    let* '(a, s) := body (set_mutex true s) in
    Ret (a, set_mutex false s).

Definition store_bars_by_plugin_name (plugin_name symbol : string) (bars : AggregateBars)
  : DataStore -> outcome (unit * DataStore) :=
  with_lock (fun s =>
    let plugin_bars := default ∅ (bars_ s !! plugin_name) in
    Ret (tt, mkDataStore (mutex_held s) (<[plugin_name := <[symbol := bars]> plugin_bars]> (bars_ s))
               (iterable_plugin_data_ s))).

Definition get_bars (plugin_name symbol : string) : DataStore -> outcome (option AggregateBars * DataStore) :=
  with_lock (fun s =>
    match bars_ s !! plugin_name with
    | None => Ret (None, s)
    | Some m =>
        match m !! symbol with
        | None => Ret (None, s)
        | Some b => Ret (Some b, s)
        end
    end).

Definition get_all_bars_for_plugin (plugin_name : string)
  : DataStore -> outcome (option (gmap string AggregateBars) * DataStore) :=
  with_lock (fun s => Ret (bars_ s !! plugin_name, s)).

Definition has_plugin_data (plugin_name : string) : DataStore -> outcome (bool * DataStore) :=
  with_lock (fun s => Ret (bool_decide (is_Some (bars_ s !! plugin_name)), s)).

Definition DataStore_clear : DataStore -> outcome (unit * DataStore) :=
  with_lock (fun s => Ret (tt, mkDataStore (mutex_held s) ∅ ∅)).

Definition has_iterable_plugin_data (plugin_name : string) : DataStore -> outcome (bool * DataStore) :=
  with_lock (fun s => Ret (bool_decide (is_Some (iterable_plugin_data_ s !! plugin_name)), s)).

Definition bar_le (a b : AggregateBarResult) : Prop := bar_unix_ts_ns_ a <= bar_unix_ts_ns_ b.

(** Iteration of an [unordered_map] and [std::sort] by [unix_ts_ns_]. *)
Class StdContainers : Type := {
  hash_order : forall {A : Type}, gmap string A -> list (string * A);
  std_sort : list AggregateBarResult -> list AggregateBarResult
}.

Class StdContainersLaws `{StdContainers} : Prop := {
  hash_order_perm : forall A (m : gmap string A), hash_order m ≡ₚ map_to_list m;
  std_sort_perm : forall l, std_sort l ≡ₚ l;
  std_sort_sorted : forall l, StronglySorted bar_le (std_sort l)
}.

Section Iterable.
Context `{StdContainers}.

Definition get_symbols_for_plugin (plugin_name : string) : DataStore -> outcome (list string * DataStore) :=
  with_lock (fun s =>
    match bars_ s !! plugin_name with
    | Some m => Ret (fst <$> hash_order m, s)
    | None => Ret ([], s)
    end).

(** The merge of a plugin's bars into one time-ordered sequence. *)
Definition merge_bars (bars : gmap string AggregateBars) : list AggregateBarResult :=
  std_sort (concat ((fun kv => bars_results_ (snd kv)) <$> hash_order bars)).

Definition create_iterable_plugin_data (plugin_name : string) : DataStore -> outcome (unit * DataStore) :=
  with_lock (fun s =>
    let* '(has, s) := has_iterable_plugin_data plugin_name s in
    if (has : bool) then Ret (tt, s)
    else
      let* '(bars, s) := get_all_bars_for_plugin plugin_name s in
      match bars with
      | None => Ret (tt, s)
      | Some bars =>
          Ret (tt, mkDataStore (mutex_held s) (bars_ s)
                     (<[plugin_name := merge_bars bars]> (iterable_plugin_data_ s)))
      end).

Definition get_iterable_plugin_data (plugin_name : string)
  : DataStore -> outcome (list AggregateBarResult * DataStore) :=
  with_lock (fun s =>
    let* '(has, s) := has_iterable_plugin_data plugin_name s in
    let* '(_, s) := if (has : bool) then Ret (tt, s) else create_iterable_plugin_data plugin_name s in
    match iterable_plugin_data_ s !! plugin_name with
    | Some l => Ret (l, s)
    | None => Throw (out_of_range "unordered_map::at")
    end).
End Iterable.

(** ** Lemmas *)
Lemma with_lock_ret {A} (body : DataStore -> outcome (A * DataStore)) s a s' :
  mutex_held s = false -> body (set_mutex true s) = Ret (a, s') ->
  with_lock body s = Ret (a, set_mutex false s').
Proof. intros Hm Hb. unfold with_lock. by rewrite Hm, Hb. Qed.

(** Bars stored under a plugin and a symbol are found again under exactly that
    plugin and symbol, the mutex being free before and after each call. *)
Theorem store_then_get_bars plugin symbol plugin' symbol' bars s :
  mutex_held s = false ->
  exists s', store_bars_by_plugin_name plugin symbol bars s = Ret (tt, s') /\ mutex_held s' = false /\
    get_bars plugin symbol s' = Ret (Some bars, s') /\
    ((plugin', symbol') <> (plugin, symbol) ->
     exists r, get_bars plugin' symbol' s = Ret (r, s) /\ get_bars plugin' symbol' s' = Ret (r, s')).
Proof.
  intros Hm. destruct s as [held m it]. simpl in Hm. subst held.
  eexists. split; [reflexivity|]. split; [done|]. split.
  - unfold get_bars, with_lock. simpl. rewrite lookup_insert_eq. simpl. by rewrite lookup_insert_eq.
  - intros Hne. unfold get_bars, with_lock. simpl. rewrite lookup_insert.
    destruct (decide (plugin = plugin')) as [<-|Hp].
    + assert (symbol <> symbol') as Hs by congruence. rewrite lookup_insert_ne by done.
      destruct (m !! plugin) as [mp|] eqn:Ep; simpl; [|by rewrite lookup_empty; eauto].
      destruct (mp !! symbol'); eauto.
    + destruct (m !! plugin') as [mp|]; simpl; [|by eauto]. destruct (mp !! symbol'); eauto.
Qed.

Definition demo_agg (l : list AggregateBarResult) : AggregateBars := mkAggregateBars true 0 0 "" l.

Lemma store_then_get_bars_witness :
  exists s', get_bars "sma" "AAPL" s' = Ret (Some (demo_agg []), s').
Proof.
  destruct (store_then_get_bars "sma" "AAPL" "sma" "MSFT" (demo_agg []) new_data_store eq_refl) as (s' & _ & _ & H & _).
  exists s'. exact H.
Defined.

(** Merging keeps every bar of every symbol exactly once and orders them by time. *)
Theorem merge_bars_sorted `{StdContainersLaws} (bars : gmap string AggregateBars) :
  StronglySorted bar_le (merge_bars bars) /\
  merge_bars bars ≡ₚ concat ((fun kv => bars_results_ (snd kv)) <$> map_to_list bars).
Proof.
  split; [apply std_sort_sorted|]. unfold merge_bars. rewrite std_sort_perm.
  rewrite <- !flat_map_concat_map. apply Permutation_flat_map, hash_order_perm.
Qed.

#[export] Instance bar_le_dec : RelDecision bar_le.
Proof. intros a b. unfold bar_le. apply _. Defined.

#[export] Instance bar_le_total : Total bar_le.
Proof. intros a b. unfold bar_le. lia. Qed.

#[export] Instance bar_le_trans : Transitive bar_le.
Proof. intros a b c. unfold bar_le. lia. Qed.

(** One lawful choice: key order and a merge sort. *)
Definition demo_containers : StdContainers := {|
  hash_order A m := map_to_list m;
  std_sort := merge_sort bar_le
|}.

Lemma demo_containers_laws : @StdContainersLaws demo_containers.
Proof.
  split; simpl; [done|intros; apply merge_sort_Permutation|intros; apply StronglySorted_merge_sort; apply _].
Qed.

Definition demo_tick (ts : Z) : AggregateBarResult :=
  mkAggregateBarResult "AAPL" false 0 dzero dzero dzero dzero dzero dzero ts.

Lemma merge_bars_sorted_witness :
  StronglySorted bar_le (@merge_bars demo_containers
    {[ "AAPL" := demo_agg [demo_tick 3; demo_tick 1]; "MSFT" := demo_agg [demo_tick 2] ]}).
Proof. apply (@merge_bars_sorted demo_containers demo_containers_laws). Defined.

Lemma iterable_blocks `{StdContainers} plugin_name s :
  get_iterable_plugin_data plugin_name s = OutOfFuel /\
  create_iterable_plugin_data plugin_name s = OutOfFuel.
Proof.
  unfold get_iterable_plugin_data, create_iterable_plugin_data, with_lock.
  destruct (mutex_held s); [done|]. done.
Qed.

(** Asking the store for a plugin's time-ordered bars never returns: the function
    calls [has_iterable_plugin_data] while it holds the non-recursive mutex that
    function locks. *)
Theorem get_iterable_plugin_data_deadlocks `{StdContainers} plugin_name s :
  get_iterable_plugin_data plugin_name s = OutOfFuel /\
  create_iterable_plugin_data plugin_name s = OutOfFuel.
Proof. apply iterable_blocks. Qed.
