(* ===== verification/Effects.v ===== *)
(** * Calls with an effect on the world

    [io W A] is a call that reads and writes a state [W] and then returns, throws or has
    not finished.  Unlike a value of [outcome], what was written before an exception
    stays written, which matters as soon as a caller catches it. *)
From Stdlib Require Import ZArith Lia.
From stdpp Require Import base tactics list.
From S2P Require Import Prelude.

Definition io (W A : Type) : Type := W -> outcome A * W.

Definition io_ret {W A} (a : A) : io W A := fun w => (Ret a, w).
Definition io_throw {W A} (e : exn) : io W A := fun w => (Throw e, w).
Definition io_of {W A} (c : outcome A) : io W A := fun w => (c, w).
Definition io_get {W} : io W W := fun w => (Ret w, w).
Definition io_modify {W} (f : W -> W) : io W unit := fun w => (Ret tt, f w).

Definition io_bind {W A B} (c : io W A) (k : A -> io W B) : io W B := fun w =>
  match c w with
  | (Ret a, w') => k a w'
  | (Throw e, w') => (Throw e, w')
  | (OutOfFuel, w') => (OutOfFuel, w')
  end.

(** [try { c } catch (const std::exception& e) { h(e) }] *)
Definition io_catch {W A} (c : io W A) (h : exn -> io W A) : io W A := fun w =>
  match c w with
  | (Throw e, w') => h e w'
  | r => r
  end.

(** A local object whose destructor calls [f] when [c] returns or throws. *)
Definition io_finally {W A} (c : io W A) (f : io W unit) : io W A := fun w =>
  match c w with
  | (OutOfFuel, w') => (OutOfFuel, w')
  | (r, w') => (r, (f w').2)
  end.

Declare Scope io_scope.
Delimit Scope io_scope with io.
Notation "'let!' x ':=' c 'in' k" := (io_bind c (fun x => k))
  (at level 10, x name, c at level 100, k at level 200) : io_scope.
Notation "'do!' c 'in' k" := (io_bind c (fun _ => k))
  (at level 10, c at level 100, k at level 200) : io_scope.
Open Scope io_scope.

(** A call on one component of the world. *)
Definition io_lift {W V A} (get : W -> V) (put : V -> W -> W) (c : io V A) : io W A := fun w =>
  let '(r, v) := c (get w) in (r, put v w).

(** A range-for loop whose body has effects. *)
Fixpoint io_each {W B} (f : B -> io W unit) (l : list B) : io W unit :=
  match l with
  | [] => io_ret tt
  | x :: l => do! f x in io_each f l
  end.

Lemma io_bind_ret {W A B} (c : io W A) (k : A -> io W B) w b w' :
  io_bind c k w = (Ret b, w') <-> exists a w1, c w = (Ret a, w1) /\ k a w1 = (Ret b, w').
Proof.
  unfold io_bind. split.
  - destruct (c w) as [[a|e|] w1]; intros H; [eauto|discriminate|discriminate].
  - intros (a & w1 & -> & H). exact H.
Qed.

Lemma io_bind_of_ret {W A B} (c : io W A) (k : A -> io W B) w a w1 :
  c w = (Ret a, w1) -> io_bind c k w = k a w1.
Proof. unfold io_bind. by intros ->. Qed.

(** A property of the world that every step of a call keeps, whatever its outcome. *)
Definition io_keeps {W A} (P : W -> Prop) (c : io W A) : Prop := forall w, P w -> P (c w).2.

Lemma io_keeps_bind {W A B} (P : W -> Prop) (c : io W A) (k : A -> io W B) :
  io_keeps P c -> (forall a, io_keeps P (k a)) -> io_keeps P (io_bind c k).
Proof.
  intros Hc Hk w Hw. unfold io_bind. specialize (Hc w Hw). destruct (c w) as [[a|e|] w1]; simpl in *; try done.
  by apply Hk.
Qed.

Lemma io_keeps_catch {W A} (P : W -> Prop) (c : io W A) (h : exn -> io W A) :
  io_keeps P c -> (forall e, io_keeps P (h e)) -> io_keeps P (io_catch c h).
Proof.
  intros Hc Hh w Hw. unfold io_catch. specialize (Hc w Hw). destruct (c w) as [[a|e|] w1]; simpl in *; try done.
  by apply Hh.
Qed.

Lemma io_keeps_finally {W A} (P : W -> Prop) (c : io W A) (f : io W unit) :
  io_keeps P c -> io_keeps P f -> io_keeps P (io_finally c f).
Proof.
  intros Hc Hf w Hw. unfold io_finally. specialize (Hc w Hw). destruct (c w) as [[a|e|] w1]; simpl in *; auto.
Qed.

Lemma io_keeps_each {W B} (P : W -> Prop) (f : B -> io W unit) l :
  (forall x, io_keeps P (f x)) -> io_keeps P (io_each f l).
Proof.
  intros Hf. induction l as [|x l IH]; [by intros w|]. simpl. apply io_keeps_bind; [done|]. intros _. done.
Qed.

Lemma io_keeps_ret {W A} (P : W -> Prop) (a : A) : io_keeps P (io_ret (W := W) a).
Proof. by intros w. Qed.

Lemma io_keeps_throw {W A} (P : W -> Prop) e : io_keeps P (io_throw (W := W) (A := A) e).
Proof. by intros w. Qed.

Create HintDb io.
#[export] Hint Resolve io_keeps_bind io_keeps_catch io_keeps_finally io_keeps_each io_keeps_ret io_keeps_throw : io.

(** From a world in [P] the call ends in a world in [Q], whatever its outcome. *)
Definition io_leads {W A} (P Q : W -> Prop) (c : io W A) : Prop := forall w, P w -> Q (c w).2.

Lemma io_leads_bind {W A B} (P Q R : W -> Prop) (c : io W A) (k : A -> io W B) :
  (forall w, Q w -> R w) -> io_leads P Q c -> (forall a, io_leads Q R (k a)) -> io_leads P R (io_bind c k).
Proof.
  intros Hqr Hc Hk w Hw. unfold io_bind. specialize (Hc w Hw). destruct (c w) as [[a|e|] w1]; simpl in *; auto.
  by apply Hk.
Qed.

(** Calls that always finish. *)
Definition io_total {W A} (c : io W A) : Prop := forall w, (c w).1 <> OutOfFuel.

Lemma io_total_bind {W A B} (c : io W A) (k : A -> io W B) :
  io_total c -> (forall a, io_total (k a)) -> io_total (io_bind c k).
Proof.
  intros Hc Hk w. unfold io_bind. specialize (Hc w). destruct (c w) as [[a|e|] w1]; simpl in *; try done.
  apply Hk.
Qed.

Lemma io_total_catch {W A} (c : io W A) (h : exn -> io W A) :
  io_total c -> (forall e, io_total (h e)) -> io_total (io_catch c h).
Proof.
  intros Hc Hh w. unfold io_catch. specialize (Hc w). destruct (c w) as [[a|e|] w1]; simpl in *; try done.
  apply Hh.
Qed.

Lemma io_total_finally {W A} (c : io W A) (f : io W unit) : io_total c -> io_total (io_finally c f).
Proof. intros Hc w. unfold io_finally. specialize (Hc w). by destruct (c w) as [[a|e|] w1]. Qed.

Lemma io_total_each {W B} (f : B -> io W unit) l : (forall x, io_total (f x)) -> io_total (io_each f l).
Proof. intros Hf. induction l as [|x l IH]; [by intros w|]. simpl. by apply io_total_bind. Qed.

Lemma io_total_lift {W V A} (get : W -> V) (put : V -> W -> W) (c : io V A) :
  io_total c -> io_total (io_lift get put c).
Proof. intros Hc w. unfold io_lift. specialize (Hc (get w)). by destruct (c (get w)). Qed.

Lemma io_total_ret {W A} (a : A) : io_total (io_ret (W := W) a).
Proof. by intros w. Qed.
Lemma io_total_throw {W A} e : io_total (io_throw (W := W) (A := A) e).
Proof. by intros w. Qed.
Lemma io_total_get {W} : io_total (io_get (W := W)).
Proof. by intros w. Qed.
Lemma io_total_modify {W} (f : W -> W) : io_total (io_modify f).
Proof. by intros w. Qed.

#[export] Hint Resolve io_total_bind io_total_catch io_total_finally io_total_each io_total_lift io_total_ret io_total_throw
  io_total_get io_total_modify : io.
