(* ===== verification/HttpModel.v ===== *)
(** * [src/http/model/model.hpp], [src/http/error] and the status codes of
      [src/http/client/curl_easy.hpp] *)
From Stdlib Require Import ZArith.
From stdpp Require Import base list strings.
From S2P Require Import Prelude CppString.
Open Scope string_scope.
Open Scope Z_scope.

Record Request : Type := mkRequest {
  Request_url_ : string;
  Request_method_ : string;
  Request_body_ : string;
  Request_headers_ : list string
}.

Record Response : Type := mkResponse {
  Response_rate_limit_remaining_ : Z;
  Response_rate_limit_reset_ : Z;
  Response_status_ : Z;
  Response_body_ : string;
  Response_effective_url_ : string;
  Response_etag_ : string;
  Response_last_modified_ : string;
  Response_retry_after_ : string;
  Response_cache_control_ : string;
  Response_content_type_ : string
}.

(** [http::model::Response{}] *)
Definition empty_response : Response := mkResponse (-1) (-1) 0 "" "" "" "" "" "" "".

Definition TOO_MANY_REQUESTS : Z := 429.
Definition BAD_GATEWAY : Z := 502.
Definition SERVICE_UNAVAILABLE : Z := 503.
Definition GATEWAY_TIMEOUT : Z := 504.
Definition NOT_MODIFIED : Z := 304.
Definition OK : Z := 200.

Definition ERROR_MESSAGE_LENGTH : nat := 512.

(** [HttpError(s, u, preview, msg)] *)
Definition HttpError (s : Z) (u preview msg : string) : exn := http_error s u preview msg.
