(* ===== verification/NetworkCache.v ===== *)
(** * [src/http/cache/network_cache.cpp]

    The cache lives in files: a [Disk] maps paths to contents and counts the reads of the
    system clock.  What the operating system decides is a parameter ([SystemCalls]):
    whether a file can be opened, written and renamed, the clock and [std::hash].  An open
    [std::ifstream] is the content it was opened on: [rename] replaces the file, not what
    a reader has open.  A [Meta] that is declared without a value has an unknown time
    stamp, which is a parameter too. *)
From Stdlib Require Import ZArith Lia Ascii String.
From stdpp Require Import base tactics list gmap strings.
From S2P Require Import Prelude Double CppString CppFormat StringUtils Effects HttpModel.
Open Scope string_scope.
Open Scope Z_scope.

#[local] Arguments String.append !_ _ /.

Definition BODY_FILE_EXT : string := ".body".
Definition META_FILE_EXT : string := ".meta".

Definition MAX_AGE_KEY : string := "max-age".
Definition NO_CACHE_KEY : string := "no-cache".
Definition NO_STORE_KEY : string := "no-store".

Definition BASE_DELAY_MS : Z := 300.
Definition MAX_DELAY_MS : Z := 1500.

Record RetryPolicy : Type := mkRetryPolicy {
  max_tries_ : nat;
  base_delay_ : Z;
  max_delay_ : Z
}.

Definition default_retry_policy : RetryPolicy := mkRetryPolicy 3 BASE_DELAY_MS MAX_DELAY_MS.

Record NetworkCachePolicy : Type := mkNetworkCachePolicy {
  enable_caching_ : bool;
  ttl_s_ : Z
}.

Definition default_cache_policy : NetworkCachePolicy := mkNetworkCachePolicy true ONE_DAY_S.

Record Meta : Type := mkMeta {
  unix_ts_s_ : Z;
  Meta_status_ : Z;
  Meta_etag_ : string;
  Meta_last_modified_ : string;
  Meta_content_type_ : string;
  Meta_cache_control_ : string;
  Meta_retry_after_ : string;
  Meta_rate_limit_remaining_ : Z;
  Meta_rate_limit_reset_ : Z
}.

Record Hit : Type := mkHit {
  in_ : string;
  Hit_url_ : string;
  base_path_ : string;
  meta_ : Meta
}.

Record Disk : Type := mkDisk {
  files : gmap string string;
  disk_clock_reads : nat
}.

Definition set_files (f : gmap string string) (d : Disk) : Disk := mkDisk f (disk_clock_reads d).

Class SystemCalls : Type := {
  now_s : nat -> Z;                 (* the n-th read of [system_clock], in seconds *)
  hash_string : string -> Z;        (* [std::hash<std::string>] *)
  mkdir_ok : bool;                  (* [create_directories] *)
  open_ok : string -> bool;         (* opening for writing *)
  write_short : string -> option nat;  (* [None]: everything is written *)
  rename_ok : string -> bool;
  uninitialized_ts : Z              (* the indeterminate [Meta::unix_ts_s_] *)
}.

Section NetworkCache.
Context `{SystemCalls}.

(** [system_clock::now()] in seconds. *)
Definition read_clock : io Disk Z := fun d =>
  (Ret (now_s (disk_clock_reads d)), mkDisk (files d) (S (disk_clock_reads d))).

Definition create_base_path (req : Request) : io Disk string :=
  if mkdir_ok then io_ret ("cache/http/" +:+ to_string (hash_string (Request_url_ req)))
  else io_throw (system_error "filesystem error: cannot create directories").

(** Written next to the target and renamed over it. *)
Definition write_atomic (p bytes : string) : io Disk unit :=
  let tmp := p +:+ ".tmp" in
  if negb (open_ok tmp) then io_throw (runtime_error ("open failed: " +:+ tmp))
  else
    match write_short tmp with
    | Some n =>
        do! io_modify (fun d => set_files (<[tmp := str_take n bytes]> (files d)) d) in
        io_throw (runtime_error ("write failed: " +:+ tmp))
    | None =>
        do! io_modify (fun d => set_files (<[tmp := bytes]> (files d)) d) in
        if rename_ok p
        then io_modify (fun d => set_files (<[p := bytes]> (delete tmp (files d))) d)
        else io_throw (system_error "filesystem error: cannot rename")
    end.

Definition newline : ascii := ascii_of_nat 10.
Definition endl : string := String newline "".

Definition meta_text (m : Meta) : string :=
  "status: " +:+ to_string (Meta_status_ m) +:+ endl +:+
  "etag: " +:+ Meta_etag_ m +:+ endl +:+
  "last_modified: " +:+ Meta_last_modified_ m +:+ endl +:+
  "content_type: " +:+ Meta_content_type_ m +:+ endl +:+
  "cache_control: " +:+ Meta_cache_control_ m +:+ endl +:+
  "retry_after: " +:+ Meta_retry_after_ m +:+ endl +:+
  "rate_limit_remaining: " +:+ to_string (Meta_rate_limit_remaining_ m) +:+ endl +:+
  "rate_limit_reset: " +:+ to_string (Meta_rate_limit_reset_ m) +:+ endl +:+
  "unix_ts_s: " +:+ to_string (unix_ts_s_ m) +:+ endl.

Definition save_meta_atomic (p : string) (m : Meta) : io Disk unit := write_atomic p (meta_text m).

(** The lines [std::getline] reads until the end of the text. *)
Fixpoint text_lines (s : string) : list string :=
  match s with
  | EmptyString => []
  | String c s' =>
      if Ascii.eqb newline c then "" :: text_lines s'
      else match text_lines s' with
           | l :: ls => String c l :: ls
           | [] => [String c ""]
           end
  end.

(** [*end == '\0'] *)
Definition at_terminator (end_ : string) : bool :=
  match end_ with EmptyString => true | String c _ => Ascii.eqb c zero end.

(** [as_long] and [as_i64] of [load_meta]. *)
Definition as_long (s : string) (def : Z) : Z :=
  let '(v, end_) := strtol s in if at_terminator end_ then v else def.

(** The key and the value of one line. *)
Definition meta_line (line : string) : option (string * string) :=
  match find_char ":" line with
  | None => None
  | Some pos => Some (trim (str_take pos line), trim (str_drop (pos + 1) line))
  end.

(** The assignment the key selects. *)
Definition set_meta_field (key val : string) (out : Meta) : Meta :=
  let '(mkMeta ts st et lm ct cc ra rr rs) := out in
  if String.eqb key "status" then mkMeta ts (as_long val 0) et lm ct cc ra rr rs
  else if String.eqb key "etag" then mkMeta ts st val lm ct cc ra rr rs
  else if String.eqb key "last_modified" then mkMeta ts st et val ct cc ra rr rs
  else if String.eqb key "content_type" then mkMeta ts st et lm val cc ra rr rs
  else if String.eqb key "cache_control" then mkMeta ts st et lm ct val ra rr rs
  else if String.eqb key "retry_after" then mkMeta ts st et lm ct cc val rr rs
  else if String.eqb key "rate_limit_remaining" then mkMeta ts st et lm ct cc ra (as_long val (-1)) rs
  else if String.eqb key "rate_limit_reset" then mkMeta ts st et lm ct cc ra rr (as_long val (-1))
  else if String.eqb key "unix_ts_s" then mkMeta (as_long val 0) st et lm ct cc ra rr rs
  else out.

Definition load_meta_line (out : Meta) (line : string) : Meta :=
  match meta_line line with
  | None => out
  | Some (key, val) => set_meta_field key val out
  end.

(** [Meta meta;] *)
Definition uninitialized_meta : Meta := mkMeta uninitialized_ts 0 "" "" "" "" "" (-1) (-1).

(** [None] when the file cannot be read. *)
Definition load_meta (p : string) (out : Meta) : io Disk (option Meta) := fun d =>
  match files d !! p with
  | None => (Ret None, d)
  | Some text => (Ret (Some (fold_left load_meta_line (text_lines text) out)), d)
  end.

Definition probe (policy_ : NetworkCachePolicy) (req : Request) : io Disk (option Hit) :=
  if negb (enable_caching_ policy_) then io_ret None
  else
    let! base_path := create_base_path req in
    let body_path := append_to_path base_path BODY_FILE_EXT in
    let meta_path := append_to_path base_path META_FILE_EXT in
    let! meta := load_meta meta_path uninitialized_meta in
    match meta with
    | None => io_ret None
    | Some meta =>
        let! d := io_get in
        match files d !! body_path with
        | None => io_ret None
        | Some body_in => io_ret (Some (mkHit body_in (Request_url_ req) base_path meta))
        end
    end.

(** The loop over the directives of [Cache-Control]: [Some] when one of them decides. *)
Fixpoint fresh_directives (policy_ : NetworkCachePolicy) (age : Z) (split_pairs : list string) : option bool :=
  match split_pairs with
  | [] => None
  | pair_ :: split_pairs =>
      let trimmed_pair := trim pair_ in
      let n := String.length trimmed_pair in
      if ieq_prefix trimmed_pair n NO_STORE_KEY then Some false
      else if ieq_prefix trimmed_pair n NO_CACHE_KEY then Some (age <=? 0)
      else if ieq_prefix trimmed_pair n MAX_AGE_KEY then
        match find_char "=" trimmed_pair with
        | None => fresh_directives policy_ age split_pairs
        | Some pos =>
            let value_str := trim (str_drop (pos + 1) trimmed_pair) in
            let '(max_age, end_) := strtol value_str in
            if at_terminator end_ && (0 <=? max_age)
            then Some (age <=? Z.min (ttl_s_ policy_) max_age)
            else fresh_directives policy_ age split_pairs
        end
      else fresh_directives policy_ age split_pairs
  end.

Definition fresh_enough (policy_ : NetworkCachePolicy) (m : Meta) : io Disk bool :=
  let! now := read_clock in
  let! split_pairs := io_of (split_comma_delimited_string (Meta_cache_control_ m)) in
  let age := Z.max (wrap64 (now - unix_ts_s_ m)) 0 in
  match fresh_directives policy_ age split_pairs with
  | Some b => io_ret b
  | None => io_ret (age <=? ttl_s_ policy_)
  end.

Definition get_cached_response (hit : Hit) : Response :=
  let m := meta_ hit in
  {| Response_rate_limit_remaining_ := Meta_rate_limit_remaining_ m;
     Response_rate_limit_reset_ := Meta_rate_limit_reset_ m;
     Response_status_ := Meta_status_ m;
     Response_body_ := in_ hit;
     Response_effective_url_ := Hit_url_ hit;
     Response_etag_ := Meta_etag_ m;
     Response_last_modified_ := Meta_last_modified_ m;
     Response_retry_after_ := Meta_retry_after_ m;
     Response_cache_control_ := Meta_cache_control_ m;
     Response_content_type_ := Meta_content_type_ m |}.

Definition cache_response (policy_ : NetworkCachePolicy) (req : Request) (resp : Response) : io Disk unit :=
  if negb (enable_caching_ policy_) then io_ret tt
  else
    let! base_path := create_base_path req in
    let body_path := append_to_path base_path BODY_FILE_EXT in
    let meta_path := append_to_path base_path META_FILE_EXT in
    do! write_atomic body_path (Response_body_ resp) in
    let! now := read_clock in
    let m := {| unix_ts_s_ := now;
                Meta_status_ := Response_status_ resp;
                Meta_etag_ := Response_etag_ resp;
                Meta_last_modified_ := Response_last_modified_ resp;
                Meta_content_type_ := Response_content_type_ resp;
                Meta_cache_control_ := Response_cache_control_ resp;
                Meta_retry_after_ := Response_retry_after_ resp;
                Meta_rate_limit_remaining_ := Response_rate_limit_remaining_ resp;
                Meta_rate_limit_reset_ := Response_rate_limit_reset_ resp |} in
    save_meta_atomic meta_path m.

(** The caller's [meta] is updated too, before the file is written. *)
Definition refresh_meta_timestamp (base_path : string) (meta : Meta) : io Disk Meta :=
  let! now := read_clock in
  let '(mkMeta _ st et lm ct cc ra rr rs) := meta in
  let meta := mkMeta now st et lm ct cc ra rr rs in
  let meta_path := append_to_path base_path META_FILE_EXT in
  do! save_meta_atomic meta_path meta in
  io_ret meta.
End NetworkCache.

(** ** Header lines *)

(** [c | ASCII_LOWERCASE_BIT] *)
Definition ascii_fold (c : ascii) : Z := Z.lor (Z.of_nat (nat_of_ascii c)) ASCII_LOWERCASE_BIT.

(** The comparison of the first [key_len] characters. *)
Fixpoint same_folded (buffer key : string) : bool :=
  match key, buffer with
  | EmptyString, _ => true
  | String _ _, EmptyString => false
  | String b key', String a buffer' =>
      if negb (ascii_fold a =? ascii_fold b) then false else same_folded buffer' key'
  end.

Definition not_line_end (c : ascii) : bool :=
  not_blank c && negb (Ascii.eqb c (ascii_of_nat 13) || Ascii.eqb c (ascii_of_nat 10)).

(** What both overloads of [extract_header_value] cut out of the line: from [start] to
    [end_]. *)
Definition header_value (buffer key : string) : option string :=
  if (String.length buffer <? String.length key)%nat then None
  else if negb (same_folded buffer key) then None
  else
    let value := str_drop (String.length key) buffer in
    let value := str_drop (default (String.length value) (find_if not_blank value)) value in
    Some (str_take (match find_last_if not_line_end value with Some n => S n | None => O end) value).

(** The overload for a [std::string&]: the new value of [out_property]. *)
Definition extract_header_string (buffer key out_property : string) : string :=
  match header_value buffer key with
  | None => out_property
  | Some v => v
  end.

(** The overload for a [long&]. *)
Definition extract_header_long (buffer key : string) (out_property : Z) : Z :=
  match header_value buffer key with
  | None => out_property
  | Some tmp =>
      match scan_integer tmp with
      | None => out_property
      | Some _ => fst (strtol tmp)
      end
  end.
