(* ===== verification/HttpInterfaces.v ===== *)
(** * [src/http/client/interface.hpp] and [src/http/api/stock_api]

    The two interfaces between which [StockAPI] stands: a client that answers requests,
    and a provider that builds requests and reads responses.  What [StockAPI] returns is
    proved from what they promise ([HttpClientLaws], [StockDataProviderLaws]); [CurlProps]
    and [Polygon] keep these promises for the client and the provider of the program. *)
From Stdlib Require Import ZArith Lia String.
From stdpp Require Import base tactics list strings.
From S2P Require Import Prelude CppString CppFormat StockApi Effects HttpModel NetworkCache.
Open Scope string_scope.
Open Scope Z_scope.

(** ** The interfaces *)

(** The client is part of the world [W] its calls change. *)
Class IHttpClient (W : Type) : Type := {
  client_get : Request -> io W Response;
  client_get_with_retries : Request -> RetryPolicy -> io W Response
}.

Class IStockDataProvider (P : Type) : Type := {
  provider_build_custom_aggregate_bars : P -> AggregateBarsArgs -> Request;
  provider_parse_custom_aggregate_bars : P -> Response -> outcome AggregateBars
}.

(** [resp.body_.substr(0, ERROR_MESSAGE_LENGTH)] *)
Definition body_preview (resp : Response) : string := str_take ERROR_MESSAGE_LENGTH (Response_body_ resp).

Definition HTTP_SUCCESS_UPPER_BOUNDARY : Z := 300.

Section StockAPI.
Context {P W : Type} `{IStockDataProvider P, IHttpClient W}.

(** The request is made with the default policy of [get_with_retries]. *)
Definition custom_aggregate_bars (provider_ : P) (args : AggregateBarsArgs) : io W AggregateBars :=
  let req := provider_build_custom_aggregate_bars provider_ args in
  let! resp := client_get_with_retries req default_retry_policy in
  if (Response_status_ resp <? OK) || (HTTP_SUCCESS_UPPER_BOUNDARY <=? Response_status_ resp)
  then io_throw (HttpError (Response_status_ resp) (Response_effective_url_ resp) (body_preview resp)
                   ("HTTP request failed with status " +:+ to_string (Response_status_ resp)))
  else io_of (provider_parse_custom_aggregate_bars provider_ resp).

(** ** What they promise *)

(** An [HttpError] about a response: its status, its URL and the start of its body. *)
Definition reports_response (resp : Response) (e : exn) : Prop :=
  exists preview what, e = http_error (Response_status_ resp) (Response_effective_url_ resp) preview what /\
    (exists rest, Response_body_ resp = preview +:+ rest) /\ (String.length preview <= 512)%nat.

(** Retrying ends. *)
Class HttpClientLaws : Prop := {
  client_finishes : forall req, io_total (client_get_with_retries req default_retry_policy)
}.

(** A response is read or reported. *)
Class StockDataProviderLaws : Prop := {
  provider_reads : forall provider_ resp,
    (exists bars, provider_parse_custom_aggregate_bars provider_ resp = Ret bars) \/
    exists e, provider_parse_custom_aggregate_bars provider_ resp = Throw e /\ reports_response resp e
}.

(** ** What comes out *)
Lemma str_take_bound n s : (String.length (str_take n s) <= n)%nat.
Proof. revert s. induction n as [|n IH]; intros [|c s]; simpl; try lia. specialize (IH s). lia. Qed.

Lemma preview_reports resp what :
  reports_response resp (HttpError (Response_status_ resp) (Response_effective_url_ resp) (body_preview resp) what).
Proof.
  exists (body_preview resp), what. split; [done|]. split; [|apply str_take_bound].
  exists (str_drop ERROR_MESSAGE_LENGTH (Response_body_ resp)). symmetry. apply str_take_drop.
Qed.

(** C26: with any client and any provider that keep their promises, a request for bars
    ends in bars only if the last answer had a status of 200 to 299 and the provider could
    read it; any other answer becomes an [HttpError] that carries its status, its URL and
    at most 512 bytes of its body; an exception of the client is passed on; nothing else
    happens to the world than the client's request. *)
Theorem custom_aggregate_bars_result `{!HttpClientLaws, !StockDataProviderLaws} provider_ args w :
  let '(x, w1) := client_get_with_retries (provider_build_custom_aggregate_bars provider_ args) default_retry_policy w in
  let '(r, w') := custom_aggregate_bars provider_ args w in
  w' = w1 /\
  match x with
  | Ret resp =>
      (exists bars, r = Ret bars /\ 200 <= Response_status_ resp < 300 /\
         provider_parse_custom_aggregate_bars provider_ resp = Ret bars) \/
      exists e, r = Throw e /\ reports_response resp e
  | Throw e => r = Throw e
  | OutOfFuel => False
  end.
Proof.
  pose proof (client_finishes (provider_build_custom_aggregate_bars provider_ args) w) as Hf.
  unfold custom_aggregate_bars, io_bind.
  destruct (client_get_with_retries _ _ w) as [[resp|e|] w1]; [|done|done].
  destruct ((Response_status_ resp <? OK) || (HTTP_SUCCESS_UPPER_BOUNDARY <=? Response_status_ resp)) eqn:Hs.
  - split; [done|]. right. eexists. split; [done|]. apply preview_reports.
  - apply orb_false_iff in Hs as [?%Z.ltb_ge ?%Z.leb_gt]. unfold OK, HTTP_SUCCESS_UPPER_BOUNDARY in *.
    split; [done|]. destruct (provider_reads provider_ resp) as [[bars Hp]|(e & Hp & He)]; rewrite Hp.
    + left. exists bars. split; [done|]. split; [lia|done].
    + right. by exists e.
Qed.
End StockAPI.
Arguments HttpClientLaws W {_}.
Arguments StockDataProviderLaws P {_}.
