(* ===== verification/AtomicWrites.v ===== *)
(** * [src/http/cache/network_cache.cpp]: files under concurrency

    The jobs of [ForgeEngine::fetch_data] share the cache directory.  Here [write_atomic]
    and a read of a cache file are what the operating system sees of them, one step per
    system call, so that the calls of several threads interleave in any order:

    - a file is an inode; a name refers to one; a stream holds the inode it opened and its
      own offset, and keeps both when the name is given to another file;
    - opening for writing with [trunc] empties the file of that name, or makes a new one;
    - bytes arrive in pieces of any size; every call may fail;
    - [rename] replaces the target's name, or fails when the source is not there.

    A call that throws is over, and its thread goes on with its next call. *)
From Stdlib Require Import ZArith Lia Ascii String.
From stdpp Require Import base tactics list gmap strings.
From S2P Require Import Prelude CppString Effects NetworkCache.
Open Scope string_scope.
Open Scope nat_scope.

(** A call of [write_atomic], or a file that is opened and read to its end. *)
Inductive cache_call : Type :=
| Write (p bytes : string)
| Read (p : string).

Inductive io_pc : Type :=
| Idle
| Writing (p bytes : string) (inode offset : nat)   (* inside the block of [out] *)
| Closing (p bytes : string)                        (* before [rename] *)
| Reading (p : string) (inode : nat) (got : string).

Record io_thread : Type := mkThread {
  todo : list cache_call;
  pc : io_pc;
  answers : list (string * option string);   (* what was read; [None]: could not be opened *)
  thrown : list string
}.

Record FileSystem : Type := mkFileSystem {
  inodes : gmap nat string;
  names : gmap string nat;
  next_inode : nat
}.

Record Machine : Type := mkMachine {
  fs : FileSystem;
  io_threads : list io_thread
}.

(** What the operating system does with a call: refuse it, or go on, with [S n] bytes
    where bytes are transferred. *)
Inductive os_choice : Type := Refuse | Proceed (n : nat).

Definition tmp_name (p : string) : string := p +:+ ".tmp".

Definition set_inode (j : nat) (content : string) (f : FileSystem) : FileSystem :=
  mkFileSystem (<[j := content]> (inodes f)) (names f) (next_inode f).

(** [std::ofstream out(tmp, std::ios::binary | std::ios::trunc)] *)
Definition open_trunc (tmp : string) (f : FileSystem) : nat * FileSystem :=
  match names f !! tmp with
  | Some j => (j, set_inode j "" f)
  | None =>
      let j := next_inode f in
      (j, mkFileSystem (<[j := ""]> (inodes f)) (<[tmp := j]> (names f)) (S j))
  end.

(** A write at an offset beyond the end leaves a hole of zeros. *)
Definition overwrite (content : string) (offset : nat) (chunk : string) : string :=
  str_take offset content +:+ str_repeat (offset - String.length content) zero +:+ chunk +:+
  str_drop (offset + String.length chunk) content.

(** [std::filesystem::rename] *)
Definition rename (tmp p : string) (f : FileSystem) : option FileSystem :=
  j ← names f !! tmp;
  Some (mkFileSystem (inodes f) (<[p := j]> (delete tmp (names f))) (next_inode f)).

Definition at_pc (pc' : io_pc) (t : io_thread) : io_thread := mkThread (todo t) pc' (answers t) (thrown t).
Definition next_call (t : io_thread) : io_thread := mkThread (tail (todo t)) (pc t) (answers t) (thrown t).
Definition answer (p : string) (a : option string) (t : io_thread) : io_thread :=
  mkThread (todo t) Idle (answers t ++ [(p, a)]) (thrown t).
Definition throw (what : string) (t : io_thread) : io_thread :=
  mkThread (todo t) Idle (answers t) (thrown t ++ [what]).

(** The next step of a thread. *)
Definition io_step (choice : os_choice) (t : io_thread) (f : FileSystem) : option (io_thread * FileSystem) :=
  match pc t with
  | Idle =>
      match todo t with
      | [] => None
      | Write p bytes :: _ =>
          let t := next_call t in
          match choice with
          | Refuse => Some (throw ("open failed: " +:+ tmp_name p) t, f)
          | Proceed _ => let '(j, f) := open_trunc (tmp_name p) f in Some (at_pc (Writing p bytes j 0) t, f)
          end
      | Read p :: _ =>
          let t := next_call t in
          match choice, names f !! p with
          | Proceed _, Some j => Some (at_pc (Reading p j "") t, f)
          | Proceed _, None => Some (answer p None t, f)
          | Refuse, _ => Some (answer p None t, f)
          end
      end
  | Writing p bytes j offset =>
      match choice with
      | Refuse => Some (throw ("write failed: " +:+ tmp_name p) t, f)
      | Proceed n =>
          let chunk := str_take (S n) (str_drop offset bytes) in
          if String.eqb chunk "" then Some (at_pc (Closing p bytes) t, f)
          else Some (at_pc (Writing p bytes j (offset + String.length chunk)) t,
                     set_inode j (overwrite (default "" (inodes f !! j)) offset chunk) f)
      end
  | Closing p bytes =>
      match choice, rename (tmp_name p) p f with
      | Proceed _, Some f => Some (at_pc Idle t, f)
      | _, _ => Some (throw "filesystem error: cannot rename" t, f)
      end
  | Reading p j got =>
      match choice with
      | Refuse => None
      | Proceed n =>
          let more := str_take (S n) (str_drop (String.length got) (default "" (inodes f !! j))) in
          if String.eqb more "" then Some (answer p (Some got) t, f)
          else Some (at_pc (Reading p j (got +:+ more)) t, f)
      end
  end.

Definition machine_step (a : nat * os_choice) (m : Machine) : option Machine :=
  let '(i, choice) := a in
  t ← io_threads m !! i;
  '(t, f) ← io_step choice t (fs m);
  Some (mkMachine f (<[i := t]> (io_threads m))).

(** An interleaving is the sequence of its steps. *)
Fixpoint machine_run (schedule : list (nat * os_choice)) (m : Machine) : option Machine :=
  match schedule with
  | [] => Some m
  | a :: schedule => m ← machine_step a m; machine_run schedule m
  end.

(** The content of the file of a name. *)
Definition content (f : FileSystem) (p : string) : option string := names f !! p ≫= fun j => inodes f !! j.

(** Threads that have not started. *)
Definition start_machine (f : FileSystem) (programs : list (list cache_call)) : Machine :=
  mkMachine f ((fun calls => mkThread calls Idle [] []) <$> programs).
