(* ===== verification/AtomicProps.v ===== *)
(** * The cache's files under concurrency: properties

    [write_atomic] is atomic for as long as no two threads write the same path; alone, it
    is the [write_atomic] of [NetworkCache]; and two threads that write the same path can
    show a reader a file that neither wrote. *)
From Stdlib Require Import ZArith Lia Ascii String.
From stdpp Require Import base tactics list gmap strings.
From S2P Require Import Prelude CppString Effects HttpModel NetworkCache AtomicWrites.
Open Scope string_scope.
Open Scope nat_scope.

(** ** Names and prefixes *)
Lemma str_app_inj_r s t u : s +:+ u = t +:+ u -> s = t.
Proof.
  intros E. assert (String.length s = String.length t) as Hl.
  { apply (f_equal String.length) in E. rewrite !str_length_app in E. lia. }
  revert t E Hl. induction s as [|a s IH]; intros [|b t] E Hl; try done.
  injection E as -> E. injection Hl as Hl. f_equal. by apply IH.
Qed.

Lemma tmp_name_inj p q : tmp_name p = tmp_name q -> p = q.
Proof. apply str_app_inj_r. Qed.

(** A path that is not a temporary name. *)
Definition plain (p : string) : Prop := forall q, p <> tmp_name q.

Lemma str_take_taken n s : str_take (String.length (str_take n s)) s = str_take n s.
Proof. revert n. induction s as [|c s IH]; intros [|n]; try done. cbn. by rewrite IH. Qed.

Lemma str_drop_nil n : str_drop n "" = "".
Proof. by destruct n. Qed.

Lemma overwrite_empty chunk : overwrite "" 0 chunk = chunk.
Proof. unfold overwrite. rewrite str_drop_nil, str_app_nil_r. reflexivity. Qed.

(** Writing the next piece where the first [k] bytes are. *)
Lemma overwrite_next bytes k n :
  k <= String.length bytes ->
  overwrite (str_take k bytes) k (str_take (S n) (str_drop k bytes)) =
  str_take (k + String.length (str_take (S n) (str_drop k bytes))) bytes.
Proof.
  revert k. induction bytes as [|c bytes IH]; intros [|k] Hk; cbn in Hk; try lia; [reflexivity| |].
  - change (str_drop 0 (String c bytes)) with (String c bytes). change (str_take 0 (String c bytes)) with "".
    rewrite overwrite_empty. symmetry. apply str_take_taken.
  - cbn [str_drop]. specialize (IH k ltac:(lia)). unfold overwrite in *. cbn [str_take str_drop Nat.add String.length Nat.sub].
    exact (f_equal (String c) IH).
Qed.

Section Ownership.
(** Which thread may write a path, and what may be found in a file. *)
Context (owns : nat -> string -> Prop) (allowed : string -> string -> Prop).
Context (owner_unique : forall i j p, owns i p -> owns j p -> i = j).

Definition permitted (i : nat) (c : cache_call) : Prop :=
  match c with
  | Write p bytes => plain p /\ owns i p /\ allowed p bytes
  | Read p => plain p
  end.

(** Every file has its own name, and every file with a plain name is whole. *)
Definition disk_ok (f : FileSystem) : Prop :=
  (forall p j, names f !! p = Some j -> j < next_inode f /\ is_Some (inodes f !! j)) /\
  (forall p q j, names f !! p = Some j -> names f !! q = Some j -> p = q) /\
  (forall p c, plain p -> content f p = Some c -> allowed p c).

Definition pc_ok (i : nat) (p : io_pc) (f : FileSystem) : Prop :=
  match p with
  | Idle => True
  | Writing p bytes j k =>
      permitted i (Write p bytes) /\ names f !! tmp_name p = Some j /\
      inodes f !! j = Some (str_take k bytes) /\ k <= String.length bytes
  | Closing p bytes =>
      permitted i (Write p bytes) /\
      exists j, names f !! tmp_name p = Some j /\ inodes f !! j = Some bytes
  | Reading p j got =>
      j < next_inode f /\ (forall q, names f !! tmp_name q <> Some j) /\
      exists rest, inodes f !! j = Some (got +:+ rest) /\ allowed p (got +:+ rest)
  end.

Definition thread_ok (i : nat) (t : io_thread) (f : FileSystem) : Prop :=
  Forall (permitted i) (todo t) /\ pc_ok i (pc t) f /\
  forall p c, (p, Some c) ∈ answers t -> allowed p c.

Definition machine_inv (m : Machine) : Prop :=
  disk_ok (fs m) /\ forall i t, io_threads m !! i = Some t -> thread_ok i t (fs m).

(** ** What the calls do to the disk and to the other threads *)

(** Thread [i] changes the file of a temporary name it owns. *)
Lemma set_inode_ok i p j s f :
  owns i p -> names f !! tmp_name p = Some j -> disk_ok f ->
  disk_ok (set_inode j s f) /\ forall i' pc', i' <> i -> pc_ok i' pc' f -> pc_ok i' pc' (set_inode j s f).
Proof.
  intros Ho Hj (Hn & Hinj & Hwhole). split; [split_and!|].
  - intros q k Hq. destruct (Hn q k Hq) as [? ?]. split; [done|]. cbn. destruct (decide (k = j)) as [->|].
    + rewrite lookup_insert_eq. eauto.
    + by rewrite lookup_insert_ne.
  - exact Hinj.
  - intros q c Hq. unfold content. cbn. destruct (names f !! q) as [k|] eqn:Hk; [|done]. cbn.
    assert (k <> j) as Hne. { intros ->. by apply (Hq p), (Hinj q (tmp_name p) j). }
    rewrite lookup_insert_ne by done. intros Hc. apply (Hwhole q c Hq). unfold content. by rewrite Hk.
  - intros i' [|q bytes k off|q bytes|q k got] Hi'; cbn; [done| | |].
    + intros ((Hq & Hoq & Ha) & Hk & Hc & Hoff). split_and!; try done. rewrite lookup_insert_ne; [done|]. intros <-.
      apply Hi', (owner_unique _ _ p); [|done]. by rewrite (tmp_name_inj p q) by (by apply (Hinj _ _ j)).
    + intros ((Hq & Hoq & Ha) & k & Hk & Hc). split; [done|]. exists k. split; [done|]. rewrite lookup_insert_ne; [done|]. intros <-.
      apply Hi', (owner_unique _ _ p); [|done]. by rewrite (tmp_name_inj p q) by (by apply (Hinj _ _ j)).
    + intros (Hk & Ht & rest & Hc & Ha). split_and!; [done|done|]. exists rest. rewrite lookup_insert_ne; [done|]. intros <-. by apply (Ht p).
Qed.

Lemma new_inode_ok i p f :
  owns i p -> names f !! tmp_name p = None -> disk_ok f ->
  let f' := mkFileSystem (<[next_inode f := ""]> (inodes f)) (<[tmp_name p := next_inode f]> (names f)) (S (next_inode f)) in
  disk_ok f' /\ forall i' pc', i' <> i -> pc_ok i' pc' f -> pc_ok i' pc' f'.
Proof.
  intros Ho Hnone (Hn & Hinj & Hwhole) f'.
  assert (forall q k, names f !! q = Some k -> k <> next_inode f) as Hold.
  { intros q k Hq ->. destruct (Hn _ _ Hq). lia. }
  split; [split_and!|].
  - intros q k. cbn. intros [[<- <-]|[Hne Hq]]%lookup_insert_Some.
    + rewrite lookup_insert_eq. split; [lia|eauto].
    + destruct (Hn q k Hq). rewrite lookup_insert_ne by (by apply not_eq_sym, (Hold q)). split; [lia|done].
  - intros q r k. cbn. intros [[<- <-]|[Hne Hq]]%lookup_insert_Some [[<- Hk]|[Hne' Hr]]%lookup_insert_Some; try done.
    + by destruct (Hold r _ Hr).
    + by destruct (Hold q k Hq).
    + by apply (Hinj _ _ k).
  - intros q c Hq. unfold content. cbn. rewrite lookup_insert_ne by (intros E; by apply (Hq p)).
    destruct (names f !! q) as [k|] eqn:Hk; [|done]. cbn. rewrite lookup_insert_ne by (by apply not_eq_sym, (Hold q)).
    intros Hc. apply (Hwhole q c Hq). unfold content. by rewrite Hk.
  - intros i' [|q bytes k off|q bytes|q k got] Hi'; cbn; [done| | |].
    + intros ((Hq & Hoq & Ha) & Hk & Hc & Hoff). rewrite !lookup_insert_ne; [done|by apply not_eq_sym, (Hold (tmp_name q))|congruence].
    + intros ((Hq & Hoq & Ha) & k & Hk & Hc). split; [done|]. exists k.
      rewrite !lookup_insert_ne; [done|by apply not_eq_sym, (Hold (tmp_name q))|congruence].
    + intros (Hk & Ht & rest & Hc & Ha). split_and!; [lia| |].
      * intros r [[_ E]|[_ E]]%lookup_insert_Some; [lia|by apply (Ht r)].
      * exists rest. rewrite lookup_insert_ne by lia. done.
Qed.

Lemma open_trunc_ok i p f j f' :
  owns i p -> disk_ok f -> open_trunc (tmp_name p) f = (j, f') ->
  disk_ok f' /\ (forall i' pc', i' <> i -> pc_ok i' pc' f -> pc_ok i' pc' f') /\
  names f' !! tmp_name p = Some j /\ inodes f' !! j = Some "".
Proof.
  intros Ho Hd. unfold open_trunc. destruct (names f !! tmp_name p) as [k|] eqn:Hk; intros [= <- <-].
  - destruct (set_inode_ok i p k "" f Ho Hk Hd) as [Hd' Hothers]. cbn. by rewrite lookup_insert_eq.
  - destruct (new_inode_ok i p f Ho Hk Hd) as [Hd' Hothers]. cbn. by rewrite !lookup_insert_eq.
Qed.

Lemma rename_ok_ i p bytes j f f' :
  permitted i (Write p bytes) -> names f !! tmp_name p = Some j -> inodes f !! j = Some bytes -> disk_ok f ->
  rename (tmp_name p) p f = Some f' ->
  disk_ok f' /\ forall i' pc', i' <> i -> pc_ok i' pc' f -> pc_ok i' pc' f'.
Proof.
  intros (Hp & Ho & Ha) Hj Hb (Hn & Hinj & Hwhole). unfold rename. rewrite Hj. cbn. intros [= <-].
  assert (forall q k, <[p:=j]> (delete (tmp_name p) (names f)) !! q = Some k ->
    q = p /\ k = j \/ q <> p /\ q <> tmp_name p /\ names f !! q = Some k) as Hlook.
  { intros q k [[<- <-]|[Hne [Hne' Hq]%lookup_delete_Some]]%lookup_insert_Some; auto. }
  assert (forall q, q <> p -> forall k, names f !! tmp_name q = Some k ->
    <[p:=j]> (delete (tmp_name p) (names f)) !! tmp_name q = Some k) as Hkeep.
  { intros q Hq k Hk. rewrite lookup_insert_ne by (by apply Hp).
    rewrite lookup_delete_ne; [done|]. by intros E%tmp_name_inj. }
  split; [split_and!|].
  - cbn. intros q k [[-> ->]|(_ & _ & Hq)]%Hlook; by eapply Hn.
  - cbn. intros q r k [[-> ->]|(Hqp & Hqt & Hq)]%Hlook [[-> Hk]|(Hrp & Hrt & Hr)]%Hlook; try done.
    + destruct Hrt. by apply (Hinj _ _ j).
    + destruct Hqt. subst k. by apply (Hinj _ _ j).
    + by apply (Hinj _ _ k).
  - intros q c Hq. unfold content. cbn. destruct (<[p:=j]> (delete (tmp_name p) (names f)) !! q) as [k|] eqn:Hk; [|done].
    cbn. apply Hlook in Hk as [[-> ->]|(_ & _ & Hk)]; intros Hc; [by simplify_eq|].
    apply (Hwhole q c Hq). unfold content. by rewrite Hk.
  - intros i' [|q b k off|q b|q k got] Hi'; cbn; [done| | |].
    + intros ((Hq & Hoq & ?) & Hk & Hc & Hoff). split_and!; try done. apply Hkeep; [|done].
      intros ->. by apply Hi', (owner_unique _ _ p).
    + intros ((Hq & Hoq & ?) & k & Hk & Hc). split; [done|]. exists k. split; [|done]. apply Hkeep; [|done].
      intros ->. by apply Hi', (owner_unique _ _ p).
    + intros (Hk & Ht & rest). split_and!; [done| |done]. intros r [[E _]|(_ & _ & E)]%Hlook; [by apply (Hp r)|by apply (Ht r)].
Qed.

(** ** Every step *)
Lemma Forall_tail {A} (P : A -> Prop) l : Forall P l -> Forall P (tail l).
Proof. by destruct 1. Qed.

Lemma answers_snoc (P : string -> string -> Prop) (l : list (string * option string)) q a :
  (forall p c, (p, Some c) ∈ l -> P p c) -> (forall c, a = Some c -> P q c) ->
  forall p c, (p, Some c) ∈ (l ++ [(q, a)])%list -> P p c.
Proof. intros Hl Ha p c [Hin|Hin]%elem_of_app; [by apply Hl|]. apply list_elem_of_singleton in Hin. simplify_eq. by apply Ha. Qed.

Lemma str_app_split s t n :
  str_take n (str_drop (String.length s) (s +:+ t)) = str_take n t.
Proof. by rewrite str_drop_app. Qed.

Lemma str_take_S_nil n s : str_take (S n) s = "" -> s = "".
Proof. by destruct s. Qed.

Lemma io_step_ok i choice t f t' f' :
  io_step choice t f = Some (t', f') -> disk_ok f -> thread_ok i t f ->
  disk_ok f' /\ thread_ok i t' f' /\ forall i' pc', i' <> i -> pc_ok i' pc' f -> pc_ok i' pc' f'.
Proof.
  intros Hs Hd (Htodo & Hpc & Hans). unfold io_step in Hs.
  destruct (pc t) as [|p bytes j k|p bytes|p j got] eqn:Epc.
  - destruct (todo t) as [|[p bytes|p] rest] eqn:Et; [done| |]; apply Forall_cons in Htodo as [Hc Hrest].
    + destruct choice as [|n]; [|destruct (open_trunc (tmp_name p) f) as [j f1] eqn:Eo]; simplify_eq.
      * split; [done|]. split; [|done]. split_and!; try done. cbn. by rewrite Et.
      * destruct Hc as (Hp & Ho & Ha). destruct (open_trunc_ok i p f j f' Ho Hd Eo) as (Hd' & Hothers & Hn & Hi).
        split; [done|]. split; [|done]. split_and!; try done; [cbn; by rewrite Et|]. cbn. split_and!; done || lia.
    + assert (thread_ok i (answer p None (next_call t)) f) as Hnone.
      { split_and!; [cbn; by rewrite Et|done|]. by apply answers_snoc. }
      destruct choice as [|n]; [|destruct (names f !! p) as [j|] eqn:Ej]; simplify_eq; try by split_and!.
      destruct Hd as (Hn & Hinj & Hwhole). destruct (Hn p j Ej) as [Hlt [c Hcont]].
      split; [done|]. split; [|done]. split_and!; try done; [cbn; by rewrite Et|]. cbn. split_and!; [done| |].
      * intros q Hq. by apply (Hc q), (Hinj _ _ j).
      * exists c. split; [done|]. apply (Hwhole p); [done|]. unfold content. by rewrite Ej.
  - destruct Hpc as (Hc & Hj & Hcont & Hk). pose proof Hc as (Hp & Ho & Ha).
    destruct choice as [|n]; [by simplify_eq; split_and!|].
    destruct (String.eqb_spec (str_take (S n) (str_drop k bytes)) "") as [He|_]; simplify_eq.
    + split; [done|]. split; [|done]. split_and!; try done. cbn. split; [done|]. exists j. split; [done|].
      apply str_take_S_nil in He. rewrite Hcont. f_equal. rewrite <- (str_take_drop k bytes) at 2. by rewrite He, str_app_nil_r.
    + rewrite Hcont. change (default "" (Some (str_take k bytes))) with (str_take k bytes). rewrite overwrite_next by done.
      destruct (set_inode_ok i p j (str_take (k + String.length (str_take (S n) (str_drop k bytes))) bytes) f Ho Hj Hd) as [Hd' Hothers].
      split; [done|]. split; [|done]. split_and!; try done. cbn [pc at_pc pc_ok]. split_and!; try done; [cbn; by rewrite lookup_insert_eq|].
      rewrite <- (str_take_drop k bytes) at 2. rewrite str_length_app.
      pose proof (f_equal String.length (str_take_drop (S n) (str_drop k bytes))) as Hl. rewrite str_length_app in Hl.
      assert (String.length (str_take k bytes) = k); [|lia].
      clear -Hk. revert bytes Hk. induction k as [|k IH]; intros [|b bytes]; cbn; try lia. intros Hk. f_equal. apply IH. lia.
  - destruct Hpc as (Hc & j & Hj & Hcont).
    assert (thread_ok i (throw "filesystem error: cannot rename" t) f) as Hfail by by split_and!.
    destruct choice as [|n]; [by simplify_eq; split_and!|].
    destruct (rename (tmp_name p) p f) as [f1|] eqn:Er; simplify_eq; [|by split_and!].
    destruct (rename_ok_ i p bytes j f f' Hc Hj Hcont Hd Er) as [Hd' Hothers]. split; [done|]. split; [|done]. by split_and!.
  - destruct Hpc as (Hj & Ht & rest & Hcont & Ha). destruct choice as [|n]; [done|].
    rewrite Hcont in Hs. change (default "" (Some (got +:+ rest))) with (got +:+ rest) in Hs. rewrite str_app_split in Hs.
    destruct (String.eqb_spec (str_take (S n) rest) "") as [He|_]; simplify_eq.
    + apply str_take_S_nil in He. subst rest. rewrite str_app_nil_r in *. split; [done|]. split; [|done]. split_and!; try done.
      apply answers_snoc; [done|]. by intros c [= <-].
    + split; [done|]. split; [|done]. split_and!; try done. cbn [pc at_pc pc_ok]. split_and!; [done|done|].
      exists (str_drop (S n) rest). by rewrite str_app_assoc, str_take_drop.
Qed.

Lemma machine_run_inv schedule m m' : machine_run schedule m = Some m' -> machine_inv m -> machine_inv m'.
Proof.
  revert m. induction schedule as [|[i choice] schedule IH]; intros m; cbn [machine_run].
  { by intros [= ->]. }
  destruct (machine_step (i, choice) m) as [m1|] eqn:Hs; [|done]. intros Hr [Hd Ht]. apply (IH m1 Hr). clear IH Hr.
  cbn in Hs. destruct (io_threads m !! i) as [t|] eqn:Ei; [|done]. cbn in Hs.
  destruct (io_step choice t (fs m)) as [[t1 f1]|] eqn:Eio; [|done]. cbn in Hs. simplify_eq.
  destruct (io_step_ok i choice t (fs m) t1 f1 Eio Hd (Ht i t Ei)) as (Hd1 & Ht1 & Hothers).
  split; [done|]. cbn. intros i' t' [[<- [<- _]]|[Hne Hi']]%list_lookup_insert_Some; [done|].
  destruct (Ht i' t' Hi') as (Htodo & Hpc & Hans). split_and!; [done| |done]. by apply Hothers; [apply not_eq_sym|].
Qed.
End Ownership.

(** ** Any threads that write different paths *)
Definition call_path (c : cache_call) : string := match c with Write p _ => p | Read p => p end.

(** The files of a disk have different inodes. *)
Definition fs_ok (f : FileSystem) : Prop :=
  (forall p j, names f !! p = Some j -> j < next_inode f /\ is_Some (inodes f !! j)) /\
  (forall p q j, names f !! p = Some j -> names f !! q = Some j -> p = q).

Section Programs.
Context (f0 : FileSystem) (programs : list (list cache_call)).

Definition writes (i : nat) (p : string) : Prop :=
  exists calls bytes, programs !! i = Some calls /\ Write p bytes ∈ calls.

(** What was in the file, or what one call writes, whole. *)
Definition old_or_written (p c : string) : Prop :=
  content f0 p = Some c \/ exists i calls, programs !! i = Some calls /\ Write p c ∈ calls.

Lemma start_inv :
  fs_ok f0 -> (forall i calls, programs !! i = Some calls -> Forall (fun c => plain (call_path c)) calls) ->
  machine_inv writes old_or_written (start_machine f0 programs).
Proof.
  intros [Hn Hinj] Hplain. split; [split_and!; try done|].
  { intros p c _ Hc. by left. }
  cbn. intros i t Ht. rewrite list_lookup_fmap in Ht. destruct (programs !! i) as [calls|] eqn:Hi; [|done].
  injection Ht as <-. split_and!; [|done|by intros p c ?%elem_of_nil]. cbn. apply Forall_forall. intros c Hc.
  pose proof (proj1 (Forall_forall _ _) (Hplain i calls Hi) c Hc) as Hp. destruct c as [p bytes|p]; [|done].
  cbn. split_and!; [done|by exists calls, bytes|right; by exists i, calls].
Qed.

(** C18: while no two threads write the same path, in every interleaving of their system
    calls and with any of them failing, every read returns the file as it was at the start
    or as one [write_atomic] call wrote it, whole; no file is ever left in another state;
    and no [rename] misses its temporary file. *)
Theorem concurrent_reads_whole schedule m :
  fs_ok f0 -> (forall i calls, programs !! i = Some calls -> Forall (fun c => plain (call_path c)) calls) ->
  (forall i j p, writes i p -> writes j p -> i = j) ->
  machine_run schedule (start_machine f0 programs) = Some m ->
  (forall i t p c, io_threads m !! i = Some t -> (p, Some c) ∈ answers t -> old_or_written p c) /\
  (forall p c, plain p -> content (fs m) p = Some c -> old_or_written p c) /\
  (forall i t p bytes, io_threads m !! i = Some t -> pc t = Closing p bytes -> is_Some (rename (tmp_name p) p (fs m))).
Proof.
  intros Hf Hplain Hown Hr.
  destruct (machine_run_inv writes old_or_written Hown schedule _ m Hr (start_inv Hf Hplain)) as [(_ & _ & Hwhole) Ht].
  split_and!; [|exact Hwhole|].
  - intros i t p c Hi. apply (Ht i t Hi).
  - intros i t p bytes Hi Hpc. destruct (Ht i t Hi) as (_ & Hok & _). rewrite Hpc in Hok.
    destruct Hok as (_ & j & Hj & _). unfold rename. rewrite Hj. by eexists.
Qed.
End Programs.

(** ** One thread alone *)
Lemma content_set_inode f j p s q :
  fs_ok f -> names f !! p = Some j -> content (set_inode j s f) q = if decide (q = p) then Some s else content f q.
Proof.
  intros [_ Hinj] Hp. unfold content, set_inode. cbn. destruct (decide (q = p)) as [->|Hne].
  - rewrite Hp. cbn. apply lookup_insert_eq.
  - destruct (names f !! q) as [k|] eqn:Hq; [|done]. cbn. apply lookup_insert_ne. intros <-. by apply Hne, (Hinj _ _ j).
Qed.

Lemma content_open_trunc f tmp j f' q :
  fs_ok f -> open_trunc tmp f = (j, f') -> content f' q = if decide (q = tmp) then Some "" else content f q.
Proof.
  intros Hf. unfold open_trunc. destruct (names f !! tmp) as [k|] eqn:Hk; intros [= <- <-]; [by apply content_set_inode|].
  destruct Hf as [Hn _]. unfold content. cbn. destruct (decide (q = tmp)) as [->|Hne].
  - rewrite lookup_insert_eq. cbn. apply lookup_insert_eq.
  - rewrite lookup_insert_ne by congruence. destruct (names f !! q) as [i|] eqn:Hq; [|done]. cbn.
    apply lookup_insert_ne. destruct (Hn q i Hq). lia.
Qed.

Lemma content_rename f p f' q :
  rename (tmp_name p) p f = Some f' -> p <> tmp_name p ->
  content f' q = if decide (q = p) then content f (tmp_name p) else if decide (q = tmp_name p) then None else content f q.
Proof.
  intros Hr Hp. unfold rename in Hr. destruct (names f !! tmp_name p) as [j|] eqn:Hj; [|done]. cbn in Hr. injection Hr as <-.
  unfold content. cbn. rewrite Hj. repeat case_decide; subst.
  - by rewrite lookup_insert_eq.
  - by rewrite lookup_insert_ne, lookup_delete_eq by congruence.
  - by rewrite lookup_insert_ne, lookup_delete_ne by congruence.
Qed.

Lemma tmp_name_ne p : p <> tmp_name p.
Proof. intros E. apply (f_equal String.length) in E. unfold tmp_name in E. rewrite str_length_app in E. cbn in E. lia. Qed.

(** A machine whose next open, write and rename have these outcomes. *)
Definition with_outcomes `{SystemCalls} (opens : bool) (short : option nat) (renames : bool) : SystemCalls := {|
  now_s := now_s;
  hash_string := hash_string;
  mkdir_ok := mkdir_ok;
  open_ok := fun _ => opens;
  write_short := fun _ => short;
  rename_ok := fun _ => renames;
  uninitialized_ts := uninitialized_ts
|}.

Section Alone.
Context `{SystemCalls} (f0 : FileSystem) (p bytes : string).

(** What [NetworkCache.write_atomic] can leave of the files [f0] and throw. *)
Definition written_alone (f : FileSystem) (what : list string) : Prop :=
  exists opens short renames, forall d, (forall q, files d !! q = content f0 q) ->
    let '(r, d') := write_atomic (H := with_outcomes opens short renames) p bytes d in
    (forall q, files d' !! q = content f q) /\
    match r with
    | Ret _ => what = []
    | Throw e => what = [exn_what e]
    | OutOfFuel => False
    end.

(** The states of the one call. *)
Definition alone_at (t : io_thread) (f : FileSystem) : Prop :=
  match pc t with
  | Idle => todo t = [Write p bytes] /\ f = f0 /\ thrown t = [] \/ todo t = [] /\ written_alone f (thrown t)
  | Writing q b j k =>
      q = p /\ b = bytes /\ todo t = [] /\ thrown t = [] /\
      forall r, content f r = if decide (r = tmp_name p) then Some (str_take k bytes) else content f0 r
  | Closing q b =>
      q = p /\ b = bytes /\ todo t = [] /\ thrown t = [] /\
      forall r, content f r = if decide (r = tmp_name p) then Some bytes else content f0 r
  | Reading _ _ _ => False
  end.

Lemma alone_step choice t f t' f' :
  io_step choice t f = Some (t', f') -> fs_ok f -> pc_ok (fun _ _ => True) (fun _ _ => True) 0 (pc t) f ->
  alone_at t f -> alone_at t' f'.
Proof.
  intros Hs Hf Hpc Ha. unfold io_step in Hs. unfold alone_at in Ha.
  destruct (pc t) as [|q b j k|q b|q j got] eqn:Epc; [| | |done].
  - destruct Ha as [(Ht & -> & Hw)|[Ht _]]; rewrite Ht in Hs; [|done].
    destruct choice as [|n]; [|destruct (open_trunc (tmp_name p) f0) as [j f1] eqn:Eo]; simplify_eq.
    + right. cbn. rewrite Ht, Hw. split; [done|]. exists false, None, true. intros d Hd. cbn. by split.
    + cbn. rewrite Ht, Hw. split_and!; try done. intros r. by apply (content_open_trunc f0 _ j).
  - destruct Ha as (-> & -> & Ht & Hw & Hc). destruct Hpc as (_ & Hj & Hcont & Hk). destruct choice as [|n].
    + simplify_eq. right. cbn. rewrite Hw. split; [done|]. exists true, (Some k), true. intros d Hd. cbn.
      split; [|done]. intros q. cbn. rewrite Hc. case_decide; subst; [by rewrite lookup_insert_eq|]. by rewrite lookup_insert_ne.
    + destruct (String.eqb_spec (str_take (S n) (str_drop k bytes)) "") as [He|_]; simplify_eq.
      * cbn. split_and!; try done. intros r. rewrite Hc. apply str_take_S_nil in He.
        pose proof (str_take_drop k bytes) as Hall. rewrite He, str_app_nil_r in Hall. by rewrite Hall.
      * rewrite Hcont. change (default "" (Some (str_take k bytes))) with (str_take k bytes).
        rewrite overwrite_next by done. cbn [pc at_pc alone_at]. split_and!; try done. intros r.
        rewrite (content_set_inode f j (tmp_name p)) by done. case_decide; [done|]. rewrite Hc. by rewrite decide_False.
  - destruct Ha as (-> & -> & Ht & Hw & Hc). destruct Hpc as (_ & j & Hj & Hcont).
    assert (alone_at (throw "filesystem error: cannot rename" t) f) as Hfail.
    { right. cbn. rewrite Hw. split; [done|]. exists true, None, false. intros d Hd. cbn.
      split; [|done]. intros q. cbn. rewrite Hc. case_decide; subst; [by rewrite lookup_insert_eq|]. by rewrite lookup_insert_ne. }
    destruct choice as [|n]; [by simplify_eq|]. destruct (rename (tmp_name p) p f) as [f1|] eqn:Er; simplify_eq; [|done].
    right. cbn. rewrite Hw. split; [done|]. exists true, None, true. intros d Hd. cbn. split; [|done]. intros q. cbn.
    rewrite (content_rename f p) by (done || apply tmp_name_ne). rewrite !Hc, (decide_True (P := tmp_name p = tmp_name p)) by done.
    repeat case_decide; subst.
    + by rewrite lookup_insert_eq.
    + by rewrite lookup_insert_ne, lookup_delete_eq by congruence.
    + by rewrite lookup_insert_ne, lookup_delete_ne, lookup_insert_ne by (unfold tmp_name in *; congruence).
Qed.

(** C21: a thread that runs alone does with its system calls what [write_atomic] of
    [NetworkCache] does in one step: when its call is over, the files and the exception are
    those of [write_atomic] on a machine that opens, writes and renames as that run did. *)
Theorem write_atomic_alone schedule m t :
  fs_ok f0 -> plain p -> machine_run schedule (start_machine f0 [[Write p bytes]]) = Some m ->
  io_threads m !! 0 = Some t -> pc t = Idle -> todo t = [] -> written_alone (fs m) (thrown t).
Proof.
  intros Hf Hp Hr Ht Hidle Htodo.
  assert (forall schedule m1, machine_run schedule m1 = Some m ->
    machine_inv (fun i _ => i = 0) (fun _ _ => True) m1 -> (exists t1, io_threads m1 = [t1] /\ alone_at t1 (fs m1)) ->
    exists t1, io_threads m = [t1] /\ alone_at t1 (fs m)) as Hrun.
  { clear. intros schedule. induction schedule as [|[i choice] schedule IH]; intros m1; cbn [machine_run].
    { by intros [= ->]. }
    destruct (machine_step (i, choice) m1) as [m2|] eqn:Hs; [|done]. intros Hr Hinv (t1 & Ht1 & Ha).
    apply (IH m2 Hr).
    - apply (machine_run_inv _ _ (fun i j _ (E1 : i = 0) (E2 : j = 0) => eq_trans E1 (eq_sym E2)) [(i, choice)] m1); [|done]. cbn [machine_run]. by rewrite Hs.
    - clear IH Hr. cbn in Hs. rewrite Ht1 in Hs. destruct i as [|i]; [|done]. cbn in Hs.
      destruct (io_step choice t1 (fs m1)) as [[t2 f2]|] eqn:Eio; [|done]. cbn in Hs. simplify_eq. cbn. exists t2. split; [done|].
      destruct Hinv as [(Hn & Hinj & _) Ht]. destruct (Ht 0 t1) as (_ & Hpc & _); [by rewrite Ht1|].
      apply (alone_step choice t1 (fs m1)); [done|by split| |done].
      destruct (pc t1); cbn in *; firstorder. }
  destruct (Hrun schedule _ Hr) as (t1 & Ht1 & Ha).
  - destruct Hf as [Hn Hinj]. split; [by split_and!|]. cbn. intros [|i] t1; [|done]. intros [= <-]. split_and!; try done.
    by repeat constructor.
  - eexists. split; [done|]. by left.
  - rewrite Ht1 in Ht. injection Ht as ->. unfold alone_at in Ha. rewrite Hidle, Htodo in Ha. by destruct Ha as [[? _]|[_ Ha]].
Qed.
End Alone.

(** ** The files of the cache *)
Definition last_char (s : string) : option ascii := last (list_ascii_of_string s).

Lemma last_char_app s c t : last_char (s +:+ String c t) = last_char (String c t).
Proof.
  unfold last_char. assert (list_ascii_of_string (s +:+ String c t) = list_ascii_of_string s ++ list_ascii_of_string (String c t))%list as ->.
  { induction s as [|a s IH]; [done|]. cbn. exact (f_equal (cons a) IH). }
  apply last_app_cons.
Qed.

Section CacheFiles.
Context `{SystemCalls}.

Definition entry_base (req : Request) : string := "cache/http/" +:+ CppFormat.to_string (hash_string (Request_url_ req)).
Definition entry_paths (req : Request) : list string :=
  [StringUtils.append_to_path (entry_base req) BODY_FILE_EXT; StringUtils.append_to_path (entry_base req) META_FILE_EXT].

Lemma entry_path_plain req p : p ∈ entry_paths req -> plain p.
Proof.
  intros Hp q E. apply (f_equal last_char) in E. unfold tmp_name in E. rewrite last_char_app in E.
  apply elem_of_cons in Hp as [->|Hp%list_elem_of_singleton]; [|subst p];
    unfold StringUtils.append_to_path, BODY_FILE_EXT, META_FILE_EXT in E; rewrite last_char_app in E; done.
Qed.

Lemma entry_paths_hash req1 req2 p :
  p ∈ entry_paths req1 -> p ∈ entry_paths req2 -> hash_string (Request_url_ req1) = hash_string (Request_url_ req2).
Proof.
  assert (forall e, CppFormat.to_string (hash_string (Request_url_ req1)) +:+ e = CppFormat.to_string (hash_string (Request_url_ req2)) +:+ e ->
    hash_string (Request_url_ req1) = hash_string (Request_url_ req2)) as Hinj.
  { intros e E%str_app_inj_r. apply (CppFormat.to_string_inj _ _ "" ""); [done|done|]. by rewrite E. }
  unfold entry_paths, entry_base, StringUtils.append_to_path. intros H1 H2.
  apply elem_of_cons in H1 as [->|H1%list_elem_of_singleton]; [|subst p];
    apply elem_of_cons in H2 as [E|E%list_elem_of_singleton].
  2,3: exfalso; apply (f_equal last_char) in E; unfold BODY_FILE_EXT, META_FILE_EXT in E; by rewrite !last_char_app in E.
  all: rewrite !str_app_assoc in E; apply str_app_inj_l in E; by apply Hinj in E.
Qed.

(** Threads that read and write the entries of requests with different hashes. *)
Definition entry_calls (req : Request) (calls : list cache_call) : Prop :=
  Forall (fun c => call_path c ∈ entry_paths req) calls.

Lemma entry_programs_ok (reqs : list Request) programs :
  NoDup ((fun req => hash_string (Request_url_ req)) <$> reqs) -> Forall2 entry_calls reqs programs ->
  (forall i calls, programs !! i = Some calls -> Forall (fun c => plain (call_path c)) calls) /\
  (forall i j p, writes programs i p -> writes programs j p -> i = j).
Proof.
  intros Hnd Hall. split.
  - intros i calls Hi. destruct (Forall2_lookup_r _ _ _ _ _ Hall Hi) as (req & _ & Hc).
    eapply Forall_impl; [exact Hc|]. intros c. apply entry_path_plain.
  - intros i j p (c1 & b1 & H1 & Hc1) (c2 & b2 & H2 & Hc2).
    destruct (Forall2_lookup_r _ _ _ _ _ Hall H1) as (r1 & Hr1 & Hf1).
    destruct (Forall2_lookup_r _ _ _ _ _ Hall H2) as (r2 & Hr2 & Hf2).
    pose proof (proj1 (Forall_forall _ _) Hf1 _ Hc1) as Hp1. pose proof (proj1 (Forall_forall _ _) Hf2 _ Hc2) as Hp2.
    pose proof (entry_paths_hash _ _ _ Hp1 Hp2) as Hh.
    apply (NoDup_lookup _ _ _ (hash_string (Request_url_ r1)) Hnd); rewrite list_lookup_fmap; [by rewrite Hr1|].
    rewrite Hr2. cbn. by rewrite Hh.
Qed.
End CacheFiles.

(** ** Examples *)
Definition go (i : nat) : nat * os_choice := (i, Proceed 15).
Definition no_files : FileSystem := mkFileSystem ∅ ∅ 0.

(** [std::hash] is given by the length of the text. *)
Definition length_hash : SystemCalls := {|
  now_s n := 0%Z;
  hash_string s := Z.of_nat (String.length s);
  mkdir_ok := true;
  open_ok _ := true;
  write_short _ := None;
  rename_ok _ := true;
  uninitialized_ts := 0%Z
|}.

(** Two requests with different hashes, one thread each. *)
Definition two_requests : list Request := [mkRequest "/a" "GET" "" []; mkRequest "/bb" "GET" "" []].
Definition two_programs : list (list cache_call) :=
  [[Write "cache/http/2.body" "bars of a"; Read "cache/http/2.body"];
   [Write "cache/http/3.body" "bars of bb"; Read "cache/http/3.body"]].
Definition alternating : list (nat * os_choice) := concat (replicate 7 [go 0; go 1]).

Lemma no_files_ok : fs_ok no_files.
Proof. split; intros p; [intros j|intros q j]; cbn; by rewrite lookup_empty. Qed.

Lemma concurrent_reads_whole_witness : exists m,
  machine_run alternating (start_machine no_files two_programs) = Some m /\
  answers <$> io_threads m = [[("cache/http/2.body", Some "bars of a")]; [("cache/http/3.body", Some "bars of bb")]] /\
  (forall i t p c, io_threads m !! i = Some t -> (p, Some c) ∈ answers t -> old_or_written no_files two_programs p c) /\
  (forall p c, plain p -> content (fs m) p = Some c -> old_or_written no_files two_programs p c) /\
  (forall i t p bytes, io_threads m !! i = Some t -> pc t = Closing p bytes -> is_Some (rename (tmp_name p) p (fs m))).
Proof.
  destruct (entry_programs_ok (H := length_hash) two_requests two_programs) as [Hplain Hown].
  - vm_compute. repeat constructor; set_solver.
  - repeat constructor.
  - eexists. split; [vm_compute; reflexivity|]. split; [reflexivity|].
    apply (concurrent_reads_whole no_files two_programs alternating).
    + apply no_files_ok.
    + exact Hplain.
    + exact Hown.
    + vm_compute. reflexivity.
Defined.

Lemma write_atomic_alone_witness : exists m,
  machine_run (repeat (go 0) 4) (start_machine no_files [[Write "x.body" "bars"]]) = Some m /\
  written_alone (H := length_hash) no_files "x.body" "bars" (fs m) [].
Proof.
  eexists. split; [vm_compute; reflexivity|].
  apply (write_atomic_alone (H := length_hash) no_files "x.body" "bars" (repeat (go 0) 4) _ (mkThread [] Idle [] [])).
  - apply no_files_ok.
  - intros q E. apply (f_equal last_char) in E. unfold tmp_name in E. rewrite last_char_app in E. discriminate E.
  - vm_compute. reflexivity.
  - reflexivity.
  - reflexivity.
  - reflexivity.
Defined.

(** Two threads that store the same entry share its temporary file: the second one opens
    and empties it, the first one gives it the final name, and a reader finds an entry that
    nobody wrote; the second [rename] has nothing to rename, and throws. *)
Lemma same_path_torn : exists m,
  machine_run [go 0; go 0; go 0; go 1; go 0; go 2; go 2; go 1; go 1; go 1]
    (start_machine no_files [[Write "x.body" "bars"]; [Write "x.body" "BARS"]; [Read "x.body"]]) = Some m /\
  (thrown <$> io_threads m) = [[]; ["filesystem error: cannot rename"]; []] /\
  (answers <$> io_threads m) = [[]; []; [("x.body", Some "")]].
Proof. eexists. split; [vm_compute; reflexivity|]. by split. Qed.
