(* ===== verification/CacheProps.v ===== *)
(** * The network cache: properties

    The meta file is read back as it was written; a stored response is found again under
    its URL; when a stored response counts as fresh. *)
From Stdlib Require Import ZArith Lia Ascii String.
From stdpp Require Import base tactics list gmap strings.
From S2P Require Import Prelude Double CppString CppFormat StringUtils Effects HttpModel NetworkCache.
Open Scope string_scope.
Open Scope Z_scope.

#[local] Arguments String.append !_ _ /.

(** ** The meta file *)
Definition no_newline (s : string) : bool := all_chars (fun c => negb (Ascii.eqb newline c)) s.

(** Header values the meta file can represent. *)
Definition storable (s : string) : bool := trimmed s && no_newline s.

Lemma text_lines_cons l rest : no_newline l = true -> text_lines (l +:+ endl +:+ rest) = l :: text_lines rest.
Proof.
  unfold no_newline, endl. induction l as [|c l IH]; [done|]. cbn [String.append text_lines all_chars].
  destruct (Ascii.eqb newline c); [done|]. cbn [negb andb]. intros Hl.
  by rewrite (IH Hl : text_lines (l +:+ String newline rest) = _).
Qed.

Lemma meta_line_field key val :
  find_char ":" key = None -> trimmed key = true -> trimmed val = true ->
  meta_line (key +:+ ": " +:+ val) = Some (key, val).
Proof.
  intros Hc Hk Hv. unfold meta_line. change (": " +:+ val) with (String ":" (String " " val)).
  rewrite (find_char_app_first ":" key _ Hc). rewrite str_take_app.
  assert (str_drop (String.length key + 1) (key +:+ String ":" (String " " val)) = String " " val) as ->.
  { clear. induction key as [|c key IH]; [done|exact IH]. }
  by rewrite trim_lead, !trim_trimmed.
Qed.

Lemma digit_or_sign_space c : digit_or_sign c = true -> is_space c = false /\ Ascii.eqb newline c = false.
Proof.
  unfold digit_or_sign. destruct (digit_val c) eqn:Hd.
  - intros _. rewrite (digit_not_space _ _ Hd). split; [done|].
    destruct (Ascii.eqb_spec newline c) as [<-|]; [discriminate Hd|done].
  - by intros ->%Ascii.eqb_eq.
Qed.

Lemma to_string_storable z : storable (to_string z) = true.
Proof.
  destruct (to_string_chars z) as [Hall Hne]. unfold storable, trimmed, no_newline, framed.
  assert (all_chars (fun c => negb (Ascii.eqb newline c)) (to_string z) = true /\
    first_is not_space (to_string z) = true /\ last_is not_space (to_string z) = true) as (H1 & H2 & H3);
    [|by rewrite H1, H2, H3, orb_true_r].
  destruct (to_string z) as [|c s]; [done|]. clear Hne. revert c Hall.
  induction s as [|d s IH]; intros c [Hc Hs]%andb_true_iff; apply digit_or_sign_space in Hc as [Hsp Hnl].
  - cbn. unfold not_space. by rewrite Hsp, Hnl.
  - destruct (IH d Hs) as (H1 & H2 & H3). cbn [all_chars first_is]. rewrite Hnl. unfold not_space at 1.
    rewrite Hsp. done.
Qed.

Lemma as_long_to_string z def : in_int64 z -> as_long (to_string z) def = z.
Proof.
  intros Hz. unfold as_long. rewrite <- (str_app_nil_r (to_string z)). by rewrite strtol_to_string.
Qed.

(** A [Meta] whose strings are storable and whose numbers fit into [long]. *)
Definition meta_storable (m : Meta) : Prop :=
  Forall (fun s => storable s = true)
    [Meta_etag_ m; Meta_last_modified_ m; Meta_content_type_ m; Meta_cache_control_ m; Meta_retry_after_ m] /\
  Forall in_int64
    [unix_ts_s_ m; Meta_status_ m; Meta_rate_limit_remaining_ m; Meta_rate_limit_reset_ m].

(** The fields of the file in the order they are written. *)
Definition meta_fields (m : Meta) : list (string * string) :=
  [("status", to_string (Meta_status_ m)); ("etag", Meta_etag_ m);
   ("last_modified", Meta_last_modified_ m); ("content_type", Meta_content_type_ m);
   ("cache_control", Meta_cache_control_ m); ("retry_after", Meta_retry_after_ m);
   ("rate_limit_remaining", to_string (Meta_rate_limit_remaining_ m));
   ("rate_limit_reset", to_string (Meta_rate_limit_reset_ m)); ("unix_ts_s", to_string (unix_ts_s_ m))].

Definition field_ok (kv : string * string) : Prop :=
  find_char ":" (fst kv) = None /\ storable (fst kv) = true /\ storable (snd kv) = true.

Definition field_line (kv : string * string) : string := fst kv +:+ ": " +:+ snd kv.

Lemma field_lines kvs :
  Forall field_ok kvs ->
  text_lines (foldr (fun kv t => field_line kv +:+ endl +:+ t) "" kvs) = field_line <$> kvs.
Proof.
  induction 1 as [|[k v] kvs (_ & Hk & Hv) _ IH]; [done|]. cbn [foldr fmap list_fmap].
  rewrite text_lines_cons; [by rewrite IH|]. unfold storable, no_newline, field_line in *. simpl in *.
  apply andb_true_iff in Hk as [_ Hk], Hv as [_ Hv]. rewrite all_chars_app, Hk. exact Hv.
Qed.

Lemma load_fields kvs out :
  Forall field_ok kvs ->
  fold_left load_meta_line (field_line <$> kvs) out =
  fold_left (fun m kv => set_meta_field (fst kv) (snd kv) m) kvs out.
Proof.
  intros Hk. revert out. induction Hk as [|[k v] kvs (Hc & Hk & Hv) _ IH]; intros out; [done|].
  cbn [fold_left fmap list_fmap]. rewrite IH. f_equal. unfold load_meta_line, field_line. simpl in *.
  apply andb_true_iff in Hk as [Hk _], Hv as [Hv _].
  change (String ":" (String " " v)) with (": " +:+ v). by rewrite meta_line_field.
Qed.

Lemma meta_text_fields m :
  meta_text m = foldr (fun kv t => field_line kv +:+ endl +:+ t) "" (meta_fields m).
Proof.
  unfold meta_text, meta_fields, field_line. cbn [foldr fst snd]. by rewrite !str_app_assoc, str_app_nil_r.
Qed.

Lemma meta_fields_ok m :
  Forall (fun s => storable s = true)
    [Meta_etag_ m; Meta_last_modified_ m; Meta_content_type_ m; Meta_cache_control_ m; Meta_retry_after_ m] ->
  Forall field_ok (meta_fields m).
Proof.
  rewrite !Forall_cons. intros (H1 & H2 & H3 & H4 & H5 & _).
  repeat constructor; simpl; done || apply to_string_storable.
Qed.

(** Reading back the meta file. *)
Lemma load_meta_text m out :
  meta_storable m -> fold_left load_meta_line (text_lines (meta_text m)) out = m.
Proof.
  intros [Hs Hz]. apply meta_fields_ok in Hs. rewrite meta_text_fields, field_lines, load_fields by done.
  rewrite !Forall_cons in Hz. destruct Hz as (Z1 & Z2 & Z3 & Z4 & _), m, out.
  cbn -[as_long to_string]. cbn in Z1, Z2, Z3, Z4. by rewrite !as_long_to_string.
Qed.

#[local] Arguments String.append : simpl never.

(** ** Files *)
Section Files.
Context `{SystemCalls}.

(** Nothing goes wrong when [p] is written. *)
Definition writable (p : string) : Prop :=
  open_ok (p +:+ ".tmp") = true /\ write_short (p +:+ ".tmp") = None /\ rename_ok p = true.

Lemma tmp_ne p : p +:+ ".tmp" <> p.
Proof. intros E. apply (f_equal String.length) in E. rewrite str_length_app in E. simpl in E. lia. Qed.

Lemma write_atomic_writable p bytes d :
  writable p ->
  write_atomic p bytes d = (Ret tt, set_files (<[p := bytes]> (delete (p +:+ ".tmp") (files d))) d).
Proof.
  intros (Ho & Hw & Hr). unfold write_atomic. rewrite Ho, Hw, Hr. simpl. unfold io_bind, io_modify, set_files.
  simpl. by rewrite delete_insert_eq.
Qed.

(** Whatever goes wrong, the file is the old one or the new one. *)
Lemma write_atomic_cases p bytes d :
  exists r d', write_atomic p bytes d = (r, d') /\ disk_clock_reads d' = disk_clock_reads d /\
    (r = Ret tt /\ files d' !! p = Some bytes \/ (exists e, r = Throw e) /\ files d' !! p = files d !! p) /\
    forall q, q <> p -> q <> p +:+ ".tmp" -> files d' !! q = files d !! q.
Proof.
  pose proof (tmp_ne p) as Hne. unfold write_atomic. destruct (open_ok _); simpl.
  2: { eexists _, _. split; [done|]. split; [done|]. split; [right; eauto|done]. }
  destruct (write_short _) as [n|]; unfold io_bind, io_modify, io_throw; simpl.
  { eexists _, _. split; [done|]. split; [done|]. simpl. split; [right; split; [eauto|]|].
    - by rewrite lookup_insert_ne.
    - intros q _ Hq. by rewrite lookup_insert_ne. }
  destruct (rename_ok p); eexists _, _; (split; [done|]); (split; [done|]); simpl.
  - split; [left; by rewrite lookup_insert_eq|]. intros q Hq Hqt.
    rewrite lookup_insert_ne, delete_insert_eq, lookup_delete_ne by done. done.
  - split; [right; split; [eauto|by rewrite lookup_insert_ne]|]. intros q Hq Hqt. by rewrite lookup_insert_ne.
Qed.

(** ** Paths of the cache *)
Definition cache_base (req : Request) : string := "cache/http/" +:+ to_string (hash_string (Request_url_ req)).
Definition body_path (req : Request) : string := append_to_path (cache_base req) BODY_FILE_EXT.
Definition meta_path (req : Request) : string := append_to_path (cache_base req) META_FILE_EXT.

Lemma cache_path_inj r1 r2 e1 e2 :
  starts_with_digit e1 = false -> starts_with_digit e2 = false ->
  cache_base r1 +:+ e1 = cache_base r2 +:+ e2 ->
  hash_string (Request_url_ r1) = hash_string (Request_url_ r2) /\ e1 = e2.
Proof.
  intros H1 H2 E. unfold cache_base in E. rewrite !str_app_assoc in E. apply str_app_inj_l in E.
  by apply to_string_inj in E.
Qed.

Lemma cache_paths_distinct r1 r2 :
  body_path r1 <> meta_path r2 /\ body_path r1 <> meta_path r2 +:+ ".tmp" /\
  meta_path r1 <> body_path r2 +:+ ".tmp" /\ body_path r1 <> body_path r2 +:+ ".tmp" /\
  meta_path r1 <> meta_path r2 +:+ ".tmp" /\
  (hash_string (Request_url_ r1) <> hash_string (Request_url_ r2) ->
   body_path r1 <> body_path r2 /\ meta_path r1 <> meta_path r2).
Proof.
  unfold body_path, meta_path, append_to_path, BODY_FILE_EXT, META_FILE_EXT.
  split_and!; rewrite ?str_app_assoc; try (by intros [_ ?]%cache_path_inj).
  intros Hne. split; by intros [? _]%cache_path_inj.
Qed.

Lemma create_base_path_ok req : mkdir_ok = true -> create_base_path req = io_ret (cache_base req).
Proof. intros Hm. unfold create_base_path. by rewrite Hm. Qed.

(** What [cache_response] stores beside the body. *)
Definition response_meta (resp : Response) (now : Z) : Meta :=
  mkMeta now (Response_status_ resp) (Response_etag_ resp) (Response_last_modified_ resp)
    (Response_content_type_ resp) (Response_cache_control_ resp) (Response_retry_after_ resp)
    (Response_rate_limit_remaining_ resp) (Response_rate_limit_reset_ resp).

(** A response whose header values and numbers the meta file can represent. *)
Definition response_storable (resp : Response) : Prop :=
  Forall (fun s => storable s = true)
    [Response_etag_ resp; Response_last_modified_ resp; Response_content_type_ resp;
     Response_cache_control_ resp; Response_retry_after_ resp] /\
  Forall in_int64
    [Response_status_ resp; Response_rate_limit_remaining_ resp; Response_rate_limit_reset_ resp].

Lemma response_meta_storable resp now :
  response_storable resp -> in_int64 now -> meta_storable (response_meta resp now).
Proof. intros [Hs Hz] Hn. split; [exact Hs|]. by constructor. Qed.

Lemma probe_files policy_ req d :
  enable_caching_ policy_ = true -> mkdir_ok = true ->
  probe policy_ req d =
  (Ret (text ← files d !! meta_path req; body ← files d !! body_path req;
        Some (mkHit body (Request_url_ req) (cache_base req)
                (fold_left load_meta_line (text_lines text) uninitialized_meta))), d).
Proof.
  intros He Hm. unfold probe. rewrite He, create_base_path_ok by done.
  unfold io_bind, io_ret, load_meta, io_get. cbn [negb].
  fold (body_path req) (meta_path req).
  destruct (files d !! meta_path req); [|done]. by destruct (files d !! body_path req).
Qed.

Lemma cache_response_files policy_ req resp d :
  enable_caching_ policy_ = true -> mkdir_ok = true -> writable (body_path req) -> writable (meta_path req) ->
  exists d', cache_response policy_ req resp d = (Ret tt, d') /\
    disk_clock_reads d' = S (disk_clock_reads d) /\
    files d' !! body_path req = Some (Response_body_ resp) /\
    files d' !! meta_path req = Some (meta_text (response_meta resp (now_s (disk_clock_reads d)))) /\
    forall q, q <> body_path req -> q <> meta_path req ->
      q <> body_path req +:+ ".tmp" -> q <> meta_path req +:+ ".tmp" -> files d' !! q = files d !! q.
Proof.
  intros He Hm Hb Hmeta. destruct (cache_paths_distinct req req) as (N1 & N2 & N3 & _).
  unfold cache_response, save_meta_atomic. rewrite He, create_base_path_ok by done.
  unfold io_bind, io_ret, read_clock. cbn [negb]. fold (body_path req) (meta_path req).
  rewrite write_atomic_writable by done. cbv beta iota. rewrite write_atomic_writable by done.
  eexists. split; [done|]. split; [done|]. simpl. split_and!.
  - rewrite lookup_insert_ne, lookup_delete_ne by done. by rewrite lookup_insert_eq.
  - by rewrite lookup_insert_eq.
  - intros q Q1 Q2 Q3 Q4. by rewrite lookup_insert_ne, lookup_delete_ne, lookup_insert_ne, lookup_delete_ne by done.
Qed.
End Files.

Definition with_url (url : string) (resp : Response) : Response :=
  mkResponse (Response_rate_limit_remaining_ resp) (Response_rate_limit_reset_ resp) (Response_status_ resp)
    (Response_body_ resp) url (Response_etag_ resp) (Response_last_modified_ resp) (Response_retry_after_ resp)
    (Response_cache_control_ resp) (Response_content_type_ resp).

Lemma probe_stored `{SystemCalls} policy_ req resp now d :
  enable_caching_ policy_ = true -> mkdir_ok = true -> response_storable resp -> in_int64 now ->
  files d !! body_path req = Some (Response_body_ resp) ->
  files d !! meta_path req = Some (meta_text (response_meta resp now)) ->
  probe policy_ req d =
  (Ret (Some (mkHit (Response_body_ resp) (Request_url_ req) (cache_base req) (response_meta resp now))), d).
Proof.
  intros He Hm Hs Hn Hb Ht. rewrite probe_files by done. rewrite Ht, Hb. cbn [mbind option_bind].
  by rewrite load_meta_text by (by apply response_meta_storable).
Qed.

(** What the cache stores it finds again: a response stored under a request is what
    probing a request with the same hash returns, every header value and number included,
    with the URL of the probing request; entries of other hashes are not touched. *)
Theorem cache_round_trip `{SystemCalls} policy_ req resp d :
  enable_caching_ policy_ = true -> mkdir_ok = true -> writable (body_path req) -> writable (meta_path req) ->
  response_storable resp -> in_int64 (now_s (disk_clock_reads d)) ->
  exists d', cache_response policy_ req resp d = (Ret tt, d') /\
    (forall req', hash_string (Request_url_ req') = hash_string (Request_url_ req) ->
     exists hit, probe policy_ req' d' = (Ret (Some hit), d') /\
       get_cached_response hit = with_url (Request_url_ req') resp /\
       unix_ts_s_ (meta_ hit) = now_s (disk_clock_reads d)) /\
    (forall req', hash_string (Request_url_ req') <> hash_string (Request_url_ req) ->
     (probe policy_ req' d').1 = (probe policy_ req' d).1).
Proof.
  intros He Hm Hb Hme Hs Hn.
  destruct (cache_response_files policy_ req resp d He Hm Hb Hme) as (d' & Hc & _ & Fb & Fm & Fo).
  exists d'. split; [exact Hc|]. split.
  - intros req' Hh. eexists. split.
    + apply probe_stored with (now := now_s (disk_clock_reads d)) (resp := resp); try done;
        unfold body_path, meta_path, cache_base in *; by rewrite Hh.
    + done.
  - intros req' Hh. destruct (cache_paths_distinct req' req) as (A1 & A2 & A3 & A4 & A5 & A6).
    destruct (A6 Hh) as [A7 A8]. destruct (cache_paths_distinct req req') as (B1 & _).
    rewrite !probe_files by done. cbn [fst]. by rewrite !Fo by auto.
Qed.

(** A store that fails half-way leaves a consistent file each but not a consistent
    pair: the meta file is the old one, the body is the old one or already the new one. *)
Theorem failed_store_keeps_meta `{SystemCalls} policy_ req resp d e d' :
  cache_response policy_ req resp d = (Throw e, d') ->
  files d' !! meta_path req = files d !! meta_path req /\
  (files d' !! body_path req = files d !! body_path req \/
   files d' !! body_path req = Some (Response_body_ resp)).
Proof.
  destruct (cache_paths_distinct req req) as (N1 & N2 & N3 & _).
  unfold cache_response, save_meta_atomic. destruct (enable_caching_ policy_); cbn [negb]; [|done].
  destruct (mkdir_ok) eqn:Hm; [|unfold create_base_path; rewrite Hm; intros [= _ <-]; auto].
  rewrite create_base_path_ok by done. unfold io_bind, io_ret, read_clock. fold (body_path req) (meta_path req).
  destruct (write_atomic_cases (body_path req) (Response_body_ resp) d) as (r1 & d1 & E1 & _ & H1 & F1).
  rewrite E1. destruct H1 as [[-> Hb]|[[e1 ->] Hb]].
  2: { intros [= -> <-]. rewrite Hb, F1 by auto. auto. }
  match goal with |- context [write_atomic (meta_path req) ?m ?d1] =>
    destruct (write_atomic_cases (meta_path req) m d1) as (r2 & d2 & E2 & _ & H2 & F2) end.
  rewrite E2. destruct H2 as [[-> _]|[[e2 ->] Hfm]]; [done|]. intros [= -> <-].
  rewrite Hfm, F2 by auto. simpl. rewrite F1 by auto. auto.
Qed.
