(* ===== verification/CurlEasy.v ===== *)
(** * [src/http/client/curl_easy.cpp]

    The client owns one libcurl handle, of which the model keeps the options that were set
    (newest value per option) and the header lists that are allocated.  libcurl itself is
    the parameter [LibCurl]: the code [curl_easy_setopt] returns for an option, and what
    [curl_easy_perform] does with the handle at the n-th transfer, namely the callbacks it
    makes in order, the code it returns, the error text, the HTTP status and the effective
    URL.  Sleeping is logged in milliseconds; random numbers are numbered by draws.

    Strings that [make_response] moves out of are left empty. *)
From Stdlib Require Import ZArith Lia Ascii String.
From stdpp Require Import base tactics list gmap strings.
From S2P Require Import Prelude Double CppString CppFormat StringUtils Effects HttpModel NetworkCache HttpInterfaces.
Open Scope string_scope.
Open Scope Z_scope.

Inductive CURLoption : Type :=
| CURLOPT_ERRORBUFFER | CURLOPT_FOLLOWLOCATION | CURLOPT_MAXREDIRS | CURLOPT_CONNECTTIMEOUT_MS
| CURLOPT_TIMEOUT_MS | CURLOPT_NOPROGRESS | CURLOPT_USERAGENT | CURLOPT_NOSIGNAL
| CURLOPT_TCP_KEEPALIVE | CURLOPT_TCP_KEEPIDLE | CURLOPT_TCP_KEEPINTVL | CURLOPT_ACCEPT_ENCODING
| CURLOPT_HTTP_VERSION | CURLOPT_URL | CURLOPT_HTTPHEADER | CURLOPT_HTTPGET | CURLOPT_WRITEFUNCTION
| CURLOPT_WRITEDATA | CURLOPT_HEADERFUNCTION | CURLOPT_HEADERDATA | CURLOPT_POST | CURLOPT_UPLOAD
| CURLOPT_CUSTOMREQUEST.

#[export] Instance CURLoption_eq_dec : EqDecision CURLoption.
Proof. solve_decision. Defined.

(** The argument of [setopt]: a number, a string (or null), a header list, or the address
    of something named. *)
Inductive CurlValue : Type :=
| VLong (z : Z)
| VString (s : option string)
| VSlist (id : nat)
| VAddress (of_what : string).

Definition CURLE_OK : Z := 0.

Definition FOLLOW_LOCATION : Z := 1.
Definition MAX_REDIRECTS : Z := 10.
Definition CONNECT_TIMEOUT_MS : Z := 10000.
Definition TIMEOUT_MS : Z := 30000.
Definition USER_AGENT : string := "cpp-libcurl-client/1.0".
Definition ACCEPT_ENCODING : string := "".
Definition NO_PROGRESS : Z := 1.
Definition NO_SIGNAL : Z := 1.
Definition TCP_KEEPALIVE : Z := 1.
Definition TCP_KEEPIDLE : Z := 120.
Definition TCP_KEEPINTVL : Z := 60.
Definition POST : Z := 0.
Definition UPLOAD : Z := 0.
Definition CUSTOM_REQUEST : option string := None.
Definition HTTP_GET : Z := 1.

Definition CONTENT_LENGTH : string := "content-length:".
Definition CONTENT_TYPE : string := "content-type:".
Definition ETAG : string := "etag:".
Definition LAST_MODIFIED : string := "last-modified:".
Definition RETRY_AFTER : string := "retry-after:".
Definition X_RATELIMIT_REMAINING : string := "x-ratelimit-remaining:".
Definition X_RATELIMIT_RESET : string := "x-ratelimit-reset:".
Definition CACHE_CONTROL : string := "cache-control:".

Record CurlEasy : Type := mkCurlEasy {
  last_content_length_ : Z;
  last_rl_remaining_ : Z;
  last_rl_reset_ : Z;
  last_etag_ : string;
  last_last_modified_ : string;
  last_retry_after_ : string;
  last_content_type_ : string;
  last_cache_control_ : string;
  last_response_headers_ : list string;
  error_buf_ : string;
  headers_ : option nat;
  handle_options : CURLoption -> option CurlValue;
  slists : gmap nat (list string);     (* the allocated header lists *)
  next_slist : nat;
  cache_policy : NetworkCachePolicy    (* of [cache_layer_] *)
}.

(** What libcurl calls back during a transfer. *)
Inductive CurlEvent : Type :=
| OnHeader (line : string)
| OnBody (bytes : string).

Record Transfer : Type := mkTransfer {
  tr_events : list CurlEvent;
  tr_rc : Z;
  tr_error : string;
  tr_response_code : Z;
  tr_effective_url : option string
}.

Class LibCurl : Type := {
  curl_easy_init_ok : bool;
  curl_easy_setopt_rc : CURLoption -> Z;
  curl_easy_strerror : Z -> string;
  curl_easy_perform : nat -> (CURLoption -> option CurlValue) -> gmap nat (list string) -> Transfer;
  CURL_HTTP_VERSION_2TLS : Z;
  uniform_int : nat -> Z -> Z          (* the n-th draw from [0, bound] *)
}.

Record HttpWorld : Type := mkHttpWorld {
  client : CurlEasy;
  disk : Disk;
  transfers : nat;
  sleeps : list Z;
  draws : nat
}.

Definition set_client (c : CurlEasy) (w : HttpWorld) : HttpWorld :=
  mkHttpWorld c (disk w) (transfers w) (sleeps w) (draws w).
Definition set_disk (d : Disk) (w : HttpWorld) : HttpWorld :=
  mkHttpWorld (client w) d (transfers w) (sleeps w) (draws w).

Definition on_client (f : CurlEasy -> CurlEasy) : io HttpWorld unit :=
  io_modify (fun w => set_client (f (client w)) w).
Definition on_disk {A} (c : io Disk A) : io HttpWorld A := io_lift disk set_disk c.

Definition set_handle_option (o : CURLoption) (v : CurlValue) (c : CurlEasy) : CurlEasy :=
  mkCurlEasy (last_content_length_ c) (last_rl_remaining_ c) (last_rl_reset_ c) (last_etag_ c)
    (last_last_modified_ c) (last_retry_after_ c) (last_content_type_ c) (last_cache_control_ c)
    (last_response_headers_ c) (error_buf_ c) (headers_ c)
    (fun o' => if decide (o' = o) then Some v else handle_options c o')
    (slists c) (next_slist c) (cache_policy c).

Definition set_headers_ (h : option nat) (lists : gmap nat (list string)) (next : nat) (c : CurlEasy) : CurlEasy :=
  mkCurlEasy (last_content_length_ c) (last_rl_remaining_ c) (last_rl_reset_ c) (last_etag_ c)
    (last_last_modified_ c) (last_retry_after_ c) (last_content_type_ c) (last_cache_control_ c)
    (last_response_headers_ c) (error_buf_ c) h (handle_options c) lists next (cache_policy c).

Definition set_error_buf (e : string) (c : CurlEasy) : CurlEasy :=
  mkCurlEasy (last_content_length_ c) (last_rl_remaining_ c) (last_rl_reset_ c) (last_etag_ c)
    (last_last_modified_ c) (last_retry_after_ c) (last_content_type_ c) (last_cache_control_ c)
    (last_response_headers_ c) e (headers_ c) (handle_options c) (slists c) (next_slist c) (cache_policy c).

(** [last_response_headers_.clear(); last_content_length_ = -1;] *)
Definition clear_scratch (c : CurlEasy) : CurlEasy :=
  mkCurlEasy (-1) (last_rl_remaining_ c) (last_rl_reset_ c) (last_etag_ c)
    (last_last_modified_ c) (last_retry_after_ c) (last_content_type_ c) (last_cache_control_ c)
    [] (error_buf_ c) (headers_ c) (handle_options c) (slists c) (next_slist c) (cache_policy c).

(** The strings [make_response] moves out. *)
Definition clear_moved (c : CurlEasy) : CurlEasy :=
  mkCurlEasy (last_content_length_ c) (last_rl_remaining_ c) (last_rl_reset_ c) "" "" "" "" ""
    (last_response_headers_ c) (error_buf_ c) (headers_ c) (handle_options c) (slists c) (next_slist c)
    (cache_policy c).

(** The callback for one header line. *)
Definition header_cb (buffer : string) (c : CurlEasy) : CurlEasy :=
  {| last_content_length_ := extract_header_long buffer CONTENT_LENGTH (last_content_length_ c);
     last_rl_remaining_ := extract_header_long buffer X_RATELIMIT_REMAINING (last_rl_remaining_ c);
     last_rl_reset_ := extract_header_long buffer X_RATELIMIT_RESET (last_rl_reset_ c);
     last_etag_ := extract_header_string buffer ETAG (last_etag_ c);
     last_last_modified_ := extract_header_string buffer LAST_MODIFIED (last_last_modified_ c);
     last_retry_after_ := extract_header_string buffer RETRY_AFTER (last_retry_after_ c);
     last_content_type_ := extract_header_string buffer CONTENT_TYPE (last_content_type_ c);
     last_cache_control_ := extract_header_string buffer CACHE_CONTROL (last_cache_control_ c);
     last_response_headers_ := last_response_headers_ c ++ [buffer];
     error_buf_ := error_buf_ c; headers_ := headers_ c; handle_options := handle_options c;
     slists := slists c; next_slist := next_slist c; cache_policy := cache_policy c |}%list.

Definition is_retryable_http (code : Z) : bool :=
  (code =? TOO_MANY_REQUESTS) || (code =? BAD_GATEWAY) || (code =? SERVICE_UNAVAILABLE) ||
  (code =? GATEWAY_TIMEOUT).

Section CurlEasy.
Context `{SystemCalls, LibCurl}.

Definition setopt (option : CURLoption) (value : CurlValue) : io HttpWorld unit :=
  let rc := curl_easy_setopt_rc option in
  if negb (rc =? CURLE_OK)
  then io_throw (runtime_error ("curl_easy_setopt failed: " +:+ curl_easy_strerror rc))
  else on_client (set_handle_option option value).

Definition set_defaults_once : io HttpWorld unit :=
  do! setopt CURLOPT_ERRORBUFFER (VAddress "error_buf_") in
  do! setopt CURLOPT_FOLLOWLOCATION (VLong FOLLOW_LOCATION) in
  do! setopt CURLOPT_MAXREDIRS (VLong MAX_REDIRECTS) in
  do! setopt CURLOPT_CONNECTTIMEOUT_MS (VLong CONNECT_TIMEOUT_MS) in
  do! setopt CURLOPT_TIMEOUT_MS (VLong TIMEOUT_MS) in
  do! setopt CURLOPT_NOPROGRESS (VLong NO_PROGRESS) in
  do! setopt CURLOPT_USERAGENT (VString (Some USER_AGENT)) in
  setopt CURLOPT_NOSIGNAL (VLong NO_SIGNAL).

Definition new_curl_easy (policy_ : NetworkCachePolicy) : CurlEasy :=
  mkCurlEasy (-1) (-1) (-1) "" "" "" "" "" [] "" None (fun _ => None) ∅ 0 policy_.

(** The constructor. *)
Definition construct_curl_easy (policy_ : NetworkCachePolicy) : io HttpWorld unit :=
  do! on_client (fun _ => new_curl_easy policy_) in
  if curl_easy_init_ok
  then do! on_client (set_error_buf "") in set_defaults_once
  else io_throw (runtime_error "Failed to create CURL easy handle").

(** The destructor: the header list is freed and the handle with its options goes. *)
Definition destroy_curl_easy (c : CurlEasy) : CurlEasy :=
  let lists := match headers_ c with Some id => delete id (slists c) | None => slists c end in
  let c := set_headers_ None lists (next_slist c) c in
  mkCurlEasy (last_content_length_ c) (last_rl_remaining_ c) (last_rl_reset_ c) (last_etag_ c)
    (last_last_modified_ c) (last_retry_after_ c) (last_content_type_ c) (last_cache_control_ c)
    (last_response_headers_ c) (error_buf_ c) (headers_ c) (fun _ => None) (slists c) (next_slist c)
    (cache_policy c).

Definition enable_keepalive : io HttpWorld unit :=
  do! setopt CURLOPT_TCP_KEEPALIVE (VLong TCP_KEEPALIVE) in
  do! setopt CURLOPT_TCP_KEEPIDLE (VLong TCP_KEEPIDLE) in
  setopt CURLOPT_TCP_KEEPINTVL (VLong TCP_KEEPINTVL).

Definition enable_compression : io HttpWorld unit :=
  setopt CURLOPT_ACCEPT_ENCODING (VString (Some ACCEPT_ENCODING)).

Definition prefer_http2_tls : io HttpWorld unit := setopt CURLOPT_HTTP_VERSION (VLong CURL_HTTP_VERSION_2TLS).

Definition set_url (u : string) : io HttpWorld unit := setopt CURLOPT_URL (VString (Some u)).

(** [curl_slist_append(headers_, h)]: a null list becomes a new one. *)
Definition slist_append (h : string) (c : CurlEasy) : CurlEasy :=
  match headers_ c with
  | None => set_headers_ (Some (next_slist c)) (<[next_slist c := [h]]> (slists c)) (S (next_slist c)) c
  | Some id =>
      set_headers_ (Some id) (<[id := (default [] (slists c !! id) ++ [h])%list]> (slists c)) (next_slist c) c
  end.

Definition set_headers (hs : list string) : io HttpWorld unit :=
  do! on_client (fun c =>
    match headers_ c with
    | Some id => set_headers_ None (delete id (slists c)) (next_slist c) c
    | None => c
    end) in
  do! io_each (fun h => on_client (slist_append h)) hs in
  let! w := io_get in
  match headers_ (client w) with
  | Some id => setopt CURLOPT_HTTPHEADER (VSlist id)
  | None => io_ret tt
  end.

(** Returns the cleared body. *)
Definition prepare_for_new_request : io HttpWorld string :=
  do! on_client clear_scratch in
  do! setopt CURLOPT_HTTPGET (VLong HTTP_GET) in
  do! setopt CURLOPT_WRITEFUNCTION (VAddress "write_to_string") in
  do! setopt CURLOPT_WRITEDATA (VAddress "body") in
  do! setopt CURLOPT_HEADERFUNCTION (VAddress "header_cb") in
  do! setopt CURLOPT_HEADERDATA (VAddress "this") in
  do! setopt CURLOPT_POST (VLong POST) in
  do! setopt CURLOPT_UPLOAD (VLong UPLOAD) in
  do! setopt CURLOPT_CUSTOMREQUEST (VString CUSTOM_REQUEST) in
  io_ret "".

(** The callbacks of a transfer, in order; [body] is the buffer [WRITEDATA] names. *)
Fixpoint curl_callbacks (events : list CurlEvent) (body : string) (c : CurlEasy) : string * CurlEasy :=
  match events with
  | [] => (body, c)
  | OnHeader line :: events => curl_callbacks events body (header_cb line c)
  | OnBody bytes :: events =>
      let '(_, body) := write_to_string bytes 1 (Z.of_nat (String.length bytes)) body in
      curl_callbacks events body c
  end.

(** [curl_easy_perform] and what it leaves behind: the body received and the transfer, of
    which [make_response] asks the status and the effective URL. *)
Definition perform_throw (body : string) : io HttpWorld (string * Transfer) := fun w =>
  let t := curl_easy_perform (transfers w) (handle_options (client w)) (slists (client w)) in
  let '(body, c) := curl_callbacks (tr_events t) body (client w) in
  let c := set_error_buf (tr_error t) c in
  let w := mkHttpWorld c (disk w) (S (transfers w)) (sleeps w) (draws w) in
  if tr_rc t =? CURLE_OK then (Ret (body, t), w)
  else
    let err := "curl_easy_perform failed: " in
    let err := if negb (String.eqb (error_buf_ c) "") then err +:+ error_buf_ c
               else err +:+ curl_easy_strerror (tr_rc t) in
    (Throw (runtime_error err), w).

(** The response [make_response] builds from the fields of the client. *)
Definition response_of (c : CurlEasy) (incoming_body : string) (t : Transfer) : Response :=
  {| Response_rate_limit_remaining_ := last_rl_remaining_ c;
     Response_rate_limit_reset_ := last_rl_reset_ c;
     Response_status_ := tr_response_code t;
     Response_body_ := incoming_body;
     Response_effective_url_ := default "" (tr_effective_url t);
     Response_etag_ := last_etag_ c;
     Response_last_modified_ := last_last_modified_ c;
     Response_retry_after_ := last_retry_after_ c;
     Response_cache_control_ := last_cache_control_ c;
     Response_content_type_ := last_content_type_ c |}.

Definition make_response (incoming_body : string) (t : Transfer) : io HttpWorld Response := fun w =>
  (Ret (response_of (client w) incoming_body t), set_client (clear_moved (client w)) w).

(** The validators of a stale entry. *)
Definition conditional_headers (m : Meta) : list string :=
  ((if negb (String.eqb (Meta_etag_ m) "") then ["If-None-Match: " +:+ Meta_etag_ m] else []) ++
   (if negb (String.eqb (Meta_last_modified_ m) "") then ["If-Modified-Since: " +:+ Meta_last_modified_ m]
    else []))%list.

(** From the second part of [get] on: the transfer and what becomes of its response. *)
Definition get_transfer (req : Request) (hit : option Hit) : io HttpWorld Response :=
  let hdrs := match hit with
              | Some hit => (Request_headers_ req ++ conditional_headers (meta_ hit))%list
              | None => Request_headers_ req
              end in
  do! set_url (Request_url_ req) in
  do! set_headers hdrs in
  let! body := prepare_for_new_request in
  let! performed := perform_throw body in
  let! r := make_response (fst performed) (snd performed) in
  let! w := io_get in
  match hit with
  | Some hit =>
      if Response_status_ r =? NOT_MODIFIED then
        let! meta := on_disk (refresh_meta_timestamp (base_path_ hit) (meta_ hit)) in
        io_ret (get_cached_response (mkHit (in_ hit) (Hit_url_ hit) (base_path_ hit) meta))
      else
        do! on_disk (cache_response (cache_policy (client w)) req r) in
        io_ret r
  | None =>
      do! on_disk (cache_response (cache_policy (client w)) req r) in
      io_ret r
  end.

Definition get (req : Request) : io HttpWorld Response :=
  let! w := io_get in
  let! hit := on_disk (probe (cache_policy (client w)) req) in
  match hit with
  | Some h =>
      let! fresh := on_disk (fresh_enough (cache_policy (client w)) (meta_ h)) in
      if (fresh : bool) then io_ret (get_cached_response h) else get_transfer req hit
  | None => get_transfer req hit
  end.

Definition sleep_ms (ms : Z) : io HttpWorld unit :=
  io_modify (fun w => mkHttpWorld (client w) (disk w) (transfers w) (sleeps w ++ [ms])%list (draws w)).

Definition get_retry_delay (p : RetryPolicy) (delay : Z) : io HttpWorld Z :=
  let! w := io_get in
  let jitter := uniform_int (draws w) (to_int (base_delay_ p)) in
  do! io_modify (fun w => mkHttpWorld (client w) (disk w) (transfers w) (sleeps w) (S (draws w))) in
  do! sleep_ms (wrap64 (delay + jitter)) in
  io_ret (Z.min (wrap64 (delay * 2)) (max_delay_ p)).

(** One pass of the loop body: [inl] returns, [inr] goes round with the new delay. *)
Definition attempt_once (req : Request) (p : RetryPolicy) (attempt : nat) (delay : Z)
  : io HttpWorld (Response + Z) :=
  let! resp := get req in
  if is_retryable_http (Response_status_ resp) && (attempt <? max_tries_ p)%nat then
    let! delay := get_retry_delay p delay in io_ret (inr delay)
  else if negb (Response_status_ resp =? TOO_MANY_REQUESTS) then io_ret (inl resp)
  else if negb (String.eqb (Response_retry_after_ resp) "") then
    let s := fst (strtol (Response_retry_after_ resp)) in
    if 0 <? s then do! sleep_ms (s * 1000) in io_ret (inr delay) else io_ret (inr delay)
  else if (Response_rate_limit_remaining_ resp =? 0) && (0 <? Response_rate_limit_reset_ resp) then
    let! now := on_disk read_clock in
    let wait := if now <? Response_rate_limit_reset_ resp then Response_rate_limit_reset_ resp - now else 1 in
    do! sleep_ms (wait * 1000) in io_ret (inr delay)
  else if (attempt <? max_tries_ p)%nat then
    let! delay := get_retry_delay p delay in io_ret (inr delay)
  else io_ret (inl resp).

Definition attempt_failed (p : RetryPolicy) (attempt : nat) (delay : Z) (e : exn) : io HttpWorld (Response + Z) :=
  if (attempt <? max_tries_ p)%nat then
    let! delay := get_retry_delay p delay in io_ret (inr delay)
  else io_throw e.

(** [for (attempt = 1; attempt <= p.max_tries_; ++attempt)]: [rounds] are left. *)
Fixpoint retry_loop (req : Request) (p : RetryPolicy) (rounds attempt : nat) (delay : Z)
  : io HttpWorld Response :=
  match rounds with
  | O => io_ret empty_response
  | S rounds' =>
      let! next := io_catch (attempt_once req p attempt delay) (attempt_failed p attempt delay) in
      match next with
      | inl resp => io_ret resp
      | inr delay => retry_loop req p rounds' (S attempt) delay
      end
  end.

Definition get_with_retries (req : Request) (p : RetryPolicy) : io HttpWorld Response :=
  retry_loop req p (max_tries_ p) 1 (base_delay_ p).

(** [class CurlEasy : public IHttpClient] *)
#[export] Instance curl_client : IHttpClient HttpWorld := {|
  client_get := get;
  client_get_with_retries := get_with_retries
|}.
End CurlEasy.
