(* ===== verification/HeaderProps.v ===== *)
(** * Header values and the meta file

    libcurl hands over one header line at a time.  What [extract_header_value] cuts out of
    a line of plain characters can be written to the meta file and read back, so the
    responses the client makes can be stored.  [client_storable] is the invariant of the
    client that carries this from one transfer to the next. *)
From Stdlib Require Import ZArith Lia Ascii String.
From stdpp Require Import base tactics list gmap strings.
From S2P Require Import Prelude Double CppString CppFormat StringUtils Effects HttpModel NetworkCache CacheProps CurlEasy.
Open Scope string_scope.
Open Scope Z_scope.

(** ** Lines *)

(** The text up to the last character that does not belong to the line end. *)
Definition strip_line_end (s : string) : string :=
  str_take (match find_last_if not_line_end s with Some n => S n | None => O end) s.

(** A field value has no white space but blanks (RFC 9110, 5.5). *)
Definition plain_char (c : ascii) : bool := not_space c || negb (not_blank c).
Definition plain_line (line : string) : bool := all_chars plain_char (strip_line_end line).

Lemma strip_line_end_cons c s :
  strip_line_end (String c s) =
  match find_last_if not_line_end s with
  | Some _ => String c (strip_line_end s)
  | None => if not_line_end c then String c "" else ""
  end.
Proof.
  unfold strip_line_end. cbn [find_last_if]. destruct (find_last_if not_line_end s); [done|].
  by destruct (not_line_end c).
Qed.

Lemma strip_line_end_none s : find_last_if not_line_end s = None -> strip_line_end s = "".
Proof. unfold strip_line_end. by intros ->. Qed.

Lemma plain_line_drop n line : plain_line line = true -> plain_line (str_drop n line) = true.
Proof.
  unfold plain_line. revert line. induction n as [|n IH]; intros [|c s]; try done. cbn [str_drop].
  intros Hp. apply IH. rewrite strip_line_end_cons in Hp. destruct (find_last_if not_line_end s) eqn:E.
  - by apply andb_true_iff in Hp as [_ Hp].
  - by rewrite strip_line_end_none.
Qed.

Lemma strip_line_end_last s : strip_line_end s = "" \/ last_is not_line_end (strip_line_end s) = true.
Proof.
  induction s as [|c s IH]; [by left|]. rewrite strip_line_end_cons.
  destruct (find_last_if not_line_end s) eqn:E; [|destruct (not_line_end c) eqn:Hc; [right|by left]].
  - right. destruct IH as [IH|IH]; [|by destruct (strip_line_end s)].
    unfold strip_line_end in IH. rewrite E in IH. by destruct s.
  - done.
Qed.

Lemma strip_line_end_first c s : strip_line_end (String c s) = "" \/ exists s', strip_line_end (String c s) = String c s'.
Proof.
  rewrite strip_line_end_cons. destruct (find_last_if not_line_end s); [by eauto|].
  destruct (not_line_end c); eauto.
Qed.

(** ** Values *)

Lemma skip_blanks_first s :
  str_drop (default (String.length s) (find_if not_blank s)) s = "" \/
  first_is not_blank (str_drop (default (String.length s) (find_if not_blank s)) s) = true.
Proof.
  induction s as [|c s IH]; [by left|]. cbn [find_if]. destruct (not_blank c) eqn:Hc; [by right|].
  destruct (find_if not_blank s); exact IH.
Qed.

Lemma last_is_weaken (f g : ascii -> bool) s :
  all_chars (fun c => negb (f c) || g c) s = true -> last_is f s = true -> last_is g s = true.
Proof.
  induction s as [|c s IH]; [done|]. cbn [all_chars last_is]. intros [Hc Hs]%andb_true_iff.
  destruct s; [|by apply IH]. by destruct (f c).
Qed.

Lemma all_chars_weaken (f g : ascii -> bool) s :
  (forall c, f c = true -> g c = true) -> all_chars f s = true -> all_chars g s = true.
Proof.
  intros Hfg. induction s as [|c s IH]; [done|]. cbn [all_chars]. intros [Hc Hs]%andb_true_iff.
  by rewrite (Hfg c Hc), IH.
Qed.

Lemma plain_char_newline c : plain_char c = true -> negb (Ascii.eqb newline c) = true.
Proof. intros Hp. destruct (Ascii.eqb_spec newline c) as [<-|]; [discriminate Hp|done]. Qed.

Lemma plain_char_end c : plain_char c = true -> negb (not_line_end c) || not_space c = true.
Proof. unfold plain_char, not_line_end. destruct (not_space c), (not_blank c); simpl; by rewrite ?orb_true_r. Qed.

(** What is left of a plain text without the blanks around it is storable. *)
Lemma plain_value_storable s :
  plain_line s = true -> (s = "" \/ first_is not_blank s = true) -> storable (strip_line_end s) = true.
Proof.
  intros Hp Hf. unfold storable, no_newline. apply andb_true_iff. split.
  2: { eapply all_chars_weaken; [apply plain_char_newline|exact Hp]. }
  unfold trimmed, framed. destruct (strip_line_end_last s) as [-> |Hl]; [done|].
  rewrite (last_is_weaken not_line_end not_space), andb_true_r; [|by eapply all_chars_weaken; [apply plain_char_end|]|done].
  destruct s as [|c s]; [done|]. destruct Hf as [|Hf]; [done|]. cbn in Hf.
  unfold plain_line in Hp. destruct (strip_line_end_first c s) as [E|[s' E]]; rewrite E in *; [done|].
  apply andb_true_iff in Hp as [Hc _]. unfold plain_char in Hc. rewrite Hf in Hc. cbn in Hc |- *.
  by destruct (not_space c).
Qed.

Lemma header_value_storable line key v :
  plain_line line = true -> header_value line key = Some v -> storable v = true.
Proof.
  intros Hp. unfold header_value. destruct (_ <? _)%nat; [done|]. destruct (negb _); [done|].
  intros [= <-]. apply plain_value_storable; [by apply plain_line_drop, plain_line_drop|].
  apply skip_blanks_first.
Qed.

Lemma extract_header_string_storable line key old :
  plain_line line = true -> storable old = true -> storable (extract_header_string line key old) = true.
Proof.
  intros Hp Ho. unfold extract_header_string. destruct (header_value line key) eqn:E; [|done].
  by eapply header_value_storable.
Qed.

Lemma strtol_in_int64 s : in_int64 (strtol s).1.
Proof. unfold strtol. destruct (scan_integer s) as [[v rest]|]; simpl; unfold in_int64, INT64_MIN, INT64_MAX; lia. Qed.

Lemma extract_header_long_in_int64 line key old : in_int64 old -> in_int64 (extract_header_long line key old).
Proof.
  intros Ho. unfold extract_header_long. destruct (header_value line key) as [tmp|]; [|done].
  destruct (scan_integer tmp); [apply strtol_in_int64|done].
Qed.

(** ** The client *)

(** The scratch fields from which the next response is made. *)
Record client_storable (c : CurlEasy) : Prop := {
  storable_strings : Forall (fun s => storable s = true)
    [last_etag_ c; last_last_modified_ c; last_content_type_ c; last_cache_control_ c; last_retry_after_ c];
  storable_numbers : Forall in_int64 [last_rl_remaining_ c; last_rl_reset_ c]
}.

(** Between two transfers the strings are moved out. *)
Record client_clean (c : CurlEasy) : Prop := {
  clean_strings : Forall (fun s => s = "")
    [last_etag_ c; last_last_modified_ c; last_content_type_ c; last_cache_control_ c; last_retry_after_ c];
  clean_numbers : Forall in_int64 [last_rl_remaining_ c; last_rl_reset_ c]
}.

Lemma clean_storable c : client_clean c -> client_storable c.
Proof. intros [Hs Hn]. split; [|done]. eapply Forall_impl; [exact Hs|]. by intros ? ->. Qed.

(** A transfer of plain header lines whose status is a [long]. *)
Definition plain_event (e : CurlEvent) : Prop :=
  match e with OnHeader line => plain_line line = true | OnBody _ => True end.
Definition plain_transfer (t : Transfer) : Prop :=
  Forall plain_event (tr_events t) /\ in_int64 (tr_response_code t).

Lemma new_client_clean policy_ : client_clean (new_curl_easy policy_).
Proof. by split; repeat constructor. Qed.

Lemma header_cb_storable line c : plain_line line = true -> client_storable c -> client_storable (header_cb line c).
Proof.
  intros Hp [Hs Hn]. rewrite !Forall_cons in Hs; rewrite !Forall_cons in Hn; destruct_and?. split; rewrite !Forall_cons;
    split_and!; try done; by apply extract_header_string_storable || by apply extract_header_long_in_int64.
Qed.

Lemma callbacks_storable events body c :
  Forall plain_event events -> client_storable c -> client_storable (curl_callbacks events body c).2.
Proof.
  intros He. revert body c. induction He as [|[line|bytes] events Hl _ IH]; intros body c Hc; [done|..]; simpl;
    apply IH; [by apply header_cb_storable|done].
Qed.

Lemma response_of_storable c body t :
  client_storable c -> in_int64 (tr_response_code t) -> response_storable (response_of c body t).
Proof.
  intros [Hs Hn] Ht. rewrite !Forall_cons in Hs; rewrite !Forall_cons in Hn; destruct_and?. by split; rewrite !Forall_cons.
Qed.

(** Without a [Cache-Control] header the field stays as it is. *)
Definition no_cache_control (e : CurlEvent) : Prop :=
  match e with OnHeader line => header_value line CACHE_CONTROL = None | OnBody _ => True end.

Lemma callbacks_cache_control events body c :
  Forall no_cache_control events -> last_cache_control_ (curl_callbacks events body c).2 = last_cache_control_ c.
Proof.
  intros He. revert body c. induction He as [|[line|bytes] events Hl _ IH]; intros body c; [done|..]; simpl;
    rewrite IH; [|done]. simpl. unfold extract_header_string. by rewrite Hl.
Qed.

(** Setting options and header lists does not touch the scratch fields. *)
Definition same_scratch (c c' : CurlEasy) : Prop :=
  (last_etag_ c, last_last_modified_ c, last_content_type_ c, last_cache_control_ c, last_retry_after_ c,
   last_rl_remaining_ c, last_rl_reset_ c) =
  (last_etag_ c', last_last_modified_ c', last_content_type_ c', last_cache_control_ c', last_retry_after_ c',
   last_rl_remaining_ c', last_rl_reset_ c').

#[export] Instance same_scratch_equiv : Equivalence same_scratch.
Proof. unfold same_scratch. split; [done|by intros ?? ->|by intros ??? -> ->]. Qed.

#[export] Instance client_storable_proper : Proper (same_scratch ==> iff) client_storable.
Proof.
  intros c c' [= E1 E2 E3 E4 E5 E6 E7]. split; intros [Hs Hn]; split; congruence.
Qed.
