(* ===== verification/CacheSpec.v ===== *)
(** * What the HTTP client promises about its cache

    Seen from outside, the client keeps for every request at most one entry: a response and
    the time it was stored.  [get_step] says how a request uses and changes that entry;
    [get] on the files of the cache and the libcurl handle refines it. *)
From Stdlib Require Import ZArith Lia Ascii String.
From stdpp Require Import base tactics list gmap strings.
From S2P Require Import Prelude Double CppString CppFormat StringUtils Effects HttpModel NetworkCache CacheProps CurlEasy HeaderProps.
Open Scope string_scope.
Open Scope Z_scope.

(** ** Freshness *)

(** [fresh_enough] at a given time. *)
Definition fresh_at (policy_ : NetworkCachePolicy) (m : Meta) (now : Z) : bool :=
  let age := Z.max (wrap64 (now - unix_ts_s_ m)) 0 in
  default (age <=? ttl_s_ policy_)
    (fresh_directives policy_ age (concat (comma_token <$> comma_fields (Meta_cache_control_ m)))).

Lemma fresh_enough_at `{SystemCalls} policy_ m d :
  fresh_enough policy_ m d =
  (Ret (fresh_at policy_ m (now_s (disk_clock_reads d))), mkDisk (files d) (S (disk_clock_reads d))).
Proof.
  unfold fresh_enough, fresh_at, read_clock, io_bind, io_of. rewrite split_comma_fields. cbv zeta.
  by destruct (fresh_directives _ _ _).
Qed.

(** What a directive of [Cache-Control] asks for. *)
Inductive Directive : Type :=
| NoStore
| NoCache
| MaxAge (seconds : Z).

Definition directive_of (token : string) : option Directive :=
  let t := trim token in
  let n := String.length t in
  if ieq_prefix t n NO_STORE_KEY then Some NoStore
  else if ieq_prefix t n NO_CACHE_KEY then Some NoCache
  else if ieq_prefix t n MAX_AGE_KEY then
    pos ← find_char "=" t;
    let '(max_age, end_) := strtol (trim (str_drop (pos + 1) t)) in
    if at_terminator end_ && (0 <=? max_age) then Some (MaxAge max_age) else None
  else None.

Definition directive_allows (ttl age : Z) (d : Directive) : bool :=
  match d with
  | NoStore => false
  | NoCache => age <=? 0
  | MaxAge s => age <=? Z.min ttl s
  end.

Lemma fresh_directives_first policy_ age toks :
  fresh_directives policy_ age toks = directive_allows (ttl_s_ policy_) age <$> head (omap directive_of toks).
Proof.
  induction toks as [|t toks IH]; [done|]. cbn [fresh_directives omap list_omap]. unfold directive_of at 1.
  rewrite IH. clear IH. set (rest := omap directive_of toks). cbv zeta.
  destruct (ieq_prefix _ _ NO_STORE_KEY); [done|]. destruct (ieq_prefix _ _ NO_CACHE_KEY); [done|].
  destruct (ieq_prefix _ _ MAX_AGE_KEY); [|done]. destruct (find_char _ _); [|done]. cbn [mbind option_bind].
  destruct (strtol _) as [max_age end_]. by destruct (_ && _).
Qed.

(** C32: the first directive of [Cache-Control] that is understood decides freshness alone,
    names compared without case and blanks around fields ignored: [no-store] never,
    [no-cache] at age zero, [max-age] up to the smaller of it and the time to live; later
    directives, [no-store] among them, have no say; without one the time to live decides. *)
Theorem freshness_by_first_directive `{SystemCalls} policy_ m d :
  let age := Z.max (wrap64 (now_s (disk_clock_reads d) - unix_ts_s_ m)) 0 in
  (fresh_enough policy_ m d).1 =
  Ret (match head (omap directive_of (concat (comma_token <$> comma_fields (Meta_cache_control_ m)))) with
       | Some NoStore => false
       | Some NoCache => age =? 0
       | Some (MaxAge s) => (age <=? ttl_s_ policy_) && (age <=? s)
       | None => age <=? ttl_s_ policy_
       end).
Proof.
  cbv zeta. rewrite fresh_enough_at. unfold fresh_at. rewrite fresh_directives_first. cbn [fst].
  set (age := Z.max _ 0). assert (0 <= age) as Hage by (unfold age; lia).
  destruct (head _) as [[| |s]|]; cbn; f_equal; try done.
  - destruct (Z.leb_spec age 0), (Z.eqb_spec age 0); done || lia.
  - destruct (Z.leb_spec age (Z.min (ttl_s_ policy_) s)), (Z.leb_spec age (ttl_s_ policy_)), (Z.leb_spec age s);
      done || lia.
Qed.

(** ** Entries *)

(** A stored response and its time stamp. *)
Definition Entry : Type := (Z * Response)%type.

(** The files hold this entry for the request. *)
Definition has_entry `{SystemCalls} (req : Request) (d : Disk) (e : option Entry) : Prop :=
  match e with
  | None => files d !! meta_path req = None \/ files d !! body_path req = None
  | Some (ts, resp) =>
      response_storable resp /\ in_int64 ts /\
      files d !! body_path req = Some (Response_body_ resp) /\
      files d !! meta_path req = Some (meta_text (response_meta resp ts))
  end.

(** How one request uses the entry at time [now]: what it returns, the entry after it and
    whether the server was asked; [ask] is the server's answer to the given additional
    headers, and [stored] the time at which its answer was stored. *)
Definition get_step (policy_ : NetworkCachePolicy) (url : string) (e : option Entry) (now stored : Z)
    (ask : list string -> Response) : Response * option Entry * bool :=
  match e with
  | Some (ts, resp) =>
      if fresh_at policy_ (response_meta resp ts) now then (with_url url resp, e, false)
      else
        let r := ask (conditional_headers (response_meta resp ts)) in
        if Response_status_ r =? NOT_MODIFIED then (with_url url resp, Some (stored, resp), true)
        else (r, Some (stored, r), true)
  | None => let r := ask [] in (r, Some (stored, r), true)
  end.

(** ** The client before and after a transfer *)

(** The handle when [curl_easy_perform] is called. *)
Definition prepared (req : Request) (hdrs : list string) (c : CurlEasy) : CurlEasy :=
  let c := set_handle_option CURLOPT_URL (VString (Some (Request_url_ req))) c in
  let c := match headers_ c with
           | Some id => set_headers_ None (delete id (slists c)) (next_slist c) c
           | None => c
           end in
  let c := fold_left (fun c h => slist_append h c) hdrs c in
  let c := match headers_ c with
           | Some id => set_handle_option CURLOPT_HTTPHEADER (VSlist id) c
           | None => c
           end in
  let c := clear_scratch c in
  let c := set_handle_option CURLOPT_HTTPGET (VLong HTTP_GET) c in
  let c := set_handle_option CURLOPT_WRITEFUNCTION (VAddress "write_to_string") c in
  let c := set_handle_option CURLOPT_WRITEDATA (VAddress "body") c in
  let c := set_handle_option CURLOPT_HEADERFUNCTION (VAddress "header_cb") c in
  let c := set_handle_option CURLOPT_HEADERDATA (VAddress "this") c in
  let c := set_handle_option CURLOPT_POST (VLong POST) c in
  let c := set_handle_option CURLOPT_UPLOAD (VLong UPLOAD) c in
  set_handle_option CURLOPT_CUSTOMREQUEST (VString CUSTOM_REQUEST) c.

Section Client.
Context `{SystemCalls, LibCurl}.

(** The transfer the server answers a request with, the response the client makes of it,
    and the client afterwards. *)
Definition transfer_of (req : Request) (hdrs : list string) (n : nat) (c : CurlEasy) : Transfer :=
  curl_easy_perform n (handle_options (prepared req hdrs c)) (slists (prepared req hdrs c)).

Definition answer_of (req : Request) (hdrs : list string) (n : nat) (c : CurlEasy) : Response :=
  let t := transfer_of req hdrs n c in
  let '(body, c') := curl_callbacks (tr_events t) "" (prepared req hdrs c) in
  response_of (set_error_buf (tr_error t) c') body t.

Definition client_after (req : Request) (hdrs : list string) (n : nat) (c : CurlEasy) : CurlEasy :=
  let t := transfer_of req hdrs n c in
  let '(_, c') := curl_callbacks (tr_events t) "" (prepared req hdrs c) in
  clear_moved (set_error_buf (tr_error t) c').

Hypothesis curl_ok : forall o, curl_easy_setopt_rc o = CURLE_OK.

Lemma setopt_ok o v w : setopt o v w = (Ret tt, set_client (set_handle_option o v (client w)) w).
Proof. unfold setopt. rewrite curl_ok. done. Qed.

Lemma set_headers_ok hs w :
  exists c, set_headers hs w = (Ret tt, set_client c w) /\
    c = (let c0 := match headers_ (client w) with
                   | Some id => set_headers_ None (delete id (slists (client w))) (next_slist (client w)) (client w)
                   | None => client w
                   end in
         let c1 := fold_left (fun c h => slist_append h c) hs c0 in
         match headers_ c1 with
         | Some id => set_handle_option CURLOPT_HTTPHEADER (VSlist id) c1
         | None => c1
         end).
Proof.
  assert (forall l c, io_each (fun h => on_client (slist_append h)) l (set_client c w) =
    (Ret tt, set_client (fold_left (fun c h => slist_append h c) l c) w)) as Hl.
  { induction l as [|h l IH]; intros c; [done|]. simpl. unfold io_bind at 1. simpl. apply IH. }
  eexists. split; [|done]. unfold set_headers. unfold io_bind, on_client at 1, io_modify at 1. rewrite Hl.
  unfold io_get. cbn [client set_client]. case_match; [|done]. by rewrite setopt_ok.
Qed.

Lemma before_transfer req hdrs {A} (k : string -> io HttpWorld A) w :
  (do! set_url (Request_url_ req) in do! set_headers hdrs in let! body := prepare_for_new_request in k body) w =
  k "" (set_client (prepared req hdrs (client w)) w).
Proof.
  unfold set_url. erewrite io_bind_of_ret by apply setopt_ok.
  destruct (set_headers_ok hdrs (set_client (set_handle_option CURLOPT_URL (VString (Some (Request_url_ req)))
    (client w)) w)) as (c & E & Hc). erewrite io_bind_of_ret by exact E. clear E.
  unfold prepare_for_new_request, io_bind, on_client, io_modify. rewrite !setopt_ok.
  rewrite Hc. reflexivity.
Qed.

Lemma perform_ok req hdrs w :
  tr_rc (transfer_of req hdrs (transfers w) (client w)) = CURLE_OK ->
  (let! performed := perform_throw "" in make_response (fst performed) (snd performed))
    (set_client (prepared req hdrs (client w)) w) =
  (Ret (answer_of req hdrs (transfers w) (client w)),
   mkHttpWorld (client_after req hdrs (transfers w) (client w)) (disk w) (S (transfers w)) (sleeps w) (draws w)).
Proof.
  intros Hrc. unfold answer_of, client_after, io_bind, perform_throw, make_response. cbn [client transfers set_client].
  unfold transfer_of in *. destruct (curl_callbacks _ _ _) as [body c]. by rewrite Hrc.
Qed.

Lemma get_transfer_ok req hit w :
  let hdrs := match hit with
              | Some hit => (Request_headers_ req ++ conditional_headers (meta_ hit))%list
              | None => Request_headers_ req
              end in
  let r := answer_of req hdrs (transfers w) (client w) in
  let w1 := mkHttpWorld (client_after req hdrs (transfers w) (client w)) (disk w) (S (transfers w)) (sleeps w)
              (draws w) in
  tr_rc (transfer_of req hdrs (transfers w) (client w)) = CURLE_OK ->
  get_transfer req hit w =
  match hit with
  | Some hit =>
      if Response_status_ r =? NOT_MODIFIED then
        (let! meta := on_disk (refresh_meta_timestamp (base_path_ hit) (meta_ hit)) in
         io_ret (get_cached_response (mkHit (in_ hit) (Hit_url_ hit) (base_path_ hit) meta))) w1
      else (do! on_disk (cache_response (cache_policy (client w1)) req r) in io_ret r) w1
  | None => (do! on_disk (cache_response (cache_policy (client w1)) req r) in io_ret r) w1
  end.
Proof.
  intros hdrs r w1 Hrc. unfold get_transfer. fold hdrs. rewrite before_transfer.
  pose proof (perform_ok req hdrs w Hrc) as Hp. fold r w1 in Hp. clearbody r w1.
  unfold io_bind in Hp. unfold io_bind at 1. destruct (perform_throw _ _) as [[p|x|] w2]; [|done|done].
  unfold io_bind at 1. rewrite Hp. unfold io_bind at 1, io_get. destruct hit as [hit|]; [|done].
  by case_match.
Qed.

(** The cache policy of a client never changes. *)
Lemma prepared_policy req hdrs c : cache_policy (prepared req hdrs c) = cache_policy c.
Proof.
  assert (forall l c', cache_policy (fold_left (fun c h => slist_append h c) l c') = cache_policy c') as Hl.
  { induction l as [|h l IH]; intros c'; [done|]. simpl. rewrite IH. unfold slist_append. by case_match. }
  unfold prepared. cbn -[fold_left]. case_match; cbn -[fold_left]; rewrite Hl; by case_match.
Qed.

Lemma callbacks_policy events body c : cache_policy (curl_callbacks events body c).2 = cache_policy c.
Proof. revert body c. induction events as [|[l|b] events IH]; intros body c; [done|..]; simpl; by rewrite IH. Qed.

Lemma client_after_policy req hdrs n c : cache_policy (client_after req hdrs n c) = cache_policy c.
Proof.
  unfold client_after. pose proof (callbacks_policy (tr_events (transfer_of req hdrs n c)) "" (prepared req hdrs c)) as E.
  destruct (curl_callbacks _ _ _) as [b c']. cbn [snd] in E.
  by rewrite <- (prepared_policy req hdrs c), <- E.
Qed.

(** The responses it makes can be stored. *)
Lemma set_option_scratch o v c c' : same_scratch c c' -> same_scratch (set_handle_option o v c) c'.
Proof. done. Qed.

Lemma append_all_scratch l c c' :
  same_scratch c c' -> same_scratch (fold_left (fun c h => slist_append h c) l c) c'.
Proof.
  revert c. induction l as [|h l IH]; intros c Hc; [done|]. apply IH. unfold slist_append. by case_match.
Qed.

Lemma prepared_scratch req hdrs c : same_scratch (prepared req hdrs c) c.
Proof.
  unfold prepared. cbv zeta. do 7 apply set_option_scratch.
  set (c1 := set_handle_option CURLOPT_URL _ c). set (c2 := match headers_ c1 with Some _ => _ | None => _ end).
  set (c3 := fold_left _ hdrs c2).
  assert (same_scratch c3 c) as H3.
  { apply append_all_scratch. unfold c2, same_scratch. by destruct (headers_ c1). }
  clearbody c3. apply set_option_scratch. unfold same_scratch in *. by destruct (headers_ c3).
Qed.

Lemma transfer_storable req hdrs n c :
  client_storable c -> plain_transfer (transfer_of req hdrs n c) ->
  response_storable (answer_of req hdrs n c) /\ client_clean (client_after req hdrs n c).
Proof.
  intros Hc [He Ht]. rewrite <- (prepared_scratch req hdrs c) in Hc.
  apply (callbacks_storable _ "" _ He) in Hc. unfold answer_of, client_after. cbv zeta.
  destruct (curl_callbacks _ _ _) as [body c'] eqn:E. cbn [snd] in Hc.
  destruct Hc as [Hs Hn]. split; [by apply response_of_storable|]. split; [by repeat constructor|exact Hn].
Qed.

(** ** The files of the cache *)

Lemma probe_entry policy_ req d e :
  enable_caching_ policy_ = true -> mkdir_ok = true -> has_entry req d e ->
  probe policy_ req d =
  (Ret ('(ts, resp) ← e;
        Some (mkHit (Response_body_ resp) (Request_url_ req) (cache_base req) (response_meta resp ts))), d).
Proof.
  intros He Hm Hent. destruct e as [[ts resp]|]; simpl in Hent |- *.
  - destruct Hent as (Hs & Hn & Hb & Ht). by apply probe_stored.
  - rewrite probe_files by done. destruct Hent as [->| ->]; [done|]. by destruct (files d !! meta_path req).
Qed.

(** Entries of other hashes stay. *)
Definition others_kept (req : Request) (d d' : Disk) : Prop :=
  forall req', hash_string (Request_url_ req') <> hash_string (Request_url_ req) ->
  forall e, has_entry req' d e -> has_entry req' d' e.

Lemma others_kept_files req d d' :
  (forall q, q <> body_path req -> q <> meta_path req ->
     q <> body_path req +:+ ".tmp" -> q <> meta_path req +:+ ".tmp" -> files d' !! q = files d !! q) ->
  others_kept req d d'.
Proof.
  intros Fo req' Hh e. destruct (cache_paths_distinct req' req) as (A1 & A2 & A3 & A4 & A5 & A6).
  destruct (A6 Hh) as [A7 A8]. destruct (cache_paths_distinct req req') as (B1 & _).
  destruct e as [[ts resp]|]; simpl; by rewrite !Fo by auto.
Qed.

Lemma cache_response_entry policy_ req resp d :
  enable_caching_ policy_ = true -> mkdir_ok = true -> writable (body_path req) -> writable (meta_path req) ->
  response_storable resp -> in_int64 (now_s (disk_clock_reads d)) ->
  exists d', cache_response policy_ req resp d = (Ret tt, d') /\
    has_entry req d' (Some (now_s (disk_clock_reads d), resp)) /\ others_kept req d d' /\
    disk_clock_reads d' = S (disk_clock_reads d).
Proof.
  intros He Hm Hb Hme Hs Hn.
  destruct (cache_response_files policy_ req resp d He Hm Hb Hme) as (d' & Hc & Hr & Fb & Fm & Fo).
  exists d'. split; [exact Hc|]. split; [done|]. split; [|done]. by apply others_kept_files.
Qed.

Lemma refresh_entry req resp ts d :
  writable (meta_path req) -> in_int64 (now_s (disk_clock_reads d)) -> has_entry req d (Some (ts, resp)) ->
  exists d', refresh_meta_timestamp (cache_base req) (response_meta resp ts) d =
    (Ret (response_meta resp (now_s (disk_clock_reads d))), d') /\
    has_entry req d' (Some (now_s (disk_clock_reads d), resp)) /\ others_kept req d d'.
Proof.
  intros Hme Hn (Hs & _ & Fb & _). destruct (cache_paths_distinct req req) as (N1 & N2 & N3 & _).
  unfold refresh_meta_timestamp, save_meta_atomic, read_clock, response_meta, io_bind. fold (meta_path req).
  rewrite write_atomic_writable by done. eexists. split; [reflexivity|]. cbn [files set_files]. split.
  - split_and!; try done; cbn [files set_files]; [|by rewrite lookup_insert_eq].
    by rewrite lookup_insert_ne, lookup_delete_ne by done.
  - apply others_kept_files. intros q _ Q2 _ Q4. cbn [files set_files].
    by rewrite lookup_insert_ne, lookup_delete_ne by done.
Qed.

Definition extra_headers (hit : option Hit) : list string :=
  match hit with Some hit => conditional_headers (meta_ hit) | None => [] end.

(** An answer that is not a 304 to a conditional request is stored and returned. *)
Lemma get_transfer_stores req hit w :
  let hdrs := (Request_headers_ req ++ extra_headers hit)%list in
  let r := answer_of req hdrs (transfers w) (client w) in
  enable_caching_ (cache_policy (client w)) = true -> mkdir_ok = true -> writable (body_path req) ->
  writable (meta_path req) -> in_int64 (now_s (disk_clock_reads (disk w))) ->
  tr_rc (transfer_of req hdrs (transfers w) (client w)) = CURLE_OK -> response_storable r ->
  hit = None \/ Response_status_ r <> NOT_MODIFIED ->
  exists w', get_transfer req hit w = (Ret r, w') /\
    has_entry req (disk w') (Some (now_s (disk_clock_reads (disk w)), r)) /\
    transfers w' = S (transfers w) /\ others_kept req (disk w) (disk w') /\
    client w' = client_after req hdrs (transfers w) (client w) /\
    disk_clock_reads (disk w') = S (disk_clock_reads (disk w)) /\ sleeps w' = sleeps w.
Proof.
  intros hdrs r He Hm Hb Hme Hn Hrc Hst Hcase.
  destruct (cache_response_entry (cache_policy (client w)) req r (disk w) He Hm Hb Hme Hst Hn)
    as (d' & Hc & Hent' & Hoth & Hreads).
  set (w2 := mkHttpWorld (client_after req hdrs (transfers w) (client w)) d' (S (transfers w)) (sleeps w) (draws w)).
  assert (get_transfer req hit w = (Ret r, w2)) as ->.
  2: { exists w2. by split_and!. }
  assert (forall w1, w1 = mkHttpWorld (client_after req hdrs (transfers w) (client w)) (disk w) (S (transfers w))
              (sleeps w) (draws w) ->
    (do! on_disk (cache_response (cache_policy (client w1)) req r) in io_ret r) w1 = (Ret r, w2)) as Hstore.
  { intros w1 ->. cbn [client]. rewrite client_after_policy. unfold io_bind, on_disk, io_lift. cbn [disk].
    by rewrite Hc. }
  rewrite get_transfer_ok.
  - destruct hit as [hit|]; cbn [extra_headers] in *; fold hdrs.
    + fold r. destruct Hcase as [|Hcase%Z.eqb_neq]; [done|]. rewrite Hcase. by apply Hstore.
    + unfold r, hdrs in Hstore |- *. rewrite app_nil_r in Hstore |- *. by apply Hstore.
  - destruct hit as [hit|]; [done|]. unfold hdrs in Hrc. cbn [extra_headers] in Hrc. by rewrite app_nil_r in Hrc.
Qed.

(** A 304 to a conditional request renews the entry. *)
Lemma get_transfer_renews req resp ts w :
  let hit := mkHit (Response_body_ resp) (Request_url_ req) (cache_base req) (response_meta resp ts) in
  let hdrs := (Request_headers_ req ++ extra_headers (Some hit))%list in
  writable (meta_path req) -> in_int64 (now_s (disk_clock_reads (disk w))) ->
  tr_rc (transfer_of req hdrs (transfers w) (client w)) = CURLE_OK ->
  Response_status_ (answer_of req hdrs (transfers w) (client w)) = NOT_MODIFIED ->
  has_entry req (disk w) (Some (ts, resp)) ->
  exists w', get_transfer req (Some hit) w = (Ret (with_url (Request_url_ req) resp), w') /\
    has_entry req (disk w') (Some (now_s (disk_clock_reads (disk w)), resp)) /\
    transfers w' = S (transfers w) /\ others_kept req (disk w) (disk w') /\
    client w' = client_after req hdrs (transfers w) (client w).
Proof.
  intros hit hdrs Hme Hn Hrc Hs Hent.
  destruct (refresh_entry req resp ts (disk w) Hme Hn Hent) as (d' & Hc & Hent' & Hoth).
  rewrite get_transfer_ok by done. change (conditional_headers (meta_ hit)) with (extra_headers (Some hit)). fold hdrs.
  rewrite Hs. cbn [Z.eqb]. rewrite Z.eqb_refl. unfold io_bind, on_disk, io_lift. cbn [disk]. unfold hit at 1 2.
  cbn [base_path_ meta_]. rewrite Hc. eexists. split; [reflexivity|]. by split_and!.
Qed.

(** One request against its entry: a fresh entry is returned without asking the server; a
    stale one is revalidated with its validators, a 304 renews it and returns the stored
    response; any other answer, whatever its status, replaces it; entries of other hashes
    stay as they are. *)
Lemma get_refines_entry req w e :
  let policy_ := cache_policy (client w) in
  let n := disk_clock_reads (disk w) in
  let ask extra := answer_of req (Request_headers_ req ++ extra)%list (transfers w) (client w) in
  let extra := match e with Some (ts, resp) => conditional_headers (response_meta resp ts) | None => [] end in
  let t := transfer_of req (Request_headers_ req ++ extra)%list (transfers w) (client w) in
  let '(r, e', asked) :=
    get_step policy_ (Request_url_ req) e (now_s n) (now_s (match e with Some _ => S n | None => n end)) ask in
  enable_caching_ policy_ = true -> mkdir_ok = true -> writable (body_path req) -> writable (meta_path req) ->
  (forall k, in_int64 (now_s k)) -> tr_rc t = CURLE_OK -> plain_transfer t ->
  client_storable (client w) -> has_entry req (disk w) e ->
  exists w', get req w = (Ret r, w') /\ has_entry req (disk w') e' /\
    transfers w' = (transfers w + (if asked then 1 else 0))%nat /\
    others_kept req (disk w) (disk w') /\ cache_policy (client w') = policy_ /\
    (client w' = client w \/ client_clean (client w')).
Proof.
  intros policy_ n ask extra t. destruct (get_step _ _ _ _ _ _) as [[r e'] asked] eqn:Estep.
  intros He Hm Hb Hme Hn Hrc Hpl Hcs Hent. unfold get. fold policy_.
  destruct (transfer_storable _ _ _ _ Hcs Hpl) as [Hst Hcs'].
  pose proof (probe_entry policy_ req (disk w) e He Hm Hent) as Hprobe.
  unfold io_bind at 1, io_get. unfold io_bind at 1, on_disk at 1, io_lift at 1. fold policy_. rewrite Hprobe.
  destruct w as [c d tn ss dr]. unfold t in *. cbn [client disk transfers set_disk] in *.
  destruct e as [[ts resp]|]; cbn [mbind option_bind].
  - unfold get_step in Estep. unfold io_bind at 1, on_disk at 1, io_lift at 1. cbn [disk set_disk meta_ client transfers].
    rewrite fresh_enough_at. fold n. destruct (fresh_at _ _ _) eqn:Hf.
    + injection Estep as <- <- <-. eexists. split; [reflexivity|]. split; [exact Hent|]. split; [cbn; lia|].
      split; [by intros req' _ e0|by auto].
    + set (hit := mkHit _ _ _ _). set (w1 := set_disk _ _).
      change extra with (extra_headers (Some hit)) in *. change (conditional_headers (response_meta resp ts)) with (extra_headers (Some hit)) in Estep.
      destruct (Z.eqb_spec (Response_status_ (ask (extra_headers (Some hit)))) NOT_MODIFIED) as [Hs|Hs];
        injection Estep as <- <- <-.
      * destruct (get_transfer_renews req resp ts w1) as (w' & Hg & ? & ? & ? & Hc); try done.
        exists w'. rewrite Hc, client_after_policy, Nat.add_1_r. split_and!; by auto.
      * destruct (get_transfer_stores req (Some hit) w1) as (w' & Hg & ? & ? & ? & Hc & _); try done; [by right|].
        exists w'. rewrite Hc, client_after_policy, Nat.add_1_r. split_and!; by auto.
  - injection Estep as <- <- <-.
    destruct (get_transfer_stores req None (mkHttpWorld c d tn ss dr)) as (w' & Hg & ? & ? & ? & Hc & _); try done; [by left|].
    exists w'. rewrite Hc, client_after_policy, Nat.add_1_r. split_and!; by auto.
Qed.
End Client.
