(* ===== verification/CacheSession.v ===== *)
(** * A client and its cache over many requests

    The abstract cache is a map from the hash of a URL to an entry, and a session visits it
    once per request.  Whatever requests a client makes, its files and its answers are
    those of such a session ([session_refines_cache]); as long as entries stay fresh, the
    server is asked once per hash ([session_asks_once]). *)
From Stdlib Require Import ZArith Lia Ascii String.
From stdpp Require Import base tactics list gmap strings.
From S2P Require Import Prelude Double CppString CppFormat StringUtils Effects HttpModel NetworkCache CacheProps CurlEasy HeaderProps CacheSpec.
Open Scope string_scope.
Open Scope Z_scope.

(** ** The abstract cache *)
Abbreviation Cache := (gmap Z Entry).

(** A request, the time at which it is made, the time at which its answer is stored, and
    how the server answers it. *)
Record Visit : Type := mkVisit {
  visit_request : Request;
  visit_now : Z;
  visit_stored : Z;
  visit_ask : list string -> Response
}.

Section Sessions.
Context `{SystemCalls}.

Definition visit_hash (v : Visit) : Z := hash_string (Request_url_ (visit_request v)).

Definition visit_step (policy_ : NetworkCachePolicy) (v : Visit) (A : Cache) : Response * Cache * bool :=
  let '(r, e, asked) := get_step policy_ (Request_url_ (visit_request v)) (A !! visit_hash v)
                          (visit_now v) (visit_stored v) (visit_ask v) in
  (r, partial_alter (fun _ => e) (visit_hash v) A, asked).

(** The answers, the cache afterwards, and how often the server was asked. *)
Fixpoint session (policy_ : NetworkCachePolicy) (vs : list Visit) (A : Cache) : list Response * Cache * nat :=
  match vs with
  | [] => ([], A, O)
  | v :: vs =>
      let '(r, A, asked) := visit_step policy_ v A in
      let '(rs, A, n) := session policy_ vs A in
      (r :: rs, A, ((if asked then 1 else 0) + n)%nat)
  end.

Lemma session_length policy_ vs A rs A' n : session policy_ vs A = (rs, A', n) -> length vs = length rs.
Proof.
  revert A rs A' n. induction vs as [|v vs IH]; intros A rs A' n; cbn [session]; [by intros [= <- _ _]|].
  destruct (visit_step policy_ v A) as [[r A1] asked]. destruct (session policy_ vs A1) as [[rs1 A2] n1] eqn:E.
  intros [= <- _ _]. simpl. f_equal. by eapply IH.
Qed.

(** The files hold this cache. *)
Definition represents (d : Disk) (A : Cache) : Prop :=
  forall req, has_entry req d (A !! hash_string (Request_url_ req)).

Lemma has_entry_same_hash req req' d e :
  hash_string (Request_url_ req) = hash_string (Request_url_ req') -> has_entry req d e -> has_entry req' d e.
Proof. unfold has_entry, body_path, meta_path, cache_base. by intros ->. Qed.

Lemma represents_step req d d' A e :
  represents d A -> has_entry req d' e -> others_kept req d d' ->
  represents d' (partial_alter (fun _ => e) (hash_string (Request_url_ req)) A).
Proof.
  intros HA He Hk req'.
  destruct (decide (hash_string (Request_url_ req') = hash_string (Request_url_ req))) as [E|E].
  - rewrite E, lookup_partial_alter_eq. by eapply has_entry_same_hash.
  - rewrite lookup_partial_alter_ne by done. by apply (Hk req').
Qed.

(** ** Sessions within the time to live *)
Section Window.
Context (policy_ : NetworkCachePolicy) (t0 : Z).
Hypothesis ttl_range : 0 <= ttl_s_ policy_ <= INT64_MAX.

Definition in_window (t : Z) : Prop := t0 <= t <= t0 + ttl_s_ policy_.

(** Entries and visits whose time is in the window and that no directive restricts. *)
Definition lasting_entry (e : Entry) : Prop := in_window e.1 /\ Response_cache_control_ e.2 = "".
Definition lasting_visit (v : Visit) : Prop :=
  in_window (visit_now v) /\ in_window (visit_stored v) /\
  forall extra, Response_cache_control_ (visit_ask v extra) = "".

Lemma lasting_fresh ts resp now :
  lasting_entry (ts, resp) -> in_window now -> fresh_at policy_ (response_meta resp ts) now = true.
Proof.
  intros [Ht Hc] Hn. simpl in Ht, Hc. unfold fresh_at, in_window in *. cbn [Meta_cache_control_ response_meta unix_ts_s_].
  rewrite Hc. simpl. rewrite wrap64_id by (unfold in_int64, INT64_MIN, INT64_MAX in *; lia). lia.
Qed.

Lemma lasting_session vs A :
  Forall lasting_visit vs -> map_Forall (fun _ => lasting_entry) A ->
  (session policy_ vs A).2 = size (list_to_set (visit_hash <$> vs) ∖ dom A : gset Z).
Proof.
  revert A. induction vs as [|v vs IH]; intros A Hvs HA; cbn [session fmap list_fmap list_to_set].
  { simpl. by replace (∅ ∖ dom A : gset Z) with (∅ : gset Z) by set_solver. }
  apply Forall_cons in Hvs as [(Hn & Hs & Ha) Hvs]. unfold visit_step, get_step.
  destruct (A !! visit_hash v) as [[ts resp]|] eqn:E.
  - rewrite lasting_fresh by (done || by apply (HA _ _ E)).
    rewrite <- E, partial_alter_self. specialize (IH A Hvs HA). destruct (session policy_ vs A) as [[rs A'] n].
    simpl in *. rewrite IH. f_equal. apply elem_of_dom_2 in E. set_solver.
  - change (partial_alter _ _ A) with (<[visit_hash v := (visit_stored v, visit_ask v [])]> A).
    specialize (IH (<[visit_hash v := (visit_stored v, visit_ask v [])]> A) Hvs).
    destruct (session policy_ vs _) as [[rs A'] n]. simpl in *.
    rewrite IH by (apply map_Forall_insert_2; [by split; [|apply Ha]|done]).
    apply not_elem_of_dom in E. rewrite dom_insert_L.
    replace (({[visit_hash v]} ∪ list_to_set (visit_hash <$> vs)) ∖ dom A : gset Z)
      with ({[visit_hash v]} ∪ list_to_set (visit_hash <$> vs) ∖ ({[visit_hash v]} ∪ dom A) : gset Z).
    + rewrite (size_union {[visit_hash v]}), size_singleton by set_solver. done.
    + apply set_eq. intros x. destruct (decide (x = visit_hash v)); set_solver.
Qed.

(** One visit: the cache has the entry of the answer afterwards, and keeps lasting. *)
Lemma lasting_visit_step v A :
  lasting_visit v -> map_Forall (fun _ => lasting_entry) A ->
  exists ts resp A', visit_step policy_ v A =
      (match A !! visit_hash v with
       | Some _ => with_url (Request_url_ (visit_request v)) resp
       | None => resp
       end, A', match A !! visit_hash v with Some _ => false | None => true end) /\
    A' !! visit_hash v = @Some Entry (ts, resp) /\
    (forall h, h <> visit_hash v -> A' !! h = A !! h) /\
    map_Forall (fun _ => lasting_entry) A' /\
    (A !! visit_hash v = None /\ resp = visit_ask v [] \/ A !! visit_hash v = @Some Entry (ts, resp)).
Proof.
  intros (Hn & Hs & Ha) HA. unfold visit_step, get_step.
  destruct (A !! visit_hash v) as [[ts resp]|] eqn:E.
  - rewrite lasting_fresh by (done || by apply (HA _ _ E)).
    exists ts, resp, A. split_and!; try done; [|by right]. by rewrite <- E, partial_alter_self.
  - change (partial_alter _ _ A) with (<[visit_hash v := (visit_stored v, visit_ask v [])]> A).
    exists (visit_stored v), (visit_ask v []), (<[visit_hash v := (visit_stored v, visit_ask v [])]> A).
    split_and!; try done; [by rewrite lookup_insert_eq|intros h Hh; by rewrite lookup_insert_ne| |by left].
    apply map_Forall_insert_2; [by split; [|apply Ha]|done].
Qed.

(** The answers of a session within the window: an entry that was there answers every
    visit of its hash; without one the first visit is answered by the server; and every
    later visit repeats the earlier answers of its hash under its own URL. *)
Lemma lasting_answers vs A i v r :
  Forall lasting_visit vs -> map_Forall (fun _ => lasting_entry) A ->
  vs !! i = Some v -> (session policy_ vs A).1.1 !! i = Some r ->
  (forall ts resp, A !! visit_hash v = @Some Entry (ts, resp) -> r = with_url (Request_url_ (visit_request v)) resp) /\
  (A !! visit_hash v = None -> visit_hash v ∉ (visit_hash <$> take i vs) -> r = visit_ask v []) /\
  (forall j v0 r0, (j < i)%nat -> vs !! j = Some v0 -> (session policy_ vs A).1.1 !! j = Some r0 ->
     visit_hash v0 = visit_hash v -> r = with_url (Request_url_ (visit_request v)) r0).
Proof.
  revert A i. induction vs as [|v1 vs IH]; intros A i Hvs HA; [done|]. apply Forall_cons in Hvs as [Hv1 Hvs].
  destruct (lasting_visit_step v1 A Hv1 HA) as (ts1 & resp1 & A1 & Estep & E1 & Hne & HA1 & Hresp).
  specialize (IH A1). cbn [session]. rewrite Estep. destruct (session policy_ vs A1) as [[rs A2] n].
  cbn [fst] in IH |- *. destruct i as [|i]; cbn [lookup list_lookup take].
  - intros [= <-] [= <-]. split_and!; [| |intros j; lia].
    + intros ts resp E. rewrite E in Hresp |- *. by destruct Hresp as [[Hno _]|[= <- <-]].
    + intros Hno _. rewrite Hno in Hresp |- *. by destruct Hresp as [[_ ->]|].
  - intros Hv Hr. destruct (IH i Hvs HA1 Hv Hr) as (I1 & I2 & I3). cbn [fmap list_fmap].
    destruct (decide (visit_hash v = visit_hash v1)) as [Eh|Eh].
    + assert (r = with_url (Request_url_ (visit_request v)) resp1) as Hr1 by (eapply I1; by rewrite Eh).
      split_and!.
      * intros ts resp E. rewrite Eh in E. rewrite E in Hresp. by destruct Hresp as [[Hno _]|[= <- <-]].
      * intros _ Hnin. exfalso. apply Hnin. rewrite Eh. apply list_elem_of_here.
      * intros [|j] v0 r0 Hj; [|by apply I3; lia]. intros [= <-] [= <-] _. rewrite Hr1. by case_match.
    + rewrite Hne in I1, I2 by done. split_and!; [done| |].
      * intros Hno Hnin. apply I2; [done|]. intros Hin. apply Hnin. by apply list_elem_of_further.
      * intros [|j] v0 r0 Hj; [|by apply I3; lia]. intros [= <-] _ Heq. by destruct Eh.
Qed.
End Window.
End Sessions.

(** ** The client *)
Section Client.
Context `{SystemCalls, LibCurl}.

(** The requests of a session, one after the other. *)
Fixpoint gets (reqs : list Request) : io HttpWorld (list Response) :=
  match reqs with
  | [] => io_ret []
  | req :: reqs => let! r := get req in let! rs := gets reqs in io_ret (r :: rs)
  end.

(** A machine on which nothing fails: files can be written, the clock is a [long], and
    libcurl delivers plain header lines. *)
Record machine_ok : Prop := {
  ok_mkdir : mkdir_ok = true;
  ok_files : forall p, writable p;
  ok_clock : forall k, in_int64 (now_s k);
  ok_setopt : forall o, curl_easy_setopt_rc o = CURLE_OK;
  ok_transfers : forall n opts lists, let t := curl_easy_perform n opts lists in
    tr_rc t = CURLE_OK /\ plain_transfer t
}.

(** A visit at which the time and the answers are the machine's. *)
Definition real_visit (v : Visit) : Prop :=
  (exists k, visit_now v = now_s k /\ (visit_stored v = now_s k \/ visit_stored v = now_s (S k))) /\
  exists n c, client_clean c /\ forall extra,
    visit_ask v extra = answer_of (visit_request v) (Request_headers_ (visit_request v) ++ extra)%list n c.

Lemma get_refines_visit (ok : machine_ok) req w A :
  enable_caching_ (cache_policy (client w)) = true -> client_clean (client w) -> represents (disk w) A ->
  exists v w', visit_request v = req /\ real_visit v /\
    (forall extra, visit_ask v extra =
       answer_of req (Request_headers_ req ++ extra)%list (transfers w) (client w)) /\
    let '(r, A', asked) := visit_step (cache_policy (client w)) v A in
    get req w = (Ret r, w') /\ represents (disk w') A' /\ client_clean (client w') /\
    cache_policy (client w') = cache_policy (client w) /\
    transfers w' = (transfers w + (if asked then 1 else 0))%nat.
Proof.
  intros He Hc HA. destruct ok as [Hm Hf Hn Hs Ht]. set (e := A !! hash_string (Request_url_ req)).
  set (n := disk_clock_reads (disk w)).
  set (v := mkVisit req (now_s n) (now_s (match e with Some _ => S n | None => n end))
              (fun extra => answer_of req (Request_headers_ req ++ extra)%list (transfers w) (client w))).
  pose proof (get_refines_entry Hs req w e) as Hget. cbv zeta in Hget. fold n in Hget.
  exists v. unfold visit_step. change (A !! visit_hash v) with e. cbn [v visit_request visit_now visit_stored visit_ask].
  destruct (get_step _ _ _ _ _ _) as [[r e'] asked].
  destruct Hget as (w' & Hg & He' & Htr & Hk & Hp & Hcs); try done; try apply Ht; try apply HA; [by apply clean_storable|].
  exists w'. split; [done|]. split.
  { split; [exists n; split; [done|]; destruct e; [by right|by left]|]. by exists (transfers w), (client w). }
  split; [done|]. split_and!; try done; [by apply (represents_step req (disk w))|]. by destruct Hcs as [->|].
Qed.

(** The server is asked in turn: a visit of the session would be answered by the transfer
    that follows those made before it. *)
Definition asked_in_turn (policy_ : NetworkCachePolicy) (vs : list Visit) (A : Cache) (n : nat) : Prop :=
  forall i v, vs !! i = Some v -> exists c, client_clean c /\
    forall extra, visit_ask v extra = answer_of (visit_request v) (Request_headers_ (visit_request v) ++ extra)%list
      (n + (session policy_ (take i vs) A).2) c.

(** One step of the session per request. *)
Lemma session_refines (ok : machine_ok) reqs w A :
  let policy_ := cache_policy (client w) in
  enable_caching_ policy_ = true -> client_clean (client w) -> represents (disk w) A ->
  exists vs w', visit_request <$> vs = reqs /\ Forall real_visit vs /\
    asked_in_turn policy_ vs A (transfers w) /\
    let '(rs, A', asked) := session policy_ vs A in
    gets reqs w = (Ret rs, w') /\ represents (disk w') A' /\ client_clean (client w') /\
    transfers w' = (transfers w + asked)%nat.
Proof.
  revert w A. induction reqs as [|req reqs IH]; intros w A policy_ He Hc HA.
  { exists [], w. cbn [session]. split_and!; done || lia. }
  destruct (get_refines_visit ok req w A He Hc HA) as (v & w1 & Hv & Hr & Hask & Hstep). fold policy_ in Hstep.
  destruct (visit_step policy_ v A) as [[r A1] asked] eqn:Ev.
  destruct Hstep as (Hg & HA1 & Hc1 & Hp & Ht1).
  destruct (IH w1 A1) as (vs & w' & Hvs & Hrs & Hturn & Hsession); [by rewrite Hp|done|done|].
  rewrite Hp in Hsession, Hturn. fold policy_ in Hsession, Hturn.
  exists (v :: vs), w'. split; [by rewrite fmap_cons, Hv, Hvs|]. split; [by constructor|]. split.
  - intros [|i] v0; cbn [lookup list_lookup take session].
    + intros [= <-]. exists (client w). split; [done|]. intros extra. by rewrite Hask, Hv, Nat.add_0_r.
    + intros Hi. rewrite Ev. destruct (Hturn i v0 Hi) as (c & Hcc & Hx). exists c. split; [done|].
      intros extra. rewrite Hx, Ht1. destruct (session policy_ (take i vs) A1) as [[rs A2] n]. simpl. f_equal. lia.
  - cbn [session]. rewrite Ev. destruct (session policy_ vs A1) as [[rs A2] n].
    destruct Hsession as (Hgs & HA2 & Hc2 & Ht2). split_and!; try done; [|lia].
    cbn [gets]. erewrite io_bind_of_ret by exact Hg. by erewrite io_bind_of_ret by exact Hgs.
Qed.

(** C13: over any sequence of requests the client's files and answers are those of the
    abstract cache: it returns what the session returns (fresh entries without asking,
    stale ones after revalidation, everything else as the server answers), its files hold
    the session's entries, and it makes exactly the transfers the session asks for. *)
Theorem session_refines_cache (ok : machine_ok) reqs w A :
  let policy_ := cache_policy (client w) in
  enable_caching_ policy_ = true -> client_clean (client w) -> represents (disk w) A ->
  exists vs w', visit_request <$> vs = reqs /\ Forall real_visit vs /\
    let '(rs, A', asked) := session policy_ vs A in
    gets reqs w = (Ret rs, w') /\ represents (disk w') A' /\ client_clean (client w') /\
    transfers w' = (transfers w + asked)%nat.
Proof.
  intros policy_ He Hc HA. destruct (session_refines ok reqs w A He Hc HA) as (vs & w' & Hvs & Hr & _ & Hs). eauto.
Qed.

Lemma real_visit_lasting t0 v (policy_ : NetworkCachePolicy) :
  (forall n opts lists, Forall no_cache_control (tr_events (curl_easy_perform n opts lists))) ->
  (forall k, in_window policy_ t0 (now_s k)) -> real_visit v -> lasting_visit policy_ t0 v.
Proof.
  intros Hcc Hw [(k & Hn & Hs) (n & c & Hc & Ha)]. split_and!.
  - by rewrite Hn.
  - destruct Hs as [->| ->]; apply Hw.
  - intros extra. rewrite Ha. unfold answer_of. cbv zeta.
    pose proof (callbacks_cache_control (tr_events (transfer_of (visit_request v)
      (Request_headers_ (visit_request v) ++ extra)%list n c)) ""
      (prepared (visit_request v) (Request_headers_ (visit_request v) ++ extra)%list c) (Hcc _ _ _)) as E.
    destruct (curl_callbacks _ _ _) as [body c']. simpl in E |- *. rewrite E.
    pose proof (prepared_scratch (visit_request v) (Request_headers_ (visit_request v) ++ extra)%list c) as Hp.
    injection Hp as _ _ _ Hp _ _ _. rewrite Hp. apply clean_strings in Hc. by inversion_clear Hc as [|?? _ ?];
      repeat match goal with H : Forall _ (_ :: _) |- _ => inversion_clear H end.
Qed.

(** The distinct hashes of some requests. *)
Definition url_hashes (reqs : list Request) : gset Z :=
  list_to_set ((fun req => hash_string (Request_url_ req)) <$> reqs).

Lemma visit_hashes vs : list_to_set (visit_hash <$> vs) = url_hashes (visit_request <$> vs).
Proof. unfold url_hashes. by rewrite <- list_fmap_compose. Qed.

(** C20: starting with an empty cache and while nothing expires, a session of any length
    makes exactly one transfer per hash of a requested URL, whatever the order and the
    repetitions of the requests: the first request of a hash is answered by the server, by
    the transfer that follows those of the hashes requested before it and with the
    request's own headers only; every later request of that hash gets that same answer -
    status, body and headers - under its own URL. *)
Theorem session_asks_once (ok : machine_ok) t0 reqs w :
  let policy_ := cache_policy (client w) in
  enable_caching_ policy_ = true -> client_clean (client w) -> represents (disk w) ∅ ->
  0 <= ttl_s_ policy_ <= INT64_MAX -> (forall k, t0 <= now_s k <= t0 + ttl_s_ policy_) ->
  (forall n opts lists, Forall no_cache_control (tr_events (curl_easy_perform n opts lists))) ->
  exists rs w', gets reqs w = (Ret rs, w') /\ length rs = length reqs /\
    transfers w' = (transfers w + size (url_hashes reqs))%nat /\
    forall i req r, reqs !! i = Some req -> rs !! i = Some r ->
      (hash_string (Request_url_ req) ∉ url_hashes (take i reqs) ->
         exists c, client_clean c /\
           r = answer_of req (Request_headers_ req) (transfers w + size (url_hashes (take i reqs))) c) /\
      (forall j req0 r0, (j < i)%nat -> reqs !! j = Some req0 -> rs !! j = Some r0 ->
         hash_string (Request_url_ req0) = hash_string (Request_url_ req) ->
         r = with_url (Request_url_ req) r0).
Proof.
  intros policy_ He Hc HA Httl Hclock Hcc.
  destruct (session_refines ok reqs w ∅ He Hc HA) as (vs & w' & Hvs & Hreal & Hturn & Hs). fold policy_ in Hs, Hturn.
  assert (Forall (lasting_visit policy_ t0) vs) as Hl
    by (eapply Forall_impl; [exact Hreal|]; intros v Hv; by apply real_visit_lasting).
  assert (forall k, (session policy_ (take k vs) ∅).2 = size (url_hashes (take k reqs))) as Hn.
  { intros k. rewrite (lasting_session policy_ t0 Httl) by (by apply Forall_take || by apply map_Forall_empty).
    by rewrite dom_empty_L, difference_empty_L, visit_hashes, <- Hvs, fmap_take. }
  pose proof (lasting_answers policy_ t0 Httl vs ∅) as Hans.
  pose proof (Hn (length vs)) as Hall. rewrite !take_ge in Hall by (rewrite <- ?Hvs, ?length_fmap; done).
  destruct (session policy_ vs ∅) as [[rs A'] n] eqn:E. cbn [fst snd] in *. destruct Hs as (Hg & _ & _ & Ht).
  exists rs, w'. split_and!; [done| |by rewrite Ht, Hall|].
  { rewrite <- Hvs, length_fmap. symmetry. by eapply session_length. }
  intros i req r Hi Hr. rewrite <- Hvs in Hi. apply list_lookup_fmap_Some in Hi as (v & -> & Hi).
  destruct (Hans i v r Hl ltac:(apply map_Forall_empty) Hi Hr) as (_ & H2 & H3). split.
  - intros Hnin. destruct (Hturn i v Hi) as (c & Hclean & Hask). exists c. split; [done|].
    rewrite H2, Hask, Hn, app_nil_r; [done|by rewrite lookup_empty|].
    intros Hin. apply Hnin. rewrite <- Hvs, <- fmap_take, <- visit_hashes. by apply elem_of_list_to_set.
  - intros j req0 r0 Hj Hj0 Hr0 Hh. rewrite <- Hvs in Hj0. apply list_lookup_fmap_Some in Hj0 as (v0 & -> & Hj0).
    by apply (H3 j v0).
Qed.
End Client.
