(* ===== verification/CurlProps.v ===== *)
(** * The HTTP client: properties

    How often and how long [get_with_retries] tries, what it returns, and how retries and
    the cache interact. *)
From Stdlib Require Import ZArith Lia Ascii String.
From stdpp Require Import base tactics list gmap strings.
From S2P Require Import Prelude Double CppString CppFormat StringUtils Effects HttpModel NetworkCache HttpInterfaces CacheProps CurlEasy HeaderProps CacheSpec CacheSession.
Open Scope string_scope.
Open Scope Z_scope.

Section Client.
Context `{SystemCalls, LibCurl}.

(** ** Every call finishes *)
Lemma setopt_total o v : io_total (setopt o v).
Proof. unfold setopt. case_match; unfold on_client; auto with io. Qed.

Lemma write_atomic_total p bytes : io_total (write_atomic p bytes).
Proof. unfold write_atomic. repeat case_match; auto with io. Qed.
#[local] Hint Resolve setopt_total write_atomic_total : io.

Lemma set_headers_total hs : io_total (set_headers hs).
Proof.
  unfold set_headers, on_client. apply io_total_bind; [auto with io|]. intros _.
  apply io_total_bind; [auto with io|]. intros _. apply io_total_bind; [auto with io|]. intros w.
  case_match; auto with io.
Qed.

Lemma prepare_total : io_total prepare_for_new_request.
Proof. unfold prepare_for_new_request, on_client. auto 20 with io. Qed.

Lemma perform_total body : io_total (perform_throw body).
Proof.
  intros w. unfold perform_throw. destruct (curl_callbacks _ _ _). by case_match.
Qed.

Lemma create_base_path_total req : io_total (create_base_path req).
Proof. unfold create_base_path. case_match; auto with io. Qed.

Lemma cache_response_total policy_ req resp : io_total (cache_response policy_ req resp).
Proof.
  unfold cache_response, save_meta_atomic. case_match; [auto with io|].
  apply io_total_bind; [apply create_base_path_total|]. intros p.
  apply io_total_bind; [auto with io|]. intros _. apply io_total_bind; [by intros d|]. auto with io.
Qed.

Lemma refresh_total p m : io_total (refresh_meta_timestamp p m).
Proof.
  unfold refresh_meta_timestamp, save_meta_atomic. apply io_total_bind; [by intros d|]. intros now.
  destruct m. auto with io.
Qed.

Lemma probe_total policy_ req : io_total (probe policy_ req).
Proof.
  unfold probe. case_match; [auto with io|]. apply io_total_bind; [apply create_base_path_total|]. intros p.
  apply io_total_bind; [|].
  - intros d. unfold load_meta. by destruct (files d !! _).
  - intros [m|]; [|auto with io]. apply io_total_bind; [auto with io|]. intros d. case_match; auto with io.
Qed.

Lemma fresh_enough_total policy_ m : io_total (fresh_enough policy_ m).
Proof.
  unfold fresh_enough. apply io_total_bind; [by intros d|]. intros now. rewrite split_comma_fields.
  apply io_total_bind; [by intros d|]. intros l. case_match; auto with io.
Qed.

Lemma get_transfer_total req hit : io_total (get_transfer req hit).
Proof.
  unfold get_transfer, set_url. apply io_total_bind; [auto with io|]. intros _.
  apply io_total_bind; [apply set_headers_total|]. intros _.
  apply io_total_bind; [apply prepare_total|]. intros b.
  apply io_total_bind; [apply perform_total|]. intros [b' t].
  apply io_total_bind; [by intros w|]. intros r. apply io_total_bind; [auto with io|]. intros w.
  assert (io_total (do! on_disk (cache_response (cache_policy (client w)) req r) in io_ret r)) as Hc.
  { apply io_total_bind; [|auto with io]. apply io_total_lift, cache_response_total. }
  destruct hit as [h|]; [|exact Hc]. case_match; [|exact Hc].
  apply io_total_bind; [|auto with io]. apply io_total_lift, refresh_total.
Qed.

Lemma get_total req : io_total (get req).
Proof.
  unfold get. apply io_total_bind; [auto with io|]. intros w.
  apply io_total_bind; [apply io_total_lift, probe_total|]. intros [h|]; [|apply get_transfer_total].
  apply io_total_bind; [apply io_total_lift, fresh_enough_total|]. intros [|]; [auto with io|].
  apply get_transfer_total.
Qed.

#[local] Hint Resolve get_total : io.

Lemma get_retry_delay_total p delay : io_total (get_retry_delay p delay).
Proof. unfold get_retry_delay, sleep_ms. auto 20 with io. Qed.
#[local] Hint Resolve get_retry_delay_total : io.

Lemma read_clock_total : io_total (on_disk read_clock).
Proof. by intros w. Qed.
#[local] Hint Resolve read_clock_total : io.

Lemma attempt_once_total req p attempt delay : io_total (attempt_once req p attempt delay).
Proof.
  unfold attempt_once, sleep_ms. apply io_total_bind; [auto with io|]. intros resp.
  repeat case_match; auto 20 with io.
Qed.

Lemma attempt_failed_total p attempt delay e : io_total (attempt_failed p attempt delay e).
Proof. unfold attempt_failed. case_match; auto with io. Qed.
#[local] Hint Resolve attempt_once_total attempt_failed_total : io.

Lemma retry_loop_total req p rounds attempt delay : io_total (retry_loop req p rounds attempt delay).
Proof.
  revert attempt delay. induction rounds as [|rounds IH]; intros attempt delay; simpl; [auto with io|].
  apply io_total_bind; [auto with io|]. intros [resp|d]; auto with io.
Qed.

(** The client keeps the promise of the interface, with any server. *)
#[export] Instance curl_client_laws : HttpClientLaws HttpWorld.
Proof. constructor. intros req. apply retry_loop_total. Qed.

(** ** What one request costs *)
Definition cost (n : nat) (ss : list Z) (w : HttpWorld) : Prop := (transfers w <= n)%nat /\ sleeps w = ss.

Lemma on_client_cost n ss f : io_keeps (cost n ss) (on_client f).
Proof. by intros w. Qed.

Lemma on_disk_cost {A} n ss (c : io Disk A) : io_keeps (cost n ss) (on_disk c).
Proof. intros w Hw. unfold on_disk, io_lift. by destruct (c (disk w)). Qed.

Lemma setopt_cost n ss o v : io_keeps (cost n ss) (setopt o v).
Proof. unfold setopt. case_match; [auto with io|apply on_client_cost]. Qed.

Lemma io_get_cost n ss : io_keeps (cost n ss) io_get.
Proof. by intros w. Qed.

#[local] Hint Resolve on_client_cost setopt_cost io_get_cost : io.

Lemma before_transfer_cost n ss u hs :
  io_keeps (cost n ss) (set_url u) /\ io_keeps (cost n ss) (set_headers hs) /\
  io_keeps (cost n ss) prepare_for_new_request.
Proof.
  split_and!; [apply setopt_cost| |unfold prepare_for_new_request; auto 20 with io].
  unfold set_headers. apply io_keeps_bind; [auto with io|]. intros _.
  apply io_keeps_bind; [apply io_keeps_each; auto with io|]. intros _.
  apply io_keeps_bind; [auto with io|]. intros w. case_match; auto with io.
Qed.

Lemma perform_cost n ss body : io_leads (cost n ss) (cost (S n) ss) (perform_throw body).
Proof.
  intros w [Hn Hs]. unfold perform_throw. destruct (curl_callbacks _ _ _).
  case_match; split; simpl; lia || done.
Qed.

Lemma make_response_cost n ss body t : io_keeps (cost n ss) (make_response body t).
Proof. by intros w. Qed.

Lemma get_transfer_cost n ss req hit : io_leads (cost n ss) (cost (S n) ss) (get_transfer req hit).
Proof.
  assert (forall w, cost n ss w -> cost (S n) ss w) as Hle by (intros w []; split; [lia|done]).
  unfold get_transfer. match goal with |- context [set_headers ?hs] =>
    destruct (before_transfer_cost n ss (Request_url_ req) hs) as (Hu & Hh & Hp) end.
  apply (io_leads_bind _ (cost n ss)); [done|exact Hu|]. intros _.
  apply (io_leads_bind _ (cost n ss)); [done|exact Hh|]. intros _.
  apply (io_leads_bind _ (cost n ss)); [done|exact Hp|]. intros b.
  apply (io_leads_bind _ (cost (S n) ss)); [done|apply perform_cost|]. intros [b' t].
  apply io_keeps_bind; [apply make_response_cost|]. intros r.
  apply io_keeps_bind; [auto with io|]. intros w.
  destruct hit as [h|]; [case_match|]; (apply io_keeps_bind; [apply on_disk_cost|auto with io]).
Qed.

Lemma get_cost n ss req : io_leads (cost n ss) (cost (S n) ss) (get req).
Proof.
  assert (forall w, cost n ss w -> cost (S n) ss w) as Hle by (intros w []; split; [lia|done]).
  unfold get. apply (io_leads_bind _ (cost n ss)); [done|by intros w|]. intros w.
  apply (io_leads_bind _ (cost n ss)); [done|apply on_disk_cost|].
  intros [h|]; [|apply get_transfer_cost].
  apply (io_leads_bind _ (cost n ss)); [done|apply on_disk_cost|].
  intros [|]; [by intros w' Hw%Hle|apply get_transfer_cost].
Qed.

Lemma get_costs req w : (transfers (get req w).2 <= S (transfers w))%nat /\ sleeps (get req w).2 = sleeps w.
Proof. by apply (get_cost (transfers w) (sleeps w) req w). Qed.

(** ** Back-off *)

(** The k-th wait lies between the k-th delay and that plus the jitter; the delay starts
    at the given one and doubles up to the maximum. *)
Fixpoint backoff_waits (p : RetryPolicy) (delay : Z) (waits : list Z) : Prop :=
  match waits with
  | [] => True
  | ms :: waits => delay <= ms <= delay + base_delay_ p /\ backoff_waits p (Z.min (2 * delay) (max_delay_ p)) waits
  end.

(** A policy whose delays are within the range of their types. *)
Definition policy_ok (p : RetryPolicy) : Prop :=
  0 <= base_delay_ p < 2 ^ 31 /\ 0 <= max_delay_ p < 2 ^ 61.

(** [std::uniform_int_distribution(0, bound)] *)
Definition uniform_ok : Prop := forall n bound, 0 <= bound -> 0 <= uniform_int n bound <= bound.

Lemma get_retry_delay_spec p delay w :
  policy_ok p -> uniform_ok -> 0 <= delay < 2 ^ 61 ->
  exists ms w', get_retry_delay p delay w = (Ret (Z.min (2 * delay) (max_delay_ p)), w') /\
    transfers w' = transfers w /\ sleeps w' = (sleeps w ++ [ms])%list /\ client w' = client w /\ disk w' = disk w /\
    delay <= ms <= delay + base_delay_ p.
Proof.
  intros [Hb Hm] Hu Hd. unfold get_retry_delay, sleep_ms. unfold io_bind, io_get, io_modify, io_ret. simpl.
  rewrite to_int_small by (unfold in_int32; lia). pose proof (Hu (draws w) (base_delay_ p) (proj1 Hb)) as Hj.
  rewrite !wrap64_id by (unfold in_int64, INT64_MIN, INT64_MAX; lia). rewrite (Z.mul_comm delay).
  eexists _, _. split; [done|]. simpl. split_and!; done || lia.
Qed.

(** What an attempt before the last one does: return a response that is not retryable, or
    wait once and go round. *)
Lemma attempt_not_last req p attempt delay w x w' :
  policy_ok p -> uniform_ok -> 0 <= delay < 2 ^ 61 -> (attempt < max_tries_ p)%nat ->
  io_catch (attempt_once req p attempt delay) (attempt_failed p attempt delay) w = (x, w') ->
  (transfers w' <= S (transfers w))%nat /\
  ((exists resp, x = Ret (inl resp) /\ is_retryable_http (Response_status_ resp) = false /\ sleeps w' = sleeps w) \/
   (exists ms, x = Ret (inr (Z.min (2 * delay) (max_delay_ p))) /\ sleeps w' = (sleeps w ++ [ms])%list /\
      delay <= ms <= delay + base_delay_ p)).
Proof.
  intros Hp Hu Hd Ha%Nat.ltb_lt. unfold io_catch, attempt_once, attempt_failed. rewrite Ha.
  unfold io_bind at 1. pose proof (get_total req w) as Ht. destruct (get_costs req w) as [Hc Hs].
  destruct (get req w) as [[resp|e|] w1]; cbn [fst snd] in *; [| |done].
  - rewrite andb_true_r. destruct (is_retryable_http (Response_status_ resp)) eqn:Hr.
    + destruct (get_retry_delay_spec p delay w1 Hp Hu Hd) as (ms & w2 & E & Et & Es & _ & _ & Hms).
      unfold io_bind. rewrite E. unfold io_ret. intros [= <- <-]. rewrite Et, Es, Hs. split; [done|]. right. eauto.
    + assert ((Response_status_ resp =? TOO_MANY_REQUESTS) = false) as ->.
      { unfold is_retryable_http in Hr. by destruct (Response_status_ resp =? TOO_MANY_REQUESTS). }
      unfold io_ret. intros [= <- <-]. split; [done|]. left. eauto.
  - destruct (get_retry_delay_spec p delay w1 Hp Hu Hd) as (ms & w2 & E & Et & Es & _ & _ & Hms).
    unfold io_bind. rewrite E. unfold io_ret. intros [= <- <-]. rewrite Et, Es, Hs. split; [done|]. right. eauto.
Qed.

(** What the last attempt does: return, throw, or wait for a server that asked to and go
    round to the end of the loop. *)
Lemma attempt_last req p attempt delay w x w' :
  (max_tries_ p <= attempt)%nat ->
  io_catch (attempt_once req p attempt delay) (attempt_failed p attempt delay) w = (x, w') ->
  (transfers w' <= S (transfers w))%nat /\
  (x = Ret (inr delay) /\ (exists final, sleeps w' = (sleeps w ++ final)%list /\ (length final <= 1)%nat) \/
   ((exists resp, x = Ret (inl resp)) \/ exists e, x = Throw e) /\ sleeps w' = sleeps w).
Proof.
  intros Ha%Nat.ltb_ge. unfold io_catch, attempt_once, attempt_failed. rewrite Ha.
  unfold io_bind at 1. pose proof (get_total req w) as Ht. destruct (get_costs req w) as [Hc Hs].
  destruct (get req w) as [[resp|e|] w1]; cbn [fst snd] in *; [| |done].
  - rewrite andb_false_r. rewrite <- Hs. unfold sleep_ms, on_disk, io_lift, read_clock, io_bind, io_modify, io_ret.
    destruct (negb (Response_status_ resp =? TOO_MANY_REQUESTS)).
    { intros [= <- <-]. split; [done|]. right. eauto. }
    destruct (negb (String.eqb (Response_retry_after_ resp) "")); [destruct (0 <? _)|].
    { intros [= <- <-]. split; [done|]. left. split; [done|]. eexists. split; [done|simpl; lia]. }
    { intros [= <- <-]. split; [done|]. left. split; [done|]. exists []. rewrite app_nil_r. split; [done|simpl; lia]. }
    destruct ((Response_rate_limit_remaining_ resp =? 0) && (0 <? Response_rate_limit_reset_ resp)).
    + simpl. intros [= <- <-]. split; [done|]. left. split; [done|]. eexists. split; [done|simpl; lia].
    + intros [= <- <-]. split; [done|]. right. eauto.
  - unfold io_throw. intros [= <- <-]. split; [done|]. right. eauto.
Qed.

Lemma retry_loop_spec req p rounds attempt delay w r w' :
  policy_ok p -> uniform_ok -> 0 <= delay < 2 ^ 61 -> (attempt + rounds = S (max_tries_ p))%nat ->
  retry_loop req p rounds attempt delay w = (r, w') ->
  r <> OutOfFuel /\ (transfers w' <= transfers w + rounds)%nat /\
  exists waits final, sleeps w' = (sleeps w ++ waits ++ final)%list /\ backoff_waits p delay waits /\
    (length waits <= rounds - 1)%nat /\ (length final <= 1)%nat /\
    (final <> [] -> r = Ret empty_response) /\
    forall resp, r = Ret resp -> is_retryable_http (Response_status_ resp) = true -> length waits = (rounds - 1)%nat.
Proof.
  intros Hp Hu. revert attempt delay w. induction rounds as [|rounds IH]; intros attempt delay w Hd Hsum; simpl.
  { intros [= <- <-]. split; [done|]. split; [lia|]. exists [], []. rewrite app_nil_r. simpl. split_and!; done || lia. }
  unfold io_bind at 1.
  destruct (io_catch (attempt_once req p attempt delay) (attempt_failed p attempt delay) w) as [x w1] eqn:E.
  destruct (decide (attempt < max_tries_ p)%nat) as [Ha|Ha].
  - destruct (attempt_not_last _ _ _ _ _ _ _ Hp Hu Hd Ha E) as [Ht [(resp & -> & Hr & Hs)|(ms & -> & Hs & Hms)]].
    + intros [= <- <-]. split; [done|]. split; [lia|]. exists [], []. rewrite app_nil_r, Hs.
      split_and!; simpl; try done; try lia. intros ? [= <-]. congruence.
    + intros Hrun. assert (0 <= Z.min (2 * delay) (max_delay_ p) < 2 ^ 61) as Hd' by (destruct Hp; lia).
      destruct (IH (S attempt) _ w1 Hd' ltac:(lia) Hrun) as (Hf & Htr & waits & final & Hsl & Hbw & Hl & Hlf & Hfin & Hre).
      split; [done|]. split; [lia|]. exists (ms :: waits), final. rewrite Hsl, Hs, <- app_assoc.
      split_and!; simpl; try done; try lia. intros resp Hr Hb. pose proof (Hre resp Hr Hb). lia.
  - destruct (attempt_last _ _ _ _ _ _ _ (proj1 (Nat.nlt_ge _ _) Ha) E) as [Ht Hx].
    assert (rounds = 0%nat) as -> by lia.
    destruct Hx as [(-> & final & Hs & Hl)|[[[resp ->]|[e ->]] Hs]]; simpl; intros [= <- <-].
    + split; [done|]. split; [lia|]. exists [], final. simpl. split_and!; done || lia.
    + split; [done|]. split; [lia|]. exists [], []. rewrite app_nil_r. simpl. split_and!; done || lia.
    + split; [done|]. split; [lia|]. exists [], []. rewrite app_nil_r. simpl. split_and!; done || lia.
Qed.

(** C25: [get_with_retries] always ends, after at most [max_tries_] transfers; the k-th
    back-off lies between the doubling delay and that plus the jitter; a retryable answer is
    only returned when all of the attempts before the last were backed off from. *)
Theorem retries_bounded req p w r w' :
  policy_ok p -> uniform_ok -> get_with_retries req p w = (r, w') ->
  r <> OutOfFuel /\ (transfers w' <= transfers w + max_tries_ p)%nat /\
  exists waits final, sleeps w' = (sleeps w ++ waits ++ final)%list /\ backoff_waits p (base_delay_ p) waits /\
    (length waits <= max_tries_ p - 1)%nat /\ (length final <= 1)%nat /\
    (final <> [] -> r = Ret empty_response) /\
    forall resp, r = Ret resp -> is_retryable_http (Response_status_ resp) = true ->
      length waits = (max_tries_ p - 1)%nat.
Proof.
  intros Hp Hu Hr. apply (retry_loop_spec req p (max_tries_ p) 1 (base_delay_ p)); try done.
  destruct Hp; lia.
Qed.







End Client.
