(* ===== verification/Json.v ===== *)
(** * The JSON reader

    [simdjson] is a parameter: what a document, a field, an element or a conversion gives.
    A result is a value or an error; asking for a field of an error is that error, as
    [simdjson_result] does.  Reading does not change a value, so the same question has the
    same answer.  [JsonTree] is an implementation for documents given as trees, on which
    the models are evaluated. *)
From Stdlib Require Import ZArith Ascii String.
From stdpp Require Import base tactics list strings.
From S2P Require Import Prelude Double.
Open Scope string_scope.
Open Scope Z_scope.

Inductive simdjson_result (A : Type) : Type :=
| SUCCESS (value : A)
| simdjson_failure (what : string).
Arguments SUCCESS {A} value.
Arguments simdjson_failure {A} what.

Definition json_bind {A B} (r : simdjson_result A) (f : A -> simdjson_result B) : simdjson_result B :=
  match r with
  | SUCCESS a => f a
  | simdjson_failure what => simdjson_failure what
  end.

(** The conversion operators throw [simdjson_error]. *)
Definition json_throw {A} (r : simdjson_result A) : outcome A :=
  match r with
  | SUCCESS a => Ret a
  | simdjson_failure what => Throw (foreign_error "simdjson" what)
  end.

(** The documents and values of [simdjson::ondemand]. *)
Class Json : Type := {
  jvalue : Type;
  json_iterate : string -> simdjson_result jvalue;               (* [parser.iterate] *)
  json_find_field : jvalue -> string -> simdjson_result jvalue;  (* [v\[key\]] *)
  json_get_string : jvalue -> simdjson_result string;
  json_get_int64 : jvalue -> simdjson_result Z;
  json_get_int : jvalue -> simdjson_result Z;
  json_get_double : jvalue -> simdjson_result double;
  json_get_bool : jvalue -> simdjson_result bool;
  json_get_object : jvalue -> simdjson_result jvalue;
  json_get_array : jvalue -> simdjson_result (list (simdjson_result jvalue));
  (* what [for (auto x : r)] visits *)
  json_elements : simdjson_result jvalue -> list (simdjson_result jvalue);
  json_to_json_string : jvalue -> simdjson_result string
}.

(** [r\[key\]] on a result. *)
Definition json_at `{Json} (r : simdjson_result jvalue) (key : string) : simdjson_result jvalue :=
  json_bind r (fun v => json_find_field v key).

(** ** Documents as trees *)
Inductive JsonTree : Type :=
| JNull
| JBool (b : bool)
| JInt (z : Z)
| JDouble (d : double)
| JString (s : string)
| JArray (elements : list JsonTree)
| JObject (members : list (string * JsonTree)).

Fixpoint tree_member (key : string) (members : list (string * JsonTree)) : simdjson_result JsonTree :=
  match members with
  | [] => simdjson_failure "NO_SUCH_FIELD"
  | (k, v) :: members => if String.eqb k key then SUCCESS v else tree_member key members
  end.

Definition tree_array (t : JsonTree) : simdjson_result (list (simdjson_result JsonTree)) :=
  match t with
  | JArray l => SUCCESS (SUCCESS <$> l)
  | _ => simdjson_failure "INCORRECT_TYPE"
  end.

Section Tree.
(** The texts that are documents, and how trees are printed. *)
Variable documents : string -> simdjson_result JsonTree.
Variable print : JsonTree -> string.

Definition tree_json : Json := {|
  jvalue := JsonTree;
  json_iterate := documents;
  json_find_field t key :=
    match t with
    | JObject members => tree_member key members
    | _ => simdjson_failure "INCORRECT_TYPE"
    end;
  json_get_string t := match t with JString s => SUCCESS s | _ => simdjson_failure "INCORRECT_TYPE" end;
  json_get_int64 t := match t with JInt z => SUCCESS z | _ => simdjson_failure "INCORRECT_TYPE" end;
  json_get_int t :=
    match t with
    | JInt z => if (- 2 ^ 31 <=? z) && (z <? 2 ^ 31) then SUCCESS z else simdjson_failure "NUMBER_OUT_OF_RANGE"
    | _ => simdjson_failure "INCORRECT_TYPE"
    end;
  json_get_double t :=
    match t with
    | JDouble d => SUCCESS d
    | JInt z => SUCCESS (d_of_Z z)
    | _ => simdjson_failure "INCORRECT_TYPE"
    end;
  json_get_bool t := match t with JBool b => SUCCESS b | _ => simdjson_failure "INCORRECT_TYPE" end;
  json_get_object t := match t with JObject _ => SUCCESS t | _ => simdjson_failure "INCORRECT_TYPE" end;
  json_get_array := tree_array;
  json_elements r :=
    match json_bind r tree_array with
    | SUCCESS l => l
    | simdjson_failure what => [simdjson_failure what]
    end;
  json_to_json_string t := SUCCESS (print t)
|}.
End Tree.
