(* ===== verification/Polygon.v ===== *)
(** * [src/http/provider/polygon.cpp]

    The request for the bars of a symbol and the bars read from the answer: an
    implementation of [IStockDataProvider].  [int64_t] products wrap; a negative count
    becomes a large [size_t]. *)
From Stdlib Require Import ZArith Lia Ascii String.
From stdpp Require Import base tactics list strings.
From S2P Require Import Prelude Double CppString CppFormat StockApi Effects HttpModel NetworkCache HttpInterfaces Json.
Open Scope string_scope.
Open Scope Z_scope.

Definition BASE_URL : string := "https://api.polygon.io".

Record PolygonProvider : Type := mkPolygonProvider {
  base_url_ : string;
  api_key_ : string
}.

Definition new_polygon_provider (api_key : string) : PolygonProvider := mkPolygonProvider BASE_URL api_key.

Definition build_custom_aggregate_bars (self : PolygonProvider) (a : AggregateBarsArgs) : Request :=
  {| Request_url_ := base_url_ self +:+ "/v2/aggs/ticker/" +:+ AggregateBarsArgs_symbol_ a +:+ "/range/" +:+
       to_string (AggregateBarsArgs_timespan_ a) +:+ "/" +:+ AggregateBarsArgs_timespan_unit_ a +:+ "/" +:+
       AggregateBarsArgs_from_ a +:+ "/" +:+ AggregateBarsArgs_to_ a;
     Request_method_ := "GET";
     Request_body_ := "";
     Request_headers_ := ["Authorization: Bearer " +:+ api_key_ self; "Accept: application/json"] |}.

(** A conversion to [std::size_t]. *)
Definition to_size_t (z : Z) : Z := z mod 2 ^ 64.

Section Polygon.
Context `{Json}.

(** The bar of one element of ["results"]. *)
Definition parse_bar (result : simdjson_result jvalue) : outcome AggregateBarResult :=
  let* volume := json_throw (json_bind (json_at result "v") json_get_double) in
  let* volume_weighted_price := json_throw (json_bind (json_at result "vw") json_get_double) in
  let* open := json_throw (json_bind (json_at result "o") json_get_double) in
  let* close := json_throw (json_bind (json_at result "c") json_get_double) in
  let* high := json_throw (json_bind (json_at result "h") json_get_double) in
  let* low := json_throw (json_bind (json_at result "l") json_get_double) in
  let* t := json_throw (json_bind (json_at result "t") json_get_int64) in
  let* n := json_throw (json_bind (json_at result "n") json_get_int) in
  let* ticker := json_throw (json_bind (json_at result "ticker") json_get_string) in
  let* is_otc :=
    match json_at result "otc" with
    | SUCCESS v => json_throw (json_get_bool v)
    | simdjson_failure _ => Ret false
    end in
  Ret {| bar_symbol_ := ticker;
         bar_is_otc_ := is_otc;
         bar_tx_count_ := n;
         bar_volume_ := volume;
         bar_volume_weighted_price_ := volume_weighted_price;
         bar_open_ := open;
         bar_close_ := close;
         bar_high_ := high;
         bar_low_ := low;
         bar_unix_ts_ns_ := wrap64 (t * NANOSECONDS_PER_MILLISECOND) |}.

(** The loop over ["results"]; [results] is [out.results_]. *)
Fixpoint parse_bars (elements : list (simdjson_result jvalue)) (results : list AggregateBarResult)
  : outcome (list AggregateBarResult) :=
  match elements with
  | [] => Ret results
  | result :: elements => let* bar := parse_bar result in parse_bars elements (results ++ [bar])%list
  end.

(** The body of the [try]. *)
Definition parse_bars_document (body : string) : outcome AggregateBars :=
  let* doc := json_throw (json_iterate body) in
  let doc := SUCCESS doc in
  let* ticker := json_throw (json_bind (json_at doc "ticker") json_get_string) in
  let* adjusted := json_throw (json_bind (json_at doc "adjusted") json_get_bool) in
  let* query_count := json_throw (json_bind (json_at doc "queryCount") json_get_int64) in
  let* result_count := json_throw (json_bind (json_at doc "resultsCount") json_get_int64) in
  let* results := parse_bars (json_elements (json_at doc "results")) [] in
  Ret {| bars_adjusted_ := adjusted;
         bars_query_count_ := to_size_t query_count;
         bars_result_count_ := to_size_t result_count;
         bars_ticker_ := ticker;
         bars_results_ := results |}.

Definition parse_custom_aggregate_bars (resp : Response) : outcome AggregateBars :=
  ocatch (parse_bars_document (Response_body_ resp)) (fun e =>
    match e with
    | foreign_error library what =>
        if negb (String.eqb library "simdjson") then Throw e
        else Throw (HttpError (Response_status_ resp) (Response_effective_url_ resp) (body_preview resp)
                 ("Failed to parse JSON response: " +:+ what))
    | e => Throw e
    end).

#[export] Instance polygon_provider : IStockDataProvider PolygonProvider := {
  provider_build_custom_aggregate_bars := build_custom_aggregate_bars;
  provider_parse_custom_aggregate_bars _ := parse_custom_aggregate_bars
}.
End Polygon.

(** ** What comes out *)
(** Reading throws nothing but [simdjson_error]. *)
Definition reads {A} (c : outcome A) : Prop :=
  c <> OutOfFuel /\ forall e, c = Throw e -> exists what, e = foreign_error "simdjson" what.

Lemma reads_throw {A} (r : simdjson_result A) : reads (json_throw r).
Proof. destruct r; split; try done. intros e [= <-]. eauto. Qed.

Lemma reads_ret {A} (a : A) : reads (Ret a).
Proof. by split. Qed.

Lemma reads_bind {A B} (c : outcome A) (k : A -> outcome B) :
  reads c -> (forall a, reads (k a)) -> reads (obind c k).
Proof. intros [Hf He] Hk. destruct c as [a|e|]; [apply Hk| |done]. split; [done|]. intros e' [= <-]. by apply He. Qed.

#[local] Hint Resolve reads_throw reads_ret reads_bind : core.

Lemma parse_bar_reads `{Json} result : reads (parse_bar result).
Proof. unfold parse_bar. repeat (apply reads_bind; [first [apply reads_throw|case_match; auto]|intros ?]). auto. Qed.

Lemma parse_bars_reads `{Json} elements results : reads (parse_bars elements results).
Proof.
  revert results. induction elements as [|r elements IH]; intros results; simpl; auto using parse_bar_reads.
Qed.

Lemma parse_bars_document_reads `{Json} body : reads (parse_bars_document body).
Proof. unfold parse_bars_document. auto 10 using parse_bars_reads. Qed.

(** What reading a response gives: the bars, or an [HttpError] with the status and URL of
    the response, the start of its body and what went wrong. *)
Lemma parse_custom_aggregate_bars_cases `{Json} resp :
  (exists bars, parse_custom_aggregate_bars resp = Ret bars /\ parse_bars_document (Response_body_ resp) = Ret bars) \/
  exists what, parse_custom_aggregate_bars resp =
    Throw (http_error (Response_status_ resp) (Response_effective_url_ resp) (body_preview resp)
             ("Failed to parse JSON response: " +:+ what)).
Proof.
  unfold parse_custom_aggregate_bars. destruct (parse_bars_document_reads (Response_body_ resp)) as [Hf He].
  destruct (parse_bars_document _) as [bars|e|]; simpl; [eauto| |done].
  destruct (He e eq_refl) as [what ->]. right. by exists what.
Qed.

#[export] Instance polygon_provider_laws `{Json} : StockDataProviderLaws PolygonProvider.
Proof.
  split. intros provider_ resp. destruct (parse_custom_aggregate_bars_cases resp) as [(bars & Hb & _)|(what & Hw)].
  - left. by exists bars.
  - right. eexists. split; [exact Hw|]. apply preview_reports.
Qed.

(** ** Reading bars back

    A specification of the answers, not of code: the members the reader asks for, laid out
    as the service documents its aggregates, with the ticker once, at the top of the
    answer, and ["otc"] only where it is true.  [own] says which bars carry a ["ticker"]
    of their own besides, which a documented answer never does and [parse_bar] insists
    on; nothing is assumed of [own]. *)
Section RoundTrip.
Variable documents : string -> simdjson_result JsonTree.
Variable print : JsonTree -> string.
Variable own : AggregateBarResult -> bool.

Definition bar_tree (b : AggregateBarResult) : JsonTree :=
  JObject ([("v", JDouble (bar_volume_ b)); ("vw", JDouble (bar_volume_weighted_price_ b));
            ("o", JDouble (bar_open_ b)); ("c", JDouble (bar_close_ b)); ("h", JDouble (bar_high_ b));
            ("l", JDouble (bar_low_ b)); ("t", JInt (bar_unix_ts_ns_ b / NANOSECONDS_PER_MILLISECOND));
            ("n", JInt (bar_tx_count_ b))] ++
           (if own b then [("ticker", JString (bar_symbol_ b))] else []) ++
           (if bar_is_otc_ b then [("otc", JBool true)] else []))%list.

Definition bars_tree (bars : AggregateBars) : JsonTree :=
  JObject [("ticker", JString (bars_ticker_ bars)); ("adjusted", JBool (bars_adjusted_ bars));
           ("queryCount", JInt (bars_query_count_ bars)); ("resultsCount", JInt (bars_result_count_ bars));
           ("results", JArray (bar_tree <$> bars_results_ bars))].

(** Bars of whole milliseconds, counts within their types. *)
Definition bar_printable (b : AggregateBarResult) : Prop :=
  (NANOSECONDS_PER_MILLISECOND | bar_unix_ts_ns_ b) /\ in_int64 (bar_unix_ts_ns_ b) /\
  - 2 ^ 31 <= bar_tx_count_ b < 2 ^ 31.

Definition bars_printable (bars : AggregateBars) : Prop :=
  0 <= bars_query_count_ bars < 2 ^ 63 /\ 0 <= bars_result_count_ bars < 2 ^ 63 /\
  Forall bar_printable (bars_results_ bars).

#[local] Instance tree_reader : Json := tree_json documents print.

(** What reading a bar without a ["ticker"] throws. *)
Definition no_ticker : exn := foreign_error "simdjson" "NO_SUCH_FIELD".

Lemma parse_bar_tree b :
  bar_printable b -> parse_bar (SUCCESS (bar_tree b)) = if own b then Ret b else Throw no_ticker.
Proof.
  intros ([k Hk] & Hr & Hn). unfold parse_bar, bar_tree. generalize (own b). intros carried.
  destruct b as [sym otc n v vw o c h l t]. cbn in Hk, Hr, Hn.
  destruct carried; cbn -[Z.mul Z.div wrap64 Z.leb Z.ltb NANOSECONDS_PER_MILLISECOND Z.pow];
    rewrite (proj2 (Z.leb_le _ _)), (proj2 (Z.ltb_lt _ _)) by lia; cbn [andb json_throw obind].
  - assert (t / NANOSECONDS_PER_MILLISECOND * NANOSECONDS_PER_MILLISECOND = t) as ->.
    { rewrite Hk, Z.div_mul; [done|]. unfold NANOSECONDS_PER_MILLISECOND. lia. }
    rewrite wrap64_id by done. by destruct otc.
  - by destruct otc.
Qed.

Lemma parse_bars_tree bars results :
  Forall bar_printable bars ->
  parse_bars (SUCCESS <$> (bar_tree <$> bars)) results =
  if forallb own bars then Ret (results ++ bars)%list else Throw no_ticker.
Proof.
  intros Hb. revert results. induction Hb as [|b bars Hb _ IH]; intros results; [by rewrite app_nil_r|].
  rewrite !fmap_cons. cbn [parse_bars forallb]. rewrite parse_bar_tree by done.
  destruct (own b); [|done]. cbn [obind andb]. rewrite IH. by rewrite <- app_assoc.
Qed.

(** C28: an answer in the service's layout whose every bar carries its own ticker is read
    back exactly: every bar in its order, the milliseconds turned into nanoseconds, a
    missing ["otc"] read as false.  As soon as one bar lacks its own ticker - in the
    documented layout, every one does - the whole answer is rejected with an [HttpError]
    that carries the status, the URL and the start of the body. *)
Theorem polygon_round_trip bars resp :
  bars_printable bars -> documents (Response_body_ resp) = SUCCESS (bars_tree bars) ->
  parse_custom_aggregate_bars resp =
  if forallb own (bars_results_ bars) then Ret bars
  else Throw (http_error (Response_status_ resp) (Response_effective_url_ resp) (body_preview resp)
                "Failed to parse JSON response: NO_SUCH_FIELD").
Proof.
  intros (Hq & Hc & Hb) Hd. unfold parse_custom_aggregate_bars, parse_bars_document.
  cbn [json_iterate tree_reader tree_json]. rewrite Hd. cbn -[parse_bars to_size_t fmap body_preview].
  rewrite parse_bars_tree by done. destruct (forallb own _); [|done].
  cbn. unfold to_size_t. rewrite !Z.mod_small by lia. by destruct bars.
Qed.
End RoundTrip.
