(* ===== verification/HttpScenario.v ===== *)
(** * A machine and a server to evaluate the HTTP client on

    A disk on which everything can be written, a clock that advances a second per read, and
    servers that answer every transfer the same way. *)
From Stdlib Require Import ZArith Lia Ascii String.
From stdpp Require Import base tactics list gmap strings.
From S2P Require Import Prelude Double CppString CppFormat StringUtils Effects HttpModel NetworkCache CacheProps StockApi CurlEasy HeaderProps CacheSpec CacheSession HttpInterfaces CurlProps Json Polygon.
Open Scope string_scope.
Open Scope Z_scope.

(** [std::hash] is given by the length of the text. *)
#[local] Instance good_machine : SystemCalls := {|
  now_s n := 1000 + Z.min (Z.of_nat n) 50;
  hash_string s := Z.of_nat (String.length s);
  mkdir_ok := true;
  open_ok _ := true;
  write_short _ := None;
  rename_ok _ := true;
  uninitialized_ts := 7
|}.

(** Every transfer: the same header lines, body and status. *)
Definition server (lines : list string) (body : string) (status : Z) : LibCurl := {|
  curl_easy_init_ok := true;
  curl_easy_setopt_rc _ := 0;
  curl_easy_strerror _ := "";
  curl_easy_perform _ _ _ :=
    mkTransfer ((OnHeader <$> lines) ++ [OnBody body])%list 0 "" status (Some "http://server/");
  CURL_HTTP_VERSION_2TLS := 4;
  uniform_int _ bound := bound
|}.

Definition good_world (d : Disk) : HttpWorld :=
  mkHttpWorld (new_curl_easy (mkNetworkCachePolicy true 60)) d 0 [] 0.
Definition empty_disk : Disk := mkDisk ∅ 0.

Definition some_request : Request := mkRequest "http://server/bars" "GET" "" ["Accept: */*"].
Definition ok_response : Response :=
  mkResponse (-1) (-1) 200 "bars" "http://server/bars" "v1" "" "" "max-age=1" "".

(** The disk after [ok_response] was stored. *)
Definition stored_disk : Disk :=
  (cache_response (mkNetworkCachePolicy true 60) some_request ok_response empty_disk).2.

Definition later (d : Disk) : Disk := mkDisk (files d) 10.

Lemma good_machine_clock k : in_int64 (now_s k).
Proof. unfold in_int64, INT64_MIN, INT64_MAX. simpl. lia. Qed.

Lemma good_machine_writable p : writable p.
Proof. by split_and!. Qed.

Ltac storable := split; repeat constructor; vm_compute; done.

Example stored_disk_entry : has_entry some_request stored_disk (Some (1000, ok_response)).
Proof. split_and!; [storable|vm_compute; done|vm_compute; done|vm_compute; done]. Qed.

(** A server that always answers 304, and one that always answers 503. *)
Definition unchanged_server : LibCurl := server ["HTTP/2 304"] "" 304.
Definition failing_server : LibCurl := server ["content-type: text/html"; "x-ratelimit-remaining: 0"] "busy" 503.

Lemma cache_round_trip_witness :
  exists d', cache_response (mkNetworkCachePolicy true 60) some_request ok_response empty_disk = (Ret tt, d') /\
    exists hit, probe (mkNetworkCachePolicy true 60) some_request d' = (Ret (Some hit), d') /\
      get_cached_response hit = ok_response.
Proof.
  destruct (cache_round_trip (mkNetworkCachePolicy true 60) some_request ok_response empty_disk) as (d' & E & Hsame & _).
  - reflexivity.
  - reflexivity.
  - apply good_machine_writable.
  - apply good_machine_writable.
  - storable.
  - apply good_machine_clock.
  - exists d'. split; [exact E|]. destruct (Hsame some_request eq_refl) as (hit & Hp & Hr & _).
    exists hit. split; [exact Hp|exact Hr].
Defined.

(** These servers send plain header lines. *)
Lemma server_ok lines body status :
  forallb plain_line lines = true -> in_int64 status -> machine_ok (H0 := server lines body status).
Proof.
  intros Hl Hs. split; [reflexivity|apply good_machine_writable|apply good_machine_clock|reflexivity|].
  intros n opts lists. split; [reflexivity|]. split; [|exact Hs]. cbn. apply Forall_app. split; [|by repeat constructor].
  apply Forall_fmap, Forall_forall. intros line Hin. rewrite forallb_forall in Hl. by apply Hl, list_elem_of_In.
Qed.

Lemma empty_disk_represents : represents empty_disk ∅.
Proof. intros req. by left. Qed.

(** A second URL of another length. *)
Definition other_request : Request := mkRequest "http://server/quotes" "GET" "" [].
Definition some_session : list Request := [some_request; other_request; some_request].

(** Against the server that has nothing new, the third request is answered from the cache. *)
Lemma session_refines_cache_witness :
  exists vs w', visit_request <$> vs = some_session /\
    let '(rs, A', asked) := session (mkNetworkCachePolicy true 60) vs ∅ in
    gets (H0 := unchanged_server) some_session (good_world empty_disk) = (Ret rs, w') /\
    represents (disk w') A' /\ transfers w' = asked.
Proof.
  destruct (session_refines_cache (H0 := unchanged_server)
    (server_ok ["HTTP/2 304"] "" 304 eq_refl ltac:(by vm_compute)) some_session (good_world empty_disk) ∅)
    as (vs & w' & Hvs & _ & Hs).
  - reflexivity.
  - apply new_client_clean.
  - apply empty_disk_represents.
  - exists vs, w'. split; [exact Hvs|]. cbn [client good_world cache_policy new_curl_easy] in Hs.
    destruct (session _ vs ∅) as [[rs A'] asked]. destruct Hs as (Hg & HA & _ & Ht).
    split; [exact Hg|]. split; [exact HA|exact Ht].
Defined.

Lemma session_asks_once_witness :
  exists rs w', gets (H0 := unchanged_server) some_session (good_world empty_disk) = (Ret rs, w') /\
    length rs = 3%nat /\ transfers w' = 2%nat /\
    forall r0 r2, rs !! 0%nat = Some r0 -> rs !! 2%nat = Some r2 ->
      r2 = with_url (Request_url_ some_request) r0 /\ Response_status_ r0 = 304.
Proof.
  destruct (session_asks_once (H0 := unchanged_server)
    (server_ok ["HTTP/2 304"] "" 304 eq_refl ltac:(by vm_compute)) 1000 some_session (good_world empty_disk))
    as (rs & w' & Hg & Hl & Ht & Hr).
  - reflexivity.
  - apply new_client_clean.
  - apply empty_disk_represents.
  - vm_compute. split; discriminate.
  - intros k. cbn. lia.
  - intros n opts lists. repeat constructor.
  - exists rs, w'. split; [exact Hg|]. split; [exact Hl|]. split; [exact Ht|]. intros r0 r2 H0 H2. split.
    + exact (proj2 (Hr 2%nat some_request r2 eq_refl H2) 0%nat some_request r0 ltac:(lia) eq_refl H0 eq_refl).
    + destruct (proj1 (Hr 0%nat some_request r0 eq_refl H0)) as (c & _ & ->); [apply not_elem_of_empty|reflexivity].
Defined.

Lemma retries_bounded_witness :
  exists r w', get_with_retries (H0 := failing_server) some_request default_retry_policy (good_world empty_disk) =
    (r, w') /\ r <> OutOfFuel /\ (transfers w' <= 3)%nat.
Proof.
  destruct (get_with_retries (H0 := failing_server) some_request default_retry_policy (good_world empty_disk))
    as [r w'] eqn:E. exists r, w'. split; [reflexivity|].
  destruct (retries_bounded (H0 := failing_server) some_request default_retry_policy (good_world empty_disk) r w')
    as (Hf & Ht & _).
  - split; vm_compute; split; done.
  - intros n bound Hb. simpl. split; [exact Hb|apply Z.le_refl].
  - exact E.
  - split; [exact Hf|exact Ht].
Defined.


(** ** Bars *)
Definition some_args : AggregateBarsArgs := mkAggregateBarsArgs 1 "AAPL" "2024-01-01" "2024-02-01" "day".
Definition some_bars : AggregateBars :=
  mkAggregateBars true 1 1 "AAPL"
    [mkAggregateBarResult "AAPL" false 10 (d_of_Z 100) (d_of_Z 5) (d_of_Z 4) (d_of_Z 6) (d_of_Z 7) (d_of_Z 3)
       1704085200000000000].

(** The reader that knows one document. *)
Definition one_document : Json :=
  tree_json (fun text => if String.eqb text "bars" then SUCCESS (bars_tree (fun _ => true) some_bars) else simdjson_failure "EMPTY")
    (fun _ => "").

Example polygon_url :
  Request_url_ (build_custom_aggregate_bars (new_polygon_provider "key") some_args) =
  "https://api.polygon.io/v2/aggs/ticker/AAPL/range/1/day/2024-01-01/2024-02-01".
Proof. reflexivity. Qed.

(** The same bars as the service documents its answer. *)
Definition documented_answer : Json :=
  tree_json (fun text => SUCCESS (bars_tree (fun _ => false) some_bars)) (fun _ => "").

Lemma some_bars_printable : bars_printable some_bars.
Proof.
  split; [vm_compute; split; done|]. split; [vm_compute; split; done|]. repeat constructor.
  - exists 1704085200000. reflexivity.
  - vm_compute. discriminate.
  - vm_compute. discriminate.
  - vm_compute. discriminate.
Qed.

Lemma polygon_round_trip_witness :
  parse_custom_aggregate_bars (H := one_document) ok_response = Ret some_bars /\
  parse_custom_aggregate_bars (H := documented_answer) ok_response =
    Throw (http_error 200 "http://server/bars" "bars" "Failed to parse JSON response: NO_SUCH_FIELD").
Proof.
  split.
  - exact (polygon_round_trip _ _ (fun _ => true) some_bars ok_response some_bars_printable eq_refl).
  - exact (polygon_round_trip _ _ (fun _ => false) some_bars ok_response some_bars_printable eq_refl).
Defined.

(** What a 503 becomes: the error of the program's own provider and client. *)
Lemma custom_aggregate_bars_result_witness :
  let '(x, w1) := get_with_retries (H0 := failing_server)
    (build_custom_aggregate_bars (new_polygon_provider "key") some_args) default_retry_policy (good_world empty_disk) in
  let '(r, w') := custom_aggregate_bars (H := polygon_provider (H := one_document))
    (H0 := curl_client (H0 := failing_server)) (new_polygon_provider "key") some_args (good_world empty_disk) in
  w' = w1 /\
  exists resp e, x = Ret resp /\ Response_status_ resp = 503 /\ r = Throw e /\ reports_response resp e.
Proof.
  pose proof (custom_aggregate_bars_result (H := polygon_provider (H := one_document))
    (H0 := curl_client (H0 := failing_server)) (H1 := curl_client_laws)
    (H2 := polygon_provider_laws) (new_polygon_provider "key") some_args
    (good_world empty_disk)) as T.
  cbn [client_get_with_retries curl_client provider_build_custom_aggregate_bars polygon_provider] in T.
  destruct (get_with_retries _ _ _) as [x w1] eqn:Eg.
  assert (exists resp, x = Ret resp /\ Response_status_ resp = 503) as (resp & -> & Hs).
  { apply (f_equal fst) in Eg. vm_compute in Eg. subst x. eexists. split; reflexivity. }
  destruct (custom_aggregate_bars _ _ _) as [r w'].
  destruct T as [Hw [(bars & _ & Hr & _)|(e & Hr & He)]].
  - rewrite Hs in Hr. destruct Hr as [_ Hr]. discriminate Hr.
  - split; [exact Hw|]. exists resp, e. split; [reflexivity|]. split; [exact Hs|]. split; [exact Hr|exact He].
Defined.
