(* ===== verification/StringStore.v ===== *)
(** * Strings kept in a [std::vector<std::string>] and the pointers into it

    The manifest and the Python loader hand out [c_str()] pointers of strings they keep in
    a vector.  A string of at most [sso_capacity] characters lies inside the vector's
    storage and moves when the storage is reallocated; a longer one lies on the heap and
    keeps its address.  The growth of the vector and the short-string limit are those of
    the standard library in use ([StringLayout]); [libstdcxx] is one of them. *)
From Stdlib Require Import ZArith Lia Ascii String.
From stdpp Require Import base tactics list strings.
From S2P Require Import Prelude.

Class StringLayout : Type := {
  sso_capacity : nat;
  grow : nat -> nat;                 (* the capacity after a full vector of this one grew *)
  grow_lt : forall n, n < grow n
}.

(** [std::string] keeps up to 15 characters inside; [std::vector] doubles. *)
#[refine] Definition libstdcxx : StringLayout := {| sso_capacity := 15; grow n := Nat.max 1 (2 * n) |}.
Proof. intros n. lia. Defined.

(** An address: inside the n-th storage block at an element, or a heap block. *)
Inductive CharPtr : Type :=
| InBlock (block index : nat)
| OnHeap (id : nat).

#[export] Instance CharPtr_eq_dec : EqDecision CharPtr.
Proof. solve_decision. Defined.

Record StringVector : Type := mkStringVector {
  sv_block : nat;                     (* the current storage *)
  sv_capacity : nat;
  sv_items : list (string * nat);     (* each string with its heap block, used when long *)
  sv_allocated : nat                  (* heap blocks handed out so far *)
}.

Definition empty_strings : StringVector := mkStringVector 0 0 [] 0.

Section Strings.
Context `{StringLayout}.

Definition is_short (s : string) : bool := Nat.leb (String.length s) sso_capacity.

(** [v.emplace_back(std::move(str))] *)
Definition sv_emplace_back (s : string) (v : StringVector) : StringVector :=
  let full := Nat.eqb (length (sv_items v)) (sv_capacity v) in
  mkStringVector (if full then S (sv_block v) else sv_block v)
    (if full then grow (sv_capacity v) else sv_capacity v)
    (sv_items v ++ [(s, sv_allocated v)]) (S (sv_allocated v)).

(** [v.clear()] keeps the storage. *)
Definition sv_clear (v : StringVector) : StringVector :=
  mkStringVector (sv_block v) (sv_capacity v) [] (sv_allocated v).

(** [v.back().c_str()] *)
Definition sv_back_c_str (v : StringVector) : CharPtr :=
  match last (sv_items v) with
  | Some (s, id) => if is_short s then InBlock (sv_block v) (length (sv_items v) - 1) else OnHeap id
  | None => InBlock (sv_block v) 0
  end.

(** What a pointer points at now; [None] when it dangles. *)
Definition sv_read (v : StringVector) (p : CharPtr) : option string :=
  match p with
  | InBlock b i =>
      if Nat.eqb b (sv_block v)
      then '(s, _) ← sv_items v !! i; if is_short s then Some s else None
      else None
  | OnHeap id => '(_, (s, _)) ← list_find (fun it => snd it = id /\ is_short (fst it) = false) (sv_items v); Some s
  end.

(** [store_string] for each of the strings in order. *)
Fixpoint store_all (ss : list string) (v : StringVector) : list CharPtr * StringVector :=
  match ss with
  | [] => ([], v)
  | s :: ss =>
      let v := sv_emplace_back s v in
      let '(ps, v') := store_all ss v in
      (sv_back_c_str v :: ps, v')
  end.

(** ** Which pointers stay valid *)

(** Within capacity, and every heap block used once. *)
Definition sv_ok (v : StringVector) : Prop :=
  length (sv_items v) <= sv_capacity v /\ NoDup (snd <$> sv_items v) /\
  Forall (fun it => snd it < sv_allocated v) (sv_items v).

Lemma sv_clear_ok v : sv_ok (sv_clear v).
Proof. split; simpl; [lia|]. split; constructor. Qed.

Lemma sv_emplace_ok s v : sv_ok v -> sv_ok (sv_emplace_back s v).
Proof.
  intros (Hl & Hn & Hf). unfold sv_ok, sv_emplace_back. cbn [sv_items sv_capacity sv_allocated].
  rewrite length_app, fmap_app. cbn [length fmap list_fmap snd]. split_and!.
  - destruct (Nat.eqb_spec (length (sv_items v)) (sv_capacity v)) as [E|E]; [|lia].
    pose proof (grow_lt (sv_capacity v)). lia.
  - apply NoDup_app. split; [done|]. split; [|apply NoDup_singleton].
    intros x (it & Ex & Hit)%list_elem_of_fmap Hx%list_elem_of_singleton. subst x.
    pose proof (proj1 (Forall_forall _ _) Hf it Hit). simpl in *. lia.
  - apply Forall_app. split; [|by repeat constructor].
    eapply Forall_impl; [exact Hf|]. simpl. lia.
Qed.

Lemma store_all_ok ss v : sv_ok v -> sv_ok (store_all ss v).2.
Proof.
  revert v. induction ss as [|s ss IH]; intros v Hv; [done|]. simpl.
  specialize (IH _ (sv_emplace_ok s v Hv)). by destruct (store_all ss _).
Qed.

(** The storage is reallocated exactly when the strings do not fit. *)
Lemma store_all_block ss v :
  sv_ok v ->
  if (length (sv_items v) + length ss <=? sv_capacity v)%nat
  then sv_block (store_all ss v).2 = sv_block v /\ sv_capacity (store_all ss v).2 = sv_capacity v
  else sv_block v < sv_block (store_all ss v).2.
Proof.
  revert v. induction ss as [|s ss IH]; intros v Hv.
  { simpl. destruct Hv as [Hl _]. rewrite (proj2 (Nat.leb_le _ _)) by lia. done. }
  pose proof (sv_emplace_ok s v Hv) as Hv1. specialize (IH _ Hv1). simpl.
  destruct (store_all ss _) as [ps v']. cbn [snd] in *. destruct Hv as [Hl _].
  unfold sv_emplace_back in IH. cbn [sv_items sv_capacity sv_block] in IH. rewrite length_app in IH. simpl in IH.
  destruct (Nat.eqb_spec (length (sv_items v)) (sv_capacity v)) as [E|E].
  - rewrite (proj2 (Nat.leb_gt _ _)) by lia. destruct (_ <=? _)%nat; lia.
  - destruct (Nat.leb_spec (length (sv_items v) + 1 + length ss) (sv_capacity v));
      destruct (Nat.leb_spec (length (sv_items v) + S (length ss)) (sv_capacity v)); lia.
Qed.

Lemma store_all_items ss v : exists more, sv_items (store_all ss v).2 = sv_items v ++ more.
Proof.
  revert v. induction ss as [|s ss IH]; intros v; [exists []; by rewrite app_nil_r|]. simpl.
  destruct (IH (sv_emplace_back s v)) as [more Hm]. destruct (store_all ss _). simpl in *.
  exists ((s, sv_allocated v) :: more). by rewrite Hm, <- app_assoc.
Qed.

(** Pointers to long strings stay, those to short ones go with the storage. *)
Definition survives (p : CharPtr) (fits : bool) : bool :=
  match p with InBlock _ _ => fits | OnHeap _ => true end.

Lemma sv_read_later ss v p s :
  sv_ok v -> sv_read v p = Some s ->
  sv_read (store_all ss v).2 p =
  if survives p (length (sv_items v) + length ss <=? sv_capacity v)%nat then Some s else None.
Proof.
  intros Hv Hp. pose proof (store_all_block ss v Hv) as Hb. destruct (store_all_items ss v) as [more Hm].
  destruct p as [b i|id]; simpl in *.
  - destruct (Nat.eqb_spec b (sv_block v)) as [->|]; [|done]. destruct (_ <=? _)%nat.
    + destruct Hb as [-> _]. rewrite Nat.eqb_refl, Hm. destruct (sv_items v !! i) as [it|] eqn:Ei; [|done].
      by rewrite (lookup_app_l_Some _ _ _ _ Ei).
    + rewrite (proj2 (Nat.eqb_neq _ _)) by lia. done.
  - rewrite Hm. destruct (list_find _ (sv_items v)) as [[j it]|] eqn:Ef; [|done].
    by rewrite (list_find_app_l _ _ _ _ _ Ef).
Qed.

Lemma sv_read_back s v : sv_ok v -> sv_read (sv_emplace_back s v) (sv_back_c_str (sv_emplace_back s v)) = Some s.
Proof.
  intros (Hl & Hn & Hf). unfold sv_back_c_str. cbn [sv_emplace_back sv_items sv_block].
  rewrite last_snoc. destruct (is_short s) eqn:Hs; unfold sv_read; cbn [sv_emplace_back sv_items sv_block].
  - rewrite Nat.eqb_refl, length_app. simpl. rewrite Nat.add_sub, lookup_app_r, Nat.sub_diag by lia.
    simpl. by rewrite Hs.
  - rewrite list_find_app_r.
    + simpl. rewrite decide_True by done. done.
    + apply list_find_None. eapply Forall_impl; [exact Hf|]. simpl. intros it Hit [E _]. lia.
Qed.

(** Every pointer that was handed out reads as the string it was handed out for, or
    dangles; it dangles exactly if the string is short and what was stored from there on
    did not fit into the storage of that time. *)
Lemma store_all_reads ss v i s :
  sv_ok v -> ss !! i = Some s ->
  exists p, (store_all ss v).1 !! i = Some p /\
    sv_read (store_all ss v).2 p =
    if is_short s &&
       (sv_capacity (store_all (take (S i) ss) v).2 <? length (sv_items v) + length ss)%nat
    then None else Some s.
Proof.
  revert v i. induction ss as [|t ss IH]; intros v i Hv Hi; [done|].
  pose proof (sv_emplace_ok t v Hv) as Hv1.
  assert (length (sv_items (sv_emplace_back t v)) = S (length (sv_items v))) as Hlen.
  { simpl. rewrite length_app. simpl. lia. }
  destruct i as [|i]; cbn [lookup list_lookup store_all take length] in Hi |- *.
  - injection Hi as ->. pose proof (sv_read_later ss _ _ _ Hv1 (sv_read_back s v Hv)) as Hr. rewrite Hlen in Hr.
    destruct (store_all ss _) as [ps v']. cbn [fst snd] in Hr |- *. eexists. split; [done|]. rewrite Hr. clear Hr.
    assert (survives (sv_back_c_str (sv_emplace_back s v)) = fun fits => negb (is_short s) || fits) as ->.
    { unfold sv_back_c_str. simpl. rewrite last_snoc. by destruct (is_short s). }
    rewrite Nat.leb_antisym. replace (length (sv_items v) + S (length ss)) with (S (length (sv_items v)) + length ss) by lia.
    rewrite firstn_O. cbn [store_all snd]. by destruct (is_short s), (_ <? _)%nat.
  - destruct (IH _ i Hv1 Hi) as (p & Hp & Hr). rewrite Hlen in Hr.
    replace (S (length (sv_items v)) + length ss) with (length (sv_items v) + S (length ss)) in Hr by lia.
    destruct ss as [|u ss]; [done|].
    destruct (store_all (u :: ss) _) as [ps v'], (store_all (take (S i) (u :: ss)) _) as [qs v''].
    simpl in *. eauto.
Qed.

(** Strings that fit all stay. *)
Lemma store_all_fits ss v :
  sv_ok v -> length (sv_items v) + length ss <= sv_capacity v ->
  sv_read (store_all ss v).2 <$> (store_all ss v).1 = Some <$> ss.
Proof.
  intros Hv Hfit. apply list_eq. intros i. rewrite !list_lookup_fmap.
  destruct (ss !! i) as [s|] eqn:Ei.
  - destruct (store_all_reads ss v i s Hv Ei) as (p & -> & Hr). simpl. rewrite Hr.
    apply lookup_lt_Some in Ei. pose proof (store_all_block (take (S i) ss) v Hv) as Hb.
    rewrite length_take in Hb. rewrite (proj2 (Nat.leb_le _ _)) in Hb by lia. destruct Hb as [_ ->].
    rewrite (proj2 (Nat.ltb_ge _ _)) by lia. by rewrite andb_false_r.
  - assert ((store_all ss v).1 !! i = None) as ->; [|done]. apply lookup_ge_None in Ei. apply lookup_ge_None.
    clear Hv Hfit. revert v i Ei. induction ss as [|s ss IH]; intros v i Ei; [simpl; lia|]. simpl.
    destruct i as [|i]; [simpl in Ei; lia|]. specialize (IH (sv_emplace_back s v) i ltac:(simpl in Ei; lia)).
    destruct (store_all ss _). simpl in *. lia.
Qed.
End Strings.
