(* ===== verification/ManifestParser.v ===== *)
(** * [src/plugins/manifest]: reading a plugin's manifest and handing out its options

    The parser options are the constants of [manifest.hpp]; [parse_json] reads the fields in
    the order of the code and stops at the first that does not fit.  A manifest whose
    parsing throws is discarded by its only caller, so only the outcome is kept.
    [get_options] fills the two caches of the manifest, the second of which owns the
    characters the first points at ([StringStore]). *)
From Stdlib Require Import ZArith Lia Ascii String.
From stdpp Require Import base tactics list strings.
From S2P Require Import Prelude Double CppString CppFormat Money Manifest Abi Json StringStore.
Open Scope string_scope.
Open Scope Z_scope.

Record ParserOptions (T : Type) : Type := mkParserOptions {
  is_required_ : bool;
  allowed_values_ : list T;
  fallback_value_ : T;
  error_message_ : string
}.
Arguments mkParserOptions {T}.
Arguments is_required_ {T}.
Arguments allowed_values_ {T}.
Arguments fallback_value_ {T}.
Arguments error_message_ {T}.

Definition NAME_PARSER_OPTIONS : ParserOptions string :=
  mkParserOptions true [] "" "Invalid name".
Definition KIND_PARSER_OPTIONS : ParserOptions string :=
  mkParserOptions true ["python"; "native"] "" "Invalid kind".
Definition ENTRY_PARSER_OPTIONS : ParserOptions string :=
  mkParserOptions true [] "" "Invalid entry".
Definition DESCRIPTION_PARSER_OPTIONS : ParserOptions string :=
  mkParserOptions false [] "" "Invalid description".
Definition AUTHOR_PARSER_OPTIONS : ParserOptions string :=
  mkParserOptions false [] "" "Invalid author".
Definition API_VERSION_PARSER_OPTIONS : ParserOptions Z :=
  mkParserOptions true [PLUGIN_API_VERSION] 0 "Invalid api version".
Definition VERSION_PARSER_OPTIONS : ParserOptions string :=
  mkParserOptions true [] "" "Invalid version".
Definition STRATEGY_PARAMS_PARSER_OPTIONS : ParserOptions string :=
  mkParserOptions true [] "" "Invalid strategy params".
Definition PRIMARY_PARSER_OPTIONS : ParserOptions bool :=
  mkParserOptions true [true; false] false "Invalid primary".
Definition TIMESPAN_PARSER_OPTIONS : ParserOptions Z :=
  mkParserOptions true [] 0 "Invalid timespan".
Definition SYMBOL_PARSER_OPTIONS : ParserOptions string :=
  mkParserOptions true [] "" "Invalid symbol".
Definition TIMESPAN_UNIT_PARSER_OPTIONS : ParserOptions string :=
  mkParserOptions true ["second"; "minute"; "hour"; "day"; "week"; "month"; "year"] "" "Invalid timespan unit".
Definition MARKET_HOURS_ONLY_PARSER_OPTIONS : ParserOptions bool :=
  mkParserOptions true [true; false] false "Invalid market hours only".
Definition ALLOW_FRACTIONAL_SHARES_PARSER_OPTIONS : ParserOptions bool :=
  mkParserOptions true [true; false] false "Invalid allow fractional shares".
Definition MONTE_CARLO_RUNS_PARSER_OPTIONS : ParserOptions Z :=
  mkParserOptions true [] 0 "Invalid monte carlo runs".
Definition MONTE_CARLO_SEED_PARSER_OPTIONS : ParserOptions Z :=
  mkParserOptions true [] 0 "Invalid monte carlo seed".
Definition LEVERAGE_PARSER_OPTIONS : ParserOptions Z :=
  mkParserOptions true [] 0 "Invalid leverage".
Definition COMMISSION_PARSER_OPTIONS : ParserOptions double :=
  mkParserOptions true [] dzero "Invalid commission".
Definition COMMISSION_TYPE_PARSER_OPTIONS : ParserOptions string :=
  mkParserOptions true ["per_share"; "percentage"; "flat"] "" "Invalid commission type".
Definition SLIPPAGE_PARSER_OPTIONS : ParserOptions double :=
  mkParserOptions true [] dzero "Invalid slippage".
Definition SLIPPAGE_MODEL_PARSER_OPTIONS : ParserOptions string :=
  mkParserOptions true ["none"; "time_based"; "time_volume_based"] "" "Invalid slippage model".
Definition DEFAULT_CURRENCY_PARSER_OPTIONS : ParserOptions string :=
  mkParserOptions true ["USD"] "" "Invalid currency".
Definition TIMEZONE_PARSER_OPTIONS : ParserOptions string :=
  mkParserOptions true ["America/New_York"] "" "Invalid timezone".
Definition OPTIMIZATION_MODE_PARSER_OPTIONS : ParserOptions string :=
  mkParserOptions true ["none"; "grid_search"; "bayesian"; "genetic"] "" "Invalid optimization mode".
Definition BACKTEST_START_DATETIME_PARSER_OPTIONS : ParserOptions string :=
  mkParserOptions true [] "" "Invalid backtest start datetime".
Definition BACKTEST_END_DATETIME_PARSER_OPTIONS : ParserOptions string :=
  mkParserOptions true [] "" "Invalid backtest end datetime".
Definition INITIAL_CAPITAL_PARSER_OPTIONS : ParserOptions string :=
  mkParserOptions true [] "0" "Invalid initial capital, please provide a valid money string".
Definition POSITION_SIZING_METHOD_PARSER_OPTIONS : ParserOptions string :=
  mkParserOptions false ["fixed_percentage"; "fixed_dollar"; "equal_weight"] "fixed_percentage" "Invalid position sizing method".
Definition POSITION_SIZE_VALUE_PARSER_OPTIONS : ParserOptions double :=
  mkParserOptions false [] (ddiv (d_of_Z 1) (d_of_Z 100)) "Invalid position size value".
Definition MAX_POSITION_SIZE_PARSER_OPTIONS : ParserOptions double :=
  mkParserOptions false [] dzero "Invalid max position size".
Definition USE_STOP_LOSS_PARSER_OPTIONS : ParserOptions bool :=
  mkParserOptions false [true; false] false "Invalid use stop loss".
Definition STOP_LOSS_PCT_PARSER_OPTIONS : ParserOptions double :=
  mkParserOptions false [] (ddiv (d_of_Z 1) (d_of_Z 20)) "Invalid stop loss pct".
Definition USE_TAKE_PROFIT_PARSER_OPTIONS : ParserOptions bool :=
  mkParserOptions false [true; false] false "Invalid use take profit".
Definition TAKE_PROFIT_PCT_PARSER_OPTIONS : ParserOptions double :=
  mkParserOptions false [] (ddiv (d_of_Z 1) (d_of_Z 20)) "Invalid take profit pct".
Definition FILL_MAX_PCT_OF_VOLUME_PARSER_OPTIONS : ParserOptions double :=
  mkParserOptions false [] (ddiv (d_of_Z 1) (d_of_Z 10)) "Invalid fill max pct of volume".
Definition RISK_FREE_RATE_PARSER_OPTIONS : ParserOptions double :=
  mkParserOptions false [] (ddiv (d_of_Z 1) (d_of_Z 50)) "Invalid risk free rate".
Definition ALLOW_SHORT_SELLING_PARSER_OPTIONS : ParserOptions bool :=
  mkParserOptions false [true; false] true "Invalid allow short selling".
Definition INITIAL_MARGIN_PCT_PARSER_OPTIONS : ParserOptions double :=
  mkParserOptions false [] (d_of_Z 1) "Invalid initial margin pct".
Definition MAX_LEVERAGE_PARSER_OPTIONS : ParserOptions double :=
  mkParserOptions false [] (d_of_Z 1) "Invalid max leverage".

(** [operator==] of the values that are parsed. *)
Class CppEq (T : Type) : Type := cpp_eqb : T -> T -> bool.
#[export] Instance string_cpp_eq : CppEq string := String.eqb.
#[export] Instance Z_cpp_eq : CppEq Z := Z.eqb.
#[export] Instance bool_cpp_eq : CppEq bool := Bool.eqb.
#[export] Instance double_cpp_eq : CppEq double := deqb.

Definition parse_value {T} `{CppEq T} (result : simdjson_result T) (options : ParserOptions T) : outcome T :=
  match result with
  | simdjson_failure _ => Throw (runtime_error (error_message_ options))
  | SUCCESS value =>
      match allowed_values_ options with
      | [] => Ret value
      | allowed =>
          if negb (existsb (fun allowed_value => cpp_eqb allowed_value value) allowed)
          then Throw (runtime_error (error_message_ options))
          else Ret value
      end
  end.

(** An element of [PluginOptions::items_]. *)
Record PluginConfigKV : Type := mkPluginConfigKV {
  key_ : CharPtr;
  value_ : CharPtr
}.

Record PluginManifest : Type := mkPluginManifest {
  api_version_ : Z;
  name_ : string;
  kind_ : string;
  entry_ : string;
  description_ : option string;
  author_ : option string;
  version_ : string;
  host_params_ : HostParams;
  strategy_params_ : string;
  cached_options_ : list PluginConfigKV;
  cached_option_strings_ : StringVector
}.

Definition is_python (m : PluginManifest) : bool := String.eqb (kind_ m) "python".
Definition is_native (m : PluginManifest) : bool := String.eqb (kind_ m) "native".
Definition is_one_of (m : PluginManifest) (plugin_names : list string) : bool :=
  existsb (fun plugin_name => String.eqb plugin_name (name_ m)) plugin_names.

Definition get_name (m : PluginManifest) : string := name_ m.
Definition get_api_version (m : PluginManifest) : Z := api_version_ m.
Definition get_kind (m : PluginManifest) : string := kind_ m.
Definition get_entry (m : PluginManifest) : string := entry_ m.
Definition get_host_params (m : PluginManifest) : HostParams := host_params_ m.

(** What the file system says about a path. *)
Record ManifestFile : Type := mkManifestFile {
  file_exists : bool;
  file_is_regular : bool;
  file_load : simdjson_result string     (* [padded_string::load] *)
}.

Section Parser.
Context `{Json}.

Definition load_from_file (lookup_file : string -> ManifestFile) (path : string) : outcome jvalue :=
  let manifest_json_file := lookup_file (path +:+ "/manifest.json") in
  if negb (file_exists manifest_json_file) || negb (file_is_regular manifest_json_file)
  then Throw (runtime_error "Manifest file not found")
  else
    let* manifest_json := json_throw (file_load manifest_json_file) in
    json_throw (json_iterate manifest_json).

Definition get_string_at (r : simdjson_result jvalue) (key : string) := json_bind (json_at r key) json_get_string.
Definition get_int64_at (r : simdjson_result jvalue) (key : string) := json_bind (json_at r key) json_get_int64.
Definition get_double_at (r : simdjson_result jvalue) (key : string) := json_bind (json_at r key) json_get_double.
Definition get_bool_at (r : simdjson_result jvalue) (key : string) := json_bind (json_at r key) json_get_bool.

(** The body of the loop over the symbols. *)
Definition parse_symbol (raw_symbol : simdjson_result jvalue) : outcome Symbol :=
  match json_bind raw_symbol json_get_object with
  | simdjson_failure _ => Throw (runtime_error "Invalid symbol object")
  | SUCCESS obj =>
      let obj := SUCCESS obj in
      let* primary := parse_value (get_bool_at obj "primary") PRIMARY_PARSER_OPTIONS in
      let* timespan := parse_value (get_int64_at obj "timespan") TIMESPAN_PARSER_OPTIONS in
      let* symbol := parse_value (get_string_at obj "symbol") SYMBOL_PARSER_OPTIONS in
      let* timespan_unit := parse_value (get_string_at obj "timespan_unit") TIMESPAN_UNIT_PARSER_OPTIONS in
      Ret (mkSymbol primary (to_int timespan) symbol timespan_unit)
  end.

Fixpoint parse_symbols (raw_symbols : list (simdjson_result jvalue)) (parsed_symbols : list Symbol)
  : outcome (list Symbol) :=
  match raw_symbols with
  | [] => Ret parsed_symbols
  | raw_symbol :: raw_symbols =>
      let* symbol := parse_symbol raw_symbol in parse_symbols raw_symbols (parsed_symbols ++ [symbol])%list
  end.

(** The initialiser of [host_params_], in the order it is written. *)
Definition parse_host_params (hp : simdjson_result jvalue) (parsed_symbols : list Symbol) : outcome HostParams :=
  let* market_hours_only := parse_value (get_bool_at hp "market_hours_only") MARKET_HOURS_ONLY_PARSER_OPTIONS in
  let* allow_fractional_shares :=
    parse_value (get_bool_at hp "allow_fractional_shares") ALLOW_FRACTIONAL_SHARES_PARSER_OPTIONS in
  let* monte_carlo_runs := parse_value (get_int64_at hp "monte_carlo_runs") MONTE_CARLO_RUNS_PARSER_OPTIONS in
  let* monte_carlo_seed := parse_value (get_int64_at hp "monte_carlo_seed") MONTE_CARLO_SEED_PARSER_OPTIONS in
  let* initial_capital_string := parse_value (get_string_at hp "initial_capital") INITIAL_CAPITAL_PARSER_OPTIONS in
  let* initial_capital := parse_microdollars initial_capital_string in
  let* backtest_start_datetime :=
    parse_value (get_string_at hp "backtest_start_datetime") BACKTEST_START_DATETIME_PARSER_OPTIONS in
  let* backtest_end_datetime :=
    parse_value (get_string_at hp "backtest_end_datetime") BACKTEST_END_DATETIME_PARSER_OPTIONS in
  let* commission := parse_value (get_double_at hp "commission") COMMISSION_PARSER_OPTIONS in
  let* commission_type := parse_value (get_string_at hp "commission_type") COMMISSION_TYPE_PARSER_OPTIONS in
  let* slippage := parse_value (get_double_at hp "slippage") SLIPPAGE_PARSER_OPTIONS in
  let* slippage_model := parse_value (get_string_at hp "slippage_model") SLIPPAGE_MODEL_PARSER_OPTIONS in
  let* default_currency := parse_value (get_string_at hp "default_currency") DEFAULT_CURRENCY_PARSER_OPTIONS in
  let* timezone := parse_value (get_string_at hp "timezone") TIMEZONE_PARSER_OPTIONS in
  let* optimization_mode := parse_value (get_string_at hp "optimization_mode") OPTIMIZATION_MODE_PARSER_OPTIONS in
  let* position_sizing_method :=
    parse_value (get_string_at hp "position_sizing_method") POSITION_SIZING_METHOD_PARSER_OPTIONS in
  let* position_size_value :=
    parse_value (get_double_at hp "position_size_value") POSITION_SIZE_VALUE_PARSER_OPTIONS in
  let* max_position_size := parse_value (get_double_at hp "max_position_size") MAX_POSITION_SIZE_PARSER_OPTIONS in
  let* use_stop_loss := parse_value (get_bool_at hp "use_stop_loss") USE_STOP_LOSS_PARSER_OPTIONS in
  let* stop_loss_pct := parse_value (get_double_at hp "stop_loss_pct") STOP_LOSS_PCT_PARSER_OPTIONS in
  let* use_take_profit := parse_value (get_bool_at hp "use_take_profit") USE_TAKE_PROFIT_PARSER_OPTIONS in
  let* take_profit_pct := parse_value (get_double_at hp "take_profit_pct") TAKE_PROFIT_PCT_PARSER_OPTIONS in
  let* fill_max_pct_of_volume :=
    parse_value (get_double_at hp "fill_max_pct_of_volume") FILL_MAX_PCT_OF_VOLUME_PARSER_OPTIONS in
  let* risk_free_rate := parse_value (get_double_at hp "risk_free_rate") RISK_FREE_RATE_PARSER_OPTIONS in
  let* allow_short_selling :=
    parse_value (get_bool_at hp "allow_short_selling") ALLOW_SHORT_SELLING_PARSER_OPTIONS in
  let* initial_margin_pct := parse_value (get_double_at hp "initial_margin_pct") INITIAL_MARGIN_PCT_PARSER_OPTIONS in
  let* max_leverage := parse_value (get_double_at hp "max_leverage") MAX_LEVERAGE_PARSER_OPTIONS in
  Ret {| market_hours_only_ := Some market_hours_only;
         allow_fractional_shares_ := Some allow_fractional_shares;
         monte_carlo_runs_ := to_int monte_carlo_runs;
         monte_carlo_seed_ := to_int monte_carlo_seed;
         commission_ := Some commission;
         slippage_ := Some slippage;
         initial_capital_ := to_microdollars initial_capital;
         commission_type_ := Some commission_type;
         slippage_model_ := Some slippage_model;
         default_currency_ := Some default_currency;
         timezone_ := Some timezone;
         optimization_mode_ := Some optimization_mode;
         backtest_start_datetime_ := backtest_start_datetime;
         backtest_end_datetime_ := backtest_end_datetime;
         symbols_ := parsed_symbols;
         position_sizing_method_ := Some position_sizing_method;
         position_size_value_ := Some position_size_value;
         max_position_size_ := Some max_position_size;
         use_stop_loss_ := Some use_stop_loss;
         stop_loss_pct_ := Some stop_loss_pct;
         use_take_profit_ := Some use_take_profit;
         take_profit_pct_ := Some take_profit_pct;
         fill_max_pct_of_volume_ := Some fill_max_pct_of_volume;
         risk_free_rate_ := Some risk_free_rate;
         allow_short_selling_ := Some allow_short_selling;
         initial_margin_pct_ := Some initial_margin_pct;
         max_leverage_ := Some max_leverage |}.

Definition parse_json (self : PluginManifest) (doc : jvalue) : outcome PluginManifest :=
  let doc := SUCCESS doc in
  let* name := parse_value (get_string_at doc "name") NAME_PARSER_OPTIONS in
  let* kind := parse_value (get_string_at doc "kind") KIND_PARSER_OPTIONS in
  let* entry := parse_value (get_string_at doc "entry") ENTRY_PARSER_OPTIONS in
  let* description := parse_value (get_string_at doc "description") DESCRIPTION_PARSER_OPTIONS in
  let* author := parse_value (get_string_at doc "author") AUTHOR_PARSER_OPTIONS in
  let* version := parse_value (get_string_at doc "version") VERSION_PARSER_OPTIONS in
  let* api_version := parse_value (get_int64_at doc "api_version") API_VERSION_PARSER_OPTIONS in
  match json_bind (json_at (json_at doc "host_params") "symbols") json_get_array with
  | simdjson_failure _ => Throw (runtime_error "Invalid symbols")
  | SUCCESS raw_symbols =>
      let* parsed_symbols := parse_symbols raw_symbols [] in
      let* host_params := parse_host_params (json_at doc "host_params") parsed_symbols in
      match json_bind (json_at doc "strategy_params") json_to_json_string with
      | simdjson_failure _ => Throw (runtime_error "Error converting strategy params to JSON string")
      | SUCCESS strategy_params =>
          Ret {| api_version_ := to_int api_version;
                 name_ := name;
                 kind_ := kind;
                 entry_ := entry;
                 description_ := Some description;
                 author_ := Some author;
                 version_ := version;
                 host_params_ := host_params;
                 strategy_params_ := strategy_params;
                 cached_options_ := cached_options_ self;
                 cached_option_strings_ := cached_option_strings_ self |}
      end
  end.
End Parser.

(** ** Options *)

(** [add_optional]: nothing for an empty option, its text otherwise. *)
Definition optional_kv {A} (to_text : A -> string) (key : string) (opt_value : option A) : list (string * string) :=
  match opt_value with
  | Some v => [(key, to_text v)]
  | None => []
  end.

(** The keys of the i-th symbol. *)
Definition symbol_kvs (i : nat) (sym : Symbol) : list (string * string) :=
  let prefix := "symbol_" +:+ to_string (Z.of_nat i) +:+ "_" in
  [(prefix +:+ "symbol", Symbol_symbol_ sym);
   (prefix +:+ "primary", to_string_bool (Symbol_primary_ sym));
   (prefix +:+ "timespan", to_string (Symbol_timespan_ sym));
   (prefix +:+ "timespan_unit", Symbol_timespan_unit_ sym)].

(** The keys and values in the order [get_options] adds them. *)
Definition option_kvs (m : PluginManifest) : list (string * string) :=
  let hp := host_params_ m in
  let text : string -> option string -> list (string * string) := optional_kv (fun s => s) in
  let number : string -> option double -> list (string * string) := optional_kv to_string_double in
  let flag : string -> option bool -> list (string * string) := optional_kv to_string_bool in
  (flag "market_hours_only" (market_hours_only_ hp) ++
   flag "allow_fractional_shares" (allow_fractional_shares_ hp) ++
   [("monte_carlo_runs", to_string (monte_carlo_runs_ hp));
    ("monte_carlo_seed", to_string (monte_carlo_seed_ hp));
    ("initial_capital", to_string (initial_capital_ hp));
    ("backtest_start_datetime", backtest_start_datetime_ hp);
    ("backtest_end_datetime", backtest_end_datetime_ hp)] ++
   number "commission" (commission_ hp) ++
   text "commission_type" (commission_type_ hp) ++
   number "slippage" (slippage_ hp) ++
   text "slippage_model" (slippage_model_ hp) ++
   text "default_currency" (default_currency_ hp) ++
   text "timezone" (timezone_ hp) ++
   text "optimization_mode" (optimization_mode_ hp) ++
   number "fill_max_pct_of_volume" (fill_max_pct_of_volume_ hp) ++
   number "risk_free_rate" (risk_free_rate_ hp) ++
   flag "allow_short_selling" (allow_short_selling_ hp) ++
   number "initial_margin_pct" (initial_margin_pct_ hp) ++
   number "max_leverage" (max_leverage_ hp) ++
   text "position_sizing_method" (position_sizing_method_ hp) ++
   number "position_size_value" (position_size_value_ hp) ++
   number "max_position_size" (max_position_size_ hp) ++
   flag "use_stop_loss" (use_stop_loss_ hp) ++
   number "stop_loss_pct" (stop_loss_pct_ hp) ++
   flag "use_take_profit" (use_take_profit_ hp) ++
   number "take_profit_pct" (take_profit_pct_ hp) ++
   concat (imap symbol_kvs (symbols_ hp)) ++
   [("symbol_count", to_string (Z.of_nat (length (symbols_ hp))));
    ("strategy_params", strategy_params_ m)])%list.

(** [items_] points at the elements of [cached_options_]. *)
Record PluginOptions : Type := mkPluginOptions {
  items_ : list PluginConfigKV;
  count_ : nat
}.

Section Options.
Context `{StringLayout}.

(** [add_kv]: the key is stored first, then the value. *)
Definition add_kv (kv : string * string) (caches : list PluginConfigKV * StringVector)
  : list PluginConfigKV * StringVector :=
  let '(options, strings) := caches in
  let strings := sv_emplace_back (fst kv) strings in
  let key := sv_back_c_str strings in
  let strings := sv_emplace_back (snd kv) strings in
  let value := sv_back_c_str strings in
  (options ++ [mkPluginConfigKV key value], strings)%list.

Definition set_caches (options : list PluginConfigKV) (strings : StringVector) (m : PluginManifest) : PluginManifest :=
  mkPluginManifest (api_version_ m) (name_ m) (kind_ m) (entry_ m) (description_ m) (author_ m) (version_ m)
    (host_params_ m) (strategy_params_ m) options strings.

Definition get_options (m : PluginManifest) : PluginOptions * PluginManifest :=
  let '(options, strings) :=
    fold_left (fun caches kv => add_kv kv caches) (option_kvs m) ([], sv_clear (cached_option_strings_ m)) in
  (mkPluginOptions options (length options), set_caches options strings m).

(** What a plugin reads through the options it was given. *)
Definition read_options (m : PluginManifest) (o : PluginOptions) : list (option string * option string) :=
  (fun kv => (sv_read (cached_option_strings_ m) (key_ kv), sv_read (cached_option_strings_ m) (value_ kv))) <$> items_ o.
End Options.
