(* ===== verification/ManifestProps.v ===== *)
(** * The manifest: properties

    What a parsed manifest satisfies, which fields it needs, that a printed manifest is read
    back, and which of the pointers [get_options] hands out can be read. *)
From Stdlib Require Import ZArith Lia Ascii String.
From stdpp Require Import base tactics list strings.
From S2P Require Import Prelude Double CppString CppFormat Money Manifest Abi Json StringStore ManifestParser.
Open Scope string_scope.
Open Scope Z_scope.

(** ** Values *)
Lemma parse_value_ret {T} `{CppEq T} (r : simdjson_result T) o v :
  parse_value r o = Ret v ->
  r = SUCCESS v /\ (allowed_values_ o = [] \/ existsb (fun a => cpp_eqb a v) (allowed_values_ o) = true).
Proof.
  unfold parse_value. destruct r as [x|]; [|done]. destruct (allowed_values_ o) as [|a l].
  - intros [= <-]. auto.
  - destruct (existsb _ _) eqn:E; [|done]. intros [= <-]. auto.
Qed.

Lemma parse_value_string (r : simdjson_result string) o v :
  parse_value r o = Ret v -> r = SUCCESS v /\ (allowed_values_ o = [] \/ v ∈ allowed_values_ o).
Proof.
  intros [-> Hv]%parse_value_ret. split; [done|]. destruct Hv as [Hv|Hv]; [by left|right].
  apply existsb_exists in Hv as (a & Ha & E). apply String.eqb_eq in E as ->. by apply list_elem_of_In.
Qed.

(** The converse: an allowed value is returned. *)
Lemma parse_value_allowed {T} `{CppEq T} (v : T) o :
  allowed_values_ o = [] \/ existsb (fun a => cpp_eqb a v) (allowed_values_ o) = true ->
  parse_value (SUCCESS v) o = Ret v.
Proof. unfold parse_value. destruct (allowed_values_ o); [done|]. by intros [?| ->]. Qed.

(** ** Well-typed manifests *)
Definition one_of (allowed : list string) (o : option string) : Prop :=
  exists v, o = Some v /\ v ∈ allowed.

Definition symbol_typed (s : Symbol) : Prop :=
  in_int32 (Symbol_timespan_ s) /\ Symbol_timespan_unit_ s ∈ allowed_values_ TIMESPAN_UNIT_PARSER_OPTIONS.

Definition host_params_typed (hp : HostParams) : Prop :=
  (is_Some (market_hours_only_ hp) /\ is_Some (allow_fractional_shares_ hp) /\ is_Some (commission_ hp) /\
   is_Some (slippage_ hp) /\ is_Some (position_size_value_ hp) /\ is_Some (max_position_size_ hp) /\
   is_Some (use_stop_loss_ hp) /\ is_Some (stop_loss_pct_ hp) /\ is_Some (use_take_profit_ hp) /\
   is_Some (take_profit_pct_ hp) /\ is_Some (fill_max_pct_of_volume_ hp) /\ is_Some (risk_free_rate_ hp) /\
   is_Some (allow_short_selling_ hp) /\ is_Some (initial_margin_pct_ hp) /\ is_Some (max_leverage_ hp)) /\
  (one_of ["per_share"; "percentage"; "flat"] (commission_type_ hp) /\
   one_of ["none"; "time_based"; "time_volume_based"] (slippage_model_ hp) /\
   one_of ["USD"] (default_currency_ hp) /\
   one_of ["America/New_York"] (timezone_ hp) /\
   one_of ["none"; "grid_search"; "bayesian"; "genetic"] (optimization_mode_ hp) /\
   one_of ["fixed_percentage"; "fixed_dollar"; "equal_weight"] (position_sizing_method_ hp)) /\
  in_int32 (monte_carlo_runs_ hp) /\ in_int32 (monte_carlo_seed_ hp) /\ in_int64 (initial_capital_ hp) /\
  Forall symbol_typed (symbols_ hp).

Definition manifest_typed (m : PluginManifest) : Prop :=
  api_version_ m = PLUGIN_API_VERSION /\ kind_ m ∈ ["python"; "native"] /\
  is_Some (description_ m) /\ is_Some (author_ m) /\ host_params_typed (host_params_ m).

(** Splits a parse that succeeded into its steps. *)
Ltac parse_steps H :=
  repeat (let v := fresh "v" in let Hv := fresh "Hv" in apply obind_ret in H as (v & Hv & H)).

Lemma parse_microdollars_in_int64 s m : parse_microdollars s = Ret m -> in_int64 (microdollars_ m).
Proof.
  unfold parse_microdollars. destruct (find_char _ _).
  - intros H. parse_steps H. injection H as <-. apply wrap64_in_int64.
  - intros H. parse_steps H. injection H as <-. apply wrap64_in_int64.
Qed.

Section Parsed.
Context `{Json}.

Lemma parse_symbol_typed raw s : parse_symbol raw = Ret s -> symbol_typed s.
Proof.
  unfold parse_symbol. destruct (json_bind _ _); [|done]. intros H0. parse_steps H0. injection H0 as <-.
  apply parse_value_string in Hv2 as [_ [?|Hu]]; [done|]. split; [apply to_int_in_int32|exact Hu].
Qed.

Lemma parse_symbols_typed raws acc ss :
  Forall symbol_typed acc -> parse_symbols raws acc = Ret ss -> Forall symbol_typed ss.
Proof.
  revert acc. induction raws as [|raw raws IH]; intros acc Hacc; simpl; [by intros [= <-]|].
  intros (s & Hs & Hr)%obind_ret. apply (IH (acc ++ [s])%list); [|done].
  apply Forall_app. split; [done|]. constructor; [by eapply parse_symbol_typed|done].
Qed.

Lemma parse_host_params_typed hp symbols p :
  Forall symbol_typed symbols -> parse_host_params hp symbols = Ret p -> host_params_typed p.
Proof.
  intros Hs Hp. unfold parse_host_params in Hp. parse_steps Hp. injection Hp as <-.
  assert (forall (r : simdjson_result string) o v l,
    parse_value r o = Ret v -> allowed_values_ o = l -> l <> [] -> one_of l (Some v)) as Hone.
  { intros r o x l Hx <- Hne. apply parse_value_string in Hx as [_ [?|?]]; [done|]. by exists x. }
  split_and!; cbn -[in_int32 in_int64 one_of]; try (by eexists); try apply to_int_in_int32; try done;
    try (eapply Hone; [eassumption|reflexivity|done]).
  by eapply parse_microdollars_in_int64.
Qed.

(** C15: a manifest that parses is well typed: its API version is the supported one, its
    kind, commission type, slippage model, currency, time zone, optimisation mode, sizing
    method and time-span units are among the allowed ones, every optional host parameter
    is present and every integer is within its type. *)
Theorem parsed_manifest_typed self doc m : parse_json self doc = Ret m -> manifest_typed m.
Proof.
  intros Hp. unfold parse_json in Hp. parse_steps Hp.
  destruct (json_bind (json_at (json_at _ "host_params") "symbols") json_get_array); [|done]. parse_steps Hp.
  destruct (json_bind (json_at _ "strategy_params") _); [|done]. injection Hp as <-.
  apply parse_value_string in Hv0 as [_ [?|Hk]]; [done|].
  apply parse_value_ret in Hv5 as [_ [?|Hapi]]; [done|]. simpl in Hapi. rewrite orb_false_r in Hapi.
  apply Z.eqb_eq in Hapi as <-.
  split_and!; [reflexivity|exact Hk|by eexists|by eexists|].
  eapply parse_host_params_typed; [|done]. by eapply parse_symbols_typed.
Qed.

(** ** Required fields *)

(** The fields of the document and of ["host_params"], also those whose options say that
    they are not required. *)
Definition document_fields : list string :=
  ["name"; "kind"; "entry"; "description"; "author"; "version"; "api_version"; "host_params"; "strategy_params"].
Definition host_params_fields : list string :=
  ["symbols"; "market_hours_only"; "allow_fractional_shares"; "monte_carlo_runs"; "monte_carlo_seed";
   "initial_capital"; "backtest_start_datetime"; "backtest_end_datetime"; "commission"; "commission_type";
   "slippage"; "slippage_model"; "default_currency"; "timezone"; "optimization_mode"; "position_sizing_method";
   "position_size_value"; "max_position_size"; "use_stop_loss"; "stop_loss_pct"; "use_take_profit";
   "take_profit_pct"; "fill_max_pct_of_volume"; "risk_free_rate"; "allow_short_selling"; "initial_margin_pct";
   "max_leverage"].

Definition has_field (r : simdjson_result jvalue) (key : string) : Prop := exists v, json_at r key = SUCCESS v.

Lemma bind_success {A B} (r : simdjson_result A) (f : A -> simdjson_result B) b :
  json_bind r f = SUCCESS b -> exists a, r = SUCCESS a.
Proof. destruct r; [eauto|done]. Qed.

Lemma parsed_field {T} `{CppEq T} r key (get : jvalue -> simdjson_result T) o v :
  parse_value (json_bind (json_at r key) get) o = Ret v -> has_field r key.
Proof. intros [Hr _]%parse_value_ret. by apply bind_success in Hr. Qed.

Ltac parsed_field :=
  first [eapply (parsed_field _ _ json_get_bool); eassumption
        |eapply (parsed_field _ _ json_get_string); eassumption
        |eapply (parsed_field _ _ json_get_int64); eassumption
        |eapply (parsed_field _ _ json_get_double); eassumption].

Lemma parse_host_params_fields hp symbols p :
  parse_host_params hp symbols = Ret p -> Forall (has_field hp) (tail host_params_fields).
Proof.
  intros Hp. unfold parse_host_params in Hp. parse_steps Hp. clear Hp.
  unfold host_params_fields. cbn [tail].
  repeat (apply Forall_cons; split; [parsed_field|]). constructor.
Qed.

(** A manifest only parses if each of its 9 fields and each of the 27 fields of
    ["host_params"] is there, whatever [is_required_] says: no fallback is ever used. *)
Theorem manifest_fields_required self doc m :
  parse_json self doc = Ret m ->
  Forall (has_field (SUCCESS doc)) document_fields /\
  Forall (has_field (json_at (SUCCESS doc) "host_params")) host_params_fields.
Proof.
  intros Hp. unfold parse_json in Hp. parse_steps Hp.
  destruct (json_bind (json_at (json_at _ "host_params") "symbols") json_get_array) eqn:Hs; [|done]. parse_steps Hp.
  destruct (json_bind (json_at _ "strategy_params") _) eqn:Hsp; [|done].
  apply bind_success in Hs. split.
  - repeat (apply Forall_cons; split; [first [parsed_field|by eapply bind_success|idtac]|]);
      [|constructor].
    destruct Hs as [a Hs]. by eapply bind_success.
  - apply Forall_cons. split; [exact Hs|]. by eapply parse_host_params_fields.
Qed.
End Parsed.

(** ** Reading back a printed manifest *)
Section RoundTrip.
Variable documents : string -> simdjson_result JsonTree.
Variable print : JsonTree -> string.
#[local] Instance tree_reader : Json := tree_json documents print.

Definition symbol_tree (s : Symbol) : JsonTree :=
  JObject [("symbol", JString (Symbol_symbol_ s)); ("primary", JBool (Symbol_primary_ s));
           ("timespan", JInt (Symbol_timespan_ s)); ("timespan_unit", JString (Symbol_timespan_unit_ s))].

Definition text_tree (o : option string) : JsonTree := default JNull (JString <$> o).
Definition number_tree (o : option double) : JsonTree := default JNull (JDouble <$> o).
Definition flag_tree (o : option bool) : JsonTree := default JNull (JBool <$> o).

(** The reference printer: [capital] is the text of the initial capital. *)
Definition host_params_tree (capital : string) (hp : HostParams) : JsonTree :=
  JObject
    [("symbols", JArray (symbol_tree <$> symbols_ hp));
     ("market_hours_only", flag_tree (market_hours_only_ hp));
     ("allow_fractional_shares", flag_tree (allow_fractional_shares_ hp));
     ("monte_carlo_runs", JInt (monte_carlo_runs_ hp)); ("monte_carlo_seed", JInt (monte_carlo_seed_ hp));
     ("initial_capital", JString capital);
     ("backtest_start_datetime", JString (backtest_start_datetime_ hp));
     ("backtest_end_datetime", JString (backtest_end_datetime_ hp));
     ("commission", number_tree (commission_ hp)); ("commission_type", text_tree (commission_type_ hp));
     ("slippage", number_tree (slippage_ hp)); ("slippage_model", text_tree (slippage_model_ hp));
     ("default_currency", text_tree (default_currency_ hp)); ("timezone", text_tree (timezone_ hp));
     ("optimization_mode", text_tree (optimization_mode_ hp));
     ("position_sizing_method", text_tree (position_sizing_method_ hp));
     ("position_size_value", number_tree (position_size_value_ hp));
     ("max_position_size", number_tree (max_position_size_ hp));
     ("use_stop_loss", flag_tree (use_stop_loss_ hp)); ("stop_loss_pct", number_tree (stop_loss_pct_ hp));
     ("use_take_profit", flag_tree (use_take_profit_ hp));
     ("take_profit_pct", number_tree (take_profit_pct_ hp));
     ("fill_max_pct_of_volume", number_tree (fill_max_pct_of_volume_ hp));
     ("risk_free_rate", number_tree (risk_free_rate_ hp));
     ("allow_short_selling", flag_tree (allow_short_selling_ hp));
     ("initial_margin_pct", number_tree (initial_margin_pct_ hp));
     ("max_leverage", number_tree (max_leverage_ hp))].

Definition manifest_tree (capital : string) (params : JsonTree) (m : PluginManifest) : JsonTree :=
  JObject
    [("name", JString (name_ m)); ("kind", JString (kind_ m)); ("entry", JString (entry_ m));
     ("description", text_tree (description_ m)); ("author", text_tree (author_ m));
     ("version", JString (version_ m)); ("api_version", JInt (api_version_ m));
     ("host_params", host_params_tree capital (host_params_ m)); ("strategy_params", params)].

Lemma parse_value_in (v : string) o : v ∈ allowed_values_ o -> parse_value (SUCCESS v) o = Ret v.
Proof.
  intros Hv. apply parse_value_allowed. right. apply existsb_exists. exists v. rewrite <- list_elem_of_In.
  split; [done|]. apply String.eqb_refl.
Qed.

Lemma parse_value_bool (b : bool) o : allowed_values_ o = [true; false] -> parse_value (SUCCESS b) o = Ret b.
Proof. intros Ho. apply parse_value_allowed. right. rewrite Ho. by destruct b. Qed.

Lemma parse_symbol_tree s : symbol_typed s -> parse_symbol (SUCCESS (symbol_tree s)) = Ret s.
Proof.
  intros [Ht Hu]. destruct s as [p t y u]. unfold parse_symbol. cbn -[parse_value to_int]. cbn in Ht, Hu.
  rewrite (parse_value_in u) by exact Hu. rewrite (parse_value_bool p) by done.
  cbn. by rewrite to_int_small.
Qed.

Lemma parse_symbols_tree ss acc :
  Forall symbol_typed ss -> parse_symbols (SUCCESS <$> (symbol_tree <$> ss)) acc = Ret (acc ++ ss)%list.
Proof.
  intros Hs. revert acc. induction Hs as [|s ss Hs _ IH]; intros acc; [by rewrite app_nil_r|].
  rewrite !fmap_cons. cbn [parse_symbols]. rewrite parse_symbol_tree by done. cbn [obind].
  by rewrite IH, <- app_assoc.
Qed.

(** An option that is present and, for a text, allowed. *)
Ltac present :=
  repeat match goal with
  | H : is_Some ?o |- _ => destruct H as [? ->]
  | H : one_of _ ?o |- _ => let v := fresh "v" in let Hv := fresh "Hin" in destruct H as (v & -> & Hv)
  end.

Lemma parse_host_params_tree capital hp :
  host_params_typed hp -> parse_microdollars capital = Ret (mkMoney (initial_capital_ hp)) ->
  parse_host_params (SUCCESS (host_params_tree capital hp)) (symbols_ hp) = Ret hp.
Proof.
  intros (Hsome & Hone & Hruns & Hseed & Hcap & _) Hc. destruct_and! Hsome. destruct_and! Hone.
  destruct hp. cbn in *. present.
  unfold parse_host_params, host_params_tree. cbn -[parse_value parse_microdollars to_int to_microdollars].
  rewrite !parse_value_bool by done. 
  repeat match goal with Hin : ?v ∈ _ |- _ => rewrite (parse_value_in v) by exact Hin; clear Hin end.
  cbn -[parse_microdollars to_int]. rewrite Hc. cbn -[to_int]. by rewrite !to_int_small.
Qed.

(** C27: a well-typed manifest printed as JSON parses to itself; only the two caches are
    those of the object it was parsed into. *)
Theorem manifest_round_trip self capital params m :
  manifest_typed m -> parse_microdollars capital = Ret (mkMoney (initial_capital_ (host_params_ m))) ->
  print params = strategy_params_ m ->
  parse_json self (manifest_tree capital params m) =
  Ret (set_caches (cached_options_ self) (cached_option_strings_ self) m).
Proof.
  intros (Ha & Hk & Hd & Hau & Hhp) Hc Hpr.
  pose proof (parse_host_params_tree capital (host_params_ m) Hhp Hc) as Hparse.
  assert (Forall symbol_typed (symbols_ (host_params_ m))) as Hsyms by (by destruct Hhp as (_ & _ & _ & _ & _ & ?)).
  destruct m as [api name kind entry d au ver hp sp co cs].
  cbn [api_version_ kind_ description_ author_ host_params_ strategy_params_] in *. present. subst api sp.
  unfold parse_json, manifest_tree.
  cbn -[parse_value parse_host_params parse_symbols to_int host_params_tree fmap]. rewrite (parse_value_in kind) by exact Hk.
  cbn -[parse_host_params parse_symbols to_int host_params_tree fmap].
  change (text_tree (Some x0)) with (JString x0). change (text_tree (Some x)) with (JString x).
  change (json_bind _ tree_array) with (SUCCESS (SUCCESS <$> (symbol_tree <$> symbols_ hp))).
  cbn -[parse_host_params parse_symbols to_int host_params_tree fmap].
  match goal with |- context [@parse_symbols ?i ?raws ?acc] =>
    replace (@parse_symbols i raws acc) with (Ret (symbols_ hp)) by (symmetry; exact (parse_symbols_tree _ [] Hsyms)) end.
  cbn -[parse_host_params to_int host_params_tree].
  match goal with |- context [@parse_host_params ?i ?t ?ss] =>
    replace (@parse_host_params i t ss) with (Ret hp) by (symmetry; exact Hparse) end.
  reflexivity.
Qed.
End RoundTrip.

(** ** The parameters a plugin is handed

    Told from the JSON manifest: which member of ["host_params"] comes when, and how its
    value is written. *)

(** A JSON value as an option is written. *)
Definition scalar_text (t : JsonTree) : option string :=
  match t with
  | JString s => Some s
  | JInt z => Some (to_string z)
  | JDouble d => Some (to_string_double d)
  | JBool b => Some (if b then "true" else "false")
  | _ => None
  end.

Definition member_text (t : JsonTree) (key : string) : option string :=
  match t with
  | JObject members => match tree_member key members with SUCCESS v => scalar_text v | _ => None end
  | _ => None
  end.

(** The members of ["host_params"], ["symbols"] apart, in the order they are handed out. *)
Definition option_order : list string :=
  ["market_hours_only"; "allow_fractional_shares"; "monte_carlo_runs"; "monte_carlo_seed"; "initial_capital";
   "backtest_start_datetime"; "backtest_end_datetime"; "commission"; "commission_type"; "slippage"; "slippage_model";
   "default_currency"; "timezone"; "optimization_mode"; "fill_max_pct_of_volume"; "risk_free_rate";
   "allow_short_selling"; "initial_margin_pct"; "max_leverage"; "position_sizing_method"; "position_size_value";
   "max_position_size"; "use_stop_loss"; "stop_loss_pct"; "use_take_profit"; "take_profit_pct"].

(** Of these the ones that have a value; the initial capital counts micro-dollars. *)
Definition parameters_in_order (hp : HostParams) : list (string * string) :=
  omap (fun key => pair key <$> member_text (host_params_tree (to_string (initial_capital_ hp)) hp) key) option_order.

(** The members of the i-th symbol under numbered keys. *)
Definition numbered_symbol (i : nat) (sym : Symbol) : list (string * string) :=
  omap (fun key => pair (("symbol_" +:+ to_string (Z.of_nat i) +:+ "_") +:+ key) <$> member_text (symbol_tree sym) key)
    ["symbol"; "primary"; "timespan"; "timespan_unit"].

Definition handed_out (m : PluginManifest) : list (string * string) :=
  (parameters_in_order (host_params_ m) ++
   concat (imap numbered_symbol (symbols_ (host_params_ m))) ++
   [("symbol_count", to_string (Z.of_nat (length (symbols_ (host_params_ m))))); ("strategy_params", strategy_params_ m)])%list.

Definition kv_list (key : string) (o : option string) : list (string * string) := option_list (pair key <$> o).

Lemma optional_kv_list {A} (f : A -> string) key o : optional_kv f key o = kv_list key (f <$> o).
Proof. by destruct o. Qed.

Lemma omap_kv_list (g : string -> option string) key keys :
  omap (fun key => pair key <$> g key) (key :: keys) = (kv_list key (g key) ++ omap (fun key => pair key <$> g key) keys)%list.
Proof. simpl. by destruct (g key). Qed.

Lemma option_text (o : option string) : scalar_text (text_tree o) = (fun s => s) <$> o.
Proof. by destruct o. Qed.
Lemma option_number (o : option double) : scalar_text (number_tree o) = to_string_double <$> o.
Proof. by destruct o. Qed.
Lemma option_flag (o : option bool) : scalar_text (flag_tree o) = to_string_bool <$> o.
Proof. by destruct o as [[]|]. Qed.

Lemma numbered_symbol_kvs : numbered_symbol = symbol_kvs.
Proof.
  unfold numbered_symbol, symbol_kvs.
  reflexivity.
Qed.

Lemma option_kvs_handed_out m : option_kvs m = handed_out m.
Proof.
  unfold option_kvs, handed_out, parameters_in_order, option_order. cbv zeta. rewrite numbered_symbol_kvs.
  rewrite !omap_kv_list, !optional_kv_list. unfold member_text, host_params_tree.
  cbn [tree_member String.eqb Ascii.eqb Bool.eqb]. rewrite !option_text, !option_number, !option_flag.
  cbn [scalar_text omap list_omap]. unfold kv_list at 3 4 5 6 7. cbn [fmap option_fmap option_map option_list].
  rewrite <- !app_assoc. reflexivity.
Qed.

(** ** The pointers [get_options] hands out *)
Section Options.
Context `{StringLayout}.

(** Keys and values as they are stored. *)
Definition flat (kvs : list (string * string)) : list string := concat ((fun kv => [fst kv; snd kv]) <$> kvs).

Fixpoint pair_up (ps : list CharPtr) : list PluginConfigKV :=
  match ps with
  | k :: v :: ps => mkPluginConfigKV k v :: pair_up ps
  | _ => []
  end.

Lemma add_kvs_store kvs opts v :
  fold_left (fun caches kv => add_kv kv caches) kvs (opts, v) =
  ((opts ++ pair_up (store_all (flat kvs) v).1)%list, (store_all (flat kvs) v).2).
Proof.
  revert opts v. induction kvs as [|[k x] kvs IH]; intros opts v; [simpl; by rewrite app_nil_r|].
  cbn [fold_left]. unfold add_kv at 2. rewrite IH. unfold flat. rewrite fmap_cons. cbn [concat app store_all fst snd].
  fold (flat kvs). destruct (store_all (flat kvs) _) as [ps v']. cbn. by rewrite <- app_assoc.
Qed.

Lemma get_options_store m :
  get_options m =
  (mkPluginOptions (pair_up (store_all (flat (option_kvs m)) (sv_clear (cached_option_strings_ m))).1)
     (length (pair_up (store_all (flat (option_kvs m)) (sv_clear (cached_option_strings_ m))).1)),
   set_caches (pair_up (store_all (flat (option_kvs m)) (sv_clear (cached_option_strings_ m))).1)
     (store_all (flat (option_kvs m)) (sv_clear (cached_option_strings_ m))).2 m).
Proof. unfold get_options. rewrite add_kvs_store. done. Qed.

Lemma length_flat kvs : length (flat kvs) = (2 * length kvs)%nat.
Proof. unfold flat. induction kvs as [|kv kvs IH]; [done|]. rewrite fmap_cons. simpl in *. lia. Qed.

Lemma flat_lookup kvs k kv :
  kvs !! k = Some kv -> flat kvs !! (2 * k)%nat = Some (fst kv) /\ flat kvs !! (2 * k + 1)%nat = Some (snd kv).
Proof.
  revert k. induction kvs as [|kv0 kvs IH]; intros k Hk; [done|]. unfold flat. rewrite fmap_cons. cbn [concat app].
  fold (flat kvs). destruct k as [|k]; [by injection Hk as ->|]. destruct (IH k Hk) as [H1 H2].
  replace (2 * S k)%nat with (S (S (2 * k))) by lia. done.
Qed.

Lemma pair_up_lookup ps k p q :
  ps !! (2 * k)%nat = Some p -> ps !! (2 * k + 1)%nat = Some q -> pair_up ps !! k = Some (mkPluginConfigKV p q).
Proof.
  revert ps. induction k as [|k IH]; intros ps Hp Hq.
  - destruct ps as [|a [|b ps]]; try done. by injection Hp as ->; injection Hq as ->.
  - replace (2 * S k)%nat with (S (S (2 * k))) in * by lia. destruct ps as [|a [|b ps]]; try done. by apply IH.
Qed.

Lemma length_store_all ss v : length (store_all ss v).1 = length ss.
Proof. revert v. induction ss as [|s ss IH]; intros v; [done|]. simpl. specialize (IH (sv_emplace_back s v)).
  destruct (store_all ss _). simpl in *. lia. Qed.

Lemma length_pair_up ps n : length ps = (2 * n)%nat -> length (pair_up ps) = n.
Proof.
  revert ps. induction n as [|n IH]; intros ps Hl.
  - by destruct ps.
  - destruct ps as [|a [|b ps]]; simpl in *; try lia. rewrite IH; lia.
Qed.

(** A string reads back unless it is short and the strings from it on did not fit. *)
Definition kept (v : StringVector) (ss : list string) (i : nat) (s : string) : option string :=
  if is_short s && (sv_capacity (store_all (take (S i) ss) v).2 <? length ss)%nat then None else Some s.

Lemma read_options_lookup m k kv :
  let ss := flat (option_kvs m) in
  let v := sv_clear (cached_option_strings_ m) in
  option_kvs m !! k = Some kv ->
  read_options (get_options m).2 (get_options m).1 !! k =
  Some (kept v ss (2 * k) (fst kv), kept v ss (2 * k + 1) (snd kv)).
Proof.
  intros ss v Hk. rewrite get_options_store. fold ss v. unfold read_options. cbn [fst snd items_ set_caches cached_option_strings_].
  destruct (flat_lookup _ _ _ Hk) as [H1 H2].
  destruct (store_all_reads ss v _ _ (sv_clear_ok _) H1) as (p & Hp & Rp).
  destruct (store_all_reads ss v _ _ (sv_clear_ok _) H2) as (q & Hq & Rq).
  rewrite list_lookup_fmap, (pair_up_lookup _ _ _ _ Hp Hq). cbn [fmap option_fmap option_map key_ value_].
  rewrite Rp, Rq. done.
Qed.

Lemma length_options m : count_ (get_options m).1 = length (option_kvs m) /\
  length (read_options (get_options m).2 (get_options m).1) = length (option_kvs m).
Proof.
  rewrite get_options_store. unfold read_options. cbn [fst snd count_ items_]. rewrite length_fmap.
  split; apply length_pair_up; by rewrite length_store_all, length_flat.
Qed.

Lemma option_kvs_caches opts strings m : option_kvs (set_caches opts strings m) = option_kvs m.
Proof. done. Qed.

(** C29: the options handed out are the members of the manifest's ["host_params"] that
    have a value, each once and in a fixed order that leaves none out, then four numbered
    entries per symbol, the number of symbols and the strategy's own parameters; from the
    second call on the strings fit into the storage the first call left behind, and every
    key and value reads back as it is. *)
Theorem options_valid_from_second_call m :
  let m1 := (get_options m).2 in
  option_order ≡ₚ tail host_params_fields /\
  count_ (get_options m1).1 = length (handed_out m) /\
  read_options (get_options m1).2 (get_options m1).1 = (fun kv => (Some (fst kv), Some (snd kv))) <$> handed_out m.
Proof.
  intros m1. split; [apply (bool_decide_unpack _); vm_compute; exact I|]. rewrite <- option_kvs_handed_out.
  assert (option_kvs m1 = option_kvs m) as Hkv by (unfold m1; by rewrite get_options_store).
  destruct (length_options m1) as [Hc Hl]. rewrite Hkv in *. split; [done|].
  apply list_eq. intros k. rewrite list_lookup_fmap. destruct (option_kvs m !! k) as [kv|] eqn:Ek.
  2: { rewrite (proj2 (lookup_ge_None _ _)); [done|]. apply lookup_ge_None in Ek. lia. }
  rewrite <- Hkv in Ek. rewrite (read_options_lookup m1 k kv Ek), Hkv. cbn [fmap option_fmap option_map].
  set (ss := flat (option_kvs m)). set (v := sv_clear (cached_option_strings_ m1)).
  assert (forall i s, kept v ss i s = Some s) as Hkept; [|by rewrite !Hkept].
  intros i s. unfold kept. assert (length (sv_items v) + length ss <= sv_capacity v)%nat as Hfit.
  { unfold v, m1. rewrite get_options_store. cbn [snd set_caches cached_option_strings_ sv_clear sv_items sv_capacity].
    fold ss. pose proof (store_all_ok ss _ (sv_clear_ok (cached_option_strings_ m))) as [Hle _].
    assert (forall u, length (sv_items (store_all ss u).2) = (length (sv_items u) + length ss)%nat) as Hlen.
    { clear. induction ss as [|s ss IH]; intros u; [simpl; lia|]. simpl. specialize (IH (sv_emplace_back s u)).
      destruct (store_all ss _). simpl in *. rewrite length_app in IH. simpl in IH. lia. }
    rewrite Hlen in Hle. simpl in *. lia. }
  pose proof (store_all_block (take (S i) ss) v (sv_clear_ok _)) as Hb.
  rewrite (proj2 (Nat.leb_le _ _)) in Hb by (rewrite length_take; lia). destruct Hb as [_ ->].
  rewrite (proj2 (Nat.ltb_ge _ _)) by (simpl in *; lia). by rewrite andb_false_r.
Qed.
End Options.

(** A vector that started empty and doubles has less than twice the room it needs. *)
Lemma doubling_capacity ss v :
  (sv_capacity v <= 2 * length (sv_items v) - 1)%nat ->
  (sv_capacity (store_all (H := libstdcxx) ss v).2 <= 2 * (length (sv_items v) + length ss) - 1)%nat.
Proof.
  revert v. induction ss as [|s ss IH]; intros v Hv; [simpl; lia|]. simpl.
  specialize (IH (sv_emplace_back (H := libstdcxx) s v)).
  destruct (store_all ss _) as [ps v']. simpl in *. rewrite length_app in IH. simpl in IH.
  destruct (Nat.eqb_spec (length (sv_items v)) (sv_capacity v)); lia.
Qed.

(** The first call is different: with short strings kept inside and a vector that
    doubles, every key and value of at most 15 characters in the first half of the options
    dangles by the time the options are returned; only longer ones can be read. *)
Theorem first_options_dangle m k kv :
  cached_option_strings_ m = empty_strings -> option_kvs m !! k = Some kv -> (2 * S k <= length (option_kvs m))%nat ->
  let '(o, m1) := get_options (H := libstdcxx) m in
  read_options (H := libstdcxx) m1 o !! k =
  Some (if (String.length (fst kv) <=? 15)%nat then None else Some (fst kv),
        if (String.length (snd kv) <=? 15)%nat then None else Some (snd kv)).
Proof.
  intros Hm Hk Hhalf. pose proof (read_options_lookup (H := libstdcxx) m k kv Hk) as Hr.
  destruct (get_options (H := libstdcxx) m) as [o m1]. cbn [fst snd] in Hr. rewrite Hr, Hm. clear Hr.
  change (sv_clear empty_strings) with empty_strings. set (ss := flat (option_kvs m)).
  assert (forall i s, (i <= 2 * k + 1)%nat -> kept (H := libstdcxx) empty_strings ss i s =
    if (String.length s <=? 15)%nat then None else Some s) as Hkept; [|by rewrite !Hkept by lia].
  intros i s Hi. unfold kept. pose proof (doubling_capacity (take (S i) ss) empty_strings ltac:(simpl; lia)) as Hc.
  rewrite (proj2 (Nat.ltb_lt _ _)).
  - rewrite andb_true_r. done.
  - rewrite length_take in Hc. cbn [empty_strings sv_items length] in Hc. unfold ss in *. rewrite length_flat in *. lia.
Qed.
