(* ===== verification/ManifestScenario.v ===== *)
(** * The manifests of the repository, and one that parses *)
From Stdlib Require Import ZArith Lia Ascii String.
From stdpp Require Import base tactics list strings.
From S2P Require Import Prelude Double CppString CppFormat Money Manifest Abi Json StringStore ManifestParser ManifestProps.
Open Scope string_scope.
Open Scope Z_scope.

(** The reader of these trees; any tree prints as the same text. *)
#[local] Instance trees : Json := tree_json (fun _ => simdjson_failure "EMPTY") (fun _ => "{}").

Definition decimal (n d : Z) : JsonTree := JDouble (ddiv (d_of_Z n) (d_of_Z d)).

(** [src/plugins/manifest/manifest.example.json] *)
Definition example_host_params : list (string * JsonTree) :=
  [("initial_capital", JString "100000.50"); ("default_currency", JString "USD");
   ("timezone", JString "America/New_York");
   ("symbols", JArray
      [JObject [("symbol", JString "AAPL"); ("timespan_unit", JString "minute"); ("timespan", JInt 1); ("primary", JBool true)];
       JObject [("symbol", JString "GOOG"); ("timespan_unit", JString "minute"); ("timespan", JInt 1); ("primary", JBool false)]]);
   ("position_sizing_method", JString "fixed_percentage"); ("position_size_value", decimal 1 10);
   ("max_position_size", decimal 3 10); ("use_stop_loss", JBool true); ("stop_loss_pct", decimal 2 100);
   ("use_take_profit", JBool false); ("take_profit_pct", decimal 1 10); ("commission", JString "0.0001");
   ("commission_type", JString "per_share"); ("slippage", JString "0"); ("slippage_model", JString "none");
   ("market_hours_only", JBool false); ("allow_fractional_shares", JBool false);
   ("fill_max_pct_of_volume", decimal 1 10); ("risk_free_rate", decimal 2 100);
   ("backtest_start_datetime", JString "2023-01-01T00:00:00Z"); ("backtest_end_datetime", JString "2025-10-01T00:00:00Z");
   ("monte_carlo_runs", JInt 1); ("monte_carlo_seed", JNull); ("optimization_mode", JString "none");
   ("allow_short_selling", JBool true); ("initial_margin_pct", decimal 1 2); ("max_leverage", JInt 2)].

Definition example_manifest (host_params : list (string * JsonTree)) : JsonTree :=
  JObject
    [("name", JString "sma_python"); ("version", JString "1.0.0"); ("api_version", JInt 1); ("kind", JString "python");
     ("entry", JString "sma_python.py"); ("description", JString "A simple SMA strategy implemented in Python");
     ("author", JString "John Doe"); ("host_params", JObject host_params);
     ("strategy_params", JObject [("fast", JInt 10); ("slow", JInt 30); ("symbol", JString "AAPL")])].

(** [.plugins/sma_native/manifest.json] *)
Definition sma_native_manifest : JsonTree :=
  JObject
    [("name", JString "sma_native"); ("version", JString "1.0.0"); ("api_version", JInt 1); ("kind", JString "native");
     ("entry", JString "libSMA_native.so");
     ("options", JObject [("fast", JString "20"); ("slow", JString "50"); ("symbol", JString "AAPL")])].

(** [.plugins/sma_python/manifest.json] *)
Definition sma_python_manifest : JsonTree :=
  JObject
    [("name", JString "sma_python"); ("version", JString "1.0.0"); ("api_version", JInt 1); ("kind", JString "python");
     ("entry", JString "sma_python.py");
     ("host_params", JObject [("initial_capital", JString "100000"); ("leverage", JString "1");
        ("commission", JString "0.0001"); ("slippage", JString "0"); ("currency", JString "USD");
        ("timezone", JString "America/New_York")]);
     ("strategy_params", JObject [("fast", JInt 10); ("slow", JInt 30); ("symbol", JString "AAPL")])].

(** The members replaced by others of the same names. *)
Definition with_members (changes members : list (string * JsonTree)) : list (string * JsonTree) := changes ++ members.

Definition default_host_params : HostParams :=
  mkHostParams None None 0 0 None None 0 None None None None None "" "" [] None None None None None None None None
    None None None None.
Definition new_manifest : PluginManifest :=
  mkPluginManifest 0 "" "" "" None None "" default_host_params "" [] empty_strings.

(** None of the three manifests of the repository parses: those of the two example
    plugins lack the description, which the parser requires; the documented example has a
    null seed, and with that replaced a capital with two decimals, and with that replaced
    a commission written as a string. *)
Theorem shipped_manifests_rejected :
  parse_json new_manifest sma_native_manifest = Throw (runtime_error "Invalid description") /\
  parse_json new_manifest sma_python_manifest = Throw (runtime_error "Invalid description") /\
  parse_json new_manifest (example_manifest example_host_params) = Throw (runtime_error "Invalid monte carlo seed") /\
  parse_json new_manifest (example_manifest (with_members [("monte_carlo_seed", JInt 7)] example_host_params)) =
    Throw (length_error "basic_string::append") /\
  parse_json new_manifest
    (example_manifest (with_members [("monte_carlo_seed", JInt 7); ("initial_capital", JString "100000")]
                         example_host_params)) = Throw (runtime_error "Invalid commission").
Proof. split_and!; vm_compute; reflexivity. Qed.

(** The example with the four values the parser wants. *)
Definition good_manifest : JsonTree :=
  example_manifest
    (with_members [("monte_carlo_seed", JInt 7); ("initial_capital", JString "100000");
                   ("commission", decimal 1 10000); ("slippage", JInt 0)] example_host_params).

Definition parsed_good : PluginManifest :=
  match parse_json new_manifest good_manifest with Ret m => m | _ => new_manifest end.

Example good_manifest_parses : parse_json new_manifest good_manifest = Ret parsed_good.
Proof. vm_compute. reflexivity. Qed.

Lemma parsed_manifest_typed_witness : manifest_typed parsed_good.
Proof. apply (parsed_manifest_typed (H := trees) new_manifest good_manifest). apply good_manifest_parses. Defined.

Lemma manifest_fields_required_witness :
  has_field (H := trees) (SUCCESS good_manifest) "description" /\
  has_field (H := trees) (json_at (H := trees) (SUCCESS good_manifest) "host_params") "max_leverage".
Proof.
  destruct (manifest_fields_required (H := trees) new_manifest good_manifest parsed_good good_manifest_parses) as [H1 H2].
  split.
  - apply (proj1 (Forall_forall _ _) H1). vm_compute. repeat constructor.
  - apply (proj1 (Forall_forall _ _) H2). vm_compute. repeat constructor.
Defined.

Lemma manifest_round_trip_witness :
  parse_json new_manifest (manifest_tree "100000" JNull parsed_good) = Ret parsed_good.
Proof.
  apply (manifest_round_trip (fun _ => simdjson_failure "EMPTY") (fun _ => "{}") new_manifest "100000" JNull parsed_good).
  - apply (parsed_manifest_typed (H := trees) new_manifest good_manifest). apply good_manifest_parses.
  - vm_compute. reflexivity.
  - vm_compute. reflexivity.
Defined.

(** The first option, [market_hours_only], has a value that cannot be read. *)
Lemma first_options_dangle_witness :
  let '(o, m1) := get_options (H := libstdcxx) parsed_good in
  read_options (H := libstdcxx) m1 o !! 0%nat = Some (Some "market_hours_only", None).
Proof.
  apply (first_options_dangle parsed_good 0 ("market_hours_only", "false")).
  - vm_compute. reflexivity.
  - vm_compute. reflexivity.
  - vm_compute. lia.
Defined.
