(* ===== verification/NativeLoader.v ===== *)
(** * [src/plugins/loaders/native_loader.cpp], [interface.hpp] and the function tables of
      [src/plugins/abi]

    A plugin's code is a parameter: its functions act on a memory [M] of their own, and a
    null function pointer is [None].  The dynamic loader is a parameter too
    ([DynamicLoader]), together with what happens to lie at an address that is no longer
    valid.  [LoaderWorld] is the loader, the memory and a log of what was opened, created,
    called, destroyed and closed. *)
From Stdlib Require Import ZArith Lia Ascii String.
From stdpp Require Import base tactics list gmap strings.
From S2P Require Import Prelude Double CppString Manifest Abi StockApi Models State AbiConverter Engine Effects StringStore ManifestParser.
Open Scope string_scope.
Open Scope Z_scope.

(** ** The rest of [abi.h] *)
Record SimulatorContext : Type := mkSimulatorContext { SimulatorContext_api_version_ : Z }.

Definition PLUGIN_CREATE_SYMBOL : string := "create_plugin".

(** A [void* self] that may be null. *)
Abbreviation Instance_ := (option nat).

(** [on_init] is given the options as the plugin reads them; [on_end] returns what it left
    in [*json_out]. *)
Record PluginVTable (M : Type) : Type := mkPluginVTable {
  vt_destroy : option (Instance_ -> M -> M);
  vt_on_init : option (Instance_ -> list (string * string) -> io M PluginResult);
  vt_on_start : option (Instance_ -> io M PluginResult);
  vt_on_bar : option (Instance_ -> CBar -> CState -> io M PluginResult);
  vt_on_end : option (Instance_ -> io M (PluginResult * option string));
  vt_free_string : option (Instance_ -> option string -> M -> M)
}.
Arguments mkPluginVTable {M}.
Arguments vt_destroy {M}.
Arguments vt_on_init {M}.
Arguments vt_on_start {M}.
Arguments vt_on_bar {M}.
Arguments vt_on_end {M}.
Arguments vt_free_string {M}.

Record PluginExport (M : Type) : Type := mkPluginExport {
  PluginExport_api_version_ : Z;
  instance_ : Instance_;
  vtable_ : PluginVTable M
}.
Arguments mkPluginExport {M}.
Arguments PluginExport_api_version_ {M}.
Arguments instance_ {M}.
Arguments vtable_ {M}.

(** [PluginExport{}] *)
Definition empty_export {M} : PluginExport M := mkPluginExport 0 None (mkPluginVTable None None None None None None).

(** ** [interface.hpp] *)
Definition to_plugin_bar (bar : AggregateBarResult) : CBar :=
  {| CBar_symbol_ := bar_symbol_ bar;
     CBar_unix_ts_ns_ := bar_unix_ts_ns_ bar;
     CBar_open_ := bar_open_ bar;
     CBar_high_ := bar_high_ bar;
     CBar_low_ := bar_low_ bar;
     CBar_close_ := bar_close_ bar;
     CBar_volume_ := bar_volume_ bar |}.

Definition to_http_bar (bar : CBar) : AggregateBarResult :=
  {| bar_symbol_ := CBar_symbol_ bar;
     bar_is_otc_ := false;
     bar_tx_count_ := 0;
     bar_volume_ := CBar_volume_ bar;
     bar_volume_weighted_price_ := dzero;
     bar_open_ := CBar_open_ bar;
     bar_close_ := CBar_close_ bar;
     bar_high_ := CBar_high_ bar;
     bar_low_ := CBar_low_ bar;
     bar_unix_ts_ns_ := CBar_unix_ts_ns_ bar |}.

(** ** What is not valid any more *)
Class InvalidMemory : Type := {
  dangling_text : CharPtr -> string;
  freed_positions : list CPosition -> list CPosition;
  freed_exit_orders : list CExitOrder -> list CExitOrder;
  freed_fills : list CFill -> list CFill;
  freed_equity_curve : list CEquitySnapshot -> list CEquitySnapshot
}.

(** The options as read through their pointers. *)
Definition deref_options `{StringLayout, InvalidMemory} (m : PluginManifest) (o : PluginOptions)
  : list (string * string) :=
  (fun kv => (default (dangling_text (key_ kv)) (sv_read (cached_option_strings_ m) (key_ kv)),
              default (dangling_text (value_ kv)) (sv_read (cached_option_strings_ m) (value_ kv)))) <$> items_ o.

(** An array that was freed, read at its old address: nothing is read of an empty one. *)
Definition read_freed {A} (freed : list A -> list A) (l : list A) : list A :=
  match l with [] => [] | _ => freed l end.

(** A [CState] whose converter is gone: the arrays belonged to it. *)
Definition orphaned_state `{InvalidMemory} (s : CState) : CState :=
  {| CState_cash_ := CState_cash_ s;
     CState_positions_ := read_freed freed_positions (CState_positions_ s);
     CState_positions_count_ := CState_positions_count_ s;
     CState_new_exit_orders_ := read_freed freed_exit_orders (CState_new_exit_orders_ s);
     CState_new_exit_orders_count_ := CState_new_exit_orders_count_ s;
     CState_new_fills_ := read_freed freed_fills (CState_new_fills_ s);
     CState_new_fills_count_ := CState_new_fills_count_ s;
     CState_equity_curve_ := read_freed freed_equity_curve (CState_equity_curve_ s);
     CState_equity_curve_count_ := CState_equity_curve_count_ s |}.

(** ** The loader *)
Class DynamicLoader (M : Type) : Type := {
  dlopen : string -> M -> (string + nat) * M;     (* the error text or a handle *)
  dlsym : nat -> string -> option (SimulatorContext -> M -> PluginExport M * M);
  dlclose : nat -> M -> M
}.

Inductive LoaderEvent : Type :=
| Opened (handle : nat)
| Created (instance : Instance_)
| Called (instance : Instance_)
| Destroyed (instance : Instance_)
| Closed (handle : nat).

Record NativeLoader (M : Type) : Type := mkNativeLoader {
  plugin_manifest_ : PluginManifest;
  exp_ : PluginExport M;
  lib_ : option nat
}.
Arguments mkNativeLoader {M}.
Arguments plugin_manifest_ {M}.
Arguments exp_ {M}.
Arguments lib_ {M}.

Definition new_native_loader {M} (m : PluginManifest) : NativeLoader M := mkNativeLoader m empty_export None.

Record LoaderWorld (M : Type) : Type := mkLoaderWorld {
  native : NativeLoader M;
  memory : M;
  events : list LoaderEvent
}.
Arguments mkLoaderWorld {M}.
Arguments native {M}.
Arguments memory {M}.
Arguments events {M}.

Section NativeLoader.
Context {M : Type} `{DynamicLoader M, StringLayout, InvalidMemory}.

Definition set_exp (e : PluginExport M) (w : LoaderWorld M) : LoaderWorld M :=
  mkLoaderWorld (mkNativeLoader (plugin_manifest_ (native w)) e (lib_ (native w))) (memory w) (events w).
Definition set_lib (l : option nat) (w : LoaderWorld M) : LoaderWorld M :=
  mkLoaderWorld (mkNativeLoader (plugin_manifest_ (native w)) (exp_ (native w)) l) (memory w) (events w).
Definition set_manifest (m : PluginManifest) (w : LoaderWorld M) : LoaderWorld M :=
  mkLoaderWorld (mkNativeLoader m (exp_ (native w)) (lib_ (native w))) (memory w) (events w).
Definition log (e : LoaderEvent) (w : LoaderWorld M) : LoaderWorld M :=
  mkLoaderWorld (native w) (memory w) (events w ++ [e])%list.
Definition set_memory (m : M) (w : LoaderWorld M) : LoaderWorld M :=
  mkLoaderWorld (native w) m (events w).

(** A call into the plugin. *)
Definition call_plugin {A} (c : io M A) : io (LoaderWorld M) A := fun w =>
  io_lift memory set_memory c (log (Called (instance_ (exp_ (native w)))) w).

(** [LibHandler::open]: the handle, or the error text. *)
Definition lib_open (path : string) : io (LoaderWorld M) (string + nat) := fun w =>
  let '(r, m) := dlopen path (memory w) in
  let w := set_memory m w in
  match r with
  | inl err => (Ret (inl err), w)
  | inr h => (Ret (inr h), log (Opened h) w)
  end.

(** [LibHandler::sym]: a null pointer when there is no such symbol; [load_plugin] does not
    look at the error text. *)
Definition lib_sym (handle : nat) (name : string) : option (SimulatorContext -> M -> PluginExport M * M) :=
  dlsym handle name.

(** [LibHandler::close] *)
Definition lib_close : io (LoaderWorld M) unit := io_modify (fun w =>
  match lib_ (native w) with
  | Some h => set_lib None (log (Closed h) (set_memory (dlclose h (memory w)) w))
  | None => set_lib None w
  end).

Definition load_plugin (ctx : SimulatorContext) : io (LoaderWorld M) unit :=
  let! w := io_get in
  let! opened := lib_open (get_entry (plugin_manifest_ (native w))) in
  match opened with
  | inl err => do! io_modify (set_lib None) in io_throw (runtime_error err)
  | inr handle =>
      do! io_modify (set_lib (Some handle)) in
      match lib_sym handle PLUGIN_CREATE_SYMBOL with
      | None => do! lib_close in io_throw (runtime_error "Failed to load plugin")
      | Some create =>
          do! io_modify (fun w =>
            let '(e, m) := create ctx (memory w) in
            log (Created (instance_ e)) (set_exp e (set_memory m w))) in
          let! w := io_get in
          let exp := exp_ (native w) in
          if negb (PluginExport_api_version_ exp =? PLUGIN_API_VERSION) || negb (bool_decide (is_Some (instance_ exp)))
          then do! lib_close in do! io_modify (set_exp empty_export) in
               io_throw (runtime_error "API mismatch or null instance")
          else if negb (bool_decide (is_Some (vt_destroy (vtable_ exp)))) || negb (bool_decide (is_Some (vt_on_end (vtable_ exp))))
          then do! lib_close in do! io_modify (set_exp empty_export) in
               io_throw (runtime_error "Required vtable methods missing")
          else io_ret tt
      end
  end.

(** The result of [on_init] is dropped. *)
Definition native_on_init : io (LoaderWorld M) unit :=
  let! w := io_get in
  let exp := exp_ (native w) in
  if negb (PluginExport_api_version_ exp =? PLUGIN_API_VERSION) then io_ret tt
  else
    match vt_on_init (vtable_ exp) with
    | Some on_init =>
        let '(options, manifest) := get_options (plugin_manifest_ (native w)) in
        do! io_modify (set_manifest manifest) in
        do! call_plugin (on_init (instance_ exp) (deref_options manifest options)) in
        io_ret tt
    | None => io_ret tt
    end.

Definition error_result (message : string) : PluginResult := mkPluginResult 1 (Some message) [].

Definition native_on_start : io (LoaderWorld M) PluginResult :=
  let! w := io_get in
  let exp := exp_ (native w) in
  if negb (PluginExport_api_version_ exp =? PLUGIN_API_VERSION) then io_ret (error_result "Invalid API Version")
  else
    match vt_on_start (vtable_ exp) with
    | None => io_ret (error_result "Undefined Method on_start")
    | Some on_start => call_plugin (on_start (instance_ exp))
    end.

(** The converter that owns the arrays of [c_state] is a temporary. *)
Definition native_on_bar (bar : AggregateBarResult) (state : State) : io (LoaderWorld M) PluginResult :=
  let! w := io_get in
  let exp := exp_ (native w) in
  if negb (PluginExport_api_version_ exp =? PLUGIN_API_VERSION) then io_ret (error_result "Invalid API Version")
  else
    match vt_on_bar (vtable_ exp) with
    | None => io_ret (error_result "Undefined Method on_bar")
    | Some on_bar =>
        let plugin_bar := to_plugin_bar bar in
        let c_state := orphaned_state (to_c_state state) in
        call_plugin (on_bar (instance_ exp) plugin_bar c_state)
    end.

Definition native_on_end : io (LoaderWorld M) (PluginResult * option string) :=
  let! w := io_get in
  let exp := exp_ (native w) in
  if negb (PluginExport_api_version_ exp =? PLUGIN_API_VERSION) then io_ret (error_result "Invalid API Version", None)
  else
    match vt_on_end (vtable_ exp) with
    | None => io_ret (error_result "Undefined Method on_end", None)
    | Some on_end => call_plugin (on_end (instance_ exp))
    end.

Definition native_free_string (str : option string) : io (LoaderWorld M) unit :=
  let! w := io_get in
  let exp := exp_ (native w) in
  if negb (PluginExport_api_version_ exp =? PLUGIN_API_VERSION) then io_ret tt
  else
    match vt_free_string (vtable_ exp) with
    | None => io_ret tt
    | Some free_string => call_plugin (io_modify (free_string (instance_ exp) str))
    end.

Definition native_unload_plugin : io (LoaderWorld M) unit :=
  let! w := io_get in
  let exp := exp_ (native w) in
  if negb (PluginExport_api_version_ exp =? PLUGIN_API_VERSION) then io_ret tt
  else
    do! match instance_ exp, vt_destroy (vtable_ exp) with
        | Some i, Some destroy =>
            io_modify (fun w =>
              set_exp (mkPluginExport (PluginExport_api_version_ exp) None (vtable_ exp))
                (log (Destroyed (Some i)) (set_memory (destroy (Some i) (memory w)) w)))
        | _, _ => io_ret tt
        end in
    do! lib_close in
    io_modify (set_exp empty_export).

Definition native_get_plugin_name (w : LoaderWorld M) : string := get_name (plugin_manifest_ (native w)).
Definition native_get_plugin_export (w : LoaderWorld M) : PluginExport M := exp_ (native w).
Definition native_get_host_params (w : LoaderWorld M) : HostParams := get_host_params (plugin_manifest_ (native w)).

(** ** What the simulators see: the loader is one of [IPluginLoader] *)
Definition io_outcome {W A} (r : outcome A * W) : outcome (A * W) :=
  let* a := r.1 in Ret (a, r.2).

#[export] Instance native_plugin_loader : PluginLoader (LoaderWorld M) := {
  loader_on_bar bar st w := io_outcome (native_on_bar bar st w);
  loader_on_end w := io_outcome (native_on_end w);
  loader_free_string str w := (native_free_string str w).2;
  loader_get_host_params := native_get_host_params;
  loader_get_plugin_name := native_get_plugin_name
}.
End NativeLoader.
