(* ===== verification/NativeProps.v ===== *)
(** * The native loader: properties

    The log of a loader is checked event by event: a library is opened before it is used, an
    instance is only called or destroyed while it is alive and its library is open, and a
    library is closed once. *)
From Stdlib Require Import ZArith Lia Ascii String.
From stdpp Require Import base tactics list gmap strings.
From S2P Require Import Prelude Double CppString Money Manifest Abi StockApi Models State AbiConverter Engine Effects StringStore ManifestParser ManifestProps NativeLoader.
Open Scope string_scope.
Open Scope Z_scope.

(** The library that is open and the instance that is alive. *)
Definition Resources : Type := (option nat * option nat)%type.

(** [None]: the event is a use of something that is not there. *)
Definition check_event (r : Resources) (e : LoaderEvent) : option Resources :=
  let '(open, alive) := r in
  match e with
  | Opened h => match open with Some _ => None | None => Some (Some h, alive) end
  | Created i => match open, alive with Some _, None => Some (open, i) | _, _ => None end
  | Called i =>
      if bool_decide (is_Some i /\ i = alive /\ is_Some open) then Some r else None
  | Destroyed i =>
      if bool_decide (is_Some i /\ i = alive /\ is_Some open) then Some (open, None) else None
  | Closed h => if bool_decide (open = Some h) then Some (None, alive) else None
  end.

Fixpoint check_events (r : Resources) (es : list LoaderEvent) : option Resources :=
  match es with
  | [] => Some r
  | e :: es => r ← check_event r e; check_events r es
  end.

Lemma check_events_snoc r es e :
  check_events r (es ++ [e]) = r ← check_events r es; check_event r e.
Proof.
  revert r. induction es as [|e0 es IH]; intros r; simpl.
  - by destruct (check_event r e).
  - destruct (check_event r e0); simpl; [apply IH|done].
Qed.

Section Lifecycle.
Context {M : Type} `{DynamicLoader M, StringLayout, InvalidMemory}.

(** A call on a loaded plugin. *)
Inductive LoaderOp : Type :=
| OpInit
| OpStart
| OpBar (bar : AggregateBarResult) (state : State)
| OpEnd
| OpFree (str : option string)
| OpUnload.

(** The world after the call, whether it returns or throws. *)
Definition loader_op (op : LoaderOp) (w : LoaderWorld M) : LoaderWorld M :=
  match op with
  | OpInit => (native_on_init w).2
  | OpStart => (native_on_start w).2
  | OpBar bar state => (native_on_bar bar state w).2
  | OpEnd => (native_on_end w).2
  | OpFree str => (native_free_string str w).2
  | OpUnload => (native_unload_plugin w).2
  end.

Definition loader_ops (ops : list LoaderOp) (w : LoaderWorld M) : LoaderWorld M :=
  fold_left (fun w op => loader_op op w) ops w.

(** The loader holds an instance whose library is open, or it answers nothing. *)
Inductive loader_inv (w : LoaderWorld M) : Resources -> Prop :=
| inv_loaded h i :
    PluginExport_api_version_ (exp_ (native w)) = PLUGIN_API_VERSION ->
    instance_ (exp_ (native w)) = Some i -> is_Some (vt_destroy (vtable_ (exp_ (native w)))) ->
    lib_ (native w) = Some h ->
    check_events (None, None) (events w) = Some (Some h, Some i) -> loader_inv w (Some h, Some i)
| inv_empty leaked :
    exp_ (native w) = empty_export -> lib_ (native w) = None ->
    check_events (None, None) (events w) = Some (None, leaked) -> loader_inv w (None, leaked).

Lemma loader_inv_checked w r : loader_inv w r -> check_events (None, None) (events w) = Some r.
Proof. by destruct 1. Qed.

Lemma call_inv {A} (c : io M A) w h i :
  loader_inv w (Some h, Some i) -> loader_inv (call_plugin c w).2 (Some h, Some i).
Proof.
  inversion_clear 1 as [? ? Hv Hi Hd Hl Hc|]. unfold call_plugin, io_lift. destruct (c _) as [r m]. simpl.
  apply inv_loaded; simpl; try done. rewrite check_events_snoc, Hc, Hi. simpl.
  by rewrite bool_decide_true by (split_and!; eauto).
Qed.

Lemma set_manifest_inv m w r : loader_inv w r -> loader_inv (set_manifest m w) r.
Proof. destruct 1; [by eapply inv_loaded|by eapply inv_empty]. Qed.

(** Unloading leaves nothing behind; the other calls keep what there is. *)
Lemma loader_op_inv op w r :
  loader_inv w r ->
  loader_inv (loader_op op w)
    (match op, r with OpUnload, (Some _, _) => (None, None) | _, _ => r end).
Proof.
  intros Hw. pose proof Hw as Hw'. destruct Hw' as [h i Hv Hi Hd Hl Hc|leaked He Hl Hc].
  - assert ((PluginExport_api_version_ (exp_ (native w)) =? PLUGIN_API_VERSION) = true) as Hve by by apply Z.eqb_eq.
    destruct op; cbn [loader_op]; unfold native_on_init, native_on_start, native_on_bar, native_on_end,
      native_free_string, native_unload_plugin, io_bind, io_get; rewrite Hve; cbn [negb].
    + destruct (vt_on_init _) as [f|]; [|done]. destruct (get_options _) as [o m]. simpl.
      match goal with |- context [call_plugin ?c ?w1] =>
        pose proof (call_inv c w1 h i (set_manifest_inv m w _ Hw)) as Hcall; destruct (call_plugin c w1) as [[?|?|] ?] end;
        exact Hcall.
    + destruct (vt_on_start _); [by apply call_inv|done].
    + destruct (vt_on_bar _); [by apply call_inv|done].
    + destruct (vt_on_end _); [by apply call_inv|done].
    + destruct (vt_free_string _); [by apply call_inv|done].
    + destruct Hd as [d Hd]. rewrite Hi, Hd. unfold io_modify, lib_close. simpl. rewrite Hl. simpl.
      apply inv_empty; simpl; try done. rewrite !check_events_snoc, Hc. simpl.
      rewrite bool_decide_true by (split_and!; eauto). simpl. by rewrite bool_decide_true.
  - destruct op; cbn [loader_op]; unfold native_on_init, native_on_start, native_on_bar, native_on_end,
      native_free_string, native_unload_plugin, io_bind, io_get; rewrite He; exact Hw.
Qed.

Definition is_unload (op : LoaderOp) : bool := match op with OpUnload => true | _ => false end.

Lemma loader_ops_inv ops w r :
  loader_inv w r ->
  loader_inv (loader_ops ops w)
    (match r with
     | (Some _, _) => if existsb is_unload ops then (None, None) else r
     | _ => r
     end).
Proof.
  revert w r. induction ops as [|op ops IH]; intros w r Hw; simpl.
  - by destruct r as [[h|] i].
  - specialize (IH _ _ (loader_op_inv op w r Hw)). destruct r as [[h|] i].
    + by destruct op.
    + by destruct op.
Qed.

Lemma fresh_inv m mem : loader_inv (mkLoaderWorld (new_native_loader m) mem []) (None, None).
Proof. by apply inv_empty. Qed.

(** Loading: an instance of an open library, or an exception and a closed library. *)
Lemma load_plugin_cases ctx m mem :
  let '(x, w1) := load_plugin ctx (mkLoaderWorld (new_native_loader m) mem []) in
  (x = Ret tt /\ exists h i, loader_inv w1 (Some h, Some i)) \/
  ((exists what, x = Throw (runtime_error what)) /\ exists leaked, loader_inv w1 (None, leaked)).
Proof.
  unfold load_plugin, lib_open, lib_sym, io_bind, io_get, io_modify, io_throw, io_ret. cbn [memory].
  destruct (dlopen _ mem) as [[err|h] mem1]; simpl.
  { right. split; [eauto|]. exists None. by apply inv_empty. }
  destruct (dlsym h PLUGIN_CREATE_SYMBOL) as [create|]; simpl.
  2: { right. split; [eauto|]. exists None. apply inv_empty; simpl; try done. by rewrite bool_decide_true. }
  destruct (create ctx mem1) as [e mem2]. simpl.
  destruct (Z.eqb_spec (PluginExport_api_version_ e) PLUGIN_API_VERSION) as [Hv|Hv]; simpl.
  2: { right. split; [eauto|]. exists (instance_ e). apply inv_empty; simpl; try done. by rewrite bool_decide_true. }
  destruct (instance_ e) as [i|] eqn:Hi; simpl.
  2: { right. split; [eauto|]. exists None. apply inv_empty; simpl; try done. by rewrite bool_decide_true. }
  destruct (vt_destroy (vtable_ e)) as [d|] eqn:Hd, (vt_on_end (vtable_ e)) as [f|]; simpl.
  1: { left. split; [done|]. exists h, i. apply inv_loaded; simpl; try done; by rewrite Hd. }
  all: right; split; [eauto|]; exists (Some i); apply inv_empty; simpl; try done;
    by rewrite bool_decide_true.
Qed.

(** C16: whatever is called on a native loader after [load_plugin], in whatever order and
    also when the load or a call throws: the plugin's functions are only called on the
    instance that was created and not yet destroyed, while its library is open; each is
    released at most once; after a successful load and an unload nothing is left, and after
    a failed load the library is closed. *)
Theorem native_lifecycle ctx m mem ops :
  let '(x, w1) := load_plugin ctx (mkLoaderWorld (new_native_loader m) mem []) in
  exists open alive, check_events (None, None) (events (loader_ops ops w1)) = Some (open, alive) /\
    (x = Ret tt -> is_Some open /\ is_Some alive \/ open = None /\ alive = None) /\
    (x = Ret tt -> existsb is_unload ops = true -> open = None /\ alive = None) /\
    (x <> Ret tt -> open = None).
Proof.
  pose proof (load_plugin_cases ctx m mem) as Hl. destruct (load_plugin _ _) as [x w1].
  destruct Hl as [[-> (h & i & Hw)]|[[what ->] [leaked Hw]]];
    apply (loader_ops_inv ops), loader_inv_checked in Hw.
  - destruct (existsb is_unload ops); eexists _, _; (split; [exact Hw|]); split_and!; try done; eauto 6.
  - eexists _, _. split; [exact Hw|]. split_and!; done.
Qed.

(** A plugin whose version is refused is never destroyed. *)
Theorem failed_load_leaks_instance ctx m mem h mem1 create e mem2 i ops :
  dlopen (get_entry m) mem = (inr h, mem1) -> dlsym h PLUGIN_CREATE_SYMBOL = Some create ->
  create ctx mem1 = (e, mem2) -> instance_ e = Some i -> PluginExport_api_version_ e <> PLUGIN_API_VERSION ->
  let '(x, w1) := load_plugin ctx (mkLoaderWorld (new_native_loader m) mem []) in
  x = Throw (runtime_error "API mismatch or null instance") /\
  check_events (None, None) (events (loader_ops ops w1)) = Some (None, Some i).
Proof.
  intros Ho Hs Hc Hi Hv%Z.eqb_neq. unfold load_plugin, lib_open, lib_sym, io_bind, io_get, io_modify, io_throw, io_ret.
  cbn [memory native plugin_manifest_ new_native_loader]. rewrite Ho. simpl. rewrite Hs. simpl. rewrite Hc. simpl.
  rewrite Hv. simpl. split; [done|].
  match goal with |- context [loader_ops ops ?w] => assert (loader_inv w (None, Some i)) as Hw end.
  { apply inv_empty; simpl; try done. rewrite Hi. simpl. by rewrite bool_decide_true. }
  apply (loader_ops_inv ops) in Hw. by apply loader_inv_checked in Hw.
Qed.
End Lifecycle.

(** ** The state a native plugin is given *)
Lemma read_freed_nil {A} (l : list A) : read_freed (fun _ => []) l = l -> l = [].
Proof. by destruct l. Qed.

(** [on_bar] hands a native plugin pointers into a converter that is already gone: the
    plugin is sure to see the true state only if there are no positions, new fills, new
    exit orders and equity snapshots; the cash and the counts are always right. *)
Theorem native_state_orphaned (st : State) :
  ((forall mem : InvalidMemory, orphaned_state (to_c_state st) = to_c_state st) <->
   CState_positions_ (to_c_state st) = [] /\ CState_new_fills_ (to_c_state st) = [] /\
   CState_new_exit_orders_ (to_c_state st) = [] /\ CState_equity_curve_ (to_c_state st) = []) /\
  forall mem : InvalidMemory,
    CState_cash_ (orphaned_state (to_c_state st)) = to_abi_int64 (cash_ st) /\
    CState_positions_count_ (orphaned_state (to_c_state st)) = CState_positions_count_ (to_c_state st).
Proof.
  split; [|done]. split.
  - intros Hall. specialize (Hall (Build_InvalidMemory (fun _ => "") (fun _ => []) (fun _ => []) (fun _ => []) (fun _ => []))).
    destruct (to_c_state st) as [cash ps pn es en fs fn eq eqn]. unfold orphaned_state in Hall. cbn in *.
    injection Hall as Hp He Hf Hq. by split_and!; apply read_freed_nil.
  - intros (Hp & Hf & He & Hq) mem. destruct (to_c_state st). unfold orphaned_state. simpl in *. by subst.
Qed.
