(* ===== verification/PythonLoader.v ===== *)
(** * [src/plugins/loaders/python_loader.cpp]

    Python is a parameter: importing, attributes, calls and the casts of [pybind11], all of
    which may throw; so is the conversion of a C enumeration and what an access through an
    invalid pointer does.  The [PyPlugin] objects live on a heap the instance pointer of the
    export names; the lambdas of [load_plugin] are the functions of [python_vtable]. *)
From Stdlib Require Import ZArith Lia Ascii String.
From stdpp Require Import base tactics list gmap strings.
From S2P Require Import Prelude Double CppString Manifest Abi StockApi Models State AbiConverter Engine Effects StringStore ManifestParser NativeLoader.
Open Scope string_scope.
Open Scope Z_scope.

(** What is handed to Python. *)
Inductive PyValue : Type :=
| PyInt (z : Z)
| PyFloat (d : double)
| PyStr (s : string)
| PyList (l : list PyValue)
| PyDict (members : list (string * PyValue))
| PyCapsule (name : string).

(** [d\[key\] = value] *)
Fixpoint dict_set (d : list (string * PyValue)) (key : string) (value : PyValue) : list (string * PyValue) :=
  match d with
  | [] => [(key, value)]
  | (k, v) :: d => if String.eqb k key then (k, value) :: d else (k, v) :: dict_set d key value
  end.

Class Python (W : Type) : Type := {
  pyobj : Type;
  py_initialize : W -> W;
  py_gil_acquire : io W unit;           (* [py::gil_scoped_acquire] *)
  py_gil_release : W -> W;              (* its destructor *)
  py_import : string -> io W pyobj;
  py_attr : pyobj -> string -> io W pyobj;
  py_call : pyobj -> list PyValue -> io W pyobj;
  cast_tuple : pyobj -> outcome (list pyobj);
  cast_list : pyobj -> outcome (list pyobj);
  cast_dict : pyobj -> outcome (string -> option pyobj);
  cast_int : pyobj -> outcome Z;
  cast_int64 : pyobj -> outcome Z;
  cast_double : pyobj -> outcome double;
  cast_string : pyobj -> outcome string;
  cast_enum : Z -> outcome PyValue;
  wild_access : forall A : Type, outcome A;
  unset_signal : CSignal;               (* a union member that was not written *)
  unset_order : COrder
}.

(** [py::error_already_set] for a missing index or key. *)
Definition py_missing (what : string) : exn := foreign_error "pybind11" what.

Definition tuple_item {A} (t : list A) (i : nat) : outcome A :=
  match t !! i with Some x => Ret x | None => Throw (py_missing "IndexError") end.
Definition dict_item {A} (d : string -> option A) (key : string) : outcome A :=
  match d key with Some x => Ret x | None => Throw (py_missing "KeyError") end.

(** ** The dictionaries passed to [on_bar] *)
Definition position_dict (p : CPosition) : PyValue :=
  PyDict [("symbol", PyStr (CPosition_symbol_ p)); ("quantity", PyFloat (CPosition_quantity_ p));
          ("average_price", PyFloat (CPosition_average_price_ p))].

Definition fill_dict (f : CFill) : PyValue :=
  PyDict [("symbol", PyStr (CFill_symbol_ f)); ("quantity", PyFloat (CFill_quantity_ f));
          ("price", PyInt (CFill_price_ f)); ("created_at_ns", PyInt (CFill_created_at_ns_ f));
          ("uuid", PyStr (CFill_uuid_ f)); ("action", PyStr (CFill_action_ f))].

Definition equity_dict (e : CEquitySnapshot) : PyValue :=
  PyDict [("timestamp_ns", PyInt (CEquitySnapshot_timestamp_ns_ e)); ("equity", PyInt (CEquitySnapshot_equity_ e));
          ("return", PyFloat (CEquitySnapshot_return_ e)); ("max_drawdown", PyFloat (CEquitySnapshot_max_drawdown_ e));
          ("sharpe_ratio", PyFloat (CEquitySnapshot_sharpe_ratio_ e));
          ("sortino_ratio", PyFloat (CEquitySnapshot_sortino_ratio_ e));
          ("calmar_ratio", PyFloat (CEquitySnapshot_calmar_ratio_ e));
          ("tail_ratio", PyFloat (CEquitySnapshot_tail_ratio_ e));
          ("value_at_risk", PyFloat (CEquitySnapshot_value_at_risk_ e));
          ("conditional_value_at_risk", PyFloat (CEquitySnapshot_conditional_value_at_risk_ e))].

Definition bar_dict (bar : CBar) : PyValue :=
  PyDict [("symbol", PyStr (CBar_symbol_ bar)); ("unix_ts_ns", PyInt (CBar_unix_ts_ns_ bar));
          ("open", PyFloat (CBar_open_ bar)); ("high", PyFloat (CBar_high_ bar)); ("low", PyFloat (CBar_low_ bar));
          ("close", PyFloat (CBar_close_ bar)); ("volume", PyFloat (CBar_volume_ bar))].

(** A list of dictionaries, built one by one. *)
Fixpoint dict_list {A} (f : A -> outcome PyValue) (l : list A) : outcome (list PyValue) :=
  match l with
  | [] => Ret []
  | x :: l => let* v := f x in let* vs := dict_list f l in Ret (v :: vs)
  end.

Section Python.
Context {W : Type} `{Python W, StringLayout, InvalidMemory}.

Definition exit_order_dict (order : CExitOrder) : outcome PyValue :=
  let* type := cast_enum (CExitOrder_type_ order) in
  Ret (PyDict (("type", type) ::
    match order with
    | CExitOrder_stop_loss_ o =>
        [("symbol", PyStr (CStopLossExitOrder_symbol_ o));
         ("trigger_quantity", PyFloat (CStopLossExitOrder_trigger_quantity_ o));
         ("stop_loss_price", PyInt (CStopLossExitOrder_stop_loss_price_ o));
         ("fill_uuid", PyStr (CStopLossExitOrder_fill_uuid_ o))]
    | CExitOrder_take_profit_ o =>
        [("symbol", PyStr (CTakeProfitExitOrder_symbol_ o));
         ("trigger_quantity", PyFloat (CTakeProfitExitOrder_trigger_quantity_ o));
         ("take_profit_price", PyInt (CTakeProfitExitOrder_take_profit_price_ o));
         ("fill_uuid", PyStr (CTakeProfitExitOrder_fill_uuid_ o))]
    end)).

Definition state_dict (state : CState) : outcome PyValue :=
  let* exit_orders := dict_list exit_order_dict (take (CState_new_exit_orders_count_ state) (CState_new_exit_orders_ state)) in
  Ret (PyDict
    [("cash", PyInt (CState_cash_ state));
     ("positions", PyList (position_dict <$> take (CState_positions_count_ state) (CState_positions_ state)));
     ("new_fills", PyList (fill_dict <$> take (CState_new_fills_count_ state) (CState_new_fills_ state)));
     ("new_exit_orders", PyList exit_orders);
     ("equity_curve", PyList (equity_dict <$> take (CState_equity_curve_count_ state) (CState_equity_curve_ state)))]).

(** ** Instructions *)

(** A [CInstruction] while its strings are pointers into [instruction_strings_]. *)
Inductive PyInstruction : Type :=
| PySignal (symbol action : CharPtr)
| PyOrder (symbol action order_type : CharPtr) (quantity leverage : double)
    (limit_price stop_loss_price take_profit_price : Z).

Record PyPlugin : Type := mkPyPlugin {
  obj_ : pyobj;
  current_instructions_ : list PyInstruction;
  instruction_strings_ : StringVector
}.

(** [instruction_strings_.push_back(s); ... .back().c_str()] *)
Definition push_string (s : string) : io PyPlugin CharPtr := fun pp =>
  let v := sv_emplace_back s (instruction_strings_ pp) in
  (Ret (sv_back_c_str v), mkPyPlugin (obj_ pp) (current_instructions_ pp) v).

Definition push_instruction (i : PyInstruction) : io PyPlugin unit :=
  io_modify (fun pp => mkPyPlugin (obj_ pp) (current_instructions_ pp ++ [i])%list (instruction_strings_ pp)).

(** [d.contains(key) ? d\[key\].cast<T>() : fallback] *)
Definition item_or {A} (cast : pyobj -> outcome A) (d : string -> option pyobj) (key : string) (fallback : A) : outcome A :=
  match d key with Some x => cast x | None => Ret fallback end.

(** The body of the loop over the instructions. *)
Definition add_instruction (item : pyobj) : io PyPlugin unit :=
  let! inst_dict := io_of (cast_dict item) in
  let! symbol_string := io_of (let* x := dict_item inst_dict "symbol" in cast_string x) in
  let! symbol := push_string symbol_string in
  let! action_string := io_of (let* x := dict_item inst_dict "action" in cast_string x) in
  let! action := push_string action_string in
  match inst_dict "quantity" with
  | Some quantity_item =>
      let! order_type_string := io_of (item_or cast_string inst_dict "order_type" "market") in
      let! order_type := push_string order_type_string in
      let! quantity := io_of (cast_double quantity_item) in
      let! limit_price := io_of (item_or cast_int64 inst_dict "limit_price" NULL_MARKET_TRIGGER_PRICE) in
      let! stop_loss_price := io_of (item_or cast_int64 inst_dict "stop_loss_price" NULL_MARKET_TRIGGER_PRICE) in
      let! take_profit_price := io_of (item_or cast_int64 inst_dict "take_profit_price" NULL_MARKET_TRIGGER_PRICE) in
      let! leverage := io_of (item_or cast_double inst_dict "leverage" d_one) in
      push_instruction (PyOrder symbol action order_type quantity leverage limit_price stop_loss_price take_profit_price)
  | None => push_instruction (PySignal symbol action)
  end.

(** An instruction as the host reads it. *)
Definition read_text (v : StringVector) (p : CharPtr) : string := default (dangling_text p) (sv_read v p).

Definition read_instruction (v : StringVector) (i : PyInstruction) : CInstruction :=
  match i with
  | PySignal symbol action =>
      mkCInstruction INSTRUCTION_TYPE_SIGNAL (mkCSignal (read_text v symbol) (read_text v action)) unset_order
  | PyOrder symbol action order_type quantity leverage limit_price stop_loss_price take_profit_price =>
      mkCInstruction INSTRUCTION_TYPE_ORDER unset_signal
        (mkCOrder (read_text v symbol) (read_text v action) quantity leverage limit_price stop_loss_price
           take_profit_price (read_text v order_type))
  end.

(** The [try] block: the status and the list of instructions of the result. *)
Definition result_parts (py_result : pyobj) : outcome (Z * list pyobj) :=
  ocatch
    (let* result_tuple := cast_tuple py_result in
     let* status_item := tuple_item result_tuple 0 in
     let* status_code := cast_int status_item in
     let* list_item := tuple_item result_tuple 1 in
     let* instructions_list := cast_list list_item in
     Ret (status_code, instructions_list))
    (fun _ => let* status_code := cast_int py_result in Ret (status_code, [])).

Definition to_plugin_result (py_result : pyobj) : io PyPlugin PluginResult :=
  do! io_modify (fun pp => mkPyPlugin (obj_ pp) [] (sv_clear (instruction_strings_ pp))) in
  let! parts := io_of (result_parts py_result) in
  do! io_each add_instruction (snd parts) in
  let! pp := io_get in
  io_ret (mkPluginResult (fst parts) (if fst parts =? 0 then None else Some "on_bar failed")
            (read_instruction (instruction_strings_ pp) <$> current_instructions_ pp)).

(** ** The functions of the table *)
Record PyMemory : Type := mkPyMemory {
  python : W;
  interpreter_up : bool;               (* [static bool py_up] *)
  py_heap : gmap nat PyPlugin;
  py_next : nat
}.

Definition on_python {A} (c : io W A) : io PyMemory A :=
  io_lift python (fun p m => mkPyMemory p (interpreter_up m) (py_heap m) (py_next m)) c.

(** [*static_cast<PyPlugin*>(self)] *)
Definition py_plugin (self : Instance_) : io PyMemory (nat * PyPlugin) := fun m =>
  match (i ← self; pp ← py_heap m !! i; Some (i, pp)) with
  | Some r => (Ret r, m)
  | None => (wild_access _, m)
  end.

Definition on_plugin {A} (i : nat) (pp : PyPlugin) (c : io PyPlugin A) : io PyMemory A :=
  io_lift (fun m => default pp (py_heap m !! i))
    (fun pp m => mkPyMemory (python m) (interpreter_up m) (<[i := pp]> (py_heap m)) (py_next m)) c.

(** [python_plugin.obj_.attr(name)(args...)] *)
Definition call_method (pp : PyPlugin) (name : string) (args : list PyValue) : io PyMemory pyobj :=
  on_python (let! f := py_attr (obj_ pp) name in py_call f args).

Definition py_destroy (self : Instance_) (m : PyMemory) : PyMemory :=
  match self with
  | Some i => mkPyMemory (python m) (interpreter_up m) (delete i (py_heap m)) (py_next m)
  | None => m
  end.

Definition py_on_init (self : Instance_) (opts : list (string * string)) : io PyMemory PluginResult :=
  let! plugin := py_plugin self in
  let plugin_options_dict := PyDict (fold_left (fun d kv => dict_set d (fst kv) (PyStr (snd kv))) opts []) in
  let! py_result := call_method (snd plugin) "on_init" [plugin_options_dict] in
  on_plugin (fst plugin) (snd plugin) (to_plugin_result py_result).

Definition py_on_start (self : Instance_) : io PyMemory PluginResult :=
  let! plugin := py_plugin self in
  let! py_result := call_method (snd plugin) "on_start" [] in
  on_plugin (fst plugin) (snd plugin) (to_plugin_result py_result).

Definition py_on_bar (self : Instance_) (bar : CBar) (state : CState) : io PyMemory PluginResult :=
  let! plugin := py_plugin self in
  let! state := io_of (state_dict state) in
  let! py_result := call_method (snd plugin) "on_bar" [bar_dict bar; state] in
  on_plugin (fst plugin) (snd plugin) (to_plugin_result py_result).

Definition py_on_end (self : Instance_) : io PyMemory (PluginResult * option string) :=
  let! plugin := py_plugin self in
  let! result := call_method (snd plugin) "on_end" [] in
  let! out := io_of (cast_string result) in
  io_ret (mkPluginResult 0 None [], Some out).

(** [delete[] p]: the copy [on_end] made. *)
Definition py_free_string (self : Instance_) (p : option string) (m : PyMemory) : PyMemory := m.

Definition python_vtable : PluginVTable PyMemory :=
  mkPluginVTable (Some py_destroy) (Some py_on_init) (Some py_on_start) (Some py_on_bar) (Some py_on_end)
    (Some py_free_string).

(** ** The loader *)
Record PythonLoader : Type := mkPythonLoader {
  py_manifest_ : PluginManifest;
  py_exp_ : PluginExport PyMemory
}.

Record PythonWorld : Type := mkPythonWorld {
  py_loader : PythonLoader;
  py_memory : PyMemory
}.

Definition set_py_exp (e : PluginExport PyMemory) (w : PythonWorld) : PythonWorld :=
  mkPythonWorld (mkPythonLoader (py_manifest_ (py_loader w)) e) (py_memory w).
Definition set_py_manifest (m : PluginManifest) (w : PythonWorld) : PythonWorld :=
  mkPythonWorld (mkPythonLoader m (py_exp_ (py_loader w))) (py_memory w).
Definition on_memory {A} (c : io PyMemory A) : io PythonWorld A :=
  io_lift py_memory (fun m w => mkPythonWorld (py_loader w) m) c.

(** [new PyPlugin{plugin_instance, {}, {}, {}}] *)
Definition new_py_plugin (obj : pyobj) : io PyMemory nat := fun m =>
  (Ret (py_next m),
   mkPyMemory (python m) (interpreter_up m) (<[py_next m := mkPyPlugin obj [] empty_strings]> (py_heap m))
     (S (py_next m))).

(** The lock is held from its declaration to the end of the [try] block, which an
    exception ends too.  The interpreter is started by the first load. *)
Definition python_load_plugin (ctx : SimulatorContext) : io PythonWorld unit :=
  do! on_memory (io_modify (fun m =>
        if interpreter_up m then m
        else mkPyMemory (py_initialize (python m)) true (py_heap m) (py_next m))) in
  let! w := io_get in
  io_catch
    (do! on_memory (on_python py_gil_acquire) in
     io_finally
       (let! python_module := on_memory (on_python (py_import (get_entry (py_manifest_ (py_loader w))))) in
        let! create_plugin_fn := on_memory (on_python (py_attr python_module "create_plugin")) in
        let! plugin_instance := on_memory (on_python (py_call create_plugin_fn [PyCapsule "SimulatorContext"])) in
        let! pp := on_memory (new_py_plugin plugin_instance) in
        io_modify (set_py_exp (mkPluginExport PLUGIN_API_VERSION (Some pp) python_vtable)))
       (on_memory (on_python (io_modify py_gil_release))))
    (fun _ => io_modify (set_py_exp empty_export)).

Definition python_on_init : io PythonWorld unit :=
  let! w := io_get in
  let exp := py_exp_ (py_loader w) in
  if negb (PluginExport_api_version_ exp =? PLUGIN_API_VERSION) then io_ret tt
  else
    match vt_on_init (vtable_ exp) with
    | None => io_ret tt
    | Some on_init =>
        let '(options, manifest) := get_options (py_manifest_ (py_loader w)) in
        do! io_modify (set_py_manifest manifest) in
        do! on_memory (on_init (instance_ exp) (deref_options manifest options)) in
        io_ret tt
    end.

Definition python_on_start : io PythonWorld PluginResult :=
  let! w := io_get in
  let exp := py_exp_ (py_loader w) in
  if negb (PluginExport_api_version_ exp =? PLUGIN_API_VERSION) then io_ret (error_result "Invalid API Version")
  else
    match vt_on_start (vtable_ exp) with
    | None => io_ret (error_result "Undefined Method on_start")
    | Some on_start => on_memory (on_start (instance_ exp))
    end.

(** The arrays of [c_state] belong to the loader's own converter. *)
Definition python_on_bar (bar : AggregateBarResult) (state : State) : io PythonWorld PluginResult :=
  let! w := io_get in
  let exp := py_exp_ (py_loader w) in
  if negb (PluginExport_api_version_ exp =? PLUGIN_API_VERSION) then io_ret (error_result "Invalid API Version")
  else
    match vt_on_bar (vtable_ exp) with
    | None => io_ret (error_result "Undefined Method on_bar")
    | Some on_bar => on_memory (on_bar (instance_ exp) (to_plugin_bar bar) (to_c_state state))
    end.

Definition python_on_end : io PythonWorld (PluginResult * option string) :=
  let! w := io_get in
  let exp := py_exp_ (py_loader w) in
  if negb (PluginExport_api_version_ exp =? PLUGIN_API_VERSION) then io_ret (error_result "Invalid API Version", None)
  else
    match vt_on_end (vtable_ exp) with
    | None => io_ret (error_result "Undefined Method on_end", None)
    | Some on_end => on_memory (on_end (instance_ exp))
    end.

Definition python_free_string (str : option string) : io PythonWorld unit :=
  let! w := io_get in
  let exp := py_exp_ (py_loader w) in
  if negb (PluginExport_api_version_ exp =? PLUGIN_API_VERSION) then io_ret tt
  else
    match vt_free_string (vtable_ exp) with
    | None => io_ret tt
    | Some free_string => on_memory (io_modify (free_string (instance_ exp) str))
    end.

(** The version of the export stays. *)
Definition python_unload_plugin : io PythonWorld unit :=
  let! w := io_get in
  let exp := py_exp_ (py_loader w) in
  if negb (PluginExport_api_version_ exp =? PLUGIN_API_VERSION) then io_ret tt
  else
    match vt_destroy (vtable_ exp), instance_ exp with
    | Some destroy, Some i =>
        do! on_memory (io_modify (destroy (Some i))) in
        io_modify (set_py_exp (mkPluginExport (PluginExport_api_version_ exp) None (vtable_ exp)))
    | _, _ => io_ret tt
    end.

Definition python_get_plugin_name (w : PythonWorld) : string := get_name (py_manifest_ (py_loader w)).
Definition python_get_plugin_export (w : PythonWorld) : PluginExport PyMemory := py_exp_ (py_loader w).
Definition python_get_host_params (w : PythonWorld) : HostParams := get_host_params (py_manifest_ (py_loader w)).

#[export] Instance python_plugin_loader : PluginLoader PythonWorld := {
  loader_on_bar bar st w := io_outcome (python_on_bar bar st w);
  loader_on_end w := io_outcome (python_on_end w);
  loader_free_string str w := (python_free_string str w).2;
  loader_get_host_params := python_get_host_params;
  loader_get_plugin_name := python_get_plugin_name
}.
End Python.
