(* ===== verification/PythonProps.v ===== *)
(** * The Python loader: properties

    Which instructions the host reads from a Python plugin's result, and what becomes of a
    plugin that cannot be loaded or was unloaded. *)
From Stdlib Require Import ZArith Lia Ascii String.
From stdpp Require Import base tactics list gmap strings.
From S2P Require Import Prelude Double CppString Manifest Abi StockApi Models State AbiConverter Engine Effects StringStore ManifestParser ManifestProps NativeLoader PythonLoader.
Open Scope string_scope.
Open Scope Z_scope.

(** ** What a plugin's dictionary says *)
Inductive Wanted : Type :=
| WantSignal (symbol action : string)
| WantOrder (symbol action order_type : string) (quantity leverage : double)
    (limit_price stop_loss_price take_profit_price : Z).

Definition wanted_strings (i : Wanted) : list string :=
  match i with
  | WantSignal s a => [s; a]
  | WantOrder s a t _ _ _ _ _ => [s; a; t]
  end.

Section Python.
Context {W : Type} `{Python W, StringLayout, InvalidMemory}.

(** Reference: the instruction of a dictionary, without any pointers. *)
Definition decode (item : pyobj) : outcome Wanted :=
  let* d := cast_dict item in
  let* symbol := (let* x := dict_item d "symbol" in cast_string x) in
  let* action := (let* x := dict_item d "action" in cast_string x) in
  match d "quantity" with
  | Some quantity_item =>
      let* order_type := item_or cast_string d "order_type" "market" in
      let* quantity := cast_double quantity_item in
      let* limit_price := item_or cast_int64 d "limit_price" NULL_MARKET_TRIGGER_PRICE in
      let* stop_loss_price := item_or cast_int64 d "stop_loss_price" NULL_MARKET_TRIGGER_PRICE in
      let* take_profit_price := item_or cast_int64 d "take_profit_price" NULL_MARKET_TRIGGER_PRICE in
      let* leverage := item_or cast_double d "leverage" d_one in
      Ret (WantOrder symbol action order_type quantity leverage limit_price stop_loss_price take_profit_price)
  | None => Ret (WantSignal symbol action)
  end.

Definition wanted_instruction (i : Wanted) : CInstruction :=
  match i with
  | WantSignal s a => mkCInstruction INSTRUCTION_TYPE_SIGNAL (mkCSignal s a) unset_order
  | WantOrder s a t q l lp sp tp => mkCInstruction INSTRUCTION_TYPE_ORDER unset_signal (mkCOrder s a q l lp sp tp t)
  end.

(** The instruction once its strings are stored at [ps]. *)
Definition nth_ptr (ps : list CharPtr) (k : nat) : CharPtr := nth k ps (InBlock 0 0).

Definition with_pointers (i : Wanted) (ps : list CharPtr) : PyInstruction :=
  match i with
  | WantSignal _ _ => PySignal (nth_ptr ps 0) (nth_ptr ps 1)
  | WantOrder _ _ _ q l lp sp tp => PyOrder (nth_ptr ps 0) (nth_ptr ps 1) (nth_ptr ps 2) q l lp sp tp
  end.

(** Each instruction takes its pointers from the list. *)
Fixpoint chunk (ws : list Wanted) (ps : list CharPtr) : list PyInstruction :=
  match ws with
  | [] => []
  | i :: ws => with_pointers i ps :: chunk ws (drop (length (wanted_strings i)) ps)
  end.

Definition all_strings (ws : list Wanted) : list string := concat (wanted_strings <$> ws).

Fixpoint decode_all (items : list pyobj) : outcome (list Wanted) :=
  match items with
  | [] => Ret []
  | item :: items => let* i := decode item in let* ws := decode_all items in Ret (i :: ws)
  end.

Lemma io_of_bind_ret {V A B} (c : outcome A) (k : A -> io V B) v a :
  c = Ret a -> io_bind (io_of c) k v = k a v.
Proof. by intros ->. Qed.

Lemma push_string_bind {B} s (k : CharPtr -> io PyPlugin B) pp :
  io_bind (push_string s) k pp =
  k (sv_back_c_str (sv_emplace_back s (instruction_strings_ pp)))
    (mkPyPlugin (obj_ pp) (current_instructions_ pp) (sv_emplace_back s (instruction_strings_ pp))).
Proof. done. Qed.

(** Adding an instruction stores its strings and points at them. *)
Lemma add_instruction_stores item i pp :
  decode item = Ret i ->
  add_instruction item pp =
  (Ret tt, mkPyPlugin (obj_ pp)
     (current_instructions_ pp ++ [with_pointers i (store_all (wanted_strings i) (instruction_strings_ pp)).1])
     (store_all (wanted_strings i) (instruction_strings_ pp)).2)%list.
Proof.
  unfold decode, add_instruction. intros (d & Hd & Hi)%obind_ret. rewrite (io_of_bind_ret _ _ _ _ Hd). clear Hd.
  apply obind_ret in Hi as (s & Hs & Hi). rewrite (io_of_bind_ret _ _ _ _ Hs). clear Hs.
  apply obind_ret in Hi as (a & Ha & Hi).
  rewrite push_string_bind, (io_of_bind_ret _ _ _ _ Ha), push_string_bind. clear Ha.
  destruct (d "quantity") as [q|].
  - parse_steps Hi. injection Hi as <-. rewrite (io_of_bind_ret _ _ _ _ Hv), push_string_bind.
    rewrite (io_of_bind_ret _ _ _ _ Hv0), (io_of_bind_ret _ _ _ _ Hv1), (io_of_bind_ret _ _ _ _ Hv2),
      (io_of_bind_ret _ _ _ _ Hv3), (io_of_bind_ret _ _ _ _ Hv4). reflexivity.
  - injection Hi as <-. reflexivity.
Qed.

Lemma store_all_app ss ts v :
  store_all (ss ++ ts) v =
  (((store_all ss v).1 ++ (store_all ts (store_all ss v).2).1)%list, (store_all ts (store_all ss v).2).2).
Proof.
  revert v. induction ss as [|s ss IH]; intros v; simpl; [by destruct (store_all ts v)|].
  rewrite IH. by destruct (store_all ss _).
Qed.

Lemma with_pointers_app i ps qs :
  length ps = length (wanted_strings i) -> with_pointers i (ps ++ qs)%list = with_pointers i ps.
Proof. destruct i; simpl; intros Hl; (do 4 (destruct ps as [|? ps]; try done)). Qed.

Lemma add_instructions_store items ws pp :
  decode_all items = Ret ws ->
  io_each add_instruction items pp =
  (Ret tt, mkPyPlugin (obj_ pp)
     (current_instructions_ pp ++ chunk ws (store_all (all_strings ws) (instruction_strings_ pp)).1)
     (store_all (all_strings ws) (instruction_strings_ pp)).2)%list.
Proof.
  revert ws pp. induction items as [|item items IH]; intros ws pp; simpl.
  { intros [= <-]. simpl. rewrite app_nil_r. by destruct pp. }
  intros (i & Hi & Hr)%obind_ret. apply obind_ret in Hr as (ws_ & His & [= <-]).
  unfold io_bind. rewrite (add_instruction_stores _ _ _ Hi), (IH _ _ His).
  cbn [obj_ current_instructions_ instruction_strings_]. unfold all_strings. rewrite fmap_cons. cbn [concat].
  fold (all_strings ws_). rewrite store_all_app. cbn [fst snd chunk].
  rewrite with_pointers_app by apply length_store_all.
  rewrite drop_app_length' by (by rewrite length_store_all). by rewrite <- app_assoc.
Qed.

(** Instructions whose pointers read as their strings are the wanted ones. *)
Lemma read_chunk v ws ps :
  sv_read v <$> ps = Some <$> all_strings ws -> read_instruction v <$> chunk ws ps = wanted_instruction <$> ws.
Proof.
  revert ps. induction ws as [|i ws IH]; intros ps Hps; [done|]. cbn [chunk]. rewrite !fmap_cons.
  unfold all_strings in Hps. rewrite fmap_cons in Hps. cbn [concat] in Hps. fold (all_strings ws) in Hps.
  rewrite fmap_app in Hps. f_equal.
  - destruct i; cbn [wanted_strings] in Hps; (do 3 (destruct ps as [|? ps]; try done; try (simpl in Hps; discriminate Hps)));
      cbn in Hps; injection Hps as; cbn; unfold read_text, nth_ptr; cbn; by repeat match goal with H : sv_read _ _ = _ |- _ => rewrite H; clear H end.
  - apply IH. rewrite fmap_drop, Hps, drop_app_length'; [done|]. by rewrite length_fmap.
Qed.

Lemma to_plugin_result_reads py_result pp code items ws :
  result_parts py_result = Ret (code, items) -> decode_all items = Ret ws ->
  let stored := store_all (all_strings ws) (sv_clear (instruction_strings_ pp)) in
  to_plugin_result py_result pp =
  (Ret (mkPluginResult code (if code =? 0 then None else Some "on_bar failed")
          (read_instruction stored.2 <$> chunk ws stored.1)),
   mkPyPlugin (obj_ pp) (chunk ws stored.1) stored.2).
Proof.
  intros Hp Hd stored. unfold to_plugin_result, io_bind, io_modify, io_of. rewrite Hp. cbn [fst snd].
  rewrite (add_instructions_store _ _ _ Hd). cbn [obj_ current_instructions_ instruction_strings_].
  fold stored. done.
Qed.

(** C30: a result whose strings fit into the storage of earlier results is read by the host
    exactly as the plugin wrote it: every dictionary is the order or signal it describes,
    with the defaults for absent fields. *)
Theorem python_instructions_read py_result pp code items ws :
  result_parts py_result = Ret (code, items) -> decode_all items = Ret ws ->
  (length (all_strings ws) <= sv_capacity (instruction_strings_ pp))%nat ->
  (to_plugin_result py_result pp).1 =
  Ret (mkPluginResult code (if code =? 0 then None else Some "on_bar failed") (wanted_instruction <$> ws)).
Proof.
  intros Hp Hd Hfit. rewrite (to_plugin_result_reads _ _ _ _ _ Hp Hd). cbn [fst]. do 2 f_equal.
  apply read_chunk. by apply store_all_fits; [apply sv_clear_ok|].
Qed.

Definition instruction_symbol (c : CInstruction) : string :=
  if CInstruction_type_ c =? INSTRUCTION_TYPE_ORDER then COrder_symbol_ (CInstruction_order_ c)
  else CSignal_symbol_ (CInstruction_signal_ c).

Definition wanted_symbol (i : Wanted) : string := match i with WantSignal s _ | WantOrder s _ _ _ _ _ _ _ => s end.
End Python.

(** The first result of a plugin is different: storing the action moves the storage
    that holds the symbol, so the host reads the symbol of the first instruction at an
    address that is no longer valid, whenever it has at most 15 characters. *)
Theorem python_first_symbol_dangles {W} `{Python W, InvalidMemory} py_result obj code items i ws :
  result_parts py_result = Ret (code, items) -> decode_all items = Ret (i :: ws) ->
  (String.length (wanted_symbol i) <= 15)%nat ->
  exists msg c cs, (to_plugin_result (H0 := libstdcxx) py_result (mkPyPlugin obj [] empty_strings)).1 =
    Ret (mkPluginResult code msg (c :: cs)) /\ instruction_symbol c = dangling_text (InBlock 1 0).
Proof.
  intros Hp Hd Hs. rewrite (to_plugin_result_reads (H0 := libstdcxx) _ _ _ _ _ Hp Hd). cbn [fst chunk].
  rewrite fmap_cons. eexists _, _, _. split; [reflexivity|].
  change (sv_clear (instruction_strings_ (mkPyPlugin obj [] empty_strings))) with empty_strings.
  set (stored := store_all _ _). set (strings := all_strings (i :: ws)).
  assert (strings !! 0%nat = Some (wanted_symbol i) /\ (2 <= length strings)%nat /\ (nth_ptr stored.1 0) = InBlock 1 0) as (H0s & Hlen & Hptr).
  { unfold strings, stored, all_strings. rewrite fmap_cons. cbn [concat]. apply Nat.leb_le in Hs.
    split_and!; [by destruct i|destruct i; simpl; lia|].
    destruct i; cbn [wanted_strings app]; cbn -[String.length Nat.leb store_all] in *; cbn [store_all];
      destruct (store_all _ (sv_emplace_back _ (sv_emplace_back _ _))); unfold sv_back_c_str, is_short; cbn -[String.length Nat.leb];
      by rewrite Hs. }
  assert (read_text (H0 := libstdcxx) stored.2 (nth_ptr stored.1 0) = dangling_text (InBlock 1 0)) as Hread.
  { destruct (store_all_reads (H := libstdcxx) strings _ 0 _ (sv_clear_ok empty_strings) H0s) as (p & Hp0 & Hr).
    assert (nth_ptr stored.1 0 = p) as Hpp by (unfold nth_ptr; apply nth_lookup_Some; exact Hp0).
    rewrite <- Hpp in Hr. rewrite Hptr in *. unfold read_text. change (sv_clear empty_strings) with empty_strings in Hr.
    change (store_all strings empty_strings) with stored in Hr. rewrite Hr. apply Nat.leb_le in Hs. unfold is_short. change (sso_capacity) with 15%nat.
    rewrite Hs. rewrite (proj2 (Nat.ltb_lt _ _)); [done|]. destruct strings as [|s0 strings]; [simpl in Hlen; lia|].
    simpl in *. lia. }
  by destruct i.
Qed.

Section Loading.
Context {W : Type} `{Python W, StringLayout, InvalidMemory}.

(** The export names a plugin on the heap, or nothing is answered. *)
Definition py_loaded (w : PythonWorld) : Prop :=
  exists i pp, py_exp_ (py_loader w) = mkPluginExport PLUGIN_API_VERSION (Some i) python_vtable /\
    py_heap (py_memory w) !! i = Some pp.

(** Loading a Python plugin never throws: whatever goes wrong in Python is swallowed,
    and what is left is a loader that answers every later question with the error
    "Invalid API Version" and does nothing else; otherwise its instance is alive. *)
Theorem python_load_swallows ctx w x w1 :
  python_load_plugin ctx w = (x, w1) ->
  (forall e, x <> Throw e) /\
  (x = Ret tt -> py_loaded w1 \/
     forall bar st, python_on_start w1 = (Ret (error_result "Invalid API Version"), w1) /\
       python_on_bar bar st w1 = (Ret (error_result "Invalid API Version"), w1) /\
       python_on_end w1 = (Ret (error_result "Invalid API Version", None), w1) /\
       python_on_init w1 = (Ret tt, w1) /\ python_unload_plugin w1 = (Ret tt, w1)).
Proof.
  unfold python_load_plugin. unfold io_bind at 1, on_memory at 1, io_lift at 1, io_modify at 1.
  set (w0 := mkPythonWorld _ _). clearbody w0. unfold io_bind at 1, io_get at 1. unfold io_catch.
  match goal with |- context [io_bind (on_memory (on_python py_gil_acquire)) ?k w0] =>
    set (body := io_bind (on_memory (on_python py_gil_acquire)) k) end.
  assert (forall w2, body w0 = (Ret tt, w2) -> py_loaded w2) as Hok.
  { intros w2 Hb. unfold body in Hb. apply io_bind_ret in Hb as ([] & wl & _ & Hb). unfold io_finally in Hb.
    match type of Hb with context [io_bind ?c ?k wl] => destruct (io_bind c k wl) as [[[]|e|] wr] eqn:Hr end; [|done|done].
    injection Hb as <-. cut (py_loaded wr); [by intros (i & pp & He & Hh); exists i, pp|].
    apply io_bind_ret in Hr as (m & wa & _ & Hr). apply io_bind_ret in Hr as (f & wb & _ & Hr).
    apply io_bind_ret in Hr as (o & wc & _ & Hr). apply io_bind_ret in Hr as (i & wd & Hn & [= <-]).
    unfold on_memory, io_lift, new_py_plugin in Hn. injection Hn as <- <-.
    eexists _, _. split; [reflexivity|]. simpl. apply lookup_insert_eq. }
  destruct (body w0) as [[[]|e|] w2]; intros [= <- <-].
  - split; [done|]. intros _. left. by apply Hok.
  - split; [done|]. intros _. right. intros bar st. by split_and!.
  - done.
Qed.

(** After unloading, the version is still the supported one, so a later call is made on
    the null instance. *)
Theorem python_call_after_unload bar st w :
  py_loaded w ->
  exists w1, python_unload_plugin w = (Ret tt, w1) /\
    python_on_bar bar st w1 = on_memory (py_on_bar None (to_plugin_bar bar) (to_c_state st)) w1 /\
    forall m, py_plugin None m = (wild_access _, m).
Proof.
  intros (i & pp & He & _). unfold python_unload_plugin, io_bind, io_get. rewrite He. simpl.
  eexists. split; [reflexivity|]. done.
Qed.
End Loading.
