(* ===== verification/PluginManager.v ===== *)
(** * [src/plugins/manager/plugin_manager.cpp]

    A loader is a native or a Python one; the memory of the native plugins and the Python
    interpreter are shared by the loaders of their kind.  The entries of a directory come
    in an order the file system chooses.  A loader that is destroyed without having been
    unloaded leaves its plugin where it is. *)
From Stdlib Require Import ZArith Lia Ascii String.
From stdpp Require Import base tactics list gmap strings.
From S2P Require Import Prelude Double CppString Manifest Abi StockApi Models State DataStore Engine Effects Json StringStore ManifestParser NativeLoader PythonLoader.
Open Scope string_scope.
Open Scope Z_scope.

Record DirectoryEntry : Type := mkDirectoryEntry {
  dir_is_directory : bool;
  dir_path : string
}.

(** The part of the file system plugins are loaded from. *)
Class PluginFiles : Type := {
  directory_entries : string -> outcome (list DirectoryEntry);   (* [directory_iterator{root}] *)
  lookup_file : string -> ManifestFile
}.

(** [PluginManifest()]: the host parameters are value-initialised by [make_unique]. *)
Definition new_plugin_manifest : PluginManifest :=
  mkPluginManifest 0 "" "" "" None None ""
    (mkHostParams None None 0 0 None None 0 None None None None None "" "" [] None None None None None None None None
       None None None None) "" [] empty_strings.

Section PluginManager.
Context {M W : Type} `{DynamicLoader M, Python W, StringLayout, InvalidMemory, Json, PluginFiles}.

(** [std::unique_ptr<IPluginLoader>] *)
Inductive AnyLoader : Type :=
| ANative (l : NativeLoader M)
| APython (l : PythonLoader (W := W)).

Record PluginManager : Type := mkPluginManager {
  ctx_ : SimulatorContext;
  plugin_map_by_name_ : gmap string AnyLoader;
  manager_plugin_names_ : list string;
  native_memory : M;                       (* shared by the native plugins *)
  native_events : list LoaderEvent;
  python_memory : PyMemory (W := W)        (* shared by the Python plugins *)
}.

Definition new_plugin_manager (plugin_names : list string) (mem : M) (py : PyMemory) : PluginManager :=
  mkPluginManager (mkSimulatorContext PLUGIN_API_VERSION) ∅ plugin_names mem [] py.

Definition set_plugin_map (m : gmap string AnyLoader) (w : PluginManager) : PluginManager :=
  mkPluginManager (ctx_ w) m (manager_plugin_names_ w) (native_memory w) (native_events w) (python_memory w).

(** A call of one loader on the memory of its kind; the loader afterwards. *)
Definition on_native {A} (l : NativeLoader M) (c : io (LoaderWorld M) A) : io PluginManager (A * AnyLoader) := fun w =>
  let '(r, lw) := c (mkLoaderWorld l (native_memory w) (native_events w)) in
  (let* a := r in Ret (a, ANative (native lw)),
   mkPluginManager (ctx_ w) (plugin_map_by_name_ w) (manager_plugin_names_ w) (memory lw) (events lw) (python_memory w)).

Definition on_python_loader {A} (l : PythonLoader) (c : io PythonWorld A) : io PluginManager (A * AnyLoader) := fun w =>
  let '(r, pw) := c (mkPythonWorld l (python_memory w)) in
  (let* a := r in Ret (a, APython (py_loader pw)),
   mkPluginManager (ctx_ w) (plugin_map_by_name_ w) (manager_plugin_names_ w) (native_memory w) (native_events w)
     (py_memory pw)).

Definition any_load_plugin (l : AnyLoader) (ctx : SimulatorContext) : io PluginManager (unit * AnyLoader) :=
  match l with
  | ANative l => on_native l (load_plugin ctx)
  | APython l => on_python_loader l (python_load_plugin ctx)
  end.

Definition any_on_init (l : AnyLoader) : io PluginManager (unit * AnyLoader) :=
  match l with
  | ANative l => on_native l native_on_init
  | APython l => on_python_loader l python_on_init
  end.

Definition any_unload_plugin (l : AnyLoader) : io PluginManager (unit * AnyLoader) :=
  match l with
  | ANative l => on_native l native_unload_plugin
  | APython l => on_python_loader l python_unload_plugin
  end.

Definition any_manifest (l : AnyLoader) : PluginManifest :=
  match l with
  | ANative l => plugin_manifest_ l
  | APython l => py_manifest_ l
  end.

Definition any_get_plugin_name (l : AnyLoader) : string := get_name (any_manifest l).
Definition any_get_host_params (l : AnyLoader) : HostParams := get_host_params (any_manifest l).

(** The lambda that makes the loader. *)
Definition make_loader (plugin_manifest : PluginManifest) : outcome AnyLoader :=
  if is_python plugin_manifest then Ret (APython (mkPythonLoader plugin_manifest empty_export))
  else if is_native plugin_manifest then Ret (ANative (new_native_loader plugin_manifest))
  else Throw (runtime_error "Unknown plugin kind in manifest").

(** [emplace]: an entry that is there already stays. *)
Definition map_emplace (name : string) (l : AnyLoader) (m : gmap string AnyLoader) : gmap string AnyLoader :=
  match m !! name with Some _ => m | None => <[name := l]> m end.

(** The manifest of a directory. *)
Definition read_manifest (path : string) : outcome PluginManifest :=
  let* document := load_from_file lookup_file path in parse_json new_plugin_manifest document.

(** The body of the loop over the directory. *)
Definition load_entry (dir : DirectoryEntry) : io PluginManager unit :=
  if negb (dir_is_directory dir) then io_ret tt
  else
    let! plugin_manifest := io_of (read_manifest (dir_path dir)) in
    let! w := io_get in
    if negb (is_one_of plugin_manifest (manager_plugin_names_ w)) then io_ret tt
    else
      let! loader := io_of (make_loader plugin_manifest) in
      let! loaded := any_load_plugin loader (ctx_ w) in
      let! initialized := any_on_init (snd loaded) in
      let loader := snd initialized in
      io_modify (fun w => set_plugin_map (map_emplace (any_get_plugin_name loader) loader (plugin_map_by_name_ w)) w).

Definition load_plugins_from_dir (root : string) : io PluginManager unit :=
  let! w := io_get in
  match manager_plugin_names_ w with
  | [] => io_throw (runtime_error "No plugin names provided to load")
  | _ => let! dirs := io_of (directory_entries root) in io_each load_entry dirs
  end.

(** The order [std::unordered_map] iterates in is [hash_order]. *)
Definition with_plugins `{StdContainers} {A} (func : AnyLoader -> io A unit) (w : PluginManager) : io A unit :=
  io_each (fun kv => func (snd kv)) (hash_order (plugin_map_by_name_ w)).

(** The destructor. *)
Definition destroy_plugin_manager `{StdContainers} : io PluginManager unit :=
  let! w := io_get in
  io_each (fun kv =>
    let! unloaded := any_unload_plugin (snd kv) in
    io_modify (fun w => set_plugin_map (<[fst kv := snd unloaded]> (plugin_map_by_name_ w)) w))
    (hash_order (plugin_map_by_name_ w)).
End PluginManager.
Arguments AnyLoader : clear implicits.
Arguments AnyLoader M W {_}.
Arguments PluginManager : clear implicits.
Arguments PluginManager M W {_}.
