(* ===== verification/ManagerProps.v ===== *)
(** * The plugin manager: properties *)
From Stdlib Require Import ZArith Lia Ascii String.
From stdpp Require Import base tactics list gmap strings.
From S2P Require Import Prelude Double CppString Manifest Abi StockApi Models State DataStore Engine Effects Json StringStore ManifestParser NativeLoader PythonLoader PluginManager.
Open Scope string_scope.
Open Scope Z_scope.

Section Manager.
Context {M W : Type} `{DynamicLoader M, Python W, StringLayout, InvalidMemory, Json, PluginFiles}.

(** ** Loading keeps a loader's name *)
Definition native_named (n : string) (w : LoaderWorld M) : Prop := get_name (plugin_manifest_ (native w)) = n.
Definition python_named (n : string) (w : PythonWorld (W := W)) : Prop := get_name (py_manifest_ (py_loader w)) = n.

Lemma io_keeps_get {V} (P : V -> Prop) : io_keeps P io_get.
Proof. by intros w. Qed.
Lemma io_keeps_modify {V} (P : V -> Prop) f : (forall w, P w -> P (f w)) -> io_keeps P (io_modify f).
Proof. intros Hf w Hw. by apply Hf. Qed.
#[local] Hint Resolve io_keeps_get : io.

Lemma get_options_name m : get_name (get_options m).2 = get_name m.
Proof. unfold get_options. by destruct (fold_left _ _ _). Qed.

Lemma lib_close_named n : io_keeps (native_named n) lib_close.
Proof. apply io_keeps_modify. intros w Hw. by destruct (lib_ (native w)). Qed.

Lemma load_plugin_named n ctx : io_keeps (native_named n) (load_plugin ctx).
Proof.
  pose proof (lib_close_named n) as Hc. unfold load_plugin, lib_sym. apply io_keeps_bind; [auto with io|]. intros w.
  apply io_keeps_bind.
  { intros w1 Hw1. unfold lib_open. destruct (dlopen _ _) as [[e|h] m]; done. }
  intros [err|h].
  { apply io_keeps_bind; [by apply io_keeps_modify|]. auto with io. }
  apply io_keeps_bind; [by apply io_keeps_modify|]. intros _. destruct (dlsym _ _) as [create|].
  2: { apply io_keeps_bind; [done|]. auto with io. }
  apply io_keeps_bind.
  { apply io_keeps_modify. intros w1 Hw1. by destruct (create ctx (memory w1)). }
  intros _. apply io_keeps_bind; [auto with io|]. intros w1.
  destruct (_ || _).
  { apply io_keeps_bind; [done|]. intros _. apply io_keeps_bind; [by apply io_keeps_modify|]. auto with io. }
  destruct (_ || _); [|auto with io].
  apply io_keeps_bind; [done|]. intros _. apply io_keeps_bind; [by apply io_keeps_modify|]. auto with io.
Qed.

Lemma on_init_named n : io_keeps (native_named n) native_on_init.
Proof.
  intros w Hw. unfold native_on_init. unfold io_bind at 1, io_get. destruct (negb _); [done|].
  destruct (vt_on_init _) as [f|]; [|done].
  pose proof (get_options_name (plugin_manifest_ (native w))) as Hg. destruct (get_options _) as [o m]. cbn [snd] in Hg.
  assert (io_keeps (native_named n) (do! call_plugin (f (instance_ (exp_ (native w))) (deref_options m o)) in io_ret tt)) as Hk.
  { apply io_keeps_bind; [|auto with io]. intros w1 Hw1. unfold call_plugin, io_lift. by destruct (f _ _ _). }
  unfold io_bind at 1, io_modify. apply Hk. unfold native_named in *. simpl. by rewrite Hg.
Qed.

Lemma on_memory_named n {A} (c : io PyMemory A) : io_keeps (python_named n) (on_memory c).
Proof. intros w Hw. unfold on_memory, io_lift. by destruct (c _). Qed.

Lemma python_load_named n ctx : io_keeps (python_named n) (python_load_plugin ctx).
Proof.
  unfold python_load_plugin. apply io_keeps_bind; [apply on_memory_named|]. intros _.
  apply io_keeps_bind; [auto with io|]. intros w. apply io_keeps_catch; [|intros e; by apply io_keeps_modify].
  apply io_keeps_bind; [apply on_memory_named|]. intros _. apply io_keeps_finally; [|apply on_memory_named].
  do 4 (apply io_keeps_bind; [apply on_memory_named|]; intros ?). by apply io_keeps_modify.
Qed.

Lemma python_on_init_named n : io_keeps (python_named n) python_on_init.
Proof.
  intros w Hw. unfold python_on_init. unfold io_bind at 1, io_get. destruct (negb _); [done|].
  destruct (vt_on_init _) as [f|]; [|done].
  pose proof (get_options_name (py_manifest_ (py_loader w))) as Hg. destruct (get_options _) as [o m]. cbn [snd] in Hg.
  assert (io_keeps (python_named n) (do! on_memory (f (instance_ (py_exp_ (py_loader w))) (deref_options m o)) in io_ret tt)) as Hk.
  { apply io_keeps_bind; [apply on_memory_named|auto with io]. }
  unfold io_bind at 1, io_modify. apply Hk. unfold python_named in *. simpl. by rewrite Hg.
Qed.

(** The plugins and the names the manager holds. *)
Definition same_plugins (w w' : PluginManager M W) : Prop :=
  plugin_map_by_name_ w' = plugin_map_by_name_ w /\ manager_plugin_names_ w' = manager_plugin_names_ w.

Lemma any_load_named l ctx w r w' :
  any_load_plugin l ctx w = (r, w') ->
  same_plugins w w' /\ forall a l', r = Ret (a, l') -> any_get_plugin_name l' = any_get_plugin_name l.
Proof.
  unfold any_load_plugin, on_native, on_python_loader. destruct l as [l|l].
  - pose proof (load_plugin_named (get_name (plugin_manifest_ l)) ctx (mkLoaderWorld l (native_memory w) (native_events w)) eq_refl) as Hn.
    destruct (load_plugin ctx _) as [x lw]. intros [= <- <-]. split; [done|]. intros a l' Hr.
    destruct x; [|done|done]. injection Hr as _ <-. exact Hn.
  - pose proof (python_load_named (get_name (py_manifest_ l)) ctx (mkPythonWorld l (python_memory w)) eq_refl) as Hn.
    destruct (python_load_plugin ctx _) as [x lw]. intros [= <- <-]. split; [done|]. intros a l' Hr.
    destruct x; [|done|done]. injection Hr as _ <-. exact Hn.
Qed.

Lemma any_on_init_named l w r w' :
  any_on_init l w = (r, w') ->
  same_plugins w w' /\ forall a l', r = Ret (a, l') -> any_get_plugin_name l' = any_get_plugin_name l.
Proof.
  unfold any_on_init, on_native, on_python_loader. destruct l as [l|l].
  - pose proof (on_init_named (get_name (plugin_manifest_ l)) (mkLoaderWorld l (native_memory w) (native_events w)) eq_refl) as Hn.
    destruct (native_on_init _) as [x lw]. intros [= <- <-]. split; [done|]. intros a l' Hr.
    destruct x; [|done|done]. injection Hr as _ <-. exact Hn.
  - pose proof (python_on_init_named (get_name (py_manifest_ l)) (mkPythonWorld l (python_memory w)) eq_refl) as Hn.
    destruct (python_on_init _) as [x lw]. intros [= <- <-]. split; [done|]. intros a l' Hr.
    destruct x; [|done|done]. injection Hr as _ <-. exact Hn.
Qed.

(** ** What is loaded *)

(** A directory that holds the plugin [name]. *)
Definition holds_plugin (dir : DirectoryEntry) (name : string) : Prop :=
  dir_is_directory dir = true /\ exists m, read_manifest (dir_path dir) = Ret m /\ name_ m = name.

Lemma map_emplace_dom name l (m : gmap string (AnyLoader M W)) n :
  is_Some (map_emplace name l m !! n) <-> n = name \/ is_Some (m !! n).
Proof.
  unfold map_emplace. destruct (m !! name) eqn:E.
  - split; [by right|]. intros [->|Hn]; [by rewrite E|done].
  - destruct (decide (n = name)) as [->|Hne].
    + rewrite lookup_insert_eq. split; [by left|by eauto].
    + rewrite lookup_insert_ne by done. split; [by right|]. by intros [|?].
Qed.

Lemma is_one_of_spec m names : is_one_of m names = true <-> name_ m ∈ names.
Proof.
  unfold is_one_of. rewrite existsb_exists. setoid_rewrite String.eqb_eq. split.
  - intros (x & Hx & <-). by apply list_elem_of_In.
  - intros Hn. exists (name_ m). by rewrite <- list_elem_of_In.
Qed.

(** One entry: the map grows by the plugin of the directory if it was asked for. *)
Lemma load_entry_spec dir w w' :
  load_entry dir w = (Ret tt, w') ->
  manager_plugin_names_ w' = manager_plugin_names_ w /\
  (dir_is_directory dir = true -> exists m, read_manifest (dir_path dir) = Ret m) /\
  forall n, is_Some (plugin_map_by_name_ w' !! n) <->
    is_Some (plugin_map_by_name_ w !! n) \/ (n ∈ manager_plugin_names_ w /\ holds_plugin dir n).
Proof.
  unfold load_entry, holds_plugin. destruct (dir_is_directory dir); cbn [negb].
  2: { intros [= <-]. split; [done|]. split; [done|]. intros n. split; [by left|]. intros [?|[_ [? _]]]; done. }
  intros (m & w1 & Hm & Hr)%io_bind_ret. unfold io_of in Hm. injection Hm as Hm <-.
  unfold io_bind at 1, io_get in Hr. destruct (is_one_of m _) eqn:Hone; cbn [negb] in Hr.
  2: { injection Hr as <-. split; [done|]. split; [by eauto|]. intros n. split; [by left|].
       intros [?|[Hn (_ & m' & Hm' & <-)]]; [done|]. rewrite Hm in Hm'. injection Hm' as <-.
       apply is_one_of_spec in Hn. congruence. }
  apply is_one_of_spec in Hone.
  apply io_bind_ret in Hr as (l & w2 & Hl & Hr). unfold io_of in Hl. injection Hl as Hl <-.
  apply io_bind_ret in Hr as ([u1 l1] & w3 & Hl1 & Hr). apply any_load_named in Hl1 as [[Hp3 Hn3] Hname1].
  specialize (Hname1 _ _ eq_refl).
  apply io_bind_ret in Hr as ([u2 l2] & w4 & Hl2 & Hr). apply any_on_init_named in Hl2 as [[Hp4 Hn4] Hname2].
  specialize (Hname2 _ _ eq_refl). injection Hr as <-. cbn [snd] in *.
  assert (any_get_plugin_name l2 = name_ m) as Hname.
  { rewrite Hname2, Hname1. unfold make_loader in Hl. destruct (is_python m); [by injection Hl as <-|].
    destruct (is_native m); [by injection Hl as <-|done]. }
  split; [simpl; congruence|]. split; [by eauto|]. intros n. simpl. rewrite Hname, map_emplace_dom, Hp4, Hp3. split.
  - intros [->|?]; [right|by left]. split; [done|]. split; [done|]. by exists m.
  - intros [?|[_ (_ & m' & Hm' & <-)]]; [by right|left]. rewrite Hm in Hm'. by injection Hm' as <-.
Qed.

Lemma load_entries_spec dirs w w' :
  io_each load_entry dirs w = (Ret tt, w') ->
  Forall (fun dir => dir_is_directory dir = true -> exists m, read_manifest (dir_path dir) = Ret m) dirs /\
  forall n, is_Some (plugin_map_by_name_ w' !! n) <->
    is_Some (plugin_map_by_name_ w !! n) \/ (n ∈ manager_plugin_names_ w /\ exists dir, dir ∈ dirs /\ holds_plugin dir n).
Proof.
  revert w. induction dirs as [|dir dirs IH]; intros w; simpl.
  { intros [= <-]. split; [done|]. intros n. split; [by left|]. intros [?|[_ (d & Hd & _)]]; [done|].
    by apply elem_of_nil in Hd. }
  intros ([] & w1 & Hone & Hrest)%io_bind_ret. apply load_entry_spec in Hone as (Hn & Hd & Hspec).
  apply IH in Hrest as [Hall Hspec2]. split; [by constructor|]. intros n. rewrite Hspec2, Hspec, Hn.
  setoid_rewrite elem_of_cons. split.
  - intros [[?|[? ?]]|[? (d & ? & ?)]]; [by left|right; eauto|right; eauto].
  - intros [?|[? (d & [->|?] & ?)]]; [by left; left|left; by right|right; eauto].
Qed.

(** C23: when [load_plugins_from_dir] returns, every directory under the root held a
    readable manifest, wanted or not, and the plugins that are loaded are exactly those
    that were asked for and have a directory: a name without a directory is no error. *)
Theorem loaded_plugins_spec root names mem py w' :
  load_plugins_from_dir root (new_plugin_manager names mem py) = (Ret tt, w') ->
  exists dirs, directory_entries root = Ret dirs /\
    Forall (fun dir => dir_is_directory dir = true -> exists m, read_manifest (dir_path dir) = Ret m) dirs /\
    forall n, is_Some (plugin_map_by_name_ w' !! n) <-> n ∈ names /\ exists dir, dir ∈ dirs /\ holds_plugin dir n.
Proof.
  unfold load_plugins_from_dir. unfold io_bind at 1, io_get. cbn [new_plugin_manager manager_plugin_names_].
  destruct names as [|name names]; [done|]. intros (dirs & w1 & Hd & Hr)%io_bind_ret. injection Hd as Hd <-.
  exists dirs. split; [done|]. apply load_entries_spec in Hr as [Hall Hspec]. split; [done|].
  intros n. rewrite Hspec. simpl. rewrite lookup_empty. split; [intros [[? ?]|?]; done|by right].
Qed.
End Manager.
