(* ===== verification/ManagerRelease.v ===== *)
(** * What the plugin manager releases

    The libraries and instances of the native plugins are counted in the log: what the
    destructor of the manager closes and destroys is what [load_plugins_from_dir] opened
    and created. *)
From Stdlib Require Import ZArith Lia Ascii String.
From stdpp Require Import base tactics list gmap strings.
From S2P Require Import Prelude Double CppString Manifest Abi StockApi Models State DataStore Engine Effects Json StringStore ManifestParser NativeLoader PythonLoader PluginManager ManagerProps.
Open Scope string_scope.
Open Scope Z_scope.

#[export] Instance LoaderEvent_eq_dec : EqDecision LoaderEvent.
Proof. solve_decision. Defined.

(** How often an event was logged. *)
Definition logged (e : LoaderEvent) (es : list LoaderEvent) : Z := Z.of_nat (length (filter (e =.) es)).

(** ** Weights *)

(** A weight charges what is acquired and gives it back when it is released. *)
Record Weight : Type := mkWeight {
  weight :> LoaderEvent -> Z;
  weight_called : forall i, weight (Called i) = 0;
  weight_null : weight (Created None) = 0;
  weight_closed : forall h, weight (Closed h) = - weight (Opened h);
  weight_destroyed : forall i, weight (Destroyed i) = - weight (Created i)
}.

Definition outstanding (f : LoaderEvent -> Z) (es : list LoaderEvent) : Z := foldr (fun e z => f e + z) 0 es.

Lemma outstanding_snoc f es e : outstanding f (es ++ [e]) = outstanding f es + f e.
Proof. unfold outstanding. induction es as [|e' es IH]; simpl; [lia|]. rewrite IH. lia. Qed.

(** One library, or one instance. *)
Program Definition library_weight (h : nat) : Weight :=
  mkWeight (fun e => match e with
                     | Opened h' => if decide (h' = h) then 1 else 0
                     | Closed h' => if decide (h' = h) then -1 else 0
                     | _ => 0
                     end) _ _ _ _.
Solve Obligations with intros; simpl; repeat case_decide; done.

Program Definition instance_weight (i : nat) : Weight :=
  mkWeight (fun e => match e with
                     | Created (Some i') => if decide (i' = i) then 1 else 0
                     | Destroyed (Some i') => if decide (i' = i) then -1 else 0
                     | _ => 0
                     end) _ _ _ _.
Solve Obligations with intros; simpl; repeat case_match; done.

Lemma logged_cons e e' es : logged e (e' :: es) = (if decide (e = e') then 1 else 0) + logged e es.
Proof. unfold logged. rewrite filter_cons. repeat case_decide; simpl; lia || done. Qed.

Lemma outstanding_library h es : outstanding (library_weight h) es = logged (Opened h) es - logged (Closed h) es.
Proof.
  induction es as [|e es IH]; [done|]. rewrite !logged_cons. cbn [outstanding foldr]. change (foldr _ 0 es) with (outstanding (library_weight h) es).
  rewrite IH. destruct e; simpl; repeat case_decide; simplify_eq; lia.
Qed.

Lemma outstanding_instance i es :
  outstanding (instance_weight i) es = logged (Created (Some i)) es - logged (Destroyed (Some i)) es.
Proof.
  induction es as [|e es IH]; [done|]. rewrite !logged_cons. cbn [outstanding foldr]. change (foldr _ 0 es) with (outstanding (instance_weight i) es).
  rewrite IH. destruct e as [| [i'|]| |[i'|]|]; simpl; repeat case_decide; simplify_eq; lia.
Qed.

Section Loader.
Context {M : Type} `{DynamicLoader M, StringLayout, InvalidMemory} (f : Weight).

(** What a loader holds: the library and the instance, or nothing. *)
Definition native_holding (l : NativeLoader M) : Z :=
  match lib_ l with Some h => f (Opened h) | None => 0 end + f (Created (instance_ (exp_ l))).

Definition native_ok (l : NativeLoader M) : Prop :=
  PluginExport_api_version_ (exp_ l) = PLUGIN_API_VERSION /\ is_Some (instance_ (exp_ l)) /\
  is_Some (vt_destroy (vtable_ (exp_ l))) /\ is_Some (lib_ l) \/
  exp_ l = empty_export /\ lib_ l = None.

Lemma native_empty l : exp_ l = empty_export -> lib_ l = None -> native_holding l = 0.
Proof. intros He Hl. unfold native_holding. rewrite He, Hl. simpl. rewrite weight_null. lia. Qed.

(** A load that succeeds acquires what the loader holds afterwards. *)
Lemma load_native ctx m mem es w1 :
  load_plugin ctx (mkLoaderWorld (new_native_loader m) mem es) = (Ret tt, w1) ->
  native_ok (native w1) /\ outstanding f (events w1) = outstanding f es + native_holding (native w1).
Proof.
  unfold load_plugin, lib_open, lib_sym, io_bind, io_get, io_modify, io_throw, io_ret. cbn [memory].
  destruct (dlopen _ mem) as [[err|h] mem1]; simpl; [done|].
  destruct (dlsym h PLUGIN_CREATE_SYMBOL) as [create|]; simpl; [|done].
  destruct (create ctx mem1) as [e mem2]. simpl.
  destruct (Z.eqb_spec (PluginExport_api_version_ e) PLUGIN_API_VERSION) as [Hv|Hv]; simpl; [|done].
  destruct (instance_ e) as [i|] eqn:Hi; simpl; [|done].
  destruct (vt_destroy (vtable_ e)) as [d|] eqn:Hd, (vt_on_end (vtable_ e)) as [g|]; simpl; try done.
  intros [= <-]. simpl. split.
  - left. simpl. rewrite Hi, Hd. eauto.
  - unfold native_holding. simpl. rewrite !outstanding_snoc, Hi. lia.
Qed.

Lemma call_outstanding {A} (c : io M A) w :
  native (call_plugin c w).2 = native w /\ outstanding f (events (call_plugin c w).2) = outstanding f (events w).
Proof.
  unfold call_plugin, io_lift. destruct (c _) as [r m]. simpl. split; [by destruct w|].
  rewrite outstanding_snoc, weight_called. lia.
Qed.

Lemma init_native w r w1 :
  native_on_init w = (r, w1) -> native_ok (native w) ->
  native_ok (native w1) /\ native_holding (native w1) = native_holding (native w) /\
  outstanding f (events w1) = outstanding f (events w).
Proof.
  unfold native_on_init. unfold io_bind at 1, io_get. destruct (negb _); [by intros [= <- <-]|].
  destruct (vt_on_init _) as [g|]; [|by intros [= <- <-]]. destruct (get_options _) as [o m].
  unfold io_bind, io_modify, io_ret. intros Hr Hok.
  match type of Hr with context [call_plugin ?c ?w0] =>
    destruct (call_outstanding c w0) as [Hn Ho]; destruct (call_plugin c w0) as [[?|?|] w2] end;
    simplify_eq; simpl in *; by rewrite Hn, Ho.
Qed.

(** Unloading gives back everything and always returns. *)
Lemma unload_native w :
  native_ok (native w) ->
  exists w1, native_unload_plugin w = (Ret tt, w1) /\
    outstanding f (events w1) = outstanding f (events w) - native_holding (native w).
Proof.
  unfold native_unload_plugin, native_holding. unfold io_bind at 1, io_get.
  intros [(Hv & [i Hi] & [d Hd] & [h Hl])|[He Hl]].
  - rewrite Hv. cbn [Z.eqb negb]. change (PLUGIN_API_VERSION =? PLUGIN_API_VERSION) with true. cbn [negb].
    rewrite Hi, Hd. unfold io_bind, io_modify, lib_close, io_modify. simpl. rewrite Hl. simpl.
    eexists. split; [done|]. simpl. rewrite !outstanding_snoc, weight_destroyed, weight_closed. lia.
  - rewrite He, Hl. simpl. eexists. split; [done|]. rewrite weight_null. lia.
Qed.
End Loader.

Section Manager.
Context {M W : Type} `{DynamicLoader M, Python W, StringLayout, InvalidMemory, Json, PluginFiles}.

Implicit Types (f : Weight).

Definition any_holding (f : Weight) (l : AnyLoader M W) : Z :=
  match l with ANative l => native_holding f l | APython _ => 0 end.
Definition any_ok (l : AnyLoader M W) : Prop :=
  match l with ANative l => native_ok l | APython _ => True end.

Definition holdings (f : Weight) (l : list (string * AnyLoader M W)) : Z := foldr (fun kv z => any_holding f (snd kv) + z) 0 l.

Lemma holdings_perm f l l' : l ≡ₚ l' -> holdings f l = holdings f l'.
Proof. induction 1; simpl; lia. Qed.

(** The log accounts for what the loaders of the map hold. *)
Definition accounted (f : Weight) (w : PluginManager M W) : Prop :=
  map_Forall (fun _ l => any_ok l) (plugin_map_by_name_ w) /\
  outstanding f (native_events w) = holdings f (map_to_list (plugin_map_by_name_ w)).

Lemma any_load_spec f l ctx w a l' w' :
  (exists m, make_loader m = Ret l) -> any_load_plugin l ctx w = (Ret (a, l'), w') ->
  any_ok l' /\ outstanding f (native_events w') = outstanding f (native_events w) + any_holding f l'.
Proof.
  intros [m Hm] Hr. unfold make_loader in Hm. destruct (is_python m); [|destruct (is_native m)]; simplify_eq; simpl in Hr.
  - unfold on_python_loader in Hr. destruct (python_load_plugin _ _) as [[?|?|] pw]; simpl in Hr; simplify_eq. simpl. split; [done|lia].
  - unfold on_native in Hr. destruct (load_plugin _ _) as [[[]|?|] lw] eqn:Hl; simpl in Hr; simplify_eq.
    simpl. by apply (load_native f) in Hl.
Qed.

Lemma any_init_spec f l w a l' w' :
  any_ok l -> any_on_init l w = (Ret (a, l'), w') ->
  any_ok l' /\ any_holding f l' = any_holding f l /\ outstanding f (native_events w') = outstanding f (native_events w).
Proof.
  intros Hok Hr. destruct l as [l|l]; simpl in *.
  - unfold on_native in Hr. destruct (native_on_init _) as [[?|?|] lw] eqn:Hl; simpl in Hr; simplify_eq.
    simpl. by apply (init_native f) in Hl.
  - unfold on_python_loader in Hr. destruct (python_on_init _) as [[?|?|] pw]; simpl in Hr; by simplify_eq.
Qed.

Lemma any_unload_spec f l w :
  any_ok l ->
  exists l' w', any_unload_plugin l w = (Ret (tt, l'), w') /\
    outstanding f (native_events w') = outstanding f (native_events w) - any_holding f l.
Proof.
  intros Hok. destruct l as [l|l]; simpl in *.
  - destruct (unload_native f (mkLoaderWorld l (native_memory w) (native_events w)) Hok) as (lw & Hl & Ho).
    unfold on_native. rewrite Hl. by eexists _, _.
  - unfold on_python_loader, python_unload_plugin. unfold io_bind at 1, io_get. destruct (negb _).
    + eexists _, _. split; [done|]. simpl. lia.
    + destruct (vt_destroy _); [destruct (instance_ _)|]; eexists _, _; (split; [done|]); simpl; lia.
Qed.

(** One directory, when no plugin of its name is loaded yet. *)
Lemma load_entry_accounted f dir w w' :
  load_entry dir w = (Ret tt, w') -> (forall n, holds_plugin dir n -> plugin_map_by_name_ w !! n = None) ->
  accounted f w -> accounted f w'.
Proof.
  unfold load_entry. destruct (dir_is_directory dir) eqn:Hdir; cbn [negb]; [|by intros [= <-]].
  intros (m & w1 & Hm & Hr)%io_bind_ret Hnew [Hok Ho]. injection Hm as Hm <-.
  unfold io_bind at 1, io_get in Hr. destruct (is_one_of m _); cbn [negb] in Hr; [|by injection Hr as <-].
  apply io_bind_ret in Hr as (l & w2 & Hl & Hr). injection Hl as Hl <-.
  apply io_bind_ret in Hr as ([u1 l1] & w3 & Hl1 & Hr). pose proof Hl1 as Hn1. apply any_load_named in Hn1 as [[Hp3 _] Hname1].
  apply (any_load_spec f) in Hl1 as [Hok1 Ho1]; [|by exists m].
  apply io_bind_ret in Hr as ([u2 l2] & w4 & Hl2 & Hr). pose proof Hl2 as Hn2. apply any_on_init_named in Hn2 as [[Hp4 _] Hname2].
  apply (any_init_spec f) in Hl2 as (Hok2 & Hh2 & Ho2); [|done]. injection Hr as <-. cbn [snd] in *.
  assert (any_get_plugin_name l2 = name_ m) as Hname.
  { rewrite (Hname2 _ _ eq_refl), (Hname1 _ _ eq_refl). unfold make_loader in Hl.
    destruct (is_python m); [by injection Hl as <-|]. destruct (is_native m); [by injection Hl as <-|done]. }
  assert (plugin_map_by_name_ w !! name_ m = None) as Hnone by (apply Hnew; split; [done|by exists m]).
  unfold accounted. cbn [snd set_plugin_map plugin_map_by_name_ native_events]. unfold map_emplace.
  rewrite Hname, Hp4, Hp3, Hnone. split; [by apply map_Forall_insert_2|].
  rewrite (holdings_perm f _ _ (map_to_list_insert _ _ _ Hnone)). cbn [holdings foldr snd].
  change (foldr _ 0 ?l) with (holdings f l). rewrite <- Ho. lia.
Qed.

(** No two directories hold the same plugin. *)
Definition distinct_plugins (dirs : list DirectoryEntry) : Prop :=
  forall i j d1 d2 n, dirs !! i = Some d1 -> dirs !! j = Some d2 -> holds_plugin d1 n -> holds_plugin d2 n -> i = j.

Lemma load_entries_accounted f dirs w w' :
  io_each load_entry dirs w = (Ret tt, w') -> distinct_plugins dirs ->
  (forall dir n, dir ∈ dirs -> holds_plugin dir n -> plugin_map_by_name_ w !! n = None) ->
  accounted f w -> accounted f w'.
Proof.
  revert w. induction dirs as [|dir dirs IH]; intros w; simpl; [by intros [= <-]|].
  intros ([] & w1 & Hone & Hrest)%io_bind_ret Hd Hnew Hw. apply (IH w1 Hrest).
  - intros i j d1 d2 n Hi Hj Hn1 Hn2. pose proof (Hd (S i) (S j) d1 d2 n Hi Hj Hn1 Hn2). lia.
  - intros d n Hin Hn. pose proof (load_entry_spec dir w w1 Hone) as (_ & _ & Hspec).
    destruct (plugin_map_by_name_ w1 !! n) eqn:E; [|done]. exfalso.
    destruct (proj1 (Hspec n) ltac:(by rewrite E)) as [[x Hx]|[_ Hh]].
    + rewrite (Hnew d n) in Hx; [done|by constructor|done].
    + apply list_elem_of_lookup in Hin as [j Hj]. by specialize (Hd 0%nat (S j) dir d n eq_refl Hj Hh Hn).
  - apply (load_entry_accounted f dir w w1); [done| |done]. intros n. apply Hnew. by constructor.
Qed.

(** ** Calls between loading and destruction

    What the jobs of the engine may call on the loaders, in any order and interleaving;
    the state after a call is kept whether it returns or throws. *)
Inductive PluginCall : Type :=
| CallStart
| CallBar (bar : AggregateBarResult) (state : State)
| CallEnd
| CallFree (str : option string).

Definition native_call (c : PluginCall) (w : LoaderWorld M) : LoaderWorld M :=
  match c with
  | CallStart => (native_on_start w).2
  | CallBar bar state => (native_on_bar bar state w).2
  | CallEnd => (native_on_end w).2
  | CallFree str => (native_free_string str w).2
  end.

Definition python_call (c : PluginCall) (w : PythonWorld (W := W)) : PythonWorld :=
  match c with
  | CallStart => (python_on_start w).2
  | CallBar bar state => (python_on_bar bar state w).2
  | CallEnd => (python_on_end w).2
  | CallFree str => (python_free_string str w).2
  end.

Definition manager_call (w : PluginManager M W) (call : string * PluginCall) : PluginManager M W :=
  match plugin_map_by_name_ w !! call.1 with
  | None => w
  | Some (ANative l) =>
      let lw := native_call call.2 (mkLoaderWorld l (native_memory w) (native_events w)) in
      mkPluginManager (ctx_ w) (<[call.1 := ANative (native lw)]> (plugin_map_by_name_ w)) (manager_plugin_names_ w)
        (memory lw) (events lw) (python_memory w)
  | Some (APython l) =>
      let pw := python_call call.2 (mkPythonWorld l (python_memory w)) in
      mkPluginManager (ctx_ w) (<[call.1 := APython (py_loader pw)]> (plugin_map_by_name_ w)) (manager_plugin_names_ w)
        (native_memory w) (native_events w) (py_memory pw)
  end.

Definition manager_calls (calls : list (string * PluginCall)) (w : PluginManager M W) : PluginManager M W :=
  fold_left manager_call calls w.

(** A call acquires nothing and releases nothing. *)
Lemma native_call_outstanding f c w :
  native (native_call c w) = native w /\ outstanding f (events (native_call c w)) = outstanding f (events w).
Proof.
  destruct c; simpl; unfold native_on_start, native_on_bar, native_on_end, native_free_string;
    unfold io_bind at 1 2, io_get; destruct (negb _); try done; case_match; try done; apply call_outstanding.
Qed.

Lemma manager_call_accounted f w call : accounted f w -> accounted f (manager_call w call).
Proof.
  intros [Hok Ho]. unfold manager_call. destruct (plugin_map_by_name_ w !! call.1) as [l|] eqn:Hl; [|done].
  assert (forall l', any_ok l' -> any_holding f l' = any_holding f l ->
    map_Forall (fun _ l => any_ok l) (<[call.1 := l']> (plugin_map_by_name_ w)) /\
    holdings f (map_to_list (<[call.1 := l']> (plugin_map_by_name_ w))) = holdings f (map_to_list (plugin_map_by_name_ w))) as Hins.
  { intros l' Hok' Hh. split; [by apply map_Forall_insert_2|].
    rewrite <- (insert_id _ _ _ Hl) at 2. rewrite <- (insert_delete_eq _ _ l'), <- (insert_delete_eq _ _ l).
    rewrite !(holdings_perm f _ _ (map_to_list_insert _ _ _ (lookup_delete_eq _ _))). simpl. lia. }
  pose proof (Hok _ _ Hl) as Hlok. destruct l as [l|l]; simpl in *.
  - destruct (native_call_outstanding f call.2 (mkLoaderWorld l (native_memory w) (native_events w))) as [Hn Hout].
    simpl in Hn, Hout. rewrite Hn. destruct (Hins (ANative l) Hlok eq_refl) as [H1' H2']. split; [done|].
    cbn. rewrite H2', <- Ho. exact Hout.
  - destruct (Hins (APython (py_loader (python_call call.2 (mkPythonWorld l (python_memory w))))) I eq_refl) as [H1' H2'].
    split; [done|]. cbn. by rewrite H2', <- Ho.
Qed.

Lemma manager_calls_accounted f calls w : accounted f w -> accounted f (manager_calls calls w).
Proof. revert w. induction calls as [|c calls IH]; intros w Hw; [done|]. by apply IH, manager_call_accounted. Qed.

Section Destroy.
Context `{StdContainers}.

Lemma unload_all f kvs w :
  Forall (fun kv => any_ok (snd kv)) kvs ->
  exists w', io_each (fun kv =>
      let! unloaded := any_unload_plugin (snd kv) in
      io_modify (fun w => set_plugin_map (<[fst kv := snd unloaded]> (plugin_map_by_name_ w)) w)) kvs w = (Ret tt, w') /\
    outstanding f (native_events w') = outstanding f (native_events w) - holdings f kvs.
Proof.
  intros Hall. revert w. induction Hall as [|[k l] kvs Hok _ IH]; intros w; simpl.
  { exists w. split; [done|lia]. }
  destruct (any_unload_spec f l w Hok) as (l' & w1 & Hu & Ho). unfold io_bind at 1. unfold io_bind at 1. rewrite Hu.
  unfold io_modify at 1. destruct (IH (set_plugin_map (<[k := l']> (plugin_map_by_name_ w1)) w1)) as (w2 & Hr & Ho2).
  exists w2. split; [exact Hr|]. rewrite Ho2. simpl. rewrite Ho. simpl in *. lia.
Qed.

Lemma destroy_accounted f w :
  StdContainersLaws -> accounted f w ->
  outstanding f (native_events (destroy_plugin_manager w).2) = 0 /\ (destroy_plugin_manager w).1 = Ret tt.
Proof.
  intros Hlaws [Hok Ho].
  pose proof (hash_order_perm (AnyLoader M W) (plugin_map_by_name_ w)) as Hp.
  destruct (unload_all f (hash_order (plugin_map_by_name_ w)) w) as (w' & Hr & Ho').
  { rewrite Hp. apply Forall_forall. intros [k l] Hkl%elem_of_map_to_list. by apply (Hok k l). }
  assert (destroy_plugin_manager w = (Ret tt, w')) as -> by exact Hr.
  split; [|done]. simpl. rewrite Ho', (holdings_perm f _ _ Hp). lia.
Qed.

(** C22: a manager that loaded a directory, in which no two directories hold the same
    plugin, gives everything back when it is destroyed, whatever its plugins were called
    for in between: the destructor returns, every library was closed as often as it was
    opened, and every instance was destroyed as often as it was created. *)
Theorem destructor_releases_plugins root dirs names mem py w calls :
  StdContainersLaws -> directory_entries root = Ret dirs -> distinct_plugins dirs ->
  load_plugins_from_dir root (new_plugin_manager names mem py) = (Ret tt, w) ->
  let destroyed := destroy_plugin_manager (manager_calls calls w) in
  let es := native_events destroyed.2 in
  destroyed.1 = Ret tt /\
  (forall h, logged (Opened h) es = logged (Closed h) es) /\
  (forall i, logged (Created (Some i)) es = logged (Destroyed (Some i)) es).
Proof.
  intros Hlaws Hdirs Hd Hr.
  assert (forall f, accounted f (manager_calls calls w)) as Hw.
  { intros f. apply manager_calls_accounted. unfold load_plugins_from_dir in Hr. unfold io_bind at 1, io_get in Hr.
    cbn [new_plugin_manager manager_plugin_names_] in Hr. destruct names as [|name names]; [done|].
    apply io_bind_ret in Hr as (dirs' & w1 & Hd' & Hr). injection Hd' as Hd' <-. rewrite Hdirs in Hd'. injection Hd' as <-.
    apply (load_entries_accounted f) in Hr; [done|done| |].
    - intros d n _ _. apply lookup_empty.
    - split; [apply map_Forall_empty|]. cbn [new_plugin_manager plugin_map_by_name_ native_events]. by rewrite map_to_list_empty. }
  destruct (destroy_accounted (library_weight 0) _ Hlaws (Hw _)) as [_ Hret]. split_and!; [done| |].
  - intros h. destruct (destroy_accounted (library_weight h) _ Hlaws (Hw _)) as [E _].
    rewrite outstanding_library in E. lia.
  - intros i. destruct (destroy_accounted (instance_weight i) _ Hlaws (Hw _)) as [E _].
    rewrite outstanding_instance in E. lia.
Qed.
End Destroy.
End Manager.
