(* ===== verification/ThreadPool.v ===== *)
(** * [src/utils/thread_pool.cpp]

    The pool is a transition system over the states of its worker threads and of the one
    thread that owns it: that thread constructs the pool, enqueues tasks, calls
    [wait_all] and destroys the pool, which is how [ForgeEngine] uses it.  A step is
    what one thread does without another thread being able to see a state in between: a
    critical section, an atomic operation, or a notification.  Testing the predicate of a
    [wait] and going to sleep are two steps, both made while the mutex is held: the second
    one releases it.  [notify_one] picks the sleeper given with the step.  A wait may also
    end without a notification; such a wake-up is a step of its own, so that what the
    program itself guarantees stays visible.

    Tasks are opaque; [throws t] says that running [t] ends with an exception, which
    leaves the thread's function and so calls [std::terminate]. *)
From Stdlib Require Import ZArith Lia.
From stdpp Require Import base tactics list numbers.
From S2P Require Import Prelude.
Open Scope nat_scope.

Section ThreadPool.
Context {T : Type} (throws : T -> bool).

(** Where a worker is in its loop. *)
Inductive worker_pc : Type :=
| WLock                 (* before taking [queue_mutex_] *)
| WTest                 (* holding it, before testing the predicate *)
| WSleepy               (* the predicate was false; still holding it *)
| WAsleep               (* in [condition_variable_.wait], mutex released *)
| WRun (t : T)          (* running the task it took *)
| WFinished             (* before [--active_tasks_] *)
| WNotify               (* before [completion_cv_.notify_all()] *)
| WExited.

(** Where the owner is. *)
Inductive owner_pc : Type :=
| OEnqueue (rest : list T)      (* tasks still to enqueue *)
| ONotifyOne (rest : list T)    (* before [condition_variable_.notify_one()] *)
| OLock                         (* in [wait_all], before taking the mutex *)
| OTest
| OSleepy
| OAsleep                       (* in [completion_cv_.wait] *)
| ODestroy                      (* [wait_all] has returned *)
| ONotifyAll
| OJoin
| OEnd.

Inductive holder : Type := HOwner | HWorker (i : nat).

Record ThreadPool : Type := mkThreadPool {
  threads_ : list worker_pc;
  owner : owner_pc;
  queue_mutex_ : option holder;
  tasks_ : list T;
  stop_ : bool;
  active_tasks_ : nat;
  terminated : bool;
  started : list T;     (* tasks taken from the queue, in order *)
  finished : list T     (* tasks that have been run *)
}.

Definition set_thread (i : nat) (pc : worker_pc) (s : ThreadPool) : ThreadPool :=
  mkThreadPool (<[i := pc]> (threads_ s)) (owner s) (queue_mutex_ s) (tasks_ s) (stop_ s)
    (active_tasks_ s) (terminated s) (started s) (finished s).
Definition set_threads (l : list worker_pc) (s : ThreadPool) : ThreadPool :=
  mkThreadPool l (owner s) (queue_mutex_ s) (tasks_ s) (stop_ s)
    (active_tasks_ s) (terminated s) (started s) (finished s).
Definition set_owner (pc : owner_pc) (s : ThreadPool) : ThreadPool :=
  mkThreadPool (threads_ s) pc (queue_mutex_ s) (tasks_ s) (stop_ s)
    (active_tasks_ s) (terminated s) (started s) (finished s).
Definition set_queue_mutex (h : option holder) (s : ThreadPool) : ThreadPool :=
  mkThreadPool (threads_ s) (owner s) h (tasks_ s) (stop_ s)
    (active_tasks_ s) (terminated s) (started s) (finished s).
Definition set_tasks (ts : list T) (s : ThreadPool) : ThreadPool :=
  mkThreadPool (threads_ s) (owner s) (queue_mutex_ s) ts (stop_ s)
    (active_tasks_ s) (terminated s) (started s) (finished s).
Definition set_stop (s : ThreadPool) : ThreadPool :=
  mkThreadPool (threads_ s) (owner s) (queue_mutex_ s) (tasks_ s) true
    (active_tasks_ s) (terminated s) (started s) (finished s).
Definition set_active_tasks (n : nat) (s : ThreadPool) : ThreadPool :=
  mkThreadPool (threads_ s) (owner s) (queue_mutex_ s) (tasks_ s) (stop_ s)
    n (terminated s) (started s) (finished s).
Definition std_terminate (s : ThreadPool) : ThreadPool :=
  mkThreadPool (threads_ s) (owner s) (queue_mutex_ s) (tasks_ s) (stop_ s)
    (active_tasks_ s) true (started s) (finished s).
Definition record_started (t : T) (s : ThreadPool) : ThreadPool :=
  mkThreadPool (threads_ s) (owner s) (queue_mutex_ s) (tasks_ s) (stop_ s)
    (active_tasks_ s) (terminated s) (started s ++ [t]) (finished s).
Definition record_finished (t : T) (s : ThreadPool) : ThreadPool :=
  mkThreadPool (threads_ s) (owner s) (queue_mutex_ s) (tasks_ s) (stop_ s)
    (active_tasks_ s) (terminated s) (started s) (finished s ++ [t]).

(** The constructor: the threads start before the first task is there. *)
Definition new_pool (num_threads : nat) (script : list T) : ThreadPool :=
  mkThreadPool (replicate num_threads WLock) (OEnqueue script) None [] false 0 false [] [].

Definition mutex_free (s : ThreadPool) : bool :=
  match queue_mutex_ s with None => true | Some _ => false end.

Definition queue_empty (s : ThreadPool) : bool :=
  match tasks_ s with [] => true | _ => false end.

(** [completion_cv_.notify_all()]: only the owner waits there. *)
Definition notify_completion (s : ThreadPool) : ThreadPool :=
  match owner s with OAsleep => set_owner OLock s | _ => s end.

(** A worker woken from [condition_variable_] takes the mutex and tests again. *)
Definition wake (pc : worker_pc) : worker_pc :=
  match pc with WAsleep => WLock | _ => pc end.

Definition is_asleep (pc : worker_pc) : bool := match pc with WAsleep => true | _ => false end.
Definition is_exited (pc : worker_pc) : bool := match pc with WExited => true | _ => false end.

(** The loop of worker [i]. *)
Definition worker_step (i : nat) (s : ThreadPool) : option ThreadPool :=
  pc ← threads_ s !! i;
  match pc with
  | WLock =>
      if mutex_free s then Some (set_queue_mutex (Some (HWorker i)) (set_thread i WTest s)) else None
  | WTest =>
      match tasks_ s with
      | [] =>
          if stop_ s then Some (set_queue_mutex None (set_thread i WExited s))
          else Some (set_thread i WSleepy s)
      | t :: ts =>
          Some (set_queue_mutex None
                 (set_active_tasks (S (active_tasks_ s))
                   (record_started t (set_tasks ts (set_thread i (WRun t) s)))))
      end
  | WSleepy => Some (set_queue_mutex None (set_thread i WAsleep s))
  | WAsleep => None
  | WRun t =>
      if throws t then Some (std_terminate s)
      else Some (record_finished t (set_thread i WFinished s))
  | WFinished => Some (set_active_tasks (active_tasks_ s - 1) (set_thread i WNotify s))
  | WNotify => Some (notify_completion (set_thread i WLock s))
  | WExited => None
  end.

(** [enqueue] for each task, [wait_all], then the destructor; [woken] is the sleeper a
    [notify_one] picks. *)
Definition owner_step (woken : nat) (s : ThreadPool) : option ThreadPool :=
  match owner s with
  | OEnqueue [] => Some (set_owner OLock s)
  | OEnqueue (t :: rest) =>
      if mutex_free s then Some (set_owner (ONotifyOne rest) (set_tasks (tasks_ s ++ [t]) s)) else None
  | ONotifyOne rest =>
      if existsb is_asleep (threads_ s) then
        match threads_ s !! woken with
        | Some WAsleep => Some (set_owner (OEnqueue rest) (set_thread woken WLock s))
        | _ => None
        end
      else Some (set_owner (OEnqueue rest) s)
  | OLock => if mutex_free s then Some (set_queue_mutex (Some HOwner) (set_owner OTest s)) else None
  | OTest =>
      if queue_empty s && (active_tasks_ s =? 0)
      then Some (set_queue_mutex None (set_owner ODestroy s))
      else Some (set_owner OSleepy s)
  | OSleepy => Some (set_queue_mutex None (set_owner OAsleep s))
  | OAsleep => None
  | ODestroy => if mutex_free s then Some (set_owner ONotifyAll (set_stop s)) else None
  | ONotifyAll => Some (set_owner OJoin (set_threads (wake <$> threads_ s) s))
  | OJoin => if forallb is_exited (threads_ s) then Some (set_owner OEnd s) else None
  | OEnd => None
  end.

Inductive action : Type :=
| Owner (woken : nat)
| Worker (i : nat)
| SpuriousWorker (i : nat)     (* [condition_variable_.wait] ends by itself *)
| SpuriousOwner.               (* [completion_cv_.wait] ends by itself *)

Definition is_spurious (a : action) : bool :=
  match a with SpuriousWorker _ | SpuriousOwner => true | _ => false end.

(** A wait that ends tests its predicate again, with the mutex. *)
Definition spurious_worker (i : nat) (s : ThreadPool) : option ThreadPool :=
  match threads_ s !! i with
  | Some WAsleep => Some (set_thread i WLock s)
  | _ => None
  end.
Definition spurious_owner (s : ThreadPool) : option ThreadPool :=
  match owner s with OAsleep => Some (set_owner OLock s) | _ => None end.

(** Nothing runs after [std::terminate]. *)
Definition pool_step (a : action) (s : ThreadPool) : option ThreadPool :=
  if terminated s then None
  else match a with
       | Owner woken => owner_step woken s
       | Worker i => worker_step i s
       | SpuriousWorker i => spurious_worker i s
       | SpuriousOwner => spurious_owner s
       end.

(** An interleaving is the sequence of its steps. *)
Fixpoint pool_run (schedule : list action) (s : ThreadPool) : option ThreadPool :=
  match schedule with
  | [] => Some s
  | a :: schedule => s' ← pool_step a s; pool_run schedule s'
  end.

(** Only a spurious wake-up could go on. *)
Definition stuck (s : ThreadPool) : Prop := forall a, is_spurious a = false -> pool_step a s = None.

Definition spurious (schedule : list action) : nat := length (filter (fun a => is_spurious a = true) schedule).
End ThreadPool.

Arguments worker_pc : clear implicits.
Arguments owner_pc : clear implicits.
Arguments ThreadPool : clear implicits.
