(* ===== verification/ThreadPoolInv.v ===== *)
(** * The thread pool: invariant, ends and measure

    What holds in every reachable state of [ThreadPool] (mutual exclusion, the meaning of
    [active_tasks_], first-in first-out, that a non-empty queue never leaves every worker
    asleep), where an execution can stop, and a measure that every step decreases. *)
From Stdlib Require Import ZArith Lia.
From stdpp Require Import base tactics list numbers.
From S2P Require Import Prelude ThreadPool.
Open Scope nat_scope.

Section Invariant.
Context {T : Type} (throws : T -> bool).
#[local] Abbreviation worker_pc := (worker_pc T).
#[local] Abbreviation owner_pc := (owner_pc T).
#[local] Abbreviation ThreadPool := (ThreadPool T).
#[local] Abbreviation worker_step := (worker_step throws).
#[local] Abbreviation owner_step := (@owner_step T).
#[local] Abbreviation pool_step := (pool_step throws).
#[local] Abbreviation pool_run := (pool_run throws).
#[local] Abbreviation stuck := (stuck throws).
Implicit Types (s : ThreadPool) (script : list T).

(** ** What every reachable state satisfies *)
Definition holds (pc : worker_pc) : bool := match pc with WTest | WSleepy => true | _ => false end.
Definition owner_holds (pc : owner_pc) : bool := match pc with OTest | OSleepy => true | _ => false end.
Definition running (pc : worker_pc) : nat := match pc with WRun _ | WFinished => 1 | _ => 0 end.
Definition task_of (pc : worker_pc) : option T := match pc with WRun t => Some t | _ => None end.
Definition awake (pc : worker_pc) : bool := negb (is_asleep pc) && negb (is_exited pc).
Definition still_to_enqueue (pc : owner_pc) : list T :=
  match pc with OEnqueue rest | ONotifyOne rest => rest | _ => [] end.
Definition past_wait (pc : owner_pc) : bool :=
  match pc with ODestroy | ONotifyAll | OJoin | OEnd => true | _ => false end.
Definition past_stop (pc : owner_pc) : bool :=
  match pc with ONotifyAll | OJoin | OEnd => true | _ => false end.
Definition past_notify (pc : owner_pc) : bool := match pc with OJoin | OEnd => true | _ => false end.
Definition notifies (pc : owner_pc) : bool := match pc with ONotifyOne _ => true | _ => false end.

Definition active_count (l : list worker_pc) : nat := sum_list_with running l.

Record pool_inv (script : list T) (s : ThreadPool) : Prop := {
  inv_worker_lock : forall i pc, threads_ s !! i = Some pc ->
    (holds pc = true <-> queue_mutex_ s = Some (HWorker i));
  inv_owner_lock : owner_holds (owner s) = true <-> queue_mutex_ s = Some HOwner;
  inv_sleepy : forall i, threads_ s !! i = Some WSleepy -> tasks_ s = [] /\ stop_ s = false;
  inv_active : active_tasks_ s = active_count (threads_ s);
  inv_fifo : started s ++ tasks_ s ++ still_to_enqueue (owner s) = script;
  inv_finished : finished s ++ omap task_of (threads_ s) ≡ₚ started s;
  inv_stop : stop_ s = past_stop (owner s);
  inv_exited : forall i, threads_ s !! i = Some WExited -> stop_ s = true;
  inv_notified : past_notify (owner s) = true -> forall i, threads_ s !! i <> Some WAsleep;
  inv_past_wait : past_wait (owner s) = true -> tasks_ s = [] /\ active_tasks_ s = 0;
  inv_wake : tasks_ s <> [] -> threads_ s <> [] -> notifies (owner s) = true \/
    exists i pc, threads_ s !! i = Some pc /\ awake pc = true
}.

Lemma threads_split (l : list worker_pc) i pc :
  l !! i = Some pc -> exists l1 l2, l = l1 ++ pc :: l2 /\ forall pc', <[i := pc']> l = l1 ++ pc' :: l2.
Proof.
  intros Hi. exists (take i l), (drop (S i) l). split; [by rewrite take_drop_middle|].
  intros pc'. apply insert_take_drop. by apply lookup_lt_Some in Hi.
Qed.

Lemma active_count_insert l i pc pc' :
  l !! i = Some pc -> active_count (<[i := pc']> l) + running pc = active_count l + running pc'.
Proof.
  intros (l1 & l2 & -> & ->)%threads_split. unfold active_count. rewrite !sum_list_with_app. simpl. lia.
Qed.

Lemma tasks_insert l i pc pc' (fin : list T) :
  l !! i = Some pc -> task_of pc = None ->
  fin ++ omap task_of (<[i := pc']> l) ≡ₚ (fin ++ omap task_of l) ++ option_list (task_of pc').
Proof.
  intros (l1 & l2 & -> & ->)%threads_split Hpc. rewrite !omap_app. simpl. rewrite Hpc.
  destruct (task_of pc'); simpl; [|by rewrite app_nil_r]. solve_Permutation.
Qed.

Lemma task_done_insert l i t (fin : list T) :
  l !! i = Some (WRun t) ->
  (fin ++ [t]) ++ omap task_of (<[i := WFinished]> l) ≡ₚ fin ++ omap task_of l.
Proof.
  intros (l1 & l2 & -> & ->)%threads_split. rewrite !omap_app. simpl. solve_Permutation.
Qed.

Lemma running_positive l i pc : l !! i = Some pc -> running pc = 1 -> 0 < active_count l.
Proof.
  intros Hi Hr. pose proof (active_count_insert l i pc WLock Hi) as H. simpl in H. lia.
Qed.

(** Case analysis on a looked-up worker after one of them has moved. *)
Local Ltac thread_cases :=
  repeat match goal with
  | H : <[_ := _]> _ !! _ = Some _ |- _ =>
      apply list_lookup_insert_Some in H;
      let Heq := fresh "Heq" in
      destruct H as [(<- & Heq & _)|[? H]]; [first [discriminate Heq | subst | injection Heq as <-]|]
  end.

Lemma new_pool_inv n script : pool_inv script (new_pool n script).
Proof.
  assert (forall i (pc : worker_pc), replicate n WLock !! i = Some pc -> pc = WLock) as Hw
    by (intros i pc [-> _]%lookup_replicate; done).
  assert (omap task_of (replicate n (WLock : worker_pc)) = []) as Ht by (clear; induction n as [|n IH]; [done|exact IH]).
  split; simpl; try done.
  - by intros i pc ->%Hw.
  - clear. induction n as [|n IH]; [done|exact IH].
  - by rewrite Ht.
  - by intros i ?%Hw.
Qed.

Lemma awake_insert (l : list worker_pc) i pc pc' :
  l !! i = Some pc -> awake pc' = true -> exists j pc'', <[i := pc']> l !! j = Some pc'' /\ awake pc'' = true.
Proof. intros Hi Ha. exists i, pc'. split; [|done]. apply list_lookup_insert_eq. by apply lookup_lt_Some in Hi. Qed.

Lemma tasks_insert_none l i pc pc' (fin : list T) :
  l !! i = Some pc -> task_of pc = None -> task_of pc' = None ->
  fin ++ omap task_of (<[i := pc']> l) ≡ₚ fin ++ omap task_of l.
Proof. intros Hi Hpc Hpc'. by rewrite (tasks_insert l i pc pc'), Hpc', app_nil_r. Qed.

Lemma active_count_same l i pc pc' :
  l !! i = Some pc -> running pc = running pc' -> active_count (<[i := pc']> l) = active_count l.
Proof. intros Hi Hr. pose proof (active_count_insert l i pc pc' Hi). lia. Qed.

Lemma worker_lock_inv script i s :
  pool_inv script s -> threads_ s !! i = Some WLock -> queue_mutex_ s = None ->
  pool_inv script (set_queue_mutex (Some (HWorker i)) (set_thread i WTest s)).
Proof.
  intros [Hwl Hol Hsl Hac Hff Hfi Hst Hex Hno Hpw Hwk] Hpc Hm. rewrite Hm in *.
  split; simpl; try done.
  - intros j pc' Hj. thread_cases; simpl; [done|]. rewrite (Hwl j pc' Hj). split; congruence.
  - rewrite Hol. split; congruence.
  - intros j Hj. thread_cases. eauto.
  - by rewrite (active_count_same _ _ WLock).
  - by rewrite (tasks_insert_none _ _ WLock).
  - intros j Hj. thread_cases. eauto.
  - intros Hp j Hj. thread_cases. by apply (Hno Hp j).
  - intros _ _. right. by apply (awake_insert _ _ WLock).
Qed.

(** The worker that holds the mutex gives it back. *)
Lemma unlock_worker (l : list worker_pc) i pc pc' m :
  (forall j pc, l !! j = Some pc -> (holds pc = true <-> m = Some (HWorker j))) ->
  l !! i = Some pc -> holds pc = true -> holds pc' = false ->
  forall j pc'', <[i := pc']> l !! j = Some pc'' -> (holds pc'' = true <-> (None : option holder) = Some (HWorker j)).
Proof.
  intros Hwl Hi Hp Hp' j pc'' Hj. thread_cases; [by rewrite Hp'|].
  rewrite (Hwl j pc'' Hj). apply (Hwl i pc Hi) in Hp. split; congruence.
Qed.

Lemma owner_unlock_worker pc m i :
  (owner_holds pc = true <-> m = Some HOwner) -> m = Some (HWorker i) ->
  (owner_holds pc = true <-> (None : option holder) = Some HOwner).
Proof. intros -> ->. split; congruence. Qed.

Lemma worker_exit_inv script i s :
  pool_inv script s -> threads_ s !! i = Some WTest -> tasks_ s = [] -> stop_ s = true ->
  pool_inv script (set_queue_mutex None (set_thread i WExited s)).
Proof.
  intros [Hwl Hol Hsl Hac Hff Hfi Hst Hex Hno Hpw Hwk] Hpc Ht Hs.
  assert (queue_mutex_ s = Some (HWorker i)) as Hm by by apply (Hwl i WTest).
  split; simpl; try done.
  - by eapply unlock_worker.
  - by eapply owner_unlock_worker.
  - intros j Hj. thread_cases. eauto.
  - by rewrite (active_count_same _ _ WTest).
  - by rewrite (tasks_insert_none _ _ WTest).
  - intros Hp j Hj. thread_cases. by apply (Hno Hp j).
Qed.

Lemma worker_sleepy_inv script i s :
  pool_inv script s -> threads_ s !! i = Some WTest -> tasks_ s = [] -> stop_ s = false ->
  pool_inv script (set_thread i WSleepy s).
Proof.
  intros [Hwl Hol Hsl Hac Hff Hfi Hst Hex Hno Hpw Hwk] Hpc Ht Hs.
  split; simpl; try done.
  - intros j pc' Hj. thread_cases; simpl; [by apply (Hwl i WTest)|by apply Hwl].
  - by rewrite (active_count_same _ _ WTest).
  - by rewrite (tasks_insert_none _ _ WTest).
  - intros j Hj. thread_cases. eauto.
  - intros Hp j Hj. thread_cases. by apply (Hno Hp j).
Qed.

Lemma worker_take_inv script i s t ts :
  pool_inv script s -> threads_ s !! i = Some WTest -> tasks_ s = t :: ts ->
  pool_inv script (set_queue_mutex None (set_active_tasks (S (active_tasks_ s))
    (record_started t (set_tasks ts (set_thread i (WRun t) s))))).
Proof.
  intros [Hwl Hol Hsl Hac Hff Hfi Hst Hex Hno Hpw Hwk] Hpc Ht. rewrite Ht in *.
  assert (queue_mutex_ s = Some (HWorker i)) as Hm by by apply (Hwl i WTest).
  split; simpl; try done.
  - by eapply unlock_worker.
  - by eapply owner_unlock_worker.
  - intros j Hj. thread_cases. by destruct (Hsl j Hj).
  - pose proof (active_count_insert _ _ _ (WRun t) Hpc). simpl in *. lia.
  - by rewrite <- app_assoc.
  - rewrite (tasks_insert _ _ WTest) by done. simpl. by rewrite Hfi.
  - intros j Hj. thread_cases. eauto.
  - intros Hp j Hj. thread_cases. by apply (Hno Hp j).
  - intros Hp. by destruct (Hpw Hp).
  - intros _ _. right. by apply (awake_insert _ _ WTest).
Qed.

Lemma worker_sleep_inv script i s :
  pool_inv script s -> threads_ s !! i = Some WSleepy ->
  pool_inv script (set_queue_mutex None (set_thread i WAsleep s)).
Proof.
  intros [Hwl Hol Hsl Hac Hff Hfi Hst Hex Hno Hpw Hwk] Hpc.
  assert (queue_mutex_ s = Some (HWorker i)) as Hm by by apply (Hwl i WSleepy).
  destruct (Hsl i Hpc) as [Ht Hs].
  split; simpl; try done.
  - by eapply unlock_worker.
  - by eapply owner_unlock_worker.
  - by rewrite (active_count_same _ _ WSleepy).
  - by rewrite (tasks_insert_none _ _ WSleepy).
  - intros j Hj. thread_cases. eauto.
  - intros Hp. rewrite Hs in Hst. by destruct (owner s).
Qed.

Lemma worker_done_inv script i s t :
  pool_inv script s -> threads_ s !! i = Some (WRun t) ->
  pool_inv script (record_finished t (set_thread i WFinished s)).
Proof.
  intros [Hwl Hol Hsl Hac Hff Hfi Hst Hex Hno Hpw Hwk] Hpc.
  split; simpl; try done.
  - intros j pc' Hj. thread_cases; simpl; [by apply (Hwl _ (WRun t))|by apply Hwl].
  - intros j Hj. thread_cases. eauto.
  - by rewrite (active_count_same _ _ (WRun t)).
  - by rewrite task_done_insert.
  - intros j Hj. thread_cases. eauto.
  - intros Hp j Hj. thread_cases. by apply (Hno Hp j).
  - intros _ _. right. by apply (awake_insert _ _ (WRun t)).
Qed.

Lemma worker_finished_inv script i s :
  pool_inv script s -> threads_ s !! i = Some WFinished ->
  pool_inv script (set_active_tasks (active_tasks_ s - 1) (set_thread i WNotify s)).
Proof.
  intros [Hwl Hol Hsl Hac Hff Hfi Hst Hex Hno Hpw Hwk] Hpc.
  split; simpl; try done.
  - intros j pc' Hj. thread_cases; simpl; [by apply (Hwl _ WFinished)|by apply Hwl].
  - intros j Hj. thread_cases. eauto.
  - pose proof (active_count_insert _ _ _ WNotify Hpc). simpl in *. lia.
  - by rewrite (tasks_insert_none _ _ WFinished).
  - intros j Hj. thread_cases. eauto.
  - intros Hp j Hj. thread_cases. by apply (Hno Hp j).
  - intros Hp. destruct (Hpw Hp) as [? E]. split; [done|lia].
  - intros _ _. right. by apply (awake_insert _ _ WFinished).
Qed.

Lemma notify_completion_inv script s :
  pool_inv script s -> pool_inv script (notify_completion s).
Proof.
  intros Hinv. unfold notify_completion. destruct (owner s) eqn:Ho; try done.
  destruct Hinv as [Hwl Hol Hsl Hac Hff Hfi Hst Hex Hno Hpw Hwk]. rewrite Ho in *.
  split; simpl; done.
Qed.

Lemma worker_notify_inv script i s :
  pool_inv script s -> threads_ s !! i = Some WNotify -> pool_inv script (set_thread i WLock s).
Proof.
  intros [Hwl Hol Hsl Hac Hff Hfi Hst Hex Hno Hpw Hwk] Hpc.
  split; simpl; try done.
  - intros j pc' Hj. thread_cases; simpl; [by apply (Hwl _ WNotify)|by apply Hwl].
  - intros j Hj. thread_cases. eauto.
  - by rewrite (active_count_same _ _ WNotify).
  - by rewrite (tasks_insert_none _ _ WNotify).
  - intros j Hj. thread_cases. eauto.
  - intros Hp j Hj. thread_cases. by apply (Hno Hp j).
  - intros _ _. right. by apply (awake_insert _ _ WNotify).
Qed.

Lemma terminate_inv script s : pool_inv script s -> pool_inv script (std_terminate s).
Proof. by intros []. Qed.

Lemma worker_step_inv script i s s' :
  pool_inv script s -> worker_step i s = Some s' -> pool_inv script s'.
Proof.
  intros Hinv (pc & Hpc & Hs)%bind_Some. destruct pc; simpl in Hs; try done.
  - unfold mutex_free in Hs. destruct (queue_mutex_ s) eqn:Hm; simplify_eq. by apply worker_lock_inv.
  - destruct (tasks_ s) eqn:Ht; [destruct (stop_ s) eqn:Hst|]; simplify_eq.
    + by apply worker_exit_inv.
    + by apply worker_sleepy_inv.
    + by apply worker_take_inv.
  - simplify_eq. by apply worker_sleep_inv.
  - destruct (throws t); simplify_eq; [by apply terminate_inv|by apply worker_done_inv].
  - simplify_eq. by apply worker_finished_inv.
  - simplify_eq. by apply notify_completion_inv, worker_notify_inv.
Qed.

Lemma owner_push_inv script s t rest :
  pool_inv script s -> owner s = OEnqueue (t :: rest) -> queue_mutex_ s = None ->
  pool_inv script (set_owner (ONotifyOne rest) (set_tasks (tasks_ s ++ [t]) s)).
Proof.
  intros [Hwl Hol Hsl Hac Hff Hfi Hst Hex Hno Hpw Hwk] Ho Hm. rewrite Ho in *.
  split; simpl; try done.
  - intros i Hi. apply (Hwl i), proj1 in Hi. specialize (Hi eq_refl). congruence.
  - rewrite <- Hff. simpl. by rewrite <- !app_assoc.
  - intros _ _. by left.
Qed.

Lemma not_asleep_awake script s :
  pool_inv script s -> stop_ s = false -> existsb is_asleep (threads_ s) = false -> threads_ s <> [] ->
  exists i pc, threads_ s !! i = Some pc /\ awake pc = true.
Proof.
  intros Hinv Hs Hne Hnn. destruct (threads_ s) as [|pc l] eqn:Hl; [done|]. exists 0, pc. split; [done|].
  simpl in Hne. apply orb_false_iff in Hne as [Ha _]. unfold awake. rewrite Ha. simpl.
  destruct pc; try done. pose proof (inv_exited _ _ Hinv 0) as He. rewrite Hl in He.
  specialize (He eq_refl). congruence.
Qed.

Lemma owner_notify_one_inv script s rest :
  pool_inv script s -> owner s = ONotifyOne rest -> existsb is_asleep (threads_ s) = false ->
  pool_inv script (set_owner (OEnqueue rest) s).
Proof.
  intros Hinv Ho Hna. pose proof (not_asleep_awake script s Hinv) as Haw.
  destruct Hinv as [Hwl Hol Hsl Hac Hff Hfi Hst Hex Hno Hpw Hwk]. rewrite Ho in *.
  split; simpl; try done.
  intros _ Hl. right. by apply Haw.
Qed.

Lemma owner_wake_one_inv script s i rest :
  pool_inv script s -> owner s = ONotifyOne rest -> threads_ s !! i = Some WAsleep ->
  pool_inv script (set_owner (OEnqueue rest) (set_thread i WLock s)).
Proof.
  intros [Hwl Hol Hsl Hac Hff Hfi Hst Hex Hno Hpw Hwk] Ho Hpc. rewrite Ho in *.
  split; simpl; try done.
  - intros j pc' Hj. thread_cases; simpl; [by apply (Hwl _ WAsleep)|by apply Hwl].
  - intros j Hj. thread_cases. eauto.
  - by rewrite (active_count_same _ _ WAsleep).
  - by rewrite (tasks_insert_none _ _ WAsleep).
  - intros j Hj. thread_cases. eauto.
  - intros _ _. right. by apply (awake_insert _ _ WAsleep).
Qed.

Lemma wake_all_lookup (l : list worker_pc) i pc :
  (wake <$> l) !! i = Some pc -> exists pc', l !! i = Some pc' /\ wake pc' = pc.
Proof. rewrite list_lookup_fmap. destruct (l !! i) as [pc'|]; simpl; [|done]. intros [= <-]. eauto. Qed.

Lemma wake_all_counts (l : list worker_pc) :
  active_count (wake <$> l) = active_count l /\ omap task_of (wake <$> l) = omap task_of l.
Proof.
  unfold active_count. induction l as [|pc l [IH1 IH2]]; [done|]. cbn. rewrite IH1.
  split; [by destruct pc|]. cbn in IH2. destruct pc; cbn; by rewrite IH2.
Qed.

Lemma owner_notify_all_inv script s :
  pool_inv script s -> owner s = ONotifyAll ->
  pool_inv script (set_owner OJoin (set_threads (wake <$> threads_ s) s)).
Proof.
  intros [Hwl Hol Hsl Hac Hff Hfi Hst Hex Hno Hpw Hwk] Ho. rewrite Ho in *.
  destruct (wake_all_counts (threads_ s)) as [E1 E2]. destruct Hpw as [Ht Ha]; [done|].
  split; simpl; try done.
  - intros i pc (pc' & Hi & <-)%wake_all_lookup. rewrite <- (Hwl i pc' Hi). by destruct pc'.
  - intros i (pc' & Hi & Hpc)%wake_all_lookup. apply (Hsl i). by destruct pc'; simplify_eq.
  - by rewrite E1.
  - by rewrite E2.
  - intros _ i (pc' & Hi & Hpc)%wake_all_lookup. by destruct pc'.
Qed.

Lemma owner_step_inv script w s s' :
  pool_inv script s -> owner_step w s = Some s' -> pool_inv script s'.
Proof.
  intros Hinv. unfold owner_step, mutex_free. destruct (owner s) as [[|t rest]|rest| | | | | | | |] eqn:Ho; intros Hs.
  - simplify_eq. destruct Hinv as [Hwl Hol Hsl Hac Hff Hfi Hst Hex Hno Hpw Hwk]. rewrite Ho in *.
    by split.
  - destruct (queue_mutex_ s) eqn:Hm; simplify_eq. by apply owner_push_inv.
  - destruct (existsb is_asleep (threads_ s)) eqn:Hna.
    + destruct (threads_ s !! w) as [[]|] eqn:Hw; simplify_eq. by apply owner_wake_one_inv.
    + simplify_eq. by apply owner_notify_one_inv.
  - destruct (queue_mutex_ s) eqn:Hm; simplify_eq.
    destruct Hinv as [Hwl Hol Hsl Hac Hff Hfi Hst Hex Hno Hpw Hwk]. rewrite Ho, Hm in *.
    split; simpl; try done. intros i pc Hi. rewrite (Hwl i pc Hi). split; congruence.
  - destruct Hinv as [Hwl Hol Hsl Hac Hff Hfi Hst Hex Hno Hpw Hwk]. rewrite Ho in *.
    assert (queue_mutex_ s = Some HOwner) as Hm by by apply Hol.
    destruct (queue_empty s && (active_tasks_ s =? 0)) eqn:He; simplify_eq.
    + apply andb_true_iff in He as [Hq Ha%Nat.eqb_eq]. unfold queue_empty in Hq.
      destruct (tasks_ s) eqn:Ht; [|done].
      split; simpl; rewrite ?Ht; try done. intros i pc Hi. rewrite (Hwl i pc Hi), Hm. split; congruence.
    + by split.
  - simplify_eq. destruct Hinv as [Hwl Hol Hsl Hac Hff Hfi Hst Hex Hno Hpw Hwk]. rewrite Ho in *.
    assert (queue_mutex_ s = Some HOwner) as Hm by by apply Hol.
    split; simpl; try done. intros i pc Hi. rewrite (Hwl i pc Hi), Hm. split; congruence.
  - done.
  - destruct (queue_mutex_ s) eqn:Hm; simplify_eq.
    destruct Hinv as [Hwl Hol Hsl Hac Hff Hfi Hst Hex Hno Hpw Hwk]. rewrite Ho in *.
    split; simpl; try done. intros i Hi. apply (Hwl i), proj1 in Hi. specialize (Hi eq_refl). congruence.
  - simplify_eq. by apply owner_notify_all_inv.
  - destruct (forallb is_exited (threads_ s)); simplify_eq.
    destruct Hinv as [Hwl Hol Hsl Hac Hff Hfi Hst Hex Hno Hpw Hwk]. rewrite Ho in *. by split.
  - done.
Qed.

Lemma spurious_worker_inv script i s s' :
  pool_inv script s -> spurious_worker i s = Some s' -> pool_inv script s'.
Proof.
  intros [Hwl Hol Hsl Hac Hff Hfi Hst Hex Hno Hpw Hwk]. unfold spurious_worker.
  destruct (threads_ s !! i) as [[]|] eqn:Hpc; intros Hs; simplify_eq. split; simpl; try done.
  - intros j pc' Hj. thread_cases; simpl; [by apply (Hwl _ WAsleep)|by apply Hwl].
  - intros j Hj. thread_cases. eauto.
  - by rewrite (active_count_same _ _ WAsleep).
  - by rewrite (tasks_insert_none _ _ WAsleep).
  - intros j Hj. thread_cases. eauto.
  - intros Hp j Hj. thread_cases. by apply (Hno Hp j).
  - intros _ _. right. by apply (awake_insert _ _ WAsleep).
Qed.

Lemma spurious_owner_inv script s s' :
  pool_inv script s -> spurious_owner s = Some s' -> pool_inv script s'.
Proof.
  intros [Hwl Hol Hsl Hac Hff Hfi Hst Hex Hno Hpw Hwk]. unfold spurious_owner.
  destruct (owner s) eqn:Ho; intros Hs; simplify_eq. by split.
Qed.

Lemma pool_step_inv script a s s' : pool_inv script s -> pool_step a s = Some s' -> pool_inv script s'.
Proof.
  intros Hinv. unfold pool_step. destruct (terminated s); [done|]. destruct a.
  - by apply owner_step_inv.
  - by apply worker_step_inv.
  - by apply spurious_worker_inv.
  - by apply spurious_owner_inv.
Qed.

Lemma pool_run_inv script schedule s s' :
  pool_inv script s -> pool_run schedule s = Some s' -> pool_inv script s'.
Proof.
  revert s. induction schedule as [|a schedule IH]; intros s Hinv; simpl; [by intros [= <-]|].
  intros (s1 & H1 & H2)%bind_Some. eapply IH; [|done]. by eapply pool_step_inv.
Qed.

(** ** Safety *)
Lemma no_active_no_tasks (l : list worker_pc) : active_count l = 0 -> omap task_of l = [].
Proof.
  unfold active_count. induction l as [|pc l IH]; cbn; [done|]. intros H.
  rewrite (IH ltac:(lia) : omap task_of l = []). destruct pc; cbn in *; done || lia.
Qed.

Lemma pool_run_reachable n script schedule s :
  pool_run schedule (new_pool n script) = Some s -> pool_inv script s.
Proof. apply pool_run_inv, new_pool_inv. Qed.

Lemma past_wait_done script s :
  pool_inv script s -> past_wait (owner s) = true -> started s = script /\ finished s ≡ₚ script.
Proof.
  intros Hinv Hp. destruct (inv_past_wait _ _ Hinv Hp) as [Ht Ha].
  pose proof (inv_fifo _ _ Hinv) as Hf. rewrite Ht in Hf.
  assert (started s = script) as Hs by (destruct (owner s); simpl in *; rewrite ?app_nil_r in Hf; done).
  split; [done|]. rewrite <- Hs, <- (inv_finished _ _ Hinv), no_active_no_tasks; [by rewrite app_nil_r|].
  by rewrite <- (inv_active _ _ Hinv).
Qed.

(** ** Where an execution can end *)
Lemma stuck_worker s i pc :
  stuck s -> terminated s = false -> queue_mutex_ s = None -> threads_ s !! i = Some pc ->
  pc = WAsleep \/ pc = WExited.
Proof.
  intros Hst Ht Hm Hi. specialize (Hst (Worker i) eq_refl). unfold pool_step in Hst. rewrite Ht in Hst.
  unfold worker_step in Hst. rewrite Hi in Hst. simpl in Hst. unfold mutex_free in Hst. rewrite Hm in Hst.
  destruct pc; try done; auto.
  - destruct (tasks_ s); [by destruct (stop_ s)|done].
  - by destruct (throws t).
Qed.

Lemma stuck_mutex_free script s :
  pool_inv script s -> stuck s -> terminated s = false ->
  (forall i, queue_mutex_ s = Some (HWorker i) -> is_Some (threads_ s !! i)) -> queue_mutex_ s = None.
Proof.
  intros Hinv Hst Ht Hdom. destruct (queue_mutex_ s) as [[|i]|] eqn:Hm; [| |done].
  - specialize (Hst (Owner 0) eq_refl). unfold pool_step, owner_step in Hst. rewrite Ht in Hst.
    apply (inv_owner_lock _ _ Hinv) in Hm. destruct (owner s); simpl in *; try done.
    by destruct (queue_empty s && (active_tasks_ s =? 0)).
  - destruct (Hdom i eq_refl) as [pc Hi]. apply (inv_worker_lock _ _ Hinv i pc Hi) in Hm as Hh.
    specialize (Hst (Worker i) eq_refl). unfold pool_step, worker_step in Hst. rewrite Ht, Hi in Hst. simpl in Hst.
    destruct pc; try done. destruct (tasks_ s); [by destruct (stop_ s)|done].
Qed.

Definition holder_in_range (s : ThreadPool) : Prop :=
  forall i, queue_mutex_ s = Some (HWorker i) -> i < length (threads_ s).

Lemma threads_length_step a s s' : pool_step a s = Some s' -> length (threads_ s') = length (threads_ s).
Proof.
  unfold pool_step, worker_step, owner_step, spurious_worker, spurious_owner, notify_completion. destruct (terminated s); [done|]. intros H.
  destruct a; repeat first [case_match | simplify_option_eq]; simpl; rewrite ?length_insert, ?length_fmap; done.
Qed.

Lemma holder_in_range_step a s s' : holder_in_range s -> pool_step a s = Some s' -> holder_in_range s'.
Proof.
  intros Hr Hs i. rewrite (threads_length_step _ _ _ Hs). revert Hs.
  unfold pool_step, worker_step, owner_step, spurious_worker, spurious_owner, notify_completion. destruct (terminated s); [done|]. intros H.
  destruct a as [w|j|j|]; [|destruct (threads_ s !! j) eqn:Hj; [|done]; apply lookup_lt_Some in Hj| |];
    repeat first [case_match | simplify_option_eq]; simpl; try done; try (by apply Hr); naive_solver.
Qed.

Lemma pool_run_in_range schedule s s' :
  holder_in_range s -> pool_run schedule s = Some s' -> holder_in_range s'.
Proof.
  revert s. induction schedule as [|a schedule IH]; intros s Hr; simpl; [by intros [= <-]|].
  intros (s1 & H1 & H2)%bind_Some. eapply IH; [|done]. by eapply holder_in_range_step.
Qed.

Lemma pool_run_length schedule s s' :
  pool_run schedule s = Some s' -> length (threads_ s') = length (threads_ s).
Proof.
  revert s. induction schedule as [|a schedule IH]; intros s; simpl; [by intros [= <-]|].
  intros (s1 & H1 & H2)%bind_Some. rewrite (IH _ H2). by eapply threads_length_step.
Qed.

(** The owner of a stuck pool is asleep in [wait_all], joining, or done. *)
Lemma stuck_owner s :
  stuck s -> terminated s = false -> queue_mutex_ s = None ->
  owner s = OAsleep \/ owner s = OEnd \/ owner s = OJoin /\ forallb is_exited (threads_ s) = false.
Proof.
  intros Hst Ht Hm.
  assert (forall w, owner_step w s = None) as Ho.
  { intros w. specialize (Hst (Owner w) eq_refl). unfold pool_step in Hst. by rewrite Ht in Hst. }
  destruct (owner s) as [[|t rest]|rest| | | | | | | |] eqn:Hpc; auto.
  all: pose proof (Ho 0) as H0; unfold owner_step, mutex_free in H0; rewrite Hpc, ?Hm in H0; try done.
  - destruct (existsb is_asleep (threads_ s)) eqn:Hna; [|done].
    apply existsb_exists in Hna as (pc & Hin & Hpc').
    apply list_elem_of_In, list_elem_of_lookup in Hin as [w Hw]. specialize (Ho w).
    unfold owner_step in Ho. rewrite Hpc, Hw in Ho. destruct pc; try done.
    destruct (existsb is_asleep (threads_ s)) eqn:Hna; [done|].
    exfalso. assert (existsb is_asleep (threads_ s) = true); [|congruence].
    apply existsb_exists. exists WAsleep. split; [|done]. apply list_elem_of_In. by eapply list_elem_of_lookup_2.
  - by destruct (queue_empty s && (active_tasks_ s =? 0)).
  - destruct (forallb is_exited (threads_ s)) eqn:He; [done|]. auto.
Qed.

Lemma all_asleep_no_active (l : list worker_pc) :
  (forall i pc, l !! i = Some pc -> pc = WAsleep \/ pc = WExited) -> active_count l = 0.
Proof.
  unfold active_count. induction l as [|pc l IH]; intros Hl; [done|]. cbn.
  rewrite (IH (fun i => Hl (S i))). destruct (Hl 0 pc eq_refl) as [-> | ->]; done.
Qed.

Lemma stuck_cases script s :
  pool_inv script s -> holder_in_range s -> stuck s -> terminated s = false ->
  owner s = OEnd \/
  owner s = OAsleep /\ (forall i pc, threads_ s !! i = Some pc -> pc = WAsleep) /\
  started s ++ tasks_ s = script /\ finished s ≡ₚ started s /\ active_tasks_ s = 0 /\
  (threads_ s <> [] -> tasks_ s = []).
Proof.
  intros Hinv Hr Hst Ht.
  assert (queue_mutex_ s = None) as Hm.
  { eapply stuck_mutex_free; eauto. intros i Hi. by apply lookup_lt_is_Some, Hr. }
  assert (forall i pc, threads_ s !! i = Some pc -> pc = WAsleep \/ pc = WExited) as Hw
    by (intros; eapply stuck_worker; eauto).
  destruct (stuck_owner s Hst Ht Hm) as [Ho|[Ho|[Ho He]]]; [right|by left|exfalso].
  - pose proof (inv_stop _ _ Hinv) as Hstop. rewrite Ho in Hstop. simpl in Hstop.
    assert (forall i pc, threads_ s !! i = Some pc -> pc = WAsleep) as Has.
    { intros i pc Hi. destruct (Hw i pc Hi) as [->| ->]; [done|]. pose proof (inv_exited _ _ Hinv i Hi). congruence. }
    pose proof (all_asleep_no_active _ Hw) as Hac.
    pose proof (inv_fifo _ _ Hinv) as Hf. rewrite Ho in Hf. simpl in Hf. rewrite app_nil_r in Hf.
    split_and!; try done; [|by rewrite (inv_active _ _ Hinv)|].
    + rewrite <- (inv_finished _ _ Hinv), no_active_no_tasks by done. by rewrite app_nil_r.
    + intros Hne. destruct (decide (tasks_ s = [])) as [|Hn]; [done|exfalso].
      destruct (inv_wake _ _ Hinv Hn Hne) as [Hn'|(i & pc & Hi & Ha)]; [by rewrite Ho in Hn'|].
      by rewrite (Has i pc Hi) in Ha.
  - assert (forallb is_exited (threads_ s) = true); [|congruence].
    apply forallb_forall. intros pc Hin%list_elem_of_In. apply list_elem_of_lookup in Hin as [i Hi].
    destruct (Hw i pc Hi) as [->| ->]; [|done]. exfalso.
    by apply (inv_notified _ _ Hinv ltac:(by rewrite Ho) i).
Qed.

(** ** Every execution ends *)
Definition worker_weight (pc : worker_pc) : nat :=
  match pc with
  | WLock => 3 | WTest => 2 | WSleepy => 1 | WAsleep => 0
  | WRun _ => 9 | WFinished => 8 | WNotify => 7 | WExited => 0
  end.

Definition owner_weight (n : nat) (pc : owner_pc) : nat :=
  match pc with
  | OEnqueue rest => 13 * length rest + 3 * n + 8
  | ONotifyOne rest => 13 * length rest + 3 * n + 12
  | OLock => 3 * n + 7 | OTest => 3 * n + 6 | OSleepy => 3 * n + 5 | OAsleep => 3 * n + 4
  | ODestroy => 3 * n + 3 | ONotifyAll => 3 * n + 2 | OJoin => 1 | OEnd => 0
  end.

Definition pool_measure (s : ThreadPool) : nat :=
  sum_list_with worker_weight (threads_ s) + 8 * length (tasks_ s) +
  owner_weight (length (threads_ s)) (owner s) + (if terminated s then 0 else 1).

Lemma weight_insert (l : list worker_pc) i pc pc' :
  l !! i = Some pc ->
  sum_list_with worker_weight (<[i := pc']> l) + worker_weight pc =
  sum_list_with worker_weight l + worker_weight pc'.
Proof. intros (l1 & l2 & -> & ->)%threads_split. rewrite !sum_list_with_app. simpl. lia. Qed.

Lemma weight_wake_all (l : list worker_pc) :
  sum_list_with worker_weight (wake <$> l) <= sum_list_with worker_weight l + 3 * length l.
Proof. induction l as [|pc l IH]; cbn; [lia|]. destruct pc; cbn in *; lia. Qed.

Lemma notify_completion_weight s :
  owner_weight (length (threads_ s)) (owner (notify_completion s)) <=
  owner_weight (length (threads_ s)) (owner s) + 3.
Proof. unfold notify_completion. destruct (owner s) eqn:E; simpl; rewrite ?E; simpl; lia. Qed.

Lemma notify_completion_frame s :
  threads_ (notify_completion s) = threads_ s /\ tasks_ (notify_completion s) = tasks_ s /\
  terminated (notify_completion s) = terminated s.
Proof. unfold notify_completion. by destruct (owner s). Qed.

Lemma worker_step_measure i s s' :
  terminated s = false -> worker_step i s = Some s' -> pool_measure s' < pool_measure s.
Proof.
  intros Ht (pc & Hpc & Hs)%bind_Some. unfold pool_measure. rewrite Ht.
  pose proof (fun pc' => weight_insert _ _ _ pc' Hpc) as Hw.
  destruct pc; simpl in Hs; try done.
  - destruct (mutex_free s); simplify_eq. simpl. rewrite length_insert, Ht. specialize (Hw WTest). simpl in Hw. lia.
  - destruct (tasks_ s) as [|t ts] eqn:Hts; [destruct (stop_ s)|]; simplify_eq; simpl;
      rewrite length_insert, Ht, ?Hts; simpl.
    + specialize (Hw WExited). simpl in Hw. lia.
    + specialize (Hw WSleepy). simpl in Hw. lia.
    + specialize (Hw (WRun t)). simpl in Hw. lia.
  - simplify_eq. simpl. rewrite length_insert, Ht. specialize (Hw WAsleep). simpl in Hw. lia.
  - destruct (throws t); simplify_eq; simpl; [lia|].
    rewrite length_insert, Ht. specialize (Hw WFinished). simpl in Hw. lia.
  - simplify_eq. simpl. rewrite length_insert, Ht. specialize (Hw WNotify). simpl in Hw. lia.
  - simplify_eq. destruct (notify_completion_frame (set_thread i WLock s)) as (-> & -> & ->).
    pose proof (notify_completion_weight (set_thread i WLock s)) as Hn. simpl in *.
    rewrite length_insert in *. rewrite Ht. specialize (Hw WLock). simpl in Hw. lia.
Qed.

Lemma owner_step_measure w s s' :
  terminated s = false -> owner_step w s = Some s' -> pool_measure s' < pool_measure s.
Proof.
  intros Ht. unfold owner_step, pool_measure. rewrite Ht.
  destruct (owner s) as [[|t rest]|rest| | | | | | | |] eqn:Ho; intros Hs; try done.
  - simplify_eq. simpl. rewrite Ht. lia.
  - destruct (mutex_free s); simplify_eq. simpl. rewrite Ht, length_app. simpl. lia.
  - destruct (existsb is_asleep (threads_ s)).
    + destruct (threads_ s !! w) as [[]|] eqn:Hw; simplify_eq. simpl. rewrite Ht, length_insert.
      pose proof (weight_insert _ _ _ WLock Hw) as Hi. simpl in Hi. lia.
    + simplify_eq. simpl. rewrite Ht. lia.
  - destruct (mutex_free s); simplify_eq. simpl. rewrite Ht. lia.
  - destruct (queue_empty s && (active_tasks_ s =? 0)); simplify_eq; simpl; rewrite Ht; lia.
  - simplify_eq. simpl. rewrite Ht. lia.
  - destruct (mutex_free s); simplify_eq. simpl. rewrite Ht. lia.
  - simplify_eq. simpl. rewrite Ht. pose proof (weight_wake_all (threads_ s)). lia.
  - destruct (forallb is_exited (threads_ s)); simplify_eq. simpl. rewrite Ht. lia.
Qed.

Lemma spurious_measure a s s' :
  is_spurious a = true -> pool_step a s = Some s' -> pool_measure s' <= pool_measure s + 3.
Proof.
  unfold pool_step, pool_measure. destruct (terminated s) eqn:Ht; [done|].
  destruct a as [w|i|i|]; try done; intros _; unfold spurious_worker, spurious_owner.
  - destruct (threads_ s !! i) as [[]|] eqn:Hpc; intros Hs; simplify_eq. simpl. rewrite Ht, length_insert.
    pose proof (weight_insert _ _ _ WLock Hpc) as Hw. simpl in Hw. lia.
  - destruct (owner s) eqn:Ho; intros Hs; simplify_eq. simpl. rewrite Ht. lia.
Qed.

Lemma pool_step_measure a s s' :
  is_spurious a = false -> pool_step a s = Some s' -> pool_measure s' < pool_measure s.
Proof.
  unfold pool_step. destruct (terminated s) eqn:Ht; [done|].
  destruct a; try done; intros _; [by apply owner_step_measure|by apply worker_step_measure].
Qed.

Lemma pool_run_measure schedule s s' :
  pool_run schedule s = Some s' -> length schedule + pool_measure s' <= pool_measure s + 4 * spurious schedule.
Proof.
  unfold spurious. revert s. induction schedule as [|a schedule IH]; intros s; cbn [pool_run length]; [intros [= <-]; simpl; lia|].
  intros (s1 & H1 & H2%IH)%bind_Some. rewrite filter_cons. destruct (decide (is_spurious a = true)) as [Ha|Ha].
  - pose proof (spurious_measure a s s1 Ha H1). cbn [length]. lia.
  - apply not_true_is_false in Ha. pose proof (pool_step_measure a s s1 Ha H1). lia.
Qed.

Lemma new_pool_measure n script : pool_measure (new_pool n script) = 6 * n + 13 * length script + 9.
Proof.
  unfold pool_measure. simpl. rewrite length_replicate.
  assert (sum_list_with worker_weight (replicate n (WLock : worker_pc)) = 3 * n) as ->; [|lia].
  induction n as [|n IH]; simpl; lia.
Qed.

(** A task that throws is the only way to terminate the program. *)
Definition ended_by_throw (s : ThreadPool) : Prop :=
  terminated s = true -> exists t, t ∈ started s /\ throws t = true.

Lemma worker_step_terminated script i s s' :
  pool_inv script s -> terminated s = false -> worker_step i s = Some s' -> ended_by_throw s'.
Proof.
  intros Hinv Ht (pc & Hpc & Hs)%bind_Some Hte.
  assert (forall t, pc = WRun t -> t ∈ started s) as Hrun.
  { intros t ->. rewrite <- (inv_finished _ _ Hinv). apply elem_of_app. right. apply list_elem_of_omap.
    exists (WRun t). split; [|done]. by eapply list_elem_of_lookup_2. }
  unfold notify_completion in Hs.
  destruct pc; repeat first [case_match | simplify_option_eq]; simpl in *; try congruence.
  eauto.
Qed.

Lemma pool_run_terminated script schedule s s' :
  pool_inv script s -> ended_by_throw s -> pool_run schedule s = Some s' -> ended_by_throw s'.
Proof.
  intros Hinv Ht. revert s Hinv Ht. induction schedule as [|a schedule IH]; intros s Hinv Ht; simpl.
  { by intros [= <-]. }
  intros (s1 & H1 & H2)%bind_Some. apply (IH s1); [by eapply pool_step_inv| |done].
  clear IH H2. unfold pool_step in H1. destruct (terminated s) eqn:Hs; [done|]. destruct a as [w|i|i|].
  - intros Hte. unfold owner_step in H1. repeat first [case_match | simplify_option_eq]; simpl in *; congruence.
  - by eapply worker_step_terminated.
  - intros Hte. unfold spurious_worker in H1. repeat first [case_match | simplify_option_eq]; simpl in *; congruence.
  - intros Hte. unfold spurious_owner in H1. repeat first [case_match | simplify_option_eq]; simpl in *; congruence.
Qed.

(** Without workers nothing is ever started. *)
Lemma no_workers_start schedule s s' :
  threads_ s = [] -> pool_run schedule s = Some s' -> started s' = started s.
Proof.
  revert s. induction schedule as [|a schedule IH]; intros s Hl; simpl; [by intros [= <-]|].
  intros (s1 & H1 & H2)%bind_Some. assert (threads_ s1 = []) as Hl1.
  { apply nil_length_inv. by rewrite (threads_length_step _ _ _ H1), Hl. }
  rewrite (IH s1 Hl1 H2). clear IH H2. unfold pool_step in H1. destruct (terminated s); [done|].
  destruct a as [w|i|i|].
  - unfold owner_step in H1. repeat first [case_match | simplify_option_eq]; done.
  - unfold worker_step in H1. by rewrite Hl in H1.
  - unfold spurious_worker in H1. by rewrite Hl in H1.
  - unfold spurious_owner in H1. repeat first [case_match | simplify_option_eq]; done.
Qed.

End Invariant.
