(* ===== verification/ThreadPoolProps.v ===== *)
(** * The thread pool: properties

    [wait_all] returns only when every task has run; every interleaving is finite but for
    spurious wake-ups, and its four ends are classified; one of them, a lost wake-up of the
    owner, is reached with any number of workers. *)
From Stdlib Require Import ZArith Lia.
From stdpp Require Import base tactics list numbers.
From S2P Require Import Prelude ThreadPool ThreadPoolInv.
Open Scope nat_scope.

Section Properties.
Context {T : Type} (throws : T -> bool).
#[local] Abbreviation pool_step := (pool_step throws).
#[local] Abbreviation pool_run := (pool_run throws).
#[local] Abbreviation stuck := (stuck throws).
Implicit Types (s : ThreadPool T).

(** C14: [wait_all] means what it says: in every interleaving, spurious wake-ups included,
    when it has returned, every
    enqueued task has been run exactly once and no worker is running one; and at any
    moment tasks have been started in the order they were enqueued, and finished only
    after they were started. *)
Theorem wait_all_returns_done num_threads script schedule s :
  pool_run schedule (new_pool num_threads script) = Some s ->
  started s `prefix_of` script /\ finished s ⊆+ started s /\
  (past_wait (owner s) = true ->
   finished s ≡ₚ script /\ tasks_ s = [] /\ forall i t, threads_ s !! i <> Some (WRun t)).
Proof.
  intros Hinv%pool_run_reachable. split_and!.
  - exists (tasks_ s ++ still_to_enqueue (owner s)). by rewrite (inv_fifo _ _ Hinv).
  - rewrite <- (inv_finished _ _ Hinv). by apply submseteq_inserts_r.
  - intros Hp. destruct (past_wait_done _ _ Hinv Hp) as [_ Hf]. destruct (inv_past_wait _ _ Hinv Hp) as [Ht Ha].
    split_and!; try done. intros i t Hi.
    pose proof (running_positive _ _ _ Hi eq_refl). rewrite (inv_active _ _ Hinv) in Ha. lia.
Qed.

(** C33: every interleaving of the pool is finite but for its spurious wake-ups: it has a
    bounded number of steps, each spurious wake-up allowing four more.  A pool that
    can only go on by a spurious wake-up is in one of four states: the program was
    terminated by a task that threw; the pool was destroyed after every task ran; the owner
    sleeps in [wait_all] although every task was run and every worker waits for new ones;
    or the owner sleeps because there is no worker, and no task was ever started. *)
Theorem pool_ends num_threads script schedule s :
  pool_run schedule (new_pool num_threads script) = Some s ->
  length schedule <= 6 * num_threads + 13 * length script + 9 + 4 * spurious schedule /\
  (stuck s ->
   (terminated s = true /\ exists t, t ∈ started s /\ throws t = true) \/
   (terminated s = false /\ owner s = OEnd /\ finished s ≡ₚ script) \/
   (terminated s = false /\ owner s = OAsleep /\ 0 < num_threads /\
      finished s ≡ₚ script /\ tasks_ s = [] /\ active_tasks_ s = 0 /\
      forall i pc, threads_ s !! i = Some pc -> pc = WAsleep) \/
   (terminated s = false /\ owner s = OAsleep /\ num_threads = 0 /\ tasks_ s = script /\ finished s = [])).
Proof.
  intros Hrun. split.
  { apply pool_run_measure in Hrun. rewrite new_pool_measure in Hrun. lia. }
  intros Hst. pose proof (pool_run_reachable _ _ _ _ _ Hrun) as Hinv.
  assert (holder_in_range s) as Hr by (eapply pool_run_in_range; [|done]; done).
  assert (ended_by_throw throws s) as Hte by (eapply pool_run_terminated, Hrun; [apply new_pool_inv|done]).
  destruct (terminated s) eqn:Ht; [left; by split; [|apply Hte]|right].
  destruct (stuck_cases _ _ _ Hinv Hr Hst Ht) as [Ho|(Ho & Hall & Hf & Hd & Ha & Hts)].
  { left. split_and!; [done..|]. apply (past_wait_done _ _ Hinv). by rewrite Ho. }
  right. pose proof (pool_run_length _ _ _ _ Hrun) as Hl. simpl in Hl. rewrite length_replicate in Hl.
  destruct num_threads as [|n].
  - right. apply nil_length_inv in Hl. assert (started s = []) as Es by exact (no_workers_start throws schedule (new_pool 0 script) s eq_refl Hrun).
    rewrite Es in Hf, Hd. split_and!; try done. by apply Permutation_nil_r in Hd.
  - left. assert (tasks_ s = []) as Et by (apply Hts; intros E; by rewrite E in Hl).
    rewrite Et, app_nil_r in Hf. subst script. split_and!; try done. lia.
Qed.

(** ** The lost wake-up

    The worker decrements [active_tasks_] and notifies without the mutex, so both can
    fall between the owner's test and its going to sleep. *)
Definition three_steps (i : nat) : list action := [Worker i; Worker i; Worker i].

Definition lost_wakeup_schedule (num_threads : nat) : list action :=
  [Owner 0; Owner 0;                     (* push the task; notify: nobody sleeps *)
   Worker 0; Worker 0;                   (* take it: [active_tasks_] is 1 *)
   Owner 0; Owner 0; Owner 0;            (* [wait_all]: lock, the predicate is false *)
   Worker 0; Worker 0; Worker 0;         (* run, [--active_tasks_], [notify_all]: nobody sleeps *)
   Owner 0]                              (* the owner goes to sleep *)
  ++ concat (three_steps <$> seq 0 num_threads).

Lemma workers_fall_asleep m k s :
  threads_ s = replicate k WAsleep ++ replicate m WLock -> queue_mutex_ s = None -> tasks_ s = [] ->
  stop_ s = false -> terminated s = false ->
  pool_run (concat (three_steps <$> seq k m)) s = Some (set_threads (replicate (k + m) WAsleep) s).
Proof.
  revert k s. induction m as [|m IH]; intros k s Hl Hm Ht Hs Hte.
  - simpl. f_equal. destruct s; simpl in *. subst. by rewrite Nat.add_0_r, app_nil_r.
  - destruct s as [l o mu ts st ac te sa fi]. simpl in Hl, Hm, Ht, Hs, Hte. subst.
    assert (forall pc pc' : worker_pc T, <[k := pc']> (replicate k WAsleep ++ pc :: replicate m WLock) =
      replicate k WAsleep ++ pc' :: replicate m WLock) as Hins.
    { intros pc pc'. rewrite insert_app_r_alt by (rewrite length_replicate; lia).
      by rewrite length_replicate, Nat.sub_diag. }
    assert (forall pc : worker_pc T, (replicate k WAsleep ++ pc :: replicate m WLock) !! k = Some pc) as Hlk.
    { intros pc. rewrite lookup_app_r by (rewrite length_replicate; lia).
      by rewrite length_replicate, Nat.sub_diag. }
    cbn [seq fmap list_fmap concat app three_steps pool_run replicate].
    cbv [pool_step worker_step mutex_free set_thread set_queue_mutex
      threads_ owner queue_mutex_ tasks_ stop_ active_tasks_ terminated started finished].
    rewrite Hlk. cbn [mbind option_bind]. rewrite Hins, Hlk. cbn [mbind option_bind].
    rewrite Hins, Hlk. cbn [mbind option_bind]. rewrite Hins.
    rewrite (IH (S k)); try done.
    + by rewrite Nat.add_succ_r.
    + cbn [threads_]. rewrite replicate_S, replicate_cons_app. by rewrite <- app_assoc.
Qed.

Lemma asleep_stuck n s :
  threads_ s = replicate n WAsleep -> owner s = OAsleep -> stuck s.
Proof.
  intros Hl Ho a Ha. unfold pool_step. destruct (terminated s); [done|].
  destruct a as [w|i|i|]; try done; [unfold owner_step; by rewrite Ho|]. unfold worker_step. rewrite Hl.
  destruct (replicate n WAsleep !! i) as [pc|] eqn:Hi; [|done].
  by apply lookup_replicate in Hi as [-> _].
Qed.

Lemma existsb_replicate_awake n : existsb is_asleep (replicate n (WLock : worker_pc T)) = false.
Proof. by induction n. Qed.

Lemma pool_run_app l1 l2 s : pool_run (l1 ++ l2) s = pool_run l1 s ≫= pool_run l2.
Proof.
  revert s. induction l1 as [|a l1 IH]; intros s; simpl; [done|].
  destruct (pool_step a s); simpl; [apply IH|done].
Qed.

(** C34: the third end of [pool_ends] does occur, with any number of workers and as little
    as one task: the notification of its completion is sent before the owner sleeps, and
    nothing wakes the owner again. *)
Theorem lost_wakeup_reachable num_threads t :
  0 < num_threads -> throws t = false ->
  exists s, pool_run (lost_wakeup_schedule num_threads) (new_pool num_threads [t]) = Some s /\
    stuck s /\ owner s = OAsleep /\ tasks_ s = [] /\ active_tasks_ s = 0 /\ finished s = [t].
Proof.
  intros Hn Ht. destruct num_threads as [|n]; [lia|].
  assert (pool_run [Owner 0; Owner 0] (new_pool (S n) [t]) =
    Some (mkThreadPool (replicate (S n) WLock) (OEnqueue []) None [t] false 0 false [] [])) as H1.
  { simpl. unfold pool_step, owner_step. cbn [terminated owner set_owner set_tasks].
    simpl. by rewrite existsb_replicate_awake. }
  assert (pool_run [Worker 0; Worker 0; Owner 0; Owner 0; Owner 0; Worker 0; Worker 0; Worker 0; Owner 0]
      (mkThreadPool (replicate (S n) WLock) (OEnqueue []) None [t] false 0 false [] []) =
    Some (mkThreadPool (replicate (S n) WLock) OAsleep None [] false 0 false [t] [t])) as H2.
  { simpl. unfold pool_step, worker_step. simpl. rewrite Ht. done. }
  eexists. split.
  - unfold lost_wakeup_schedule. rewrite pool_run_app.
    rewrite (pool_run_app [Owner 0; Owner 0] [Worker 0; Worker 0; Owner 0; Owner 0; Owner 0; Worker 0; Worker 0; Worker 0; Owner 0]).
    rewrite H1. cbn [mbind option_bind]. rewrite H2. by apply (workers_fall_asleep (S n) 0).
  - split; [|done]. by eapply (asleep_stuck (S n)).
Qed.
End Properties.

(** One worker, two tasks, no interference: the owner waits, is woken, and destroys the
    pool. *)
Definition demo_schedule : list action :=
  [Owner 0; Owner 0; Owner 0; Owner 0; Worker 0; Worker 0; Owner 0; Owner 0; Owner 0; Owner 0;
   Worker 0; Worker 0; Worker 0; Worker 0; Worker 0; Worker 0; Worker 0; Worker 0;
   Owner 0; Owner 0; Owner 0; Owner 0; Worker 0; Worker 0; Owner 0].

Definition demo_end : ThreadPool nat :=
  mkThreadPool [WExited] OEnd None [] true 0 false [7; 8] [7; 8].

(** The same run with any two tasks. *)
Lemma two_tasks_run {T : Type} (a b : T) :
  pool_run (fun _ => false) demo_schedule (new_pool 1 [a; b]) =
  Some (mkThreadPool [WExited] OEnd None [] true 0 false [a; b] [a; b]).
Proof. reflexivity. Qed.

Lemma wait_all_returns_done_witness :
  pool_run (fun _ => false) demo_schedule (new_pool 1 [7; 8]) = Some demo_end /\ past_wait (owner demo_end) = true /\ finished demo_end ≡ₚ [7; 8].
Proof.
  assert (pool_run (fun _ => false) demo_schedule (new_pool 1 [7; 8]) = Some demo_end) as H by (vm_compute; reflexivity).
  split; [exact H|]. split; [reflexivity|].
  apply (wait_all_returns_done (fun _ => false) 1 [7; 8] demo_schedule demo_end H). reflexivity.
Defined.

(** Without a worker the owner sleeps with its task queued. *)
Definition demo_no_worker : ThreadPool nat := mkThreadPool [] OAsleep None [7] false 0 false [] [].

Lemma pool_ends_witness :
  (pool_run (fun _ => false) demo_schedule (new_pool 1 [7; 8]) = Some demo_end /\ length demo_schedule <= 41 /\
     finished demo_end ≡ₚ [7; 8]) /\
  (pool_run (fun _ => false) [Owner 0; Owner 0; Owner 0; Owner 0; Owner 0; Owner 0] (new_pool 0 [7]) = Some demo_no_worker /\
     tasks_ demo_no_worker = [7]).
Proof.
  split.
  - assert (pool_run (fun _ => false) demo_schedule (new_pool 1 [7; 8]) = Some demo_end) as H by (vm_compute; reflexivity).
    assert (stuck (fun _ => false) demo_end) as Hst.
    { intros [w|i|i|] Ha; try discriminate Ha; [reflexivity|]. destruct i as [|i]; reflexivity. }
    split; [exact H|]. destruct (pool_ends (fun _ => false) 1 [7; 8] demo_schedule demo_end H) as [Hl He].
    split; [exact Hl|]. destruct (He Hst) as [[? _]|[(_ & _ & Hf)|[(_ & ? & _)|(_ & ? & _)]]]; [discriminate|exact Hf|discriminate..].
  - assert (pool_run (fun _ => false) [Owner 0; Owner 0; Owner 0; Owner 0; Owner 0; Owner 0] (new_pool 0 [7])
      = Some demo_no_worker) as H by (vm_compute; reflexivity).
    split; [exact H|]. destruct (pool_ends (fun _ => false) 0 [7] _ demo_no_worker H) as [_ He].
    destruct He as [[? _]|[(_ & ? & _)|[(_ & _ & Hn & _)|(_ & _ & _ & Ht & _)]]];
      [intros [w|i|i|] Ha; try discriminate Ha; reflexivity|discriminate..|inversion Hn|exact Ht].
Defined.

Lemma lost_wakeup_reachable_witness :
  exists s, pool_run (fun _ => false) (lost_wakeup_schedule 2) (new_pool 2 [7]) = Some s /\
    stuck (fun _ => false) s /\ owner s = OAsleep.
Proof.
  destruct (lost_wakeup_reachable (fun _ => false) 2 7 ltac:(lia) eq_refl) as (s & H1 & H2 & H3 & _).
  exists s. split_and!; assumption.
Defined.
