(* ===== verification/Forge.v ===== *)
(** * [src/forge/forge_engine/forge.cpp], [src/forge/stores/report_store.cpp] and
      [src/simulators/monte_carlo/monte_carlo_engine.cpp]

    The engine's collaborators (data provider, HTTP client factory, renderer, plugin
    manager) are opaque here: what the builder does with them is to store them and to
    ask whether they are there. *)
From Stdlib Require Import ZArith Lia.
From stdpp Require Import base tactics list gmap strings.
From S2P Require Import Prelude Double StockApi Models DataStore Engine.
Open Scope Z_scope.

(** ** Monte Carlo: a placeholder in the source *)
Record MonteCarloReport : Type := mkMonteCarloReport {
  MonteCarloReport_some_value_ : string;
  MonteCarloReport_another_value_ : string
}.

(** The engine keeps the plugin and the data store it is given and reads neither. *)
Record MonteCarloEngine : Type := mkMonteCarloEngine { mc_report_ : MonteCarloReport }.

Definition new_monte_carlo_engine : MonteCarloEngine := mkMonteCarloEngine (mkMonteCarloReport "" "").

Definition MonteCarloEngine_run (e : MonteCarloEngine) : MonteCarloEngine :=
  mkMonteCarloEngine (mkMonteCarloReport "some_value" "another_value").

Definition MonteCarloEngine_get_report (e : MonteCarloEngine) : MonteCarloReport := mc_report_ e.

(** ** Reports *)
Record ReportStore : Type := mkReportStore {
  back_test_reports_ : gmap string BackTestReport;
  monte_carlo_reports_ : gmap string MonteCarloReport
}.

Definition store_back_test_report (plugin_name : string) (report : BackTestReport) (s : ReportStore) : ReportStore :=
  mkReportStore (<[plugin_name := report]> (back_test_reports_ s)) (monte_carlo_reports_ s).

Definition store_monte_carlo_report (plugin_name : string) (report : MonteCarloReport) (s : ReportStore)
  : ReportStore :=
  mkReportStore (back_test_reports_ s) (<[plugin_name := report]> (monte_carlo_reports_ s)).

Definition get_back_test_reports `{StdContainers} (s : ReportStore) : list BackTestReport :=
  snd <$> hash_order (back_test_reports_ s).

Definition get_monte_carlo_reports `{StdContainers} (s : ReportStore) : list MonteCarloReport :=
  snd <$> hash_order (monte_carlo_reports_ s).

(** ** The builder *)
Record ThreadPoolOptions : Type := mkThreadPoolOptions {
  io_threads_ : Z;
  compute_threads_ : Z
}.

Section Builder.
(** The collaborators; a null pointer or an empty [std::function] is [None]. *)
Context {Provider ClientFactory Renderer : Type}.

Record ForgeEngine : Type := mkForgeEngine {
  thread_pool_options_ : ThreadPoolOptions;
  engine_plugin_names : option (list string);
  engine_data_store : option DataStore;
  engine_report_store : option ReportStore;
  renderer_ : option Renderer;
  engine_data_provider_ : option Provider;
  http_client_factory_ : option ClientFactory
}.

Record ForgeEngineBuilder : Type := mkForgeEngineBuilder {
  forge_engine_ : ForgeEngine;
  builder_data_provider_ : option Provider;
  plugin_names_ : list string
}.

Definition new_builder : ForgeEngineBuilder :=
  mkForgeEngineBuilder (mkForgeEngine (mkThreadPoolOptions 2 2) None None None None None None) None [].

(** The setters and getters of the engine; a [std::unique_ptr] is handed over. *)
Definition set_data_store (store : option DataStore) (e : ForgeEngine) : ForgeEngine :=
  mkForgeEngine (thread_pool_options_ e) (engine_plugin_names e) store (engine_report_store e) (renderer_ e) (engine_data_provider_ e) (http_client_factory_ e).
Definition set_report_store (store : option ReportStore) (e : ForgeEngine) : ForgeEngine :=
  mkForgeEngine (thread_pool_options_ e) (engine_plugin_names e) (engine_data_store e) store (renderer_ e) (engine_data_provider_ e) (http_client_factory_ e).
Definition set_plugin_manager (names : option (list string)) (e : ForgeEngine) : ForgeEngine :=
  mkForgeEngine (thread_pool_options_ e) names (engine_data_store e) (engine_report_store e) (renderer_ e) (engine_data_provider_ e) (http_client_factory_ e).
Definition set_thread_pools (options : ThreadPoolOptions) (e : ForgeEngine) : ForgeEngine :=
  mkForgeEngine options (engine_plugin_names e) (engine_data_store e) (engine_report_store e) (renderer_ e) (engine_data_provider_ e) (http_client_factory_ e).
Definition set_renderer (renderer : option Renderer) (e : ForgeEngine) : ForgeEngine :=
  mkForgeEngine (thread_pool_options_ e) (engine_plugin_names e) (engine_data_store e) (engine_report_store e) renderer (engine_data_provider_ e) (http_client_factory_ e).
Definition set_data_provider (provider : option Provider) (e : ForgeEngine) : ForgeEngine :=
  mkForgeEngine (thread_pool_options_ e) (engine_plugin_names e) (engine_data_store e) (engine_report_store e) (renderer_ e) provider (http_client_factory_ e).
Definition set_http_client_factory (factory : option ClientFactory) (e : ForgeEngine) : ForgeEngine :=
  mkForgeEngine (thread_pool_options_ e) (engine_plugin_names e) (engine_data_store e) (engine_report_store e) (renderer_ e) (engine_data_provider_ e) factory.
Definition get_http_client_factory (e : ForgeEngine) : option ClientFactory := http_client_factory_ e.
Definition get_thread_pool_options (e : ForgeEngine) : ThreadPoolOptions := thread_pool_options_ e.

Definition set_forge_engine (e : ForgeEngine) (b : ForgeEngineBuilder) : ForgeEngineBuilder :=
  mkForgeEngineBuilder e (builder_data_provider_ b) (plugin_names_ b).

(** [forge_engine_->set_data_provider(...)]: the engine's member, not the builder's. *)
Definition with_data_provider (provider : option Provider) (b : ForgeEngineBuilder) : ForgeEngineBuilder :=
  set_forge_engine (set_data_provider provider (forge_engine_ b)) b.

Definition with_http_client_factory (factory : option ClientFactory) (b : ForgeEngineBuilder) : ForgeEngineBuilder :=
  set_forge_engine (set_http_client_factory factory (forge_engine_ b)) b.

Definition with_plugin_names (names : list string) (b : ForgeEngineBuilder) : ForgeEngineBuilder :=
  mkForgeEngineBuilder (forge_engine_ b) (builder_data_provider_ b) names.

Definition with_thread_pools (options : ThreadPoolOptions) (b : ForgeEngineBuilder) : ForgeEngineBuilder :=
  set_forge_engine (set_thread_pools options (forge_engine_ b)) b.

Definition with_renderer (renderer : option Renderer) (b : ForgeEngineBuilder) : ForgeEngineBuilder :=
  set_forge_engine (set_renderer renderer (forge_engine_ b)) b.

Definition validate (b : ForgeEngineBuilder) : outcome ForgeEngineBuilder :=
  match builder_data_provider_ b with
  | None => Throw (runtime_error "Data provider is required")
  | Some _ =>
      match get_http_client_factory (forge_engine_ b) with
      | None => Throw (runtime_error "HTTP client is required")
      | Some _ =>
          match plugin_names_ b with
          | [] => Throw (runtime_error "Plugin names are required")
          | _ =>
              if io_threads_ (get_thread_pool_options (forge_engine_ b)) =? 0
              then Throw (runtime_error "IO threads are required")
              else if compute_threads_ (get_thread_pool_options (forge_engine_ b)) =? 0
              then Throw (runtime_error "Compute threads are required")
              else Ret b
          end
      end
  end.

Definition build (b : ForgeEngineBuilder) : ForgeEngine :=
  set_report_store (Some (mkReportStore ∅ ∅))
    (set_data_store (Some new_data_store)
      (set_plugin_manager (Some (plugin_names_ b)) (forge_engine_ b))).

(** One call on the builder. *)
Inductive builder_step : ForgeEngineBuilder -> ForgeEngineBuilder -> Prop :=
| step_provider p b : builder_step b (with_data_provider p b)
| step_factory f b : builder_step b (with_http_client_factory f b)
| step_names l b : builder_step b (with_plugin_names l b)
| step_pools o b : builder_step b (with_thread_pools o b)
| step_renderer r b : builder_step b (with_renderer r b)
| step_validate b b' : validate b = Ret b' -> builder_step b b'.

Lemma builder_never_has_provider b : rtc builder_step new_builder b -> builder_data_provider_ b = None.
Proof.
  intros Hr. assert (forall b1, rtc builder_step b1 b -> builder_data_provider_ b1 = None ->
    builder_data_provider_ b = None) as H; [|by apply (H new_builder)].
  clear. intros b1. induction 1 as [|b1 b2 b3 Hs _ IH]; [done|]. intros Hn. apply IH.
  destruct Hs; simpl; try done. unfold validate in *. by rewrite Hn in *.
Qed.

(** [validate] can never succeed: whatever sequence of builder calls precedes it,
    [with_data_provider] included, it throws "Data provider is required", because the
    provider is stored in the engine and the builder's own member stays null. *)
Theorem validate_always_throws b :
  rtc builder_step new_builder b -> validate b = Throw (runtime_error "Data provider is required").
Proof. intros Hr. unfold validate. by rewrite (builder_never_has_provider b Hr). Qed.
End Builder.

Arguments ForgeEngine : clear implicits.
Arguments ForgeEngineBuilder : clear implicits.

(** The calls of [main]. *)
Definition main_builder : ForgeEngineBuilder unit unit unit :=
  with_renderer (Some tt) (with_plugin_names ["sma_native"; "sma_python"]
    (with_thread_pools (mkThreadPoolOptions 4 8) (with_data_provider (Some tt)
      (with_http_client_factory (Some tt) new_builder)))).

Lemma validate_always_throws_witness :
  validate main_builder = Throw (runtime_error "Data provider is required").
Proof.
  apply (validate_always_throws main_builder). unfold main_builder.
  eapply rtc_l; [apply step_factory|]. eapply rtc_l; [apply step_provider|].
  eapply rtc_l; [apply step_pools|]. eapply rtc_l; [apply step_names|].
  eapply rtc_l; [apply step_renderer|]. apply rtc_refl.
Defined.

(** ** One plugin's job of [ForgeEngine::run] *)
Definition run_plugin_job `{StdContainers} (create_uuid : nat -> string) (clock : nat -> Z) {P : Type}
    `{PluginLoader P} (fuel : nat) (ds : DataStore) (rs : ReportStore) (p : P) : outcome (ReportStore * P) :=
  let plugin_name := loader_get_plugin_name p in
  let* '(has_data, ds) := has_plugin_data plugin_name ds in
  if negb has_data then Throw (runtime_error "Plugin data not found, exiting simulation...")
  else
    let* '(back_test_engine, p) :=
      run create_uuid clock (fun name => let* '(bars, _) := get_iterable_plugin_data name ds in Ret bars) fuel
        (new_engine, p) in
    let rs := store_back_test_report plugin_name (get_report back_test_engine) rs in
    let monte_carlo_engine := MonteCarloEngine_run new_monte_carlo_engine in
    Ret (store_monte_carlo_report plugin_name (MonteCarloEngine_get_report monte_carlo_engine) rs, p).
