(* ===== verification/ForgeRun.v ===== *)
(** * [src/forge/forge_engine/forge.cpp] (running), [src/renderers/console_renderer.cpp],
      [src/http/client/curl_global.cpp] and [main.cpp]

    [AppWorld] is everything the engine owns: the plugin manager, the two stores, the HTTP
    side (disk, network, one client per job) and the console.  A thread pool runs its jobs
    in an order the scheduler chooses ([job_order]); [ThreadPool] has the pool itself.  An
    exception that leaves a job leaves the worker's thread, and the program is terminated:
    that is [JobTerminated], which no [catch] of [main] sees. *)
From Stdlib Require Import ZArith Lia Ascii String.
From stdpp Require Import base tactics list gmap strings.
From S2P Require Import Prelude Double CppString CppFormat Manifest Abi StockApi Models State DataStore Engine Effects HttpModel NetworkCache HttpInterfaces CurlEasy Json Polygon StringStore ManifestParser NativeLoader PythonLoader PluginManager Forge.
Open Scope string_scope.
Open Scope Z_scope.

Record InitializationOptions : Type := mkInitializationOptions {
  loader_ : string;
  root_path_ : string
}.

Section ForgeRun.
Context {M W : Type} `{DynamicLoader M, Python W, StringLayout, InvalidMemory, Json, PluginFiles, StdContainers}.
Context `{SystemCalls, LibCurl}.

Record AppWorld : Type := mkAppWorld {
  manager : PluginManager M W;
  data_store : DataStore;
  report_store : ReportStore;
  http : HttpWorld;
  console : list string
}.

Definition on_manager {A} (c : io (PluginManager M W) A) : io AppWorld A :=
  io_lift manager (fun m w => mkAppWorld m (data_store w) (report_store w) (http w) (console w)) c.
Definition on_http {A} (c : io HttpWorld A) : io AppWorld A :=
  io_lift http (fun h w => mkAppWorld (manager w) (data_store w) (report_store w) h (console w)) c.
Definition on_data_store {A} (c : DataStore -> outcome (A * DataStore)) : io AppWorld A := fun w =>
  match c (data_store w) with
  | Ret (a, ds) => (Ret a, mkAppWorld (manager w) ds (report_store w) (http w) (console w))
  | Throw e => (Throw e, w)
  | OutOfFuel => (OutOfFuel, w)
  end.
Definition print_line (s : string) : io AppWorld unit :=
  io_modify (fun w => mkAppWorld (manager w) (data_store w) (report_store w) (http w) (console w ++ [s])%list).

(** ** [ForgeEngine] *)
Definition initialize (options : InitializationOptions) : io AppWorld unit :=
  if String.eqb (loader_ options) "directory" then on_manager (load_plugins_from_dir (root_path_ options))
  else io_throw (runtime_error "Invalid loader type").

Definition fetch_args (symbol : Symbol) (hp : HostParams) : AggregateBarsArgs :=
  mkAggregateBarsArgs (Symbol_timespan_ symbol) (Symbol_symbol_ symbol) (backtest_start_datetime_ hp)
    (backtest_end_datetime_ hp) (Symbol_timespan_unit_ symbol).

(** A client of its own, one request, one store. *)
Definition fetch_job (provider : PolygonProvider) (policy : NetworkCachePolicy) (plugin_name : string) (hp : HostParams)
    (symbol : Symbol) : io AppWorld unit :=
  do! on_http (construct_curl_easy policy) in
  let! bars := on_http (custom_aggregate_bars provider (fetch_args symbol hp)) in
  do! on_data_store (store_bars_by_plugin_name plugin_name (Symbol_symbol_ symbol) bars) in
  on_http (on_client destroy_curl_easy).

Inductive JobsResult : Type :=
| JobsDone
| JobTerminated (e : exn).

(** The jobs of a pool, one after the other; a job that throws is the end. *)
Fixpoint run_jobs (jobs : list (io AppWorld unit)) : io AppWorld JobsResult := fun w =>
  match jobs with
  | [] => (Ret JobsDone, w)
  | job :: jobs =>
      match job w with
      | (Ret _, w) => run_jobs jobs w
      | (Throw e, w) => (Ret (JobTerminated e), w)
      | (OutOfFuel, w) => (OutOfFuel, w)
      end
  end.

(** The order in which the jobs of a pool take effect; [ThreadPool] says which there are. *)
Variable job_order : list (io AppWorld unit) -> list (io AppWorld unit).

Definition plugin_loaders (w : AppWorld) : list (AnyLoader M W) := snd <$> hash_order (plugin_map_by_name_ (manager w)).

(** The jobs [fetch_data] enqueues: one per plugin and symbol. *)
Definition fetch_jobs (provider : PolygonProvider) (policy : NetworkCachePolicy) (loaders : list (AnyLoader M W))
  : list (io AppWorld unit) :=
  concat ((fun l =>
    let hp := any_get_host_params l in
    fetch_job provider policy (any_get_plugin_name l) hp <$> symbols_ hp) <$> loaders).

Definition fetch_data (provider : PolygonProvider) (policy : NetworkCachePolicy) : io AppWorld JobsResult :=
  let! w := io_get in
  run_jobs (job_order (fetch_jobs provider policy (plugin_loaders w))).

Section Run.
Context (create_uuid : nat -> string) (clock : nat -> Z) (fuel : nat).

(** The back test and the Monte Carlo run of one plugin, which the job's loader keeps. *)
Definition run_job (l : AnyLoader M W) : io AppWorld unit := fun w =>
  let name := any_get_plugin_name l in
  let finish rs l' (pm : PluginManager M W) :=
    (Ret tt, mkAppWorld (set_plugin_map (<[name := l']> (plugin_map_by_name_ pm)) pm) (data_store w) rs (http w) (console w)) in
  match l with
  | ANative nl =>
      match run_plugin_job create_uuid clock fuel (data_store w) (report_store w)
              (mkLoaderWorld nl (native_memory (manager w)) (native_events (manager w))) with
      | Ret (rs, lw) => finish rs (ANative (native lw)) (snd (on_native nl (fun _ => (Ret tt, lw)) (manager w)))
      | Throw e => (Throw e, w)
      | OutOfFuel => (OutOfFuel, w)
      end
  | APython pl =>
      match run_plugin_job create_uuid clock fuel (data_store w) (report_store w)
              (mkPythonWorld pl (python_memory (manager w))) with
      | Ret (rs, pw) => finish rs (APython (py_loader pw)) (snd (on_python_loader pl (fun _ => (Ret tt, pw)) (manager w)))
      | Throw e => (Throw e, w)
      | OutOfFuel => (OutOfFuel, w)
      end
  end.

Definition forge_run : io AppWorld JobsResult :=
  let! w := io_get in
  run_jobs (job_order (run_job <$> plugin_loaders w)).

(** ** Renderers *)
Class IRenderer (R : Type) : Type := {
  render_back_test_report : R -> list BackTestReport -> io AppWorld unit;
  render_monte_carlo_report : R -> list MonteCarloReport -> io AppWorld unit
}.

Inductive ConsoleRenderer : Type := new_console_renderer.

Definition console_back_test_report (reports : list BackTestReport) : io AppWorld unit :=
  do! print_line "----- Back Test Reports ----- " in
  io_each (fun _ => print_line "TODO: Render back test report") reports.

Definition console_monte_carlo_report (reports : list MonteCarloReport) : io AppWorld unit :=
  do! print_line "----- Monte Carlo Reports ----- " in
  io_each (fun _ => print_line "TODO: Render monte carlo report") reports.

#[export] Instance console_renderer : IRenderer ConsoleRenderer := {|
  render_back_test_report := fun _ => console_back_test_report;
  render_monte_carlo_report := fun _ => console_monte_carlo_report
|}.

Definition report {R : Type} `{IRenderer R} (renderer : R) : io AppWorld unit :=
  let! w := io_get in
  do! render_back_test_report renderer (get_back_test_reports (report_store w)) in
  render_monte_carlo_report renderer (get_monte_carlo_reports (report_store w)).

(** ** [main] *)
Record Environment : Type := mkEnvironment {
  POLYGON_API_KEY : option string;
  hardware_concurrency : Z;
  curl_global_init_rc : Z
}.

Inductive ProgramEnd : Type :=
| Exit (code : Z)
| Terminate (e : exn).

(** The constructor of [CurlGlobal]. *)
Definition curl_global (rc : Z) : outcome unit :=
  if negb (rc =? CURLE_OK) then Throw (runtime_error "Failed to initialize libcurl") else Ret tt.

Definition main_engine_builder (env : Environment) (provider : PolygonProvider)
  : ForgeEngineBuilder PolygonProvider NetworkCachePolicy ConsoleRenderer :=
  with_renderer (Some new_console_renderer)
    (with_plugin_names ["sma_native"; "sma_python"]
      (with_thread_pools (mkThreadPoolOptions (hardware_concurrency env / 2) (hardware_concurrency env))
        (with_data_provider (Some provider)
          (with_http_client_factory (Some (mkNetworkCachePolicy true ONE_DAY_S)) new_builder)))).

(** The engine's phases after it was built; a null collaborator is never reached. *)
Definition main_phases (engine : ForgeEngine PolygonProvider NetworkCachePolicy ConsoleRenderer) : io AppWorld ProgramEnd :=
  do! initialize (mkInitializationOptions "directory" "plugins") in
  match engine_data_provider_ engine, http_client_factory_ engine, renderer_ engine with
  | Some provider, Some policy, Some renderer =>
      let! fetched := fetch_data provider policy in
      match fetched with
      | JobTerminated e => io_ret (Terminate e)
      | JobsDone =>
          let! ran := forge_run in
          match ran with
          | JobTerminated e => io_ret (Terminate e)
          | JobsDone => do! report renderer in io_ret (Exit 0)
          end
      end
  | _, _, _ => io_throw (foreign_error "std" "bad_function_call")
  end.

(** [std::string key = std::getenv(...)]: a null pointer throws. *)
Definition main_body (env : Environment) : io AppWorld ProgramEnd :=
  let! polygon_api_key := io_of (match POLYGON_API_KEY env with
                                 | Some key => Ret key
                                 | None => Throw (logic_error "basic_string: construction from null is not valid")
                                 end) in
  if String.eqb polygon_api_key "" then do! print_line "POLYGON_API_KEY not set" in io_ret (Exit 1)
  else
    do! io_of (curl_global (curl_global_init_rc env)) in
    let! builder := io_of (validate (main_engine_builder env (new_polygon_provider polygon_api_key))) in
    main_phases (build builder).

Definition main (env : Environment) : io AppWorld ProgramEnd :=
  io_catch (main_body env) (fun e =>
    match e with
    | http_error _ url _ what =>
        do! print_line ("HTTP Error: " +:+ what +:+ " (URL: " +:+ url +:+ ")") in io_ret (Exit 2)
    | e => do! print_line ("Fatal Error: " +:+ exn_what e) in io_ret (Exit 1)
    end).
End Run.
End ForgeRun.
