(* ===== verification/ForgeProps.v ===== *)
(** * The engine and the program: properties *)
From Stdlib Require Import ZArith Lia Ascii String.
From stdpp Require Import base tactics list gmap strings.
From S2P Require Import Prelude ThreadPool ThreadPoolInv Double CppString CppFormat Manifest Abi StockApi Models State DataStore Engine Effects HttpModel NetworkCache HttpInterfaces CurlEasy Json Polygon StringStore ManifestParser NativeLoader PythonLoader PluginManager Forge ForgeRun.
Open Scope string_scope.
Open Scope Z_scope.

Section ForgeProps.
Context {M W : Type} `{DynamicLoader M, Python W, StringLayout, InvalidMemory, Json, PluginFiles, StdContainers}.
Context `{SystemCalls, LibCurl}.



(** ** Fetching *)

(** One job: its plugin, that plugin's parameters and the symbol. *)
Definition Job : Type := (string * HostParams * Symbol)%type.

Definition jobs_of (loaders : list (AnyLoader M W)) : list Job :=
  concat ((fun l => pair (any_get_plugin_name l, any_get_host_params l) <$> symbols_ (any_get_host_params l)) <$> loaders).

Definition job_io (provider : PolygonProvider) (policy : NetworkCachePolicy) (j : Job) : io (AppWorld (M := M) (W := W)) unit :=
  let '(name, hp, symbol) := j in fetch_job provider policy name hp symbol.

Definition job_key (j : Job) : string * string := (fst (fst j), Symbol_symbol_ (snd j)).
Definition job_args (j : Job) : AggregateBarsArgs := fetch_args (snd j) (snd (fst j)).

Lemma fetch_jobs_of provider policy loaders :
  fetch_jobs provider policy loaders = job_io provider policy <$> jobs_of loaders.
Proof.
  unfold fetch_jobs, jobs_of. induction loaders as [|l loaders IH]; [done|].
  rewrite !fmap_cons. cbn [concat]. rewrite fmap_app, IH. f_equal. by rewrite <- list_fmap_compose.
Qed.

(** The bars stored for a plugin and a symbol. *)
Definition stored_bars (ds : DataStore) (key : string * string) : option AggregateBars :=
  m ← bars_ ds !! fst key; m !! snd key.

Lemma store_bars_stored name symbol bars ds :
  mutex_held ds = false ->
  exists ds', store_bars_by_plugin_name name symbol bars ds = Ret (tt, ds') /\ mutex_held ds' = false /\
    forall key, stored_bars ds' key = if decide (key = (name, symbol)) then Some bars else stored_bars ds key.
Proof.
  intros Hm. unfold store_bars_by_plugin_name, with_lock. rewrite Hm. cbn.
  eexists. split; [reflexivity|]. split; [done|]. intros [n s]. unfold stored_bars. cbn.
  destruct (decide (n = name)) as [->|Hn].
  - rewrite lookup_insert_eq. cbn. destruct (decide (s = symbol)) as [->|Hs].
    + by rewrite lookup_insert_eq, decide_True.
    + rewrite lookup_insert_ne by done. rewrite decide_False by congruence. by destruct (bars_ ds !! name).
  - rewrite lookup_insert_ne by done. by rewrite decide_False by congruence.
Qed.

Section Fetch.
Context (provider : PolygonProvider) (policy : NetworkCachePolicy).

(** What a job asks its client for: a client of its own, one request, and its release. *)
Definition job_request (j : Job) : io HttpWorld AggregateBars :=
  do! construct_curl_easy policy in
  let! bars := custom_aggregate_bars provider (job_args j) in
  do! on_client destroy_curl_easy in io_ret bars.

(** The requests of some jobs, one after the other: each meets the files of the cache and
    the server as the ones before it left them. *)
Fixpoint ask_jobs (js : list Job) : io HttpWorld (list AggregateBars) :=
  match js with
  | [] => io_ret []
  | j :: js => let! bars := job_request j in let! rest := ask_jobs js in io_ret (bars :: rest)
  end.

(** The answer of the last of these jobs that stores under a key. *)
Fixpoint last_answer (key : string * string) (js : list Job) (answers : list AggregateBars) : option AggregateBars :=
  match js, answers with
  | j :: js, bars :: answers =>
      match last_answer key js answers with
      | Some later => Some later
      | None => if decide (key = job_key j) then Some bars else None
      end
  | _, _ => None
  end.

Definition store_after (ds : DataStore) (js : list Job) (answers : list AggregateBars) (key : string * string) : option AggregateBars :=
  match last_answer key js answers with Some bars => Some bars | None => stored_bars ds key end.

Lemma job_stores j w bars h :
  job_request j (http w) = (Ret bars, h) -> mutex_held (data_store w) = false ->
  exists w', job_io provider policy j w = (Ret tt, w') /\ http w' = h /\ mutex_held (data_store w') = false /\
    forall key, stored_bars (data_store w') key =
      if decide (key = job_key j) then Some bars else stored_bars (data_store w) key.
Proof.
  destruct j as [[name hp] symbol]. unfold job_request, job_args, job_key. cbn [fst snd job_io]. intros Ha Hm.
  unfold fetch_job. unfold io_bind at 1, on_http at 1, io_lift at 1. unfold io_bind at 1 in Ha.
  destruct (construct_curl_easy policy (http w)) as [[u|e|] h1]; [|done|done].
  unfold io_bind at 1, on_http at 1, io_lift at 1. cbn [http]. unfold io_bind at 1 in Ha.
  destruct (custom_aggregate_bars provider (fetch_args symbol hp) h1) as [[got|e|] h2]; [|done|done].
  injection Ha as <- <-. unfold io_bind at 1, on_data_store at 1. cbn [data_store].
  destruct (store_bars_stored name (Symbol_symbol_ symbol) got (data_store w) Hm) as (ds' & Hs & Hm' & Hspec).
  rewrite Hs. eexists. split; [reflexivity|]. by split_and!.
Qed.

Lemma run_jobs_store js w answers h :
  ask_jobs js (http w) = (Ret answers, h) -> mutex_held (data_store w) = false ->
  exists w', run_jobs (job_io provider policy <$> js) w = (Ret JobsDone, w') /\ http w' = h /\
    forall key, stored_bars (data_store w') key = store_after (data_store w) js answers key.
Proof.
  revert w answers h. induction js as [|j js IH]; intros w answers h; cbn [ask_jobs].
  { intros [= <- <-] _. by exists w. }
  intros Ha Hm. apply io_bind_ret in Ha as (bars & h1 & Hj & Ha). apply io_bind_ret in Ha as (rest & h2 & Hjs & [= <- <-]).
  destruct (job_stores j w bars h1 Hj Hm) as (w1 & Hr & Hh1 & Hm1 & Hs1).
  destruct (IH w1 rest h2) as (w2 & Hr2 & Hh2 & Hs2); [by rewrite Hh1|done|].
  exists w2. cbn [fmap list_fmap run_jobs]. rewrite Hr. split_and!; [done|done|]. intros key.
  rewrite Hs2. unfold store_after. cbn [last_answer]. rewrite Hs1. by repeat case_match.
Qed.
End Fetch.

(** C24: however many threads the pool has and however they interleave, when [wait_all] has
    returned every symbol of every plugin has been fetched once, and what [fetch_data]
    leaves follows from the order in which the jobs ended: when each job's request - made
    in that order, each on the cache and the server as the earlier ones left them - is
    answered, the bars stored under a plugin and a symbol are those of the last job for
    that plugin and symbol, and the store holds what it held under every other key.

    A job is taken as one step.  Requests that overlap and store the same cache entry are
    a defect of their own, see [same_path_torn]. *)
Theorem fetch_stores_all num_threads schedule pool job_order provider policy w :
  let jobs := fetch_jobs provider policy (plugin_loaders w) in
  pool_run (fun _ => false) schedule (new_pool num_threads jobs) = Some pool -> past_wait (owner pool) = true ->
  job_order jobs = finished pool -> mutex_held (data_store w) = false ->
  exists js, js ≡ₚ jobs_of (plugin_loaders w) /\ finished pool = job_io provider policy <$> js /\
    forall answers h, ask_jobs provider policy js (http w) = (Ret answers, h) ->
    exists w', fetch_data job_order provider policy w = (Ret JobsDone, w') /\ http w' = h /\
      forall key, stored_bars (data_store w') key = store_after (data_store w) js answers key.
Proof.
  intros jobs Hpool Hwait Horder Hm.
  destruct (past_wait_done _ _ (pool_run_reachable _ _ _ _ _ Hpool) Hwait) as [_ Hp]. unfold jobs in Hp.
  rewrite fetch_jobs_of in Hp. apply Permutation_map_inv in Hp as (js & Hjs & Hp).
  change (map ?f js) with (f <$> js) in Hjs. exists js. split_and!; [by symmetry|done|].
  intros answers h Ha. unfold fetch_data, io_bind, io_get. fold jobs. rewrite Horder, Hjs.
  by apply run_jobs_store.
Qed.
End ForgeProps.
