(* ===== verification/PluginScenario.v ===== *)
(** * A Python, a dynamic loader and a directory to evaluate the plugin side on *)
From Stdlib Require Import ZArith Lia Ascii String.
From stdpp Require Import base tactics list gmap strings.
From S2P Require Import Prelude ThreadPool ThreadPoolInv ThreadPoolProps Double CppString CppFormat StringUtils Manifest Abi StockApi Models State AbiConverter DataStore Engine Effects HttpModel NetworkCache HttpInterfaces CacheProps CurlEasy Json Polygon HttpScenario StringStore ManifestParser ManifestProps ManifestScenario NativeLoader NativeProps PythonLoader PythonProps PluginManager ManagerProps ManagerRelease Forge ForgeRun ForgeProps.
Open Scope string_scope.
Open Scope Z_scope.

(** ** Python *)
Inductive Obj : Type :=
| OInt (z : Z)
| OFloat (d : double)
| OStr (s : string)
| OList (l : list Obj)
| ODict (d : list (string * Obj))
| OModule (name : string).

Fixpoint obj_member (d : list (string * Obj)) (key : string) : option Obj :=
  match d with
  | [] => None
  | (k, v) :: d => if String.eqb k key then Some v else obj_member d key
  end.

Definition type_error {A} : outcome A := Throw (foreign_error "pybind11" "TypeError").

(** One module, whose plugin buys ten shares on every bar. *)
Definition buy_dict : Obj := ODict [("symbol", OStr "AAPL"); ("action", OStr "BUY"); ("quantity", OFloat (d_of_Z 10))].
Definition buy_result : Obj := OList [OInt 0; OList [buy_dict]].

#[local] Instance small_python : Python unit := {|
  pyobj := Obj;
  py_initialize u := u;
  py_gil_acquire := io_ret tt;
  py_gil_release u := u;
  py_import name := if String.eqb name "sma_python.py" then io_ret (OModule name)
                    else io_throw (foreign_error "pybind11" "ModuleNotFoundError");
  py_attr o name := io_ret (OStr name);
  py_call f args := io_ret (match f with OStr "on_bar" => buy_result | OStr "on_end" => OStr "{}" | _ => OInt 0 end);
  cast_tuple o := match o with OList l => Ret l | _ => type_error end;
  cast_list o := match o with OList l => Ret l | _ => type_error end;
  cast_dict o := match o with ODict d => Ret (obj_member d) | _ => type_error end;
  cast_int o := match o with OInt z => Ret z | _ => type_error end;
  cast_int64 o := match o with OInt z => Ret z | _ => type_error end;
  cast_double o := match o with OFloat d => Ret d | OInt z => Ret (d_of_Z z) | _ => type_error end;
  cast_string o := match o with OStr s => Ret s | _ => type_error end;
  cast_enum z := Ret (PyInt z);
  wild_access A := Throw (foreign_error "signal" "SIGSEGV");
  unset_signal := mkCSignal "" "";
  unset_order := mkCOrder "" "" dzero dzero 0 0 0 ""
|}.

#[local] Instance junk_memory : InvalidMemory :=
  Build_InvalidMemory (fun _ => "?") (fun _ => []) (fun _ => []) (fun _ => []) (fun _ => []).

#[local] Existing Instance libstdcxx.

(** A plugin that has returned results before. *)
Definition used_plugin : PyPlugin := mkPyPlugin (OModule "m") [] (mkStringVector 3 4 [] 9).

Lemma python_instructions_read_witness :
  (to_plugin_result buy_result used_plugin).1 =
  Ret (mkPluginResult 0 None
         [wanted_instruction (WantOrder "AAPL" "BUY" "market" (d_of_Z 10) d_one INT64_MIN INT64_MIN INT64_MIN)]).
Proof.
  apply (python_instructions_read (H := small_python) buy_result used_plugin 0 [buy_dict]
    [WantOrder "AAPL" "BUY" "market" (d_of_Z 10) d_one INT64_MIN INT64_MIN INT64_MIN]).
  - reflexivity.
  - reflexivity.
  - vm_compute. lia.
Defined.

Lemma python_first_symbol_dangles_witness :
  exists msg c cs, (to_plugin_result buy_result (mkPyPlugin (OModule "m") [] empty_strings)).1 =
    Ret (mkPluginResult 0 msg (c :: cs)) /\ instruction_symbol c = "?".
Proof.
  apply (python_first_symbol_dangles (H := small_python) (H0 := junk_memory) buy_result (OModule "m") 0 [buy_dict]
    (WantOrder "AAPL" "BUY" "market" (d_of_Z 10) d_one INT64_MIN INT64_MIN INT64_MIN) []).
  - reflexivity.
  - reflexivity.
  - vm_compute. lia.
Defined.

Definition no_python_memory : PyMemory (W := unit) := mkPyMemory tt false ∅ 0.
Definition unloaded (m : PluginManifest) : PythonWorld := mkPythonWorld (mkPythonLoader m empty_export) no_python_memory.

(** The good manifest names the module that can be imported; the new one does not. *)
Lemma python_load_swallows_witness :
  exists w1, python_load_plugin (mkSimulatorContext 1) (unloaded new_manifest) = (Ret tt, w1) /\
    forall e, Ret tt <> Throw e.
Proof.
  destruct (python_load_plugin (mkSimulatorContext 1) (unloaded new_manifest)) as [x w1] eqn:E.
  destruct (python_load_swallows (H := small_python) (mkSimulatorContext 1) (unloaded new_manifest) x w1 E) as [Hx _].
  exists w1. assert (x = Ret tt) as -> by (apply (f_equal fst) in E; vm_compute in E; by symmetry).
  split; [reflexivity|exact Hx].
Defined.

(** ** Directories *)

(** Nothing can be opened. *)
#[local] Instance no_libraries : DynamicLoader unit :=
  Build_DynamicLoader unit (fun _ m => (inl "not found", m)) (fun _ _ => None) (fun _ m => m).

#[local] Instance one_manifest : Json :=
  tree_json (fun text => if String.eqb text "manifest" then SUCCESS good_manifest else simdjson_failure "EMPTY") (fun _ => "{}").

(** The root holds a file and the directory of the good manifest. *)
#[local] Instance plugin_root : PluginFiles :=
  Build_PluginFiles
    (fun root => Ret [mkDirectoryEntry false "plugins/README"; mkDirectoryEntry true "plugins/sma_python"])
    (fun path => if String.eqb path "plugins/sma_python/manifest.json"
                 then mkManifestFile true true (SUCCESS "manifest")
                 else mkManifestFile false false (simdjson_failure "IO_ERROR")).

Definition start_manager : PluginManager unit unit := new_plugin_manager ["sma_python"; "absent"] tt no_python_memory.

Lemma loaded_plugins_spec_witness :
  exists w', load_plugins_from_dir "plugins" start_manager = (Ret tt, w') /\
    is_Some (plugin_map_by_name_ w' !! "sma_python") /\ ~ is_Some (plugin_map_by_name_ w' !! "absent").
Proof.
  destruct (load_plugins_from_dir "plugins" start_manager) as [x w'] eqn:E.
  assert (x = Ret tt) as -> by (apply (f_equal fst) in E; vm_compute in E; by symmetry).
  destruct (loaded_plugins_spec "plugins" ["sma_python"; "absent"] tt no_python_memory w' E) as (dirs & Hd & _ & Hspec).
  exists w'. split; [reflexivity|]. injection Hd as <-. split.
  - apply Hspec. split; [by constructor|]. exists (mkDirectoryEntry true "plugins/sma_python").
    split; [by repeat constructor|]. split; [reflexivity|]. exists parsed_good.
    split; vm_compute; reflexivity.
  - intros [_ (dir & Hdir & Hdd & m & Hm & Hname)]%Hspec.
    apply elem_of_cons in Hdir as [->|Hdir]; [discriminate Hdd|]. apply list_elem_of_singleton in Hdir as ->.
    vm_compute in Hm. injection Hm as <-. discriminate Hname.
Defined.

(** ** A native plugin from its directory to its release *)
Definition native_manifest : JsonTree :=
  match good_manifest with
  | JObject members =>
      JObject ([("name", JString "sma_native"); ("kind", JString "native"); ("entry", JString "libSMA_native.so")] ++ members)%list
  | other => other
  end.

Definition native_json : Json := tree_json (fun text => SUCCESS native_manifest) (fun _ => "{}").

(** A library whose plugin does nothing; the memory counts what is alive. *)
Definition idle_export : PluginExport nat :=
  mkPluginExport 1 (Some 5%nat)
    (mkPluginVTable (Some (fun _ m => (m - 1)%nat)) None None None (Some (fun _ => io_ret (mkPluginResult 0 None [], None))) None).

Definition one_library : DynamicLoader nat :=
  Build_DynamicLoader nat (fun _ m => (inr 7%nat, m)) (fun _ _ => Some (fun _ m => (idle_export, (m + 1)%nat))) (fun _ m => m).

Definition native_root : PluginFiles :=
  Build_PluginFiles (fun root => Ret [mkDirectoryEntry true "plugins/sma_native"])
    (fun path => mkManifestFile true true (SUCCESS "manifest")).

(** A bar the plugin has no function for, and its end. *)
Definition some_calls : list (string * PluginCall) :=
  [("sma_native", CallBar (mkAggregateBarResult "GOOG" false 1 dzero dzero dzero dzero dzero dzero 0) initial_state);
   ("sma_native", CallEnd)].

Lemma some_calls_logged :
  native_events (manager_calls some_calls
    (load_plugins_from_dir (H := one_library) (H3 := native_json) (H4 := native_root) "plugins"
      (new_plugin_manager (H0 := small_python) ["sma_native"] 0%nat no_python_memory)).2)
  = [Opened 7; Created (Some 5%nat); Called (Some 5%nat)].
Proof. vm_compute. reflexivity. Qed.

Lemma destructor_releases_plugins_witness :
  exists w, load_plugins_from_dir (H := one_library) (H3 := native_json) (H4 := native_root) "plugins"
    (new_plugin_manager (H0 := small_python) ["sma_native"] 0%nat no_python_memory) = (Ret tt, w) /\
  let w' := manager_calls some_calls w in
  native_events w' = [Opened 7; Created (Some 5%nat); Called (Some 5%nat)] /\
  let es := native_events (destroy_plugin_manager (H := one_library) (H5 := demo_containers) w').2 in
  (forall h, logged (Opened h) es = logged (Closed h) es) /\
  (forall i, logged (Created (Some i)) es = logged (Destroyed (Some i)) es).
Proof.
  destruct (load_plugins_from_dir (H := one_library) (H3 := native_json) (H4 := native_root) "plugins"
    (new_plugin_manager (H0 := small_python) ["sma_native"] 0%nat no_python_memory)) as [x w] eqn:E.
  assert (x = Ret tt) as -> by (apply (f_equal fst) in E; vm_compute in E; by symmetry).
  exists w. split; [reflexivity|]. split.
  - pose proof some_calls_logged as Hlog. rewrite E in Hlog. exact Hlog.
  - apply (destructor_releases_plugins (H := one_library) (H3 := native_json) (H4 := native_root) (H5 := demo_containers)
      "plugins" [mkDirectoryEntry true "plugins/sma_native"] ["sma_native"] 0%nat no_python_memory w some_calls).
    + exact demo_containers_laws.
    + reflexivity.
    + intros [|i] [|j] d1 d2 n Hi Hj _ _; done.
    + exact E.
Defined.

(** ** Fetching *)
#[local] Instance both_documents : Json :=
  tree_json (fun text => if String.eqb text "bars" then SUCCESS (bars_tree (fun _ => true) some_bars)
                         else if String.eqb text "manifest" then SUCCESS good_manifest else simdjson_failure "EMPTY")
    (fun _ => "{}").

#[local] Instance list_containers : StdContainers := {|
  hash_order A m := map_to_list m;
  std_sort l := l
|}.

#[local] Existing Instance good_machine.
Definition bars_server : LibCurl := server ["content-type: application/json"] "bars" 200.
#[local] Existing Instance bars_server.

Definition loaded_manager : PluginManager unit unit :=
  mkPluginManager (mkSimulatorContext 1) {["sma_python" := APython (mkPythonLoader parsed_good empty_export)]}
    ["sma_python"] tt [] no_python_memory.

Definition loaded_app : AppWorld (M := unit) (W := unit) :=
  mkAppWorld loaded_manager new_data_store (mkReportStore ∅ ∅) (good_world empty_disk) [].

(** With the policy of [main], caching on, and an empty cache: whichever job ends first,
    both are answered and the bars of both symbols are stored. *)
Lemma both_orders_answered js :
  js ≡ₚ jobs_of (plugin_loaders loaded_app) ->
  exists h, ask_jobs (new_polygon_provider "key") default_cache_policy js (http loaded_app) = (Ret [some_bars; some_bars], h) /\
    last_answer ("sma_python", "GOOG") js [some_bars; some_bars] = Some some_bars.
Proof.
  intros Hp. assert (length (jobs_of (plugin_loaders loaded_app)) = 2%nat) as E by (vm_compute; reflexivity).
  destruct (jobs_of (plugin_loaders loaded_app)) as [|j1 [|j2 [|]]] eqn:Ej; try discriminate E. clear E.
  vm_compute in Ej. injection Ej as <- <-.
  symmetry in Hp. apply Permutation_length_2_inv in Hp as [-> | ->];
    (match goal with |- exists h, ?c = _ /\ _ => destruct c as [r h] eqn:E end); exists h;
    apply (f_equal fst) in E; vm_compute in E; (split; [f_equal; symmetry; exact E|vm_compute; reflexivity]).
Qed.

Lemma fetch_stores_all_witness :
  exists w', fetch_data id (new_polygon_provider "key") default_cache_policy loaded_app = (Ret JobsDone, w') /\
    stored_bars (data_store w') ("sma_python", "GOOG") = Some some_bars.
Proof.
  set (jobs := fetch_jobs (new_polygon_provider "key") default_cache_policy (plugin_loaders loaded_app)).
  destruct (fetch_stores_all 1 demo_schedule (mkThreadPool [WExited] OEnd None [] true 0 false jobs jobs) id
    (new_polygon_provider "key") default_cache_policy loaded_app) as (js & Hp & _ & Hdone).
  - assert (length (jobs_of (plugin_loaders loaded_app)) = 2%nat) as E by (vm_compute; reflexivity).
    destruct (jobs_of (plugin_loaders loaded_app)) as [|j1 [|j2 [|]]] eqn:Ej; try discriminate E.
    unfold jobs. rewrite fetch_jobs_of, Ej. apply two_tasks_run.
  - reflexivity.
  - reflexivity.
  - reflexivity.
  - destruct (both_orders_answered js Hp) as (h & Ha & Hlast). destruct (Hdone _ h Ha) as (w' & Hr & _ & Hs).
    exists w'. split; [exact Hr|]. rewrite Hs. unfold store_after. rewrite Hlast. reflexivity.
Defined.
