(* ===== verification/Scenario.v ===== *)
(** * A small backtest used as the concrete instance of the theorems

    Two bars of one symbol, a plugin that buys with protective prices on the first
    bar and sells on the second. *)
From Stdlib Require Import ZArith Lia Ascii String.
From stdpp Require Import base tactics list gmap strings.
From S2P Require Import Prelude Double CppString Money Manifest Abi StockApi Models State StateOps StateInv.
From S2P Require Import Executor Engine EngineInv EngineRun.
Open Scope Z_scope.

(** Identifiers of increasing length. *)
Definition demo_uuid (n : nat) : string := str_repeat n "u"%char.

#[export] Instance demo_uuid_inj : Inj (=) (=) demo_uuid.
Proof.
  intros n m. unfold demo_uuid. revert m. induction n as [|n IH]; intros [|m]; simpl; try done.
  intros [= ?]. f_equal. by apply IH.
Qed.

Definition demo_clock (n : nat) : Z := Z.of_nat n.

Definition demo_hp : HostParams := {|
  market_hours_only_ := None;
  allow_fractional_shares_ := None;
  monte_carlo_runs_ := 0;
  monte_carlo_seed_ := 0;
  commission_ := Some (d_of_Z 1);
  slippage_ := None;
  initial_capital_ := 100000000000;
  commission_type_ := Some "flat";
  slippage_model_ := None;
  default_currency_ := None;
  timezone_ := None;
  optimization_mode_ := None;
  backtest_start_datetime_ := "2024-01-01";
  backtest_end_datetime_ := "2024-01-31";
  symbols_ := [mkSymbol true 1 "AAPL" "day"];
  position_sizing_method_ := None;
  position_size_value_ := None;
  max_position_size_ := None;
  use_stop_loss_ := None;
  stop_loss_pct_ := None;
  use_take_profit_ := None;
  take_profit_pct_ := None;
  fill_max_pct_of_volume_ := None;
  risk_free_rate_ := None;
  allow_short_selling_ := None;
  initial_margin_pct_ := None;
  max_leverage_ := None
|}.

(** The same with fills capped at half the bar's volume and no short selling. *)
Definition demo_capped_hp : HostParams := {|
  market_hours_only_ := None;
  allow_fractional_shares_ := Some true;
  monte_carlo_runs_ := 0;
  monte_carlo_seed_ := 0;
  commission_ := None;
  slippage_ := None;
  initial_capital_ := 100000000000;
  commission_type_ := None;
  slippage_model_ := None;
  default_currency_ := None;
  timezone_ := None;
  optimization_mode_ := None;
  backtest_start_datetime_ := "2024-01-01";
  backtest_end_datetime_ := "2024-01-31";
  symbols_ := [mkSymbol true 1 "AAPL" "day"];
  position_sizing_method_ := None;
  position_size_value_ := None;
  max_position_size_ := None;
  use_stop_loss_ := None;
  stop_loss_pct_ := None;
  use_take_profit_ := None;
  take_profit_pct_ := None;
  fill_max_pct_of_volume_ := Some (ddiv (d_of_Z 1) (d_of_Z 2));
  risk_free_rate_ := None;
  allow_short_selling_ := Some false;
  initial_margin_pct_ := None;
  max_leverage_ := None
|}.

Definition demo_bar (ts close low high volume : Z) : AggregateBarResult := {|
  bar_symbol_ := "AAPL";
  bar_is_otc_ := false;
  bar_tx_count_ := 1;
  bar_volume_ := d_of_Z volume;
  bar_volume_weighted_price_ := d_of_Z close;
  bar_open_ := d_of_Z close;
  bar_close_ := d_of_Z close;
  bar_high_ := d_of_Z high;
  bar_low_ := d_of_Z low;
  bar_unix_ts_ns_ := ts
|}.

Definition demo_buy : Order :=
  Order_make (d_of_Z 10) 0 "AAPL" BUY MARKET None (Some (mkMoney 140000000)) (Some (mkMoney 170000000)).
Definition demo_sell : Order := Order_make (d_of_Z 10) 0 "AAPL" SELL MARKET None None None.

(** At the first bar, nothing held. *)
Definition demo_state_flat : State :=
  prepare_next_bar_state (demo_bar 1000 150 145 155 1000) (prepare_initial_state demo_hp initial_state).

Lemma demo_state_flat_wf : State_wf demo_state_flat.
Proof. apply prepare_next_bar_wf, initial_state_wf. vm_compute. split; discriminate. Qed.

Definition result_of (order : Order) (hp : HostParams) (n : nat) (st : State) : option ExecutionResultSuccess :=
  match execute_order demo_uuid n order hp st with
  | Ret (ExecutionResult_Success r, _) => Some r
  | _ => None
  end.

Definition after_order (order : Order) (hp : HostParams) (n : nat) (st : State) : State :=
  match result_of order hp n st with Some r => update_state r st | None => st end.

(** At the second bar, with the ten shares bought at 150. *)
Definition demo_state_long : State :=
  prepare_next_bar_state (demo_bar 2000 160 150 165 1000) (after_order demo_buy demo_hp 0 demo_state_flat).

Example demo_long_held : held_quantity demo_state_long "AAPL" = d_of_Z 10.
Proof. vm_compute. reflexivity. Qed.
