(* ===== verification/ExecutorProps.v ===== *)
(** * Properties of order execution and portfolio accounting *)
From Stdlib Require Import ZArith Lia SpecFloat.
From stdpp Require Import base tactics list gmap strings.
From S2P Require Import Prelude Double Money Manifest Abi StockApi Models State Equity StateOps StateInv MarginAccounts.
From S2P Require Import Exchange PositionCalc Executor ExecutorSpec EngineInv EngineRun Scenario.
Open Scope Z_scope.

Section Trade.
Context (create_uuid : nat -> string) (n n' : nat) (order : Order) (hp : HostParams) (st : State)
  (r : ExecutionResultSuccess).

#[local] Abbreviation fill := (ExecutionResultSuccess_fill_ r).
#[local] Abbreviation executed :=
  (execute_order create_uuid n order hp st = Ret (ExecutionResult_Success r, n')).

(** The fill repeats the order; cash delta and margin are those of its quantity. *)
Record trade_facts : Prop := {
  tf_symbol : Fill_symbol_ fill = Order_symbol_ order;
  tf_action : Fill_action_ fill = Order_action_ order;
  tf_uuid : Fill_uuid_ fill = create_uuid (S n);
  tf_margin : ExecutionResultSuccess_margin_used_ r
    = margin_required hp order (Fill_quantity_ fill) (Fill_price_ fill) st;
  tf_cash : ExecutionResultSuccess_cash_delta_ r
    = calculate_cash_delta order (Fill_price_ fill) (Fill_quantity_ fill)
        (commission_of hp order (Fill_quantity_ fill) (Fill_price_ fill) st)
        (opening_quantity order (Fill_quantity_ fill) st)
        (margin_required hp order (Fill_quantity_ fill) (Fill_price_ fill) st) st;
  tf_position : ExecutionResultSuccess_position_ r
    = calculate_position order (Fill_quantity_ fill) (Fill_price_ fill) st
}.

Lemma executed_facts : executed -> trade_facts.
Proof.
  intros (q0 & rem & price & Hf)%execute_order_success_inv.
  split; by rewrite (sf_result _ _ _ _ _ _ _ _ _ _ Hf).
Qed.

Lemma executed_wf : State_wf st -> create_uuid (S n) ∉ fill_uuids st -> executed -> Result_wf st r.
Proof.
  intros Hwf Hu (q0 & rem & price & Hf)%execute_order_success_inv.
  rewrite (sf_result _ _ _ _ _ _ _ _ _ _ Hf). by apply success_result_wf.
Qed.

(** The cash delta of a buy or sell order, in terms of its closing information. *)
Lemma trade_cash_delta price q commission opening margin :
  Order_is_trade order = true ->
  let info := calculate_closing_margin_info order price (dsub q opening) st in
  calculate_cash_delta order price q commission opening margin st =
  (margin_to_release_ info + realized_pnl_ info - margin - commission)%money.
Proof.
  unfold Order_is_trade, calculate_cash_delta. destruct (Order_is_buy order); [done|]. simpl. by intros ->.
Qed.

(** What [fill_reduces] says of the order. *)
Lemma reduces_order : executed ->
  fill_reduces r st = if Order_is_buy order then dltb (held_quantity st (Order_symbol_ order)) dzero
                      else dltb dzero (held_quantity st (Order_symbol_ order)).
Proof.
  intros Hx. destruct (executed_facts Hx) as [Es Ea _ _ _ _].
  unfold fill_reduces, Fill_is_buy, Order_is_buy. by rewrite Es, Ea.
Qed.

(** An order that does not run against the position opens its whole quantity. *)
Lemma opening_is_all q :
  executed -> is_nan (held_quantity st (Order_symbol_ order)) = false -> fill_reduces r st = false ->
  opening_quantity order q st = q.
Proof.
  intros Hx Hnan Hred. rewrite (reduces_order Hx) in Hred.
  unfold opening_quantity, calculate_position_opening_quantity.
  destruct (Order_is_buy order); apply not_dltb_dleb in Hred; try done; by rewrite Hred.
Qed.
(** The side a fill closes is the side its order closes. *)
Lemma closed_side_executed :
  executed -> Order_is_trade order = true -> closed_side fill = order_closes order.
Proof.
  intros Hx Ht. destruct (executed_facts Hx) as [_ Ea _ _ _ _].
  unfold closed_side, order_closes, Order_is_trade, Fill_is_buy in *. rewrite Ea.
  unfold Order_is_buy, Order_is_sell in *. destruct (String.eqb (Order_action_ order) BUY) eqn:Hb.
  - by rewrite (buy_not_sell _ Hb).
  - simpl in Ht. by rewrite Ht.
Qed.
End Trade.

(** A plan for nothing closes nothing. *)
Lemma small_plan_nil s sym q st : dltb dzero q = false -> is_nan q = false -> closing_plan s sym q st = [].
Proof.
  intros Hq Hn. unfold closing_plan. destruct (fills_ st); simpl; [done|].
  assert (dleb q EPSILON = true) as -> ; [|done].
  apply not_dltb_dleb in Hq; [|done..]. apply (dleb_trans _ dzero); [done|]. vm_compute. reflexivity.
Qed.

(** The update's plan for a trade against the position. *)
Lemma update_plan_reducing create_uuid n n' order hp st r :
  execute_order create_uuid n order hp st = Ret (ExecutionResult_Success r, n') ->
  Order_is_trade order = true -> fill_reduces r st = true ->
  is_nan (Fill_quantity_ (ExecutionResultSuccess_fill_ r)) = false ->
  update_plan r st = closing_plan (order_closes order) (Order_symbol_ order)
    (dmin (Fill_quantity_ (ExecutionResultSuccess_fill_ r)) (dabs (held_quantity st (Order_symbol_ order)))) st.
Proof.
  intros Hx Ht Hred Hnan. destruct (executed_facts _ _ _ _ _ _ _ Hx) as [Es _ _ _ _ _].
  unfold update_plan. rewrite Hred, Es, (closed_side_executed _ _ _ _ _ _ _ Hx Ht). cbn [andb].
  set (diff := dmin _ _). destruct (dltb dzero diff) eqn:Hd; [done|]. symmetry. apply small_plan_nil; [done|].
  unfold diff. destruct (dmin_cases (Fill_quantity_ (ExecutionResultSuccess_fill_ r))
    (dabs (held_quantity st (Order_symbol_ order)))) as [-> | ->]; [done|].
  rewrite (reduces_order _ _ _ _ _ _ _ Hx) in Hred.
  assert (is_nan (held_quantity st (Order_symbol_ order)) = false) as Hh
    by (destruct (Order_is_buy order); apply dltb_not_nan in Hred; tauto).
  by destruct (held_quantity _ _).
Qed.

(** The lots reported to the exit book are those of the update's plan. *)
Lemma closed_by_update_plan r st :
  let f := ExecutionResultSuccess_fill_ r in
  fill_reduces r st = true -> Fill_is_buy f || Fill_is_sell f = true ->
  is_nan (Fill_quantity_ f) = false ->
  closed_by f st = closing_report <$> update_plan r st.
Proof.
  intros f Hred Hside Hn. unfold update_plan, closed_by. fold f. rewrite Hred.
  unfold fill_reduces in Hred. fold f in Hred. unfold held_quantity in *.
  assert (Fill_is_buy f = true -> Fill_is_sell f = false) as Hbs by apply buy_not_sell.
  unfold find_buy_fill_uuids_closed_by_sell, find_sell_fill_uuids_closed_by_buy, closed_side.
  destruct (positions_ st !! Fill_symbol_ f) as [p|]; [|by destruct (Fill_is_buy f)].
  set (x := Position_quantity_ p) in *.
  assert (is_nan x = false) as Hx by (destruct (Fill_is_buy f); apply dltb_not_nan in Hred; tauto).
  assert (is_nan (dmin (Fill_quantity_ f) (dabs x)) = false) as Hd.
  { destruct (dmin_cases (Fill_quantity_ f) (dabs x)) as [-> | ->]; [done|by destruct x]. }
  assert (forall s, (closing_report <$> (if true && dltb dzero (dmin (Fill_quantity_ f) (dabs x))
      then closing_plan s (Fill_symbol_ f) (dmin (Fill_quantity_ f) (dabs x)) st else [])) =
    closed_fills_loop s (Fill_symbol_ f) (active_fills s st) (fills_ st) (dmin (Fill_quantity_ f) (dabs x))) as E.
  { intros s. rewrite closed_fills_loop_plan. fold (closing_plan s (Fill_symbol_ f) (dmin (Fill_quantity_ f) (dabs x)) st).
    destruct (dltb dzero (dmin (Fill_quantity_ f) (dabs x))) eqn:Hz; [done|]. by rewrite small_plan_nil. }
  rewrite E. destruct (Fill_is_buy f) eqn:Hb.
  - rewrite Hbs by done. rewrite (dltb_not_dleb _ _ Hred). done.
  - simpl in Hside. rewrite Hside. rewrite (dltb_not_dleb _ _ Hred).
    assert (dabs x = x) as -> by (clearbody x; by destruct x as [[]|[]| |[]]). done.
Qed.

(** C5: a successful execution satisfies the contract that [State::update_state]
    relies on (a fresh fill identifier, a position and exit orders that belong to the
    fill), and applying it keeps the portfolio invariant. *)
Theorem execution_updates_keep_invariant create_uuid n n' order hp st r :
  State_wf st -> create_uuid (S n) ∉ fill_uuids st ->
  execute_order create_uuid n order hp st = Ret (ExecutionResult_Success r, n') ->
  Result_wf st r /\ State_wf (update_state r st).
Proof.
  intros Hwf Hu Hx. pose proof (executed_wf _ _ _ _ _ _ _ Hwf Hu Hx) as Hr.
  split; [done|by apply update_state_wf].
Qed.

Lemma demo_fresh n : demo_uuid (S n) ∉ fill_uuids demo_state_flat.
Proof. apply not_elem_of_nil. Qed.

Definition demo_result : ExecutionResultSuccess :=
  default (success_result demo_uuid 0 demo_buy demo_hp demo_state_flat dzero dzero (0)%money)
    (result_of demo_buy demo_hp 0 demo_state_flat).

Lemma demo_executed :
  execute_order demo_uuid 0 demo_buy demo_hp demo_state_flat = Ret (ExecutionResult_Success demo_result, 2%nat).
Proof. vm_compute. reflexivity. Qed.

Lemma execution_updates_keep_invariant_witness : State_wf (update_state demo_result demo_state_flat).
Proof.
  apply (execution_updates_keep_invariant demo_uuid 0 2 demo_buy demo_hp demo_state_flat demo_result).
  - apply demo_state_flat_wf.
  - apply demo_fresh.
  - apply demo_executed.
Defined.

(** A fill that opens: a positive finite quantity on a side the position is not against. *)
Definition plain_opening (order : Order) (st : State) (r : ExecutionResultSuccess) : Prop :=
  let f := ExecutionResultSuccess_fill_ r in
  is_finite (Fill_quantity_ f) = true /\ dltb dzero (Fill_quantity_ f) = true /\
  is_nan (held_quantity st (Order_symbol_ order)) = false /\ fill_reduces r st = false /\
  Z.abs (microdollars_ (ExecutionResultSuccess_margin_used_ r)) < 2 ^ 53.

Lemma opening_conserves create_uuid n n' order hp st r :
  State_wf st -> create_uuid (S n) ∉ fill_uuids st ->
  execute_order create_uuid n order hp st = Ret (ExecutionResult_Success r, n') ->
  Order_is_trade order = true -> plain_opening order st r ->
  let f := ExecutionResultSuccess_fill_ r in
  (cash_ (update_state r st) + margin_in_use_ (update_state r st)
   = cash_ st + margin_in_use_ st - commission_of hp order (Fill_quantity_ f) (Fill_price_ f) st)%money.
Proof.
  intros Hwf Hu Hx Ht (Hfin & Hpos & Hnan & Hred & Hm).
  pose proof (executed_wf _ _ _ _ _ _ _ Hwf Hu Hx) as Hr.
  destruct (executed_facts _ _ _ _ _ _ _ Hx) as [_ _ _ Em Ec _].
  rewrite (opening_is_all _ _ _ _ _ _ _ _ Hx Hnan Hred) in Ec.
  rewrite (trade_cash_delta _ _ _ _ _ _ _ Ht), dsub_diag in Ec by done. cbn in Ec.
  destruct (update_state_fields r st) as (Ecash & _). rewrite Ecash, Ec, <- Em.
  rewrite (update_state_margin_in_use r st Hwf Hr).
  unfold populate_active_fills, update_plan. rewrite Hred. cbn [negb snd andb].
  assert (ddiv (Fill_quantity_ (ExecutionResultSuccess_fill_ r)) (Fill_quantity_ (ExecutionResultSuccess_fill_ r))
    = d_one) as ->.
  { destruct (Fill_quantity_ (ExecutionResultSuccess_fill_ r)); try done. apply ddiv_diag. }
  rewrite Money_mul_one by done. apply Money_ext. unfold margin_released. simpl. wrap64_solve.
Qed.

(** C7: opening a position moves the margin from cash to [margin_in_use_] and costs
    the commission, nothing else: cash plus margin falls by exactly the commission. *)
Theorem opening_trade_conserves create_uuid n n' order hp st r :
  State_wf st -> create_uuid (S n) ∉ fill_uuids st ->
  execute_order create_uuid n order hp st = Ret (ExecutionResult_Success r, n') ->
  Order_is_trade order = true ->
  let f := ExecutionResultSuccess_fill_ r in
  is_finite (Fill_quantity_ f) = true -> dltb dzero (Fill_quantity_ f) = true ->
  is_nan (held_quantity st (Order_symbol_ order)) = false -> fill_reduces r st = false ->
  Z.abs (microdollars_ (ExecutionResultSuccess_margin_used_ r)) < 2 ^ 53 ->
  (cash_ (update_state r st) + margin_in_use_ (update_state r st)
   = cash_ st + margin_in_use_ st - commission_of hp order (Fill_quantity_ f) (Fill_price_ f) st)%money.
Proof. intros Hwf Hu Hx Ht f ?????. apply (opening_conserves create_uuid n n'); unfold plain_opening; by split_and?. Qed.

Lemma opening_trade_conserves_witness :
  (cash_ (update_state demo_result demo_state_flat) + margin_in_use_ (update_state demo_result demo_state_flat)
   = mkMoney 99999000000)%money.
Proof.
  rewrite (opening_trade_conserves demo_uuid 0 2 demo_buy demo_hp demo_state_flat demo_result
    demo_state_flat_wf (demo_fresh 0) demo_executed); vm_compute; reflexivity.
Defined.

(** The long scenario: well formed, and the ten shares are sold. *)
Lemma demo_state_long_wf : State_wf demo_state_long.
Proof.
  apply prepare_next_bar_wf.
  replace (after_order demo_buy demo_hp 0 demo_state_flat) with (update_state demo_result demo_state_flat)
    by (vm_compute; reflexivity).
  apply update_state_wf; [apply demo_state_flat_wf|].
  exact (executed_wf _ _ _ _ _ _ _ demo_state_flat_wf (demo_fresh 0) demo_executed).
Qed.

Definition demo_close : ExecutionResultSuccess :=
  default demo_result (result_of demo_sell demo_hp 2 demo_state_long).

Lemma demo_closed :
  execute_order demo_uuid 2 demo_sell demo_hp demo_state_long = Ret (ExecutionResult_Success demo_close, 4%nat).
Proof. vm_compute. reflexivity. Qed.

Lemma demo_long_fresh : demo_uuid 3 ∉ fill_uuids demo_state_long.
Proof. vm_compute. intros H%list_elem_of_singleton. discriminate. Qed.

(** A fill that closes and opens nothing: not more than the position holds. *)
Definition plain_closing (order : Order) (st : State) (r : ExecutionResultSuccess) : Prop :=
  let f := ExecutionResultSuccess_fill_ r in
  is_finite (Fill_quantity_ f) = true /\ dltb dzero (Fill_quantity_ f) = true /\
  fill_reduces r st = true /\
  dltb (dabs (held_quantity st (Order_symbol_ order))) (Fill_quantity_ f) = false /\
  opening_quantity order (Fill_quantity_ f) st = dzero.

Lemma closing_conserves create_uuid n n' order hp st r :
  State_wf st -> create_uuid (S n) ∉ fill_uuids st ->
  execute_order create_uuid n order hp st = Ret (ExecutionResult_Success r, n') ->
  Order_is_trade order = true -> plain_closing order st r ->
  let f := ExecutionResultSuccess_fill_ r in
  (cash_ (update_state r st) + margin_in_use_ (update_state r st)
   = cash_ st + margin_in_use_ st
     + plan_pnl order (Fill_price_ f)
         (closing_plan (order_closes order) (Order_symbol_ order) (Fill_quantity_ f) st) 0
     - commission_of hp order (Fill_quantity_ f) (Fill_price_ f) st)%money.
Proof.
  intros Hwf Hu Hx Ht (Hfin & Hpos & Hred & Hle & Hop) f. subst f.
  pose proof (executed_wf _ _ _ _ _ _ _ Hwf Hu Hx) as Hr.
  destruct (executed_facts _ _ _ _ _ _ _ Hx) as [Es Ea _ _ Ec _].
  set (f := ExecutionResultSuccess_fill_ r) in *. set (q := Fill_quantity_ f) in *.
  assert (margin_required hp order q (Fill_price_ f) st = (0)%money) as Em
    by (unfold margin_required; by rewrite Hop).
  assert (dsub q dzero = q) as Eq.
  { destruct (dsub_0_r q) as [?|E]; [done|]. by rewrite E in Hpos. }
  rewrite Hop, Em, (trade_cash_delta _ _ _ _ _ _ _ Ht), Eq, (closing_info_plan _ _ _ _ Ht) in Ec. cbn in Ec.
  destruct (update_state_fields r st) as (Ecash & _). rewrite Ecash, Ec.
  rewrite (update_state_margin_in_use r st Hwf Hr).
  assert (closed_side f = order_closes order) as Eside by exact (closed_side_executed _ _ _ _ _ _ _ Hx Ht).
  assert (update_plan r st = closing_plan (order_closes order) (Order_symbol_ order) q st) as Eplan.
  { unfold update_plan. fold f q. rewrite Hred, Es, Eside. unfold dmin. by rewrite Hle, Hpos. }
  assert (snd (populate_active_fills f (held_quantity st (Fill_symbol_ f)) (fill_reduces r st)
    (update_state_entry r st)) = None) as Epop.
  { unfold populate_active_fills. fold q. rewrite Hred, Es. unfold dmin. rewrite Hle, dsub_diag by done.
    cbn [negb]. by case_match. }
  fold f. rewrite Epop, Eplan. apply Money_ext. cbn [microdollars_ Money_add Money_sub].
  generalize (margin_released (active_margin_for_fills_ st)
    (closing_plan (order_closes order) (Order_symbol_ order) q st)). intros m.
  generalize (plan_pnl order (Fill_price_ f) (closing_plan (order_closes order) (Order_symbol_ order) q st) (0)%money).
  intros p. simpl. wrap64_solve.
Qed.

(** C6: closing all or part of a position turns the margin recorded for the closed
    lots back into cash together with their profit or loss, less the commission: cash
    plus margin changes by exactly profit minus commission. *)
Theorem closing_trade_conserves create_uuid n n' order hp st r :
  State_wf st -> create_uuid (S n) ∉ fill_uuids st ->
  execute_order create_uuid n order hp st = Ret (ExecutionResult_Success r, n') ->
  Order_is_trade order = true ->
  let f := ExecutionResultSuccess_fill_ r in
  is_finite (Fill_quantity_ f) = true -> dltb dzero (Fill_quantity_ f) = true ->
  fill_reduces r st = true ->
  dltb (dabs (held_quantity st (Order_symbol_ order))) (Fill_quantity_ f) = false ->
  opening_quantity order (Fill_quantity_ f) st = dzero ->
  (cash_ (update_state r st) + margin_in_use_ (update_state r st)
   = cash_ st + margin_in_use_ st
     + plan_pnl order (Fill_price_ f)
         (closing_plan (order_closes order) (Order_symbol_ order) (Fill_quantity_ f) st) 0
     - commission_of hp order (Fill_quantity_ f) (Fill_price_ f) st)%money.
Proof. intros Hwf Hu Hx Ht f ?????. apply (closing_conserves create_uuid n n'); unfold plain_closing; by split_and?. Qed.

(** Bought ten at 150, sold at 160 with one dollar of commission each way. *)
Lemma closing_trade_conserves_witness :
  (cash_ (update_state demo_close demo_state_long) + margin_in_use_ (update_state demo_close demo_state_long)
   = mkMoney (100000000000 - 1000000 + 100000000 - 1000000))%money.
Proof.
  rewrite (closing_trade_conserves demo_uuid 2 4 demo_sell demo_hp demo_state_long demo_close
    demo_state_long_wf demo_long_fresh demo_closed); vm_compute; reflexivity.
Defined.

(** C8: the FIFO walks of a trade against a position agree.  The lots whose exit orders
    are reduced ([find_buy_fill_uuids_closed_by_sell] and its mirror) and the lots that
    [update_state] actually closes are one plan: the oldest active lots first, each as
    far as the quantity traded against the position reaches.  The cash delta pays out the
    margin and the profit of the plan for what [calculate_cash_delta] passes to
    [calculate_closing_margin_info], the filled less the opened quantity; when the trade
    opens nothing that is the very same plan. *)
Theorem fifo_walks_agree create_uuid n n' order hp st r :
  State_wf st -> create_uuid (S n) ∉ fill_uuids st ->
  execute_order create_uuid n order hp st = Ret (ExecutionResult_Success r, n') ->
  Order_is_trade order = true -> fill_reduces r st = true ->
  is_nan (Fill_quantity_ (ExecutionResultSuccess_fill_ r)) = false ->
  let f := ExecutionResultSuccess_fill_ r in
  let q := Fill_quantity_ f in
  let held := dabs (held_quantity st (Order_symbol_ order)) in
  let lots quantity := closing_plan (order_closes order) (Order_symbol_ order) quantity st in
  let plan := lots (dmin q held) in
  let priced := lots (dsub q (opening_quantity order q st)) in
  closed_by f st = (closing_report <$> plan) /\
  fst (populate_active_fills f (held_quantity st (Fill_symbol_ f)) (fill_reduces r st) (update_state_entry r st))
    = fold_left (apply_closing (order_closes order)) plan (update_state_entry r st) /\
  ExecutionResultSuccess_cash_delta_ r
    = (margin_released (active_margin_for_fills_ st) priced
       + plan_pnl order (Fill_price_ f) priced 0
       - ExecutionResultSuccess_margin_used_ r
       - commission_of hp order q (Fill_price_ f) st)%money /\
  (dltb held q = false -> opening_quantity order q st = dzero -> priced = plan).
Proof.
  intros Hwf Hu Hx Ht Hred Hnan f q held lots plan priced.
  pose proof (executed_wf _ _ _ _ _ _ _ Hwf Hu Hx) as Hr.
  destruct (executed_facts _ _ _ _ _ _ _ Hx) as [Es Ea _ Em Ec _]. fold f in Es, Ea.
  assert (closed_side f = order_closes order) as Eside by exact (closed_side_executed _ _ _ _ _ _ _ Hx Ht).
  assert (update_plan r st = plan) as Eplan by exact (update_plan_reducing _ _ _ _ _ _ _ Hx Ht Hred Hnan).
  split_and!.
  - rewrite <- Eplan. apply closed_by_update_plan; [done| |done]. unfold Fill_is_buy, Fill_is_sell.
    fold f. by rewrite Ea.
  - pose proof (populate_follows_plan r st Hwf Hr) as Hp. fold f in Hp. cbv zeta in Hp.
    by rewrite Hp, Eside, Eplan.
  - by rewrite Ec, Em, (trade_cash_delta _ _ _ _ _ _ _ Ht), (closing_info_plan _ _ _ _ Ht).
  - intros Hle Hop. unfold priced, plan, dmin. rewrite Hop, Hle. f_equal.
    destruct (dsub_0_r q) as [Hz|Hz]; [done|by rewrite Hz].
Qed.

(** Selling the ten shares: one lot, reported, closed and priced. *)
Lemma fifo_walks_agree_witness :
  closed_by (ExecutionResultSuccess_fill_ demo_close) demo_state_long = [(demo_uuid 1, d_of_Z 10)] /\
  ExecutionResultSuccess_cash_delta_ demo_close = mkMoney 1599000000.
Proof.
  destruct (fifo_walks_agree demo_uuid 2 4 demo_sell demo_hp demo_state_long demo_close
    demo_state_long_wf demo_long_fresh demo_closed eq_refl eq_refl eq_refl) as (H1 & _ & H3 & _).
  rewrite H1, H3. split; vm_compute; reflexivity.
Defined.

(** The quantity that is priced can differ from the one that is closed when a trade flips
    the position: with a tenth of a share held and one share sold, a tenth is closed and
    reported, but the margin and profit paid out are those of one less nine tenths, which
    is not a tenth of a share in floating point. *)
Definition demo_fractional_hp : HostParams :=
  {| market_hours_only_ := None; allow_fractional_shares_ := Some true; monte_carlo_runs_ := 0;
     monte_carlo_seed_ := 0; commission_ := None; slippage_ := None; initial_capital_ := 100000000000;
     commission_type_ := None; slippage_model_ := None; default_currency_ := None; timezone_ := None;
     optimization_mode_ := None; backtest_start_datetime_ := "2024-01-01"; backtest_end_datetime_ := "2024-01-31";
     symbols_ := [mkSymbol true 1 "AAPL" "day"]; position_sizing_method_ := None; position_size_value_ := None;
     max_position_size_ := None; use_stop_loss_ := None; stop_loss_pct_ := None; use_take_profit_ := None;
     take_profit_pct_ := None; fill_max_pct_of_volume_ := None; risk_free_rate_ := None;
     allow_short_selling_ := None; initial_margin_pct_ := None; max_leverage_ := None |}.

Definition a_tenth : double := ddiv (d_of_Z 1) (d_of_Z 10).
Definition buy_a_tenth : Order := Order_make a_tenth 0 "AAPL" BUY MARKET None None None.
Definition sell_one : Order := Order_make (d_of_Z 1) 0 "AAPL" SELL MARKET None None None.
Definition tenth_state : State := after_order buy_a_tenth demo_fractional_hp 0 demo_state_flat.

Definition flip_result : ExecutionResultSuccess :=
  default demo_result (result_of sell_one demo_fractional_hp 2 tenth_state).

Theorem flip_prices_another_quantity :
  let q := Fill_quantity_ (ExecutionResultSuccess_fill_ flip_result) in
  execute_order demo_uuid 2 sell_one demo_fractional_hp tenth_state = Ret (ExecutionResult_Success flip_result, 4%nat) /\
  snd <$> closed_by (ExecutionResultSuccess_fill_ flip_result) tenth_state = [a_tenth] /\
  dltb (dsub q (opening_quantity sell_one q tenth_state)) a_tenth = true.
Proof. split_and!; vm_compute; reflexivity. Qed.

(** C9: [margin_in_use_] and the sum of the per-fill margins only drift apart by the
    residues of at most [EPSILON] dollars that closing a lot forgets: an update adds
    exactly the residues of the lots it closes. *)
Theorem margin_drift_is_dust create_uuid n n' order hp st r :
  State_wf st -> create_uuid (S n) ∉ fill_uuids st ->
  execute_order create_uuid n order hp st = Ret (ExecutionResult_Success r, n') ->
  margin_drift (update_state r st) =
  wrap64 (margin_drift st + plan_dust (active_margin_for_fills_ st) (update_plan r st)).
Proof.
  intros Hwf Hu Hx. apply update_state_drift; [done|]. by apply (executed_wf _ _ _ _ _ _ _ Hwf Hu Hx).
Qed.

Lemma margin_drift_is_dust_witness : margin_drift (update_state demo_close demo_state_long) = 0.
Proof.
  rewrite (margin_drift_is_dust demo_uuid 2 4 demo_sell demo_hp demo_state_long demo_close
    demo_state_long_wf demo_long_fresh demo_closed). vm_compute. reflexivity.
Defined.

(** C10: when every lot a trade closes is closed whole and every margin is below
    [2^53] micro-dollars, an exact [margin_in_use_] stays exact: it equals what
    [recalculate_margin_in_use] adds up from the per-fill margins. *)
Theorem whole_lots_keep_margin_exact create_uuid n n' order hp st r :
  State_wf st -> create_uuid (S n) ∉ fill_uuids st ->
  execute_order create_uuid n order hp st = Ret (ExecutionResult_Success r, n') ->
  (forall u v, active_margin_for_fills_ st !! u = Some v -> Z.abs (microdollars_ v) < 2 ^ 53) ->
  (forall c, c ∈ update_plan r st -> exists s m e, snd (fst c) = S754_finite s m e /\ snd c = snd (fst c)) ->
  margin_in_use_ st = recalculate_margin_in_use st ->
  margin_in_use_ (update_state r st) = recalculate_margin_in_use (update_state r st).
Proof.
  intros Hwf Hu Hx Hb Hwhole Hexact.
  pose proof (executed_wf _ _ _ _ _ _ _ Hwf Hu Hx) as Hr.
  pose proof (update_state_wf r st Hwf Hr) as Hwf'.
  apply margin_drift_0; [apply Hwf'|]. apply (margin_drift_0 st) in Hexact; [|apply Hwf].
  rewrite (update_state_drift r st Hwf Hr), Hexact.
  assert (plan_dust (active_margin_for_fills_ st) (update_plan r st) = 0) as ->; [|done].
  revert Hwhole. generalize (update_plan r st). intros plan. induction plan as [|[[f a] c] plan IH]; intros Hw; [done|].
  destruct (Hw (f, a, c) (list_elem_of_here _ _)) as (s & m & e & E1 & E2). simpl in E1, E2. subst.
  cbn [plan_dust foldr]. rewrite whole_closing_dust by done. apply IH. intros c' Hc'. by apply Hw, list_elem_of_further.
Qed.

Lemma whole_lots_keep_margin_exact_witness :
  margin_in_use_ (update_state demo_close demo_state_long)
  = recalculate_margin_in_use (update_state demo_close demo_state_long).
Proof.
  apply (whole_lots_keep_margin_exact demo_uuid 2 4 demo_sell demo_hp demo_state_long demo_close
    demo_state_long_wf demo_long_fresh demo_closed).
  - intros u v Huv.
    assert (active_margin_for_fills_ demo_state_long = {[ "u" := mkMoney 1500000000 ]}) as E
      by (vm_compute; reflexivity).
    rewrite E in Huv. apply lookup_singleton_Some in Huv as [_ <-]. vm_compute. reflexivity.
  - assert (update_plan demo_close demo_state_long
      = [(ExecutionResultSuccess_fill_ demo_result, d_of_Z 10, d_of_Z 10)]) as -> by (vm_compute; reflexivity).
    intros c ->%list_elem_of_singleton. do 3 eexists. split; vm_compute; reflexivity.
  - vm_compute. reflexivity.
Defined.
