(* ===== verification/RiskProps.v ===== *)
(** * What a filled order guarantees, and what a rejected one does *)
From Stdlib Require Import ZArith Lia SpecFloat.
From stdpp Require Import base tactics list gmap strings.
From S2P Require Import Prelude Double Money Manifest Abi StockApi Models State Equity StateOps StateInv MarginAccounts.
From S2P Require Import Exchange PositionCalc Executor ExecutorSpec EngineInv EngineRun Scenario ExecutorProps.
Open Scope Z_scope.

(** [execute_order] never leaves with an exception, whatever the order, the host
    parameters and the state: it returns a success or an error value. *)
Theorem execute_order_never_throws create_uuid n order hp st :
  exists res n', execute_order create_uuid n order hp st = Ret (res, n') /\ (n <= n')%nat.
Proof.
  destruct (execute_order_returns create_uuid n order hp st) as (res & n' & H). exists res, n'.
  split; [done|]. by eapply execute_order_draws.
Qed.

(** C11: a filled order respects the risk limits: its leverage is at least one and at
    most the maximum, a sell does not cross below zero where short selling is off,
    the margin and commission of an opening fit in the available margin, and a pure
    closing that costs cash is covered by the cash held. *)
Theorem filled_order_respects_limits create_uuid n n' order hp st r :
  execute_order create_uuid n order hp st = Ret (ExecutionResult_Success r, n') ->
  let f := ExecutionResultSuccess_fill_ r in
  let q := Fill_quantity_ f in
  let commission := commission_of hp order q (Fill_price_ f) st in
  dltb (Fill_leverage_ f) (d_of_Z 1) = false /\
  dltb (value_or (max_leverage_ hp) (d_of_Z 1)) (Fill_leverage_ f) = false /\
  (Order_is_sell order = true -> value_or (allow_short_selling_ hp) true = false ->
     dltb (new_quantity order q st) dzero = false) /\
  (dleb (opening_quantity order q st) EPSILON = false ->
     ((Fill_margin_used_ f + commission) >? calculate_available_margin st)%money = false) /\
  (dleb (opening_quantity order q st) EPSILON = true ->
     let info := calculate_closing_margin_info order (Fill_price_ f) q st in
     let net := (margin_to_release_ info + realized_pnl_ info - commission)%money in
     (net <? 0)%money = true -> ((0 - net) >? cash_ st)%money = false).
Proof.
  intros (q0 & rem & price & Hf)%execute_order_success_inv f q commission.
  pose proof (sf_valid _ _ _ _ _ _ _ _ _ _ Hf) as Hv.
  subst commission q f. rewrite (sf_result _ _ _ _ _ _ _ _ _ _ Hf).
  cbn [ExecutionResultSuccess_fill_ success_result ExecutionResultSuccess_make Fill_make Fill_leverage_
    Fill_quantity_ Fill_price_ Fill_margin_used_].
  set (q := settled_quantity hp q0) in *. unfold validate_margin in Hv.
  destruct (_ && _ && _) eqn:Hshort; [done|].
  destruct (dltb (value_or (Order_leverage_ order) (d_of_Z 1)) (d_of_Z 1)); [done|].
  destruct (dltb (value_or (max_leverage_ hp) (d_of_Z 1)) _); [done|].
  split_and!; [done|done| | |].
  - intros Hs Ha. rewrite Hs, Ha in Hshort. exact Hshort.
  - intros Ho. rewrite Ho in Hv. by case_match.
  - intros Ho Hneg. rewrite Ho in Hv. cbv zeta in Hv. rewrite Hneg in Hv. by case_match.
Qed.

Lemma filled_order_respects_limits_witness :
  dltb (Fill_leverage_ (ExecutionResultSuccess_fill_ demo_result)) (d_of_Z 1) = false.
Proof.
  exact (proj1 (filled_order_respects_limits demo_uuid 0 2 demo_buy demo_hp demo_state_flat demo_result
    demo_executed)).
Defined.

(** C12: a limit order is filled at exactly the better of its limit and the close, in
    micro-dollars: a buy at the smaller, a sell at the larger (so never on the wrong side
    of either); an order without an active limit fills at the close. *)
Theorem limit_price_protection create_uuid n n' order hp st r close :
  execute_order create_uuid n order hp st = Ret (ExecutionResult_Success r, n') ->
  get_symbol_close st (Order_symbol_ order) = Ret close ->
  let price := Fill_price_ (ExecutionResultSuccess_fill_ r) in
  (forall limit, Order_is_limit_order order = true -> Order_limit_price_ order = Some limit ->
     microdollars_ price = (if Order_is_buy order then Z.min else Z.max) (microdollars_ limit) (microdollars_ close) /\
     (Order_is_buy order = true -> (price <=? limit)%money = true /\ (price <=? close)%money = true) /\
     (Order_is_buy order = false -> (price >=? limit)%money = true /\ (price >=? close)%money = true)) /\
  (Order_is_limit_order order = false -> price = close).
Proof.
  intros (q0 & rem & p & Hf)%execute_order_success_inv Hc price. subst price.
  rewrite (sf_result _ _ _ _ _ _ _ _ _ _ Hf). cbn.
  pose proof (sf_price _ _ _ _ _ _ _ _ _ _ Hf) as Hp. unfold calculate_fill_price in Hp.
  rewrite Hc in Hp. cbn [obind] in Hp. split.
  - intros limit Hl El. rewrite El, Hl in Hp. destruct (Order_is_buy order); injection Hp as <-;
      unfold Money_min, Money_max, Money_lt, Money_le, Money_ge; split_and!; intros; try discriminate;
      case_match; lia.
  - intros Hl. rewrite Hl in Hp. case_match; by injection Hp as <-.
Qed.

Definition demo_limit_buy : Order :=
  Order_make (d_of_Z 10) 0 "AAPL" BUY LIMIT (Some (mkMoney 148000000)) None None.

Definition demo_limit_result : ExecutionResultSuccess :=
  default demo_result (result_of demo_limit_buy demo_hp 0 demo_state_flat).

Lemma limit_price_protection_witness :
  microdollars_ (Fill_price_ (ExecutionResultSuccess_fill_ demo_limit_result)) = 148000000.
Proof.
  assert (execute_order demo_uuid 0 demo_limit_buy demo_hp demo_state_flat
    = Ret (ExecutionResult_Success demo_limit_result, 2%nat)) as Hx by (vm_compute; reflexivity).
  assert (get_symbol_close demo_state_flat (Order_symbol_ demo_limit_buy) = Ret (mkMoney 150000000)) as Hc
    by (vm_compute; reflexivity).
  pose proof (limit_price_protection demo_uuid 0 2 demo_limit_buy demo_hp demo_state_flat demo_limit_result
    (mkMoney 150000000) Hx Hc) as [H _].
  exact (proj1 (H (mkMoney 148000000) eq_refl eq_refl)).
Defined.

(** A stop-loss or take-profit order whose source fill is no longer active is
    never filled, so no position is closed twice. *)
Theorem inactive_exit_order_rejected create_uuid n order hp st uuid :
  Order_is_exit_order_ order = true -> Order_source_fill_uuid_ order = Some uuid ->
  active_buy_fills_ st !! uuid = None -> active_sell_fills_ st !! uuid = None ->
  exists message, execute_order create_uuid n order hp st = Ret (ExecutionResult_Error message, n).
Proof.
  intros He Hs Hb Hsell. unfold execute_order. rewrite He, Hs. unfold fill_still_active, map_has.
  rewrite Hb, Hsell. cbn [negb orb andb].
  destruct (dleb _ _); [eauto|]. destruct (has_symbol_prices _ _); cbn [negb]; [|eauto].
  destruct (has_symbol_volume _ _); cbn [negb]; eauto.
Qed.

Lemma inactive_exit_order_rejected_witness :
  exists message, execute_order demo_uuid 4 (Order_as_exit demo_sell "gone") demo_hp demo_state_long
    = Ret (ExecutionResult_Error message, 4%nat).
Proof.
  apply (inactive_exit_order_rejected demo_uuid 4 (Order_as_exit demo_sell "gone") demo_hp demo_state_long "gone");
    vm_compute; reflexivity.
Defined.

(** C37: one execution settles at most the configured share of the bar's volume and at
    most the order's quantity.  Capped, the order put back is the same order for the
    quantity above the cap, whenever that is positive; not capped, nothing is put back.
    With whole shares the settled quantity is then rounded down, and the fraction lost
    there is neither filled nor put back. *)
Theorem volume_cap_respected create_uuid n n' order hp st r pct volume :
  execute_order create_uuid n order hp st = Ret (ExecutionResult_Success r, n') ->
  fill_max_pct_of_volume_ hp = Some pct -> current_bar_volumes_ st !! Order_symbol_ order = Some volume ->
  let q := Order_quantity_ order in
  let cap := dmul (d_of_Z volume) pct in
  let q0 := if dltb cap q then cap else q in
  Fill_quantity_ (ExecutionResultSuccess_fill_ r) =
    (if value_or (allow_fractional_shares_ hp) false then q0 else dfloor q0) /\
  dltb cap q0 = false /\ dltb q q0 = false /\
  ExecutionResultSuccess_partial_order_ r =
    (if dltb cap q && dltb dzero (dsub q cap)
     then Some (Order_with_quantity order (dsub q cap) (current_timestamp_ns_ st)) else None).
Proof.
  intros (q0 & rem & p & Hf)%execute_order_success_inv Hpct Hvol q cap.
  pose proof (sf_quantities _ _ _ _ _ _ _ _ _ _ Hf) as Hq.
  unfold get_fillable_and_remaining_quantities, get_symbol_volume, map_at in Hq.
  rewrite Hpct, Hvol in Hq. cbn [obind] in Hq. fold cap q in Hq.
  rewrite (sf_result _ _ _ _ _ _ _ _ _ _ Hf). cbn.
  destruct (dltb cap q) eqn:Hlt; injection Hq as <- <-; cbn [andb].
  - split_and!; [by unfold settled_quantity|apply dltb_irrefl|by apply dleb_not_dltb, dltb_dleb|done].
  - split_and!; [by unfold settled_quantity|done|apply dltb_irrefl|done].
Qed.

Definition demo_capped_result : ExecutionResultSuccess :=
  default demo_result (result_of (Order_make (d_of_Z 600) 0 "AAPL" BUY MARKET None None None) demo_capped_hp 0
    demo_state_flat).

(** Six hundred shares with a cap of half the bar's thousand: a hundred are put back. *)
Lemma volume_cap_respected_witness :
  Fill_quantity_ (ExecutionResultSuccess_fill_ demo_capped_result) = d_of_Z 500 /\
  (Order_quantity_ <$> ExecutionResultSuccess_partial_order_ demo_capped_result) = Some (d_of_Z 100).
Proof.
  destruct (volume_cap_respected demo_uuid 0 2 (Order_make (d_of_Z 600) 0 "AAPL" BUY MARKET None None None)
    demo_capped_hp demo_state_flat demo_capped_result (ddiv (d_of_Z 1) (d_of_Z 2)) 1000) as (H1 & _ & _ & H4);
    [vm_compute; reflexivity..|].
  rewrite H1, H4. split; vm_compute; reflexivity.
Defined.
