(* ===== verification/PortfolioProps.v ===== *)
(** * Positions, equity curve and the corner cases of trade accounting *)
From Stdlib Require Import ZArith Lia SpecFloat.
From stdpp Require Import base tactics list gmap strings sorting.
From S2P Require Import Prelude Double Money Manifest Abi StockApi Models State Equity StateOps StateInv MarginAccounts.
From S2P Require Import Exchange PositionCalc Executor ExecutorSpec EngineInv EngineRun Scenario ExecutorProps.
Open Scope Z_scope.

(** ** Positions *)

(** A quantity closer to zero than [EPSILON] counts as flat. *)
Definition snap (q : double) : double := if dltb (dabs q) EPSILON then dzero else q.

Lemma snap_flat q : deqb (snap q) dzero = true -> snap q = dzero.
Proof.
  unfold snap. destruct (dltb (dabs q) EPSILON) eqn:H; [done|]. intros Hz. exfalso.
  destruct q as [b|b| |b m e]; try done; by destruct b.
Qed.

(** C38: filling a buy (sell) order moves the held quantity of its symbol up (down) by
    the filled quantity, a result closer to zero than [EPSILON] becoming flat; a flat
    position is not kept in the map, and no other symbol's position changes. *)
Theorem trade_moves_position create_uuid n n' order hp st r :
  State_wf st ->
  execute_order create_uuid n order hp st = Ret (ExecutionResult_Success r, n') ->
  Order_is_trade order = true ->
  let held := held_quantity st (Order_symbol_ order) in
  let q := Fill_quantity_ (ExecutionResultSuccess_fill_ r) in
  let target := snap (if Order_is_buy order then dadd held q else dsub held q) in
  held_quantity (update_state r st) (Order_symbol_ order) = target /\
  (target = dzero -> positions_ (update_state r st) !! Order_symbol_ order = None) /\
  forall s, s <> Order_symbol_ order -> positions_ (update_state r st) !! s = positions_ st !! s.
Proof.
  intros Hwf Hx Ht held q target.
  destruct (executed_facts _ _ _ _ _ _ _ Hx) as [_ _ _ _ _ Ep]. fold q in Ep.
  destruct (update_state_fields r st) as (_ & _ & _ & _ & Epos & _).
  pose proof (calculate_position_symbol order q (Fill_price_ (ExecutionResultSuccess_fill_ r)) st Hwf) as Es.
  rewrite <- Ep in Es.
  assert (Position_quantity_ (ExecutionResultSuccess_position_ r) = target) as Eq.
  { rewrite Ep. unfold calculate_position, target, snap, held, held_quantity, get_symbol_position_or.
    unfold Order_is_trade in Ht. destruct (Order_is_buy order); [|simpl in Ht; rewrite Ht];
      destruct (positions_ st !! Order_symbol_ order); simpl; by case_match. }
  unfold held_quantity. rewrite Epos. unfold update_positions. rewrite Es, Eq.
  destruct (deqb target dzero) eqn:Hz.
  - assert (target = dzero) as E0 by by apply snap_flat. rewrite lookup_delete_eq.
    split_and!; [done|done|]. intros s Hs. by rewrite lookup_delete_ne.
  - rewrite lookup_insert_eq. split_and!; [done| |intros s Hs; by rewrite lookup_insert_ne].
    intros E. rewrite E in Hz. done.
Qed.

Lemma trade_moves_position_witness :
  positions_ (update_state demo_close demo_state_long) !! "AAPL" = None.
Proof.
  destruct (trade_moves_position demo_uuid 2 4 demo_sell demo_hp demo_state_long demo_close
    demo_state_long_wf demo_closed eq_refl) as (_ & H & _).
  apply H. vm_compute. reflexivity.
Defined.

(** ** A trade that crosses through flat *)

(** When a fill closes the whole position and opens the opposite one, the lot it
    opens is recorded with only the opened fraction of the margin that was computed
    for the opened quantity and charged to cash in full: the margin is scaled by
    open / filled a second time. *)
Theorem flip_trade_scales_margin_twice create_uuid n n' order hp st r :
  State_wf st -> create_uuid (S n) ∉ fill_uuids st ->
  execute_order create_uuid n order hp st = Ret (ExecutionResult_Success r, n') ->
  let f := ExecutionResultSuccess_fill_ r in
  let q := Fill_quantity_ f in
  let held := held_quantity st (Order_symbol_ order) in
  fill_reduces r st = true -> dltb (dabs held) q = true -> dltb EPSILON (dsub q (dabs held)) = true ->
  let opened := dsub q (dabs held) in
  let released := margin_released (active_margin_for_fills_ st) (update_plan r st) in
  margin_in_use_ (update_state r st)
    = (margin_in_use_ st - released + ExecutionResultSuccess_margin_used_ r *$ ddiv opened q)%money /\
  ExecutionResultSuccess_margin_used_ r = margin_required hp order q (Fill_price_ f) st.
Proof.
  intros Hwf Hu Hx f q held Hred Hlt Hop opened released.
  pose proof (executed_wf _ _ _ _ _ _ _ Hwf Hu Hx) as Hr.
  destruct (executed_facts _ _ _ _ _ _ _ Hx) as [Es _ _ Em _ _]. split; [|exact Em]. fold f in Es.
  rewrite (update_state_margin_in_use r st Hwf Hr). fold f. fold released.
  unfold populate_active_fills. rewrite Hred, Es. fold held. unfold dmin. fold q. rewrite Hlt. cbn [negb].
  rewrite Hop. cbn [snd]. done.
Qed.

(** Long ten at 150, then twenty sold at 160: a short of ten opens.  Its margin of
    1600 dollars is taken from cash, but only 800 dollars are recorded as in use. *)
Definition demo_flip_order : Order := Order_make (d_of_Z 20) 0 "AAPL" SELL MARKET None None None.
Definition demo_flip : ExecutionResultSuccess :=
  default demo_result (result_of demo_flip_order demo_hp 2 demo_state_long).

Lemma flip_trade_scales_margin_twice_witness :
  ExecutionResultSuccess_margin_used_ demo_flip = mkMoney 1600000000 /\
  margin_in_use_ (update_state demo_flip demo_state_long) = mkMoney 800000000.
Proof.
  assert (execute_order demo_uuid 2 demo_flip_order demo_hp demo_state_long
    = Ret (ExecutionResult_Success demo_flip, 4%nat)) as Hx by (vm_compute; reflexivity).
  destruct (flip_trade_scales_margin_twice demo_uuid 2 4 demo_flip_order demo_hp demo_state_long demo_flip
    demo_state_long_wf demo_long_fresh Hx) as [H1 H2]; [vm_compute; reflexivity..|].
  rewrite H1. split; vm_compute; reflexivity.
Defined.

(** ** Orders that are neither buys nor sells *)

(** An order whose action is neither "buy" nor "sell" is not rejected: it can fill,
    costs no cash (neither margin nor commission), and is recorded as a fill under that
    action. *)
Theorem unknown_action_fills_for_free create_uuid n n' order hp st r :
  State_wf st ->
  execute_order create_uuid n order hp st = Ret (ExecutionResult_Success r, n') ->
  Order_is_trade order = false ->
  cash_ (update_state r st) = cash_ st /\
  fills_ (update_state r st) = fills_ st ++ [ExecutionResultSuccess_fill_ r] /\
  Fill_action_ (ExecutionResultSuccess_fill_ r) = Order_action_ order.
Proof.
  intros Hwf Hx Ht. destruct (executed_facts _ _ _ _ _ _ _ Hx) as [_ Ea _ _ Ec _].
  destruct (update_state_fields r st) as (Ecash & Ef & _).
  unfold Order_is_trade in Ht. apply orb_false_iff in Ht as [Hb Hs].
  unfold calculate_cash_delta in Ec. rewrite Hb, Hs in Ec.
  split_and!; [|done|done]. rewrite Ecash, Ec. apply Money_add_0_r, Hwf.
Qed.

Definition demo_hold_order : Order := Order_make (d_of_Z 10) 0 "AAPL" "hold" MARKET None None None.
Definition demo_hold : ExecutionResultSuccess :=
  default demo_result (result_of demo_hold_order demo_hp 0 demo_state_flat).

Lemma unknown_action_fills_for_free_witness :
  cash_ (update_state demo_hold demo_state_flat) = cash_ demo_state_flat /\
  margin_in_use_ (update_state demo_hold demo_state_flat) = mkMoney 1500000000.
Proof.
  assert (execute_order demo_uuid 0 demo_hold_order demo_hp demo_state_flat
    = Ret (ExecutionResult_Success demo_hold, 2%nat)) as Hx by (vm_compute; reflexivity).
  split; [|vm_compute; reflexivity].
  exact (proj1 (unknown_action_fills_for_free demo_uuid 0 2 demo_hold_order demo_hp demo_state_flat demo_hold
    demo_state_flat_wf Hx eq_refl)).
Defined.

(** ** Signals *)

(** A signal for a symbol that has had no bar yet throws [std::out_of_range] out
    of the conversion, whatever the host parameters; with a price the conversion
    returns a market order for the signal's symbol and action. *)
Theorem signal_needs_a_price s hp st :
  (has_symbol_prices st (Signal_symbol_ s) = false ->
   signal_to_order s hp st = Throw (out_of_range "map::at")) /\
  (has_symbol_prices st (Signal_symbol_ s) = true ->
   exists o, signal_to_order s hp st = Ret o /\ Order_symbol_ o = Signal_symbol_ s /\
     Order_action_ o = Signal_action_ s /\ Order_is_limit_order o = false /\ Order_is_exit_order_ o = false).
Proof.
  unfold signal_to_order, calculate_signal_stop_loss_price, calculate_signal_take_profit_price,
    calculate_signal_position_size, get_symbol_close.
  split; intros Hp.
  - unfold has_symbol_prices, map_has in Hp.
    assert (map_at (current_bar_prices_ st) (Signal_symbol_ s) = Throw (out_of_range "map::at")) as ->
      by (unfold map_at; by destruct (current_bar_prices_ st !! Signal_symbol_ s)).
    cbn [obind]. by repeat case_match.
  - apply map_has_at in Hp as (p & _ & ->). cbn [obind].
    assert (forall (c1 c2 : outcome (option Money)) (c3 : outcome double) x y z,
      c1 = Ret x -> c2 = Ret y -> c3 = Ret z -> exists o,
      (let* a := c1 in let* b := c2 in let* c := c3 in
       Ret (Order_make c (current_timestamp_ns_ st) (Signal_symbol_ s) (Signal_action_ s) MARKET None a b)) = Ret o /\
      Order_symbol_ o = Signal_symbol_ s /\ Order_action_ o = Signal_action_ s /\
      Order_is_limit_order o = false /\ Order_is_exit_order_ o = false) as Hmk.
    { intros c1 c2 c3 x y z -> -> ->. eexists. split; [done|]. done. }
    repeat case_match; eapply Hmk; reflexivity.
Qed.

Lemma signal_needs_a_price_witness :
  signal_to_order (mkSignal 0 "MSFT" BUY) demo_hp demo_state_flat = Throw (out_of_range "map::at").
Proof. apply (signal_needs_a_price (mkSignal 0 "MSFT" BUY) demo_hp demo_state_flat). vm_compute. reflexivity. Defined.

(** ** The equity curve *)
Definition curve_times (st : State) : list Z := EquitySnapshot_timestamp_ns_ <$> equity_curve_ st.

Lemma record_snapshot_curve hp st :
  let st' := record_bar_equity_snapshot hp st in
  exists old s, equity_curve_ st' = old ++ [s] /\ EquitySnapshot_timestamp_ns_ s = current_timestamp_ns_ st /\
    EquitySnapshot_equity_ s = calculate_equity st /\ EquitySnapshot_max_drawdown_ s = max_drawdown_ st' /\
    (old = equity_curve_ st \/ exists back, equity_curve_ st = old ++ [back] /\
       EquitySnapshot_timestamp_ns_ back = current_timestamp_ns_ st) /\
    (forall back, last (equity_curve_ st) = Some back ->
       EquitySnapshot_timestamp_ns_ back = current_timestamp_ns_ st -> equity_curve_ st = old ++ [back]).
Proof.
  unfold record_bar_equity_snapshot. cbv zeta.
  set (st1 := if (calculate_equity st >? peak_equity_ st)%money then set_peak_equity (calculate_equity st) st else st).
  set (st2 := if dltb (max_drawdown_ st1) (calculate_max_drawdown st1 (calculate_equity st))
              then set_max_drawdown (calculate_max_drawdown st1 (calculate_equity st)) st1 else st1).
  assert (equity_curve_ st2 = equity_curve_ st /\ current_timestamp_ns_ st2 = current_timestamp_ns_ st) as [Ec Et]
    by (unfold st2, st1; by repeat case_match).
  rewrite Ec, Et. destruct (last (equity_curve_ st)) as [back|] eqn:Hl.
  - assert (equity_curve_ st = removelast (equity_curve_ st) ++ [back]) as Hc.
    { destruct (equity_curve_ st) as [|x l _] using rev_ind; [done|]. rewrite last_snoc in Hl. injection Hl as ->.
      by rewrite removelast_last. }
    destruct (Z.eqb_spec (EquitySnapshot_timestamp_ns_ back) (current_timestamp_ns_ st)) as [E|E].
    + exists (removelast (equity_curve_ st)), (refresh_snapshot back (calculate_equity st)
        (calculate_return hp (calculate_equity st)) (max_drawdown_ st2)).
      split_and!; try done. { right. by exists back. } intros b [= <-] _. done.
    + exists (equity_curve_ st), (fresh_snapshot st2 (calculate_equity st) (calculate_return hp (calculate_equity st))).
      split_and!; try done. { by left. } intros b [= <-]. done.
  - exists (equity_curve_ st), (fresh_snapshot st2 (calculate_equity st) (calculate_return hp (calculate_equity st))).
    split_and!; try done. by left.
Qed.

(** Recording a bar ends the curve with a snapshot of the bar's time, the
    current equity and the maximum drawdown; the peak is at least the equity and never
    falls, the recorded maximum drawdown never falls, and nothing else but the curve
    changes. *)
Theorem snapshot_records_equity hp st :
  let st' := record_bar_equity_snapshot hp st in
  (exists old s, equity_curve_ st' = old ++ [s] /\ EquitySnapshot_timestamp_ns_ s = current_timestamp_ns_ st /\
     EquitySnapshot_equity_ s = calculate_equity st /\ EquitySnapshot_max_drawdown_ s = max_drawdown_ st') /\
  (peak_equity_ st' >=? calculate_equity st)%money = true /\ (peak_equity_ st' >=? peak_equity_ st)%money = true /\
  dltb (max_drawdown_ st') (max_drawdown_ st) = false /\
  cash_ st' = cash_ st /\ margin_in_use_ st' = margin_in_use_ st /\ positions_ st' = positions_ st /\
  fills_ st' = fills_ st.
Proof.
  intros st'. destruct (record_snapshot_curve hp st) as (old & s & H1 & H2 & H3 & H4 & _). fold st' in H1, H4.
  destruct (record_snapshot_fields hp st) as (E1 & _ & _ & _ & E5 & _ & _ & E8 & E9 & _).
  assert (peak_equity_ st' = if (calculate_equity st >? peak_equity_ st)%money then calculate_equity st
    else peak_equity_ st) as Ep by (unfold st', record_bar_equity_snapshot; simpl; by repeat case_match).
  assert (dltb (max_drawdown_ st') (max_drawdown_ st) = false) as Hd.
  { unfold st', record_bar_equity_snapshot. cbv zeta.
    set (st1 := if (calculate_equity st >? peak_equity_ st)%money then set_peak_equity (calculate_equity st) st else st).
    assert (max_drawdown_ st1 = max_drawdown_ st) as E by (unfold st1; by case_match).
    destruct (dltb (max_drawdown_ st1) (calculate_max_drawdown st1 (calculate_equity st))) eqn:Hlt.
    - rewrite E in Hlt. assert (dltb (calculate_max_drawdown st1 (calculate_equity st)) (max_drawdown_ st) = false)
        by (by apply dleb_not_dltb, dltb_dleb). by repeat case_match.
    - assert (dltb (max_drawdown_ st1) (max_drawdown_ st) = false) by (rewrite E; apply dltb_irrefl).
      by repeat case_match. }
  split_and!; [by exists old, s| | |exact Hd|done..].
  - rewrite Ep. destruct (_ >? _)%money eqn:Hg; unfold Money_gt, Money_ge in *; lia.
  - rewrite Ep. destruct (_ >? _)%money eqn:Hg; unfold Money_gt, Money_ge in *; lia.
Qed.

(** C40: as long as bars arrive in time order the equity curve has strictly increasing
    times: bars of one timestamp (several symbols) share one snapshot. *)
Theorem equity_curve_strictly_ordered hp bar st :
  StronglySorted Z.lt (curve_times st) ->
  (forall t, t ∈ curve_times st -> t <= bar_unix_ts_ns_ bar) ->
  let st' := clear_previous_bar_state (record_bar_equity_snapshot hp (prepare_next_bar_state bar st)) in
  StronglySorted Z.lt (curve_times st') /\ forall t, t ∈ curve_times st' -> t <= bar_unix_ts_ns_ bar.
Proof.
  intros Hs Hle st'. set (st1 := prepare_next_bar_state bar st).
  destruct (record_snapshot_curve hp st1) as (old & s & Ec & Et & _ & _ & Hold & Hback).
  assert (curve_times st' = (EquitySnapshot_timestamp_ns_ <$> old) ++ [bar_unix_ts_ns_ bar]) as E.
  { unfold curve_times, st', clear_previous_bar_state. simpl. fold st1. rewrite Ec, fmap_app. simpl. by rewrite Et. }
  assert (forall t, t ∈ EquitySnapshot_timestamp_ns_ <$> old -> t < bar_unix_ts_ns_ bar) as Hlt.
  { destruct Hold as [->|(back & Hb & Htb)].
    - intros t Ht. pose proof (Hle t Ht). destruct (Z.eq_dec t (bar_unix_ts_ns_ bar)) as [->|]; [|lia]. exfalso.
      destruct (last (equity_curve_ st1)) as [back|] eqn:Hl.
      + assert (EquitySnapshot_timestamp_ns_ back = bar_unix_ts_ns_ bar) as Eb.
        { change (equity_curve_ st1) with (equity_curve_ st) in *. apply last_Some in Hl as [l Hl].
          unfold curve_times in Hs, Hle. rewrite Hl, fmap_app in Hs, Ht, Hle. simpl in Hs, Ht, Hle.
          apply elem_of_app in Ht as [Ht|Ht%list_elem_of_singleton]; [|done].
          assert (bar_unix_ts_ns_ bar < EquitySnapshot_timestamp_ns_ back).
          { eapply StronglySorted_app_1_elem_of; [exact Hs|done|apply list_elem_of_here]. }
          specialize (Hle (EquitySnapshot_timestamp_ns_ back)).
          rewrite elem_of_app, list_elem_of_singleton in Hle. lia. }
        specialize (Hback back eq_refl Eb). apply (f_equal length) in Hback.
        rewrite length_app in Hback. simpl in Hback. lia.
      + change (equity_curve_ st1) with (equity_curve_ st) in *. apply last_None in Hl.
        unfold curve_times in Ht. rewrite Hl in Ht. by apply not_elem_of_nil in Ht.
    - intros t Ht. change (equity_curve_ st1) with (equity_curve_ st) in Hb. unfold curve_times in Hs.
      rewrite Hb, fmap_app in Hs. change (current_timestamp_ns_ st1) with (bar_unix_ts_ns_ bar) in Htb. rewrite <- Htb.
      eapply StronglySorted_app_1_elem_of; [exact Hs|done|apply list_elem_of_here]. }
  rewrite E. split.
  - apply StronglySorted_app. split_and!; [by intros t1 t2 Ht1 ->%list_elem_of_singleton; apply Hlt| |repeat constructor].
    destruct Hold as [->|(back & Hb & _)]; [exact Hs|].
    change (equity_curve_ st1) with (equity_curve_ st) in Hb. unfold curve_times in Hs. rewrite Hb, fmap_app in Hs.
    by apply StronglySorted_app in Hs as (_ & ? & _).
  - intros t [Ht|Ht]%elem_of_app; [specialize (Hlt t Ht); lia|]. apply list_elem_of_singleton in Ht. lia.
Qed.

Lemma equity_curve_strictly_ordered_witness :
  StronglySorted Z.lt (curve_times (clear_previous_bar_state (record_bar_equity_snapshot demo_hp
    (prepare_next_bar_state (demo_bar 1000 150 145 155 1000) demo_state_flat)))).
Proof.
  apply (equity_curve_strictly_ordered demo_hp (demo_bar 1000 150 145 155 1000) demo_state_flat).
  - vm_compute. constructor.
  - intros t Ht. vm_compute in Ht. inversion Ht.
Defined.
