(* ===== verification/EngineProps.v ===== *)
(** * Properties of the back-test engine *)
From Stdlib Require Import ZArith Lia SpecFloat.
From stdpp Require Import base tactics list gmap strings.
From S2P Require Import Prelude Double Money Heap Manifest Abi StockApi Models State Equity StateOps StateInv.
From S2P Require Import MarginAccounts Exchange PositionCalc Executor ExecutorSpec ExitBook LimitBook AbiConverter.
From S2P Require Import Engine EngineInv EngineRun EngineTermination TradeInduction DataStore Forge Scenario.
Open Scope Z_scope.

(** ** A plugin: buy on the first bar, sell on the third *)
Definition demo_order_instruction (action : string) : CInstruction :=
  mkCInstruction INSTRUCTION_TYPE_ORDER (mkCSignal "" "")
    (mkCOrder "AAPL" action (d_of_Z 10) dzero INT64_MIN 140000000 170000000 "market").

Definition demo_answer (p : nat) : PluginResult :=
  mkPluginResult 0 None
    (match p with
     | 0%nat => [demo_order_instruction BUY]
     | 2%nat => [demo_order_instruction SELL]
     | _ => []
     end).

#[export] Instance demo_plugin : PluginLoader nat := {
  loader_on_bar _ _ p := Ret (demo_answer p, S p);
  loader_on_end p := Ret (mkPluginResult 0 None [], None, p);
  loader_free_string _ p := p;
  loader_get_host_params _ := demo_hp;
  loader_get_plugin_name _ := "demo"
}.

#[export] Instance demo_plugin_answers : LoaderAnswers (P := nat).
Proof. by split. Qed.

Definition demo_bars : list AggregateBarResult :=
  [demo_bar 1000 150 145 155 1000; demo_bar 2000 152 148 156 1000;
   demo_bar 3000 160 158 162 1000; demo_bar 4000 165 160 168 1000].

Definition demo_data (name : string) : outcome (list AggregateBarResult) := Ret demo_bars.

Definition demo_final : BackTestEngine :=
  match run demo_uuid demo_clock demo_data 5 (new_engine, 0%nat) with
  | Ret (e, _) => e
  | _ => new_engine
  end.

Lemma demo_run : run demo_uuid demo_clock demo_data 5 (new_engine, 0%nat) = Ret (demo_final, 4%nat).
Proof. vm_compute. reflexivity. Qed.

(** Bought at 152 on the second bar, sold at 165 on the fourth, two dollars of
    commission. *)
Example demo_final_cash : cash_ (state_ demo_final) = mkMoney (100000000000 + 130000000 - 2000000).
Proof. vm_compute. reflexivity. Qed.

(** C1: whatever the plugin answers and whatever the data, a backtest that ends leaves
    the engine consistent: fill identifiers are unique, the active lots, margins and
    exit orders name recorded fills, no empty position is stored, amounts are 64-bit,
    every limit order lies in the heap of its symbol and side, and every heap is in
    heap order. *)
Theorem run_keeps_invariant create_uuid `{!Inj (=) (=) create_uuid} clock {P} `{!PluginLoader P}
    data fuel (p p' : P) e' :
  in_int64 (initial_capital_ (loader_get_host_params p)) ->
  run create_uuid clock data fuel (new_engine, p) = Ret (e', p') -> Engine_wf create_uuid e'.
Proof.
  intros Hc. unfold run. intros (bars & _ & H)%obind_ret.
  apply obind_ret in H as ([e1 p1] & Hr & H). apply obind_ret in H as ([[res json] p2] & _ & H).
  destruct (negb _); [done|]. injection H as <- _.
  pose proof (run_bars_wf create_uuid clock _ _ _ _ _ _ _ (new_engine_wf create_uuid _ Hc) Hr) as []. by split.
Qed.

Lemma run_keeps_invariant_witness : Engine_wf demo_uuid demo_final.
Proof.
  apply (run_keeps_invariant demo_uuid demo_clock demo_data 5 0%nat 4%nat demo_final); [|apply demo_run].
  vm_compute. split; discriminate.
Defined.

(** C2: without a volume cap, and with a plugin that answers its calls, a backtest ends
    exactly when the call that hands it its bars ends: there is a number of loop rounds
    after which more rounds give the very same result, and that result is a return or an
    exception unless that call itself never ends (as the program's own
    [get_iterable_plugin_data] never does, see [get_iterable_plugin_data_deadlocks]). *)
Theorem run_terminates create_uuid `{!Inj (=) (=) create_uuid} clock {P} `{!PluginLoader P} `{!LoaderAnswers}
    data (p : P) :
  in_int64 (initial_capital_ (loader_get_host_params p)) ->
  fill_max_pct_of_volume_ (loader_get_host_params p) = None ->
  exists fuel, forall fuel', (fuel <= fuel')%nat ->
    run create_uuid clock data fuel' (new_engine, p) = run create_uuid clock data fuel (new_engine, p) /\
    (run create_uuid clock data fuel' (new_engine, p) = OutOfFuel <->
       data (loader_get_plugin_name p) = OutOfFuel).
Proof.
  intros Hc Hn. destruct (run_outcome_exists create_uuid clock data p Hc Hn) as [fuel Hf].
  exists fuel. intros fuel' Hle. split; [|by apply Hf].
  destruct (data (loader_get_plugin_name p)) as [bars|x|] eqn:Hd.
  - apply outcome_le_done; [by apply run_mono|]. intros E. by apply (Hf fuel ltac:(lia)) in E.
  - by rewrite !(run_without_bars create_uuid clock _ _ _ _ ltac:(intros ?; by rewrite Hd)), Hd.
  - by rewrite !(run_without_bars create_uuid clock _ _ _ _ ltac:(intros ?; by rewrite Hd)), Hd.
Qed.

(** The demo run returns; with a data call that never ends it does not. *)
Lemma run_terminates_witness :
  (exists fuel, run demo_uuid demo_clock demo_data fuel (new_engine, 0%nat) <> OutOfFuel) /\
  (exists fuel, run demo_uuid demo_clock (fun _ => OutOfFuel) fuel (new_engine, 0%nat) = OutOfFuel).
Proof.
  split.
  - destruct (run_terminates demo_uuid demo_clock demo_data 0%nat) as [fuel H];
      [vm_compute; split; discriminate|reflexivity|].
    exists fuel. intros E. apply (H fuel (le_n fuel)) in E. discriminate E.
  - destruct (run_terminates demo_uuid demo_clock (fun _ => OutOfFuel) 0%nat) as [fuel H];
      [vm_compute; split; discriminate|reflexivity|].
    exists fuel. by apply (H fuel (le_n fuel)).
Defined.

(** ** The phases of a bar *)
Definition demo_engine : BackTestEngine :=
  match ofold (run_bar demo_uuid demo_clock demo_hp 5)
          (set_state (prepare_initial_state demo_hp initial_state) new_engine, 0%nat) [demo_bar 1000 150 145 155 1000] with
  | Ret (e, _) => e
  | _ => new_engine
  end.

Lemma demo_engine_wf : Engine_wf demo_uuid demo_engine.
Proof.
  assert (ofold (run_bar demo_uuid demo_clock demo_hp 5)
    (set_state (prepare_initial_state demo_hp initial_state) new_engine, 0%nat) [demo_bar 1000 150 145 155 1000]
    = Ret (demo_engine, 1%nat)) as H by (vm_compute; reflexivity).
  refine (run_bars_wf demo_uuid demo_clock _ _ _ _ _ _ _ _ H). apply new_engine_wf. vm_compute. split; discriminate.
Qed.

(** After [execute_order_book] no queued market order is due at the bar's time,
    the engine's invariant holds and the bar's prices are untouched, also when partial
    fills were put back; without a volume cap the loop ends within the number of
    queued orders. *)
Theorem order_book_leaves_none_due create_uuid `{!Inj (=) (=) create_uuid} hp bar fuel e :
  Engine_wf create_uuid e ->
  (forall e', execute_order_book create_uuid bar hp fuel e = Ret e' ->
     Engine_wf create_uuid e' /\ prices_kept e e' /\ none_due bar e') /\
  (fill_max_pct_of_volume_ hp = None -> (length (order_book_ e) < fuel)%nat ->
     exists e', execute_order_book create_uuid bar hp fuel e = Ret e').
Proof.
  intros Hwf. split; [intros e'; by apply execute_order_book_spec|]. by apply execute_order_book_total.
Qed.

Lemma order_book_leaves_none_due_witness :
  exists e', execute_order_book demo_uuid (demo_bar 2000 152 148 156 1000) demo_hp 2 demo_engine = Ret e'.
Proof.
  apply (order_book_leaves_none_due demo_uuid demo_hp (demo_bar 2000 152 148 156 1000) 2 demo_engine demo_engine_wf);
    [reflexivity|]. vm_compute. lia.
Defined.

(** After [execute_limit_orders] no buy limit in the book reaches the bar's low and
    no sell limit reaches the bar's high, for every symbol with prices, also when
    partial fills were put back; without a volume cap the loops end within the size of
    the book. *)
Theorem limit_book_leaves_none_marketable create_uuid `{!Inj (=) (=) create_uuid} hp fuel e :
  Engine_wf create_uuid e ->
  (forall e', execute_limit_orders create_uuid hp fuel e = Ret e' ->
     Engine_wf create_uuid e' /\ prices_kept e e' /\
     (forall s low, get_symbol_low (state_ e') s = Ret low ->
        forall o, o ∈ limits_at (buy_limits_ (limit_order_book_ e')) s ->
          (low >? LimitBuyOrder_limit_price_ o)%money = true) /\
     (forall s high, get_symbol_high (state_ e') s = Ret high ->
        forall o, o ∈ limits_at (sell_limits_ (limit_order_book_ e')) s ->
          (high <? LimitSellOrder_limit_price_ o)%money = true)) /\
  (fill_max_pct_of_volume_ hp = None -> limit_fuel fuel (limit_order_book_ e) ->
     exists e', execute_limit_orders create_uuid hp fuel e = Ret e').
Proof.
  intros Hwf. split.
  - intros e' (H1 & H2 & H3 & H4)%execute_limit_orders_spec; [|done|done]. done.
  - by apply execute_limit_orders_total.
Qed.

Definition demo_limit_engine : BackTestEngine :=
  enqueued (Order_make (d_of_Z 10) 0 "AAPL" BUY LIMIT (Some (mkMoney 149000000)) None None) demo_hp
    (set_state (prepare_next_bar_state (demo_bar 2000 152 148 156 1000) (state_ demo_engine)) demo_engine).

Lemma limit_book_leaves_none_marketable_witness :
  exists e', execute_limit_orders demo_uuid demo_hp 3 demo_limit_engine = Ret e' /\ Engine_wf demo_uuid e'.
Proof.
  destruct (limit_book_leaves_none_marketable demo_uuid demo_hp 3 demo_limit_engine) as [H _].
  { apply enqueued_wf. apply prepare_bar_wf, demo_engine_wf. }
  eexists. split; [vm_compute; reflexivity|]. apply H. vm_compute. reflexivity.
Defined.

(** [execute_exit_orders] always returns, keeps the engine's invariant, and leaves
    no stop-loss or take-profit order in the book that the bar's low or high triggers. *)
Theorem exit_orders_leave_none_triggered create_uuid `{!Inj (=) (=) create_uuid} hp e :
  Engine_wf create_uuid e ->
  exists e', execute_exit_orders create_uuid hp e = Ret e' /\ Engine_wf create_uuid e' /\ prices_kept e e' /\
    (forall o, o ∈ stop_loss_heap_ (exit_order_book_ e') -> stop_loss_triggers (state_ e') o = Ret false) /\
    (forall o, o ∈ take_profit_heap_ (exit_order_book_ e') -> take_profit_triggers (state_ e') o = Ret false).
Proof.
  intros Hwf. destruct (execute_exit_orders_total create_uuid hp e Hwf) as (e' & H1 & H2 & H3 & H4 & H5).
  by exists e'.
Qed.

Lemma exit_orders_leave_none_triggered_witness :
  exists e', execute_exit_orders demo_uuid demo_hp demo_engine = Ret e' /\ Engine_wf demo_uuid e'.
Proof.
  destruct (exit_orders_leave_none_triggered demo_uuid demo_hp demo_engine demo_engine_wf) as (e' & H1 & H2 & _).
  exists e'. split; assumption.
Defined.

(** C4: without a volume cap the three phases of a bar end, with any sufficient fuel in
    the same engine, and leave nothing in any book that this bar could execute: no queued
    order is due, no buy limit reaches the low and no sell limit the high, no stop loss or
    take profit is triggered. *)
Theorem bar_leaves_nothing_executable create_uuid `{!Inj (=) (=) create_uuid} hp bar e :
  Engine_wf create_uuid e -> fill_max_pct_of_volume_ hp = None ->
  exists fuel e1 e2 e3,
    (forall fuel', (fuel <= fuel')%nat ->
       execute_order_book create_uuid bar hp fuel' e = Ret e1 /\
       execute_limit_orders create_uuid hp fuel' e1 = Ret e2) /\
    execute_exit_orders create_uuid hp e2 = Ret e3 /\ Engine_wf create_uuid e3 /\ prices_kept e e3 /\
    (forall o, o ∈ order_book_ e3 -> bar_unix_ts_ns_ bar < ScheduledOrder_scheduled_fill_at_ns_ o) /\
    (forall s low, get_symbol_low (state_ e3) s = Ret low ->
       forall o, o ∈ limits_at (buy_limits_ (limit_order_book_ e3)) s ->
         (low >? LimitBuyOrder_limit_price_ o)%money = true) /\
    (forall s high, get_symbol_high (state_ e3) s = Ret high ->
       forall o, o ∈ limits_at (sell_limits_ (limit_order_book_ e3)) s ->
         (high <? LimitSellOrder_limit_price_ o)%money = true) /\
    (forall o, o ∈ stop_loss_heap_ (exit_order_book_ e3) -> stop_loss_triggers (state_ e3) o = Ret false) /\
    (forall o, o ∈ take_profit_heap_ (exit_order_book_ e3) -> take_profit_triggers (state_ e3) o = Ret false).
Proof.
  intros Hwf Hn.
  destruct (execute_order_book_total create_uuid hp bar (S (length (order_book_ e))) e Hwf Hn ltac:(lia)) as [e1 H1].
  pose proof (execute_order_book_spec _ _ _ _ _ _ Hwf H1) as (Hwf1 & _).
  destruct (limit_fuel_exists (limit_order_book_ e1)) as [n Hlf].
  destruct (execute_limit_orders_total create_uuid hp n e1 Hwf1 Hn Hlf) as [e2 H2].
  assert (forall fuel', (S (length (order_book_ e)) + n <= fuel')%nat ->
    execute_order_book create_uuid bar hp fuel' e = Ret e1 /\ execute_limit_orders create_uuid hp fuel' e1 = Ret e2) as Hfuel.
  { intros fuel' Hf. split; [rewrite <- H1|rewrite <- H2]; apply outcome_le_done;
      [apply execute_order_book_mono; lia|by rewrite H1|apply execute_limit_orders_mono; lia|by rewrite H2]. }
  destruct (Hfuel _ ltac:(reflexivity)) as [H1' H2'].
  destruct (phases_leave_nothing create_uuid hp Hn bar _ e e1 e2 Hwf H1' H2')
    as (e3 & H3 & Hwf3 & Hp & Hdue & Hbuy & Hsell & Hstop & Htake).
  by exists (S (length (order_book_ e)) + n)%nat, e1, e2, e3.
Qed.

(** On the second bar the queued purchase is executed. *)
Lemma bar_leaves_nothing_executable_witness :
  exists fuel e1 e2 e3,
    execute_order_book demo_uuid (demo_bar 2000 152 148 156 1000) demo_hp fuel demo_engine = Ret e1 /\
    execute_limit_orders demo_uuid demo_hp fuel e1 = Ret e2 /\ execute_exit_orders demo_uuid demo_hp e2 = Ret e3 /\
    forall o, o ∈ order_book_ e3 -> 2000 < ScheduledOrder_scheduled_fill_at_ns_ o.
Proof.
  destruct (bar_leaves_nothing_executable demo_uuid demo_hp (demo_bar 2000 152 148 156 1000) demo_engine demo_engine_wf
    eq_refl) as (fuel & e1 & e2 & e3 & Hf & H3 & _ & _ & Hdue & _).
  destruct (Hf fuel ltac:(reflexivity)) as [H1 H2]. exists fuel, e1, e2, e3.
  exact (conj H1 (conj H2 (conj H3 Hdue))).
Defined.

(** Reducing the exit orders of a closed lot acts on each order of both heaps on
    its own: those of another lot stay, those of the lot lose the closed quantity, and
    those with nothing left are dropped; both heaps stay in heap order. *)
Theorem reduce_exit_orders_pointwise fill_uuid quantity_sold b :
  let b' := reduce_exit_orders_by_fill_uuid fill_uuid quantity_sold b in
  stop_loss_heap_ b' ≡ₚ omap (reduce_stop_loss fill_uuid quantity_sold) (stop_loss_heap_ b) /\
  take_profit_heap_ b' ≡ₚ omap (reduce_take_profit fill_uuid quantity_sold) (take_profit_heap_ b) /\
  ExitOrderBook_ok b'.
Proof.
  destruct (reduce_by_uuid_perm fill_uuid quantity_sold b) as [H1 H2].
  split_and!; [done|done|apply reduce_by_uuid_ok].
Qed.

(** ** The plugin boundary *)

(** The state handed to a plugin is faithful: cash as micro-dollars, exactly one
    entry per held position with its quantity and its average price in dollars, in
    symbol order, the bar's new fills and exit orders and the whole equity curve in
    order, each count being the number of entries. *)
Theorem plugin_sees_the_state st :
  let c := to_c_state st in
  CState_cash_ c = microdollars_ (cash_ st) /\
  (forall p, p ∈ CState_positions_ c <-> exists q, positions_ st !! CPosition_symbol_ p = Some q /\
     CPosition_quantity_ p = Position_quantity_ q /\
     CPosition_average_price_ p = to_dollars (Position_average_price_ q)) /\
  NoDup (CPosition_symbol_ <$> CState_positions_ c) /\
  CState_positions_count_ c = size (positions_ st) /\
  CFill_uuid_ <$> CState_new_fills_ c = (Fill_uuid_ <$> new_fills_ st) /\
  CState_new_fills_count_ c = length (new_fills_ st) /\
  CState_new_exit_orders_count_ c = length (new_exit_orders_ st) /\
  CEquitySnapshot_timestamp_ns_ <$> CState_equity_curve_ c = (EquitySnapshot_timestamp_ns_ <$> equity_curve_ st) /\
  CState_equity_curve_count_ c = length (equity_curve_ st).
Proof.
  intros c. subst c. unfold to_c_state. simpl. split_and!.
  - done.
  - intros p. apply to_c_positions_elem.
  - rewrite to_c_positions_symbols. apply map_in_order_NoDup.
  - unfold to_c_positions. by rewrite length_fmap, map_in_order_length.
  - unfold to_c_fills. by rewrite <- list_fmap_compose.
  - apply length_fmap.
  - apply length_fmap.
  - unfold to_c_equity_snapshots. by rewrite <- list_fmap_compose.
  - apply length_fmap.
Qed.

(** An order instruction becomes an order with the plugin's symbol, action, type
    and quantity; each price is absent exactly when it is the sentinel [INT64_MIN], the
    leverage exactly when it is not positive; it is never an exit order.  A tag that is
    neither signal nor order throws. *)
Theorem instruction_conversion now c :
  (CInstruction_type_ c = INSTRUCTION_TYPE_ORDER ->
   exists o, to_instruction now c = Ret (Instruction_Order o) /\
     let i := CInstruction_order_ c in
     Order_symbol_ o = COrder_symbol_ i /\ Order_action_ o = COrder_action_ i /\
     Order_order_type_ o = COrder_order_type_ i /\ Order_quantity_ o = COrder_quantity_ i /\
     (Order_limit_price_ o = None <-> COrder_limit_price_ i = INT64_MIN) /\
     (Order_stop_loss_price_ o = None <-> COrder_stop_loss_price_ i = INT64_MIN) /\
     (Order_take_profit_price_ o = None <-> COrder_take_profit_price_ i = INT64_MIN) /\
     (Order_leverage_ o = None <-> dleb (COrder_leverage_ i) dzero = true) /\
     Order_is_exit_order_ o = false) /\
  (CInstruction_type_ c <> INSTRUCTION_TYPE_ORDER -> CInstruction_type_ c <> INSTRUCTION_TYPE_SIGNAL ->
   to_instruction now c = Throw (runtime_error "Invalid instruction type")).
Proof.
  assert (forall p, trigger_price p = None <-> p = INT64_MIN) as Ht.
  { intros p. unfold trigger_price, NULL_MARKET_TRIGGER_PRICE. destruct (Z.eqb_spec p INT64_MIN); split; congruence. }
  unfold to_instruction. split.
  - intros ->. eexists. split; [reflexivity|]. cbv zeta. simpl. rewrite !Ht. split_and!; try done.
    destruct (dleb (COrder_leverage_ (CInstruction_order_ c)) dzero); split; congruence.
  - intros H1 H2. apply Z.eqb_neq in H1, H2. by rewrite H1, H2.
Qed.

Lemma instruction_conversion_witness :
  exists o, to_instruction 7 (demo_order_instruction BUY) = Ret (Instruction_Order o) /\ Order_limit_price_ o = None.
Proof.
  destruct (instruction_conversion 7 (demo_order_instruction BUY)) as [H _].
  destruct (H eq_refl) as (o & Ho & _ & _ & _ & _ & Hl & _). exists o. split; [exact Ho|]. apply Hl. reflexivity.
Defined.

(** ** A bar without volume *)

(** Long ten shares, five of them to be sold, on a bar with no volume, with fills
    capped at half the volume and fractional shares: the state after any number of
    empty fills. *)
Definition stuck_state (fills new_fills : list Fill) : State :=
  set_new_fills new_fills
    (set_fills fills
      (prepare_next_bar_state (demo_bar 2000 160 150 165 0) (after_order demo_buy demo_hp 0 demo_state_flat))).

Definition stuck_order (created_at : Z) : ScheduledOrder :=
  mkScheduledOrder (Order_make (d_of_Z 5) created_at "AAPL" SELL MARKET None None None) 2000.

Definition stuck_engine (n : nat) (fills new_fills : list Fill) (created_at : Z) : BackTestEngine :=
  mkBackTestEngine (stuck_state fills new_fills) [stuck_order created_at] (mkExitOrderBook [] [])
    (mkLimitOrderBook ∅ ∅) (mkBackTestReport "" "") n 0.

Lemma stuck_step n fills new_fills created_at :
  exists f, execute_and_handle demo_uuid demo_capped_hp (ScheduledOrder_order_ (stuck_order created_at))
    (set_order_book [] (stuck_engine n fills new_fills created_at))
  = Ret (stuck_engine (S (S n)) (fills ++ [f]) (new_fills ++ [f]) 2000).
Proof.
  exists (Fill_make (demo_uuid (S n)) "AAPL" SELL dzero (mkMoney 160000000) 2000 (d_of_Z 1) (0)%money).
  destruct fills; vm_compute; reflexivity.
Qed.

(** With fractional shares allowed and fills capped by volume, a bar without
    volume never ends: the order is filled with quantity zero, put back due at the
    same bar, and taken again, whatever the number of rounds. *)
Theorem zero_volume_bar_never_ends fuel n fills new_fills created_at :
  execute_order_book demo_uuid (demo_bar 2000 160 150 165 0) demo_capped_hp fuel
    (stuck_engine n fills new_fills created_at) = OutOfFuel.
Proof.
  revert n fills new_fills created_at. induction fuel as [|fuel IH]; intros n fills new_fills created_at; [done|].
  cbn [execute_order_book]. change (MinHeap_top (order_book_ (stuck_engine n fills new_fills created_at)))
    with (Some (stuck_order created_at)). cbv iota beta.
  change (MinHeap_pop (order_book_ (stuck_engine n fills new_fills created_at))) with (@nil ScheduledOrder).
  change (bar_unix_ts_ns_ (demo_bar 2000 160 150 165 0) <? _) with false. cbv iota.
  destruct (stuck_step n fills new_fills created_at) as [f Hf]. rewrite Hf. cbn [obind]. apply IH.
Qed.

(** ** The surrounding job *)

(** No plugin's job ever completes: without data it throws, and with data the
    backtest waits for ever for its bars. *)
Theorem plugin_job_never_completes `{StdContainers} create_uuid clock {P} `{PluginLoader P} fuel ds rs (p : P) :
  mutex_held ds = false ->
  run_plugin_job create_uuid clock fuel ds rs p =
  match bars_ ds !! loader_get_plugin_name p with
  | Some _ => OutOfFuel
  | None => Throw (runtime_error "Plugin data not found, exiting simulation...")
  end.
Proof.
  intros Hm. unfold run_plugin_job, has_plugin_data, with_lock. rewrite Hm. cbn [obind].
  change (bars_ (set_mutex true ds)) with (bars_ ds).
  destruct (bars_ ds !! loader_get_plugin_name p) as [m|]; [|done].
  rewrite bool_decide_true by by eexists. cbn [negb]. unfold run.
  set (ds' := set_mutex false (set_mutex true ds)).
  by rewrite (proj1 (iterable_blocks (loader_get_plugin_name p) ds')).
Qed.

Lemma plugin_job_never_completes_witness :
  @run_plugin_job demo_containers demo_uuid demo_clock nat demo_plugin 5
    (mkDataStore false {[ "demo" := {[ "AAPL" := demo_agg demo_bars ]} ]} ∅) (mkReportStore ∅ ∅) 0%nat = OutOfFuel.
Proof.
  rewrite (@plugin_job_never_completes demo_containers demo_uuid demo_clock nat demo_plugin 5
    (mkDataStore false {[ "demo" := {[ "AAPL" := demo_agg demo_bars ]} ]} ∅) (mkReportStore ∅ ∅) 0%nat eq_refl).
  vm_compute. reflexivity.
Defined.
