(* ===== verification/Ledger.v ===== *)
(** * The ledger of a backtest

    A whole run, with any plugin and data, is a sequence of trades: successful
    executions, each applied to the state that the trades before it left.  The cash,
    the margin and the fill history at the end are the sums over that sequence. *)
From Stdlib Require Import ZArith Lia.
From stdpp Require Import base tactics list gmap strings.
From S2P Require Import Prelude Double Money Heap Manifest Abi StockApi Models State Equity StateOps StateInv.
From S2P Require Import MarginAccounts Exchange PositionCalc Executor ExecutorSpec ExitBook LimitBook Engine.
From S2P Require Import EngineInv EngineRun EngineTermination TradeInduction Scenario ExecutorProps EngineProps.
Open Scope Z_scope.

(** One trade: the state it met, the order, the result. *)
Record trade : Type := mkTrade {
  trade_before : State;
  trade_draws : nat;
  trade_order : Order;
  trade_result : ExecutionResultSuccess
}.

Definition trade_fill (t : trade) : Fill := ExecutionResultSuccess_fill_ (trade_result t).
Definition trade_after (t : trade) : State := update_state (trade_result t) (trade_before t).

(** Sums in micro-dollars. *)
Definition total (f : trade -> Z) (ts : list trade) : Z := foldr (fun t acc => f t + acc) 0 ts.

Lemma total_snoc f ts t : total f (ts ++ [t]) = total f ts + f t.
Proof. unfold total. induction ts as [|x ts IH]; simpl; [lia|]. rewrite IH. lia. Qed.

Definition trade_cash (t : trade) : Z := microdollars_ (ExecutionResultSuccess_cash_delta_ (trade_result t)).

(** The residues the trade makes the program forget. *)
Definition trade_dust (t : trade) : Z :=
  plan_dust (active_margin_for_fills_ (trade_before t)) (update_plan (trade_result t) (trade_before t)).

(** The profit or loss of the lots the trade closes, oldest first. *)
Definition trade_pnl (t : trade) : Z :=
  if fill_reduces (trade_result t) (trade_before t) then
    microdollars_ (plan_pnl (trade_order t) (Fill_price_ (trade_fill t))
      (closing_plan (order_closes (trade_order t)) (Order_symbol_ (trade_order t))
         (Fill_quantity_ (trade_fill t)) (trade_before t)) (0)%money)
  else 0.

Section Ledger.
Context (create_uuid : nat -> string) (hp : HostParams).

Definition trade_commission (t : trade) : Z :=
  microdollars_ (commission_of hp (trade_order t) (Fill_quantity_ (trade_fill t))
    (Fill_price_ (trade_fill t)) (trade_before t)).

Record trade_done (t : trade) : Prop := {
  td_wf : State_wf (trade_before t);
  td_fresh : create_uuid (S (trade_draws t)) ∉ fill_uuids (trade_before t);
  td_executed : exists n', execute_order create_uuid (trade_draws t) (trade_order t) hp (trade_before t)
    = Ret (ExecutionResult_Success (trade_result t), n')
}.

(** A buy or sell that either opens or closes, with a quantity that is a number. *)
Definition trade_plain (t : trade) : Prop :=
  Order_is_trade (trade_order t) = true /\
  (plain_opening (trade_order t) (trade_before t) (trade_result t) \/
   plain_closing (trade_order t) (trade_before t) (trade_result t)).

(** [ledger ts st st']: the accounts of [st] become those of [st'] by the trades
    [ts], in this order, and by nothing else. *)
Inductive ledger : list trade -> State -> State -> Prop :=
  | ledger_start st st' : accounts st' = accounts st -> ledger [] st st'
  | ledger_trade ts st t st' :
      ledger ts st (trade_before t) -> trade_done t -> accounts st' = accounts (trade_after t) ->
      ledger (ts ++ [t]) st st'.

Lemma ledger_accounts ts st st1 st2 : accounts st2 = accounts st1 -> ledger ts st st1 -> ledger ts st st2.
Proof.
  intros E H. revert E. destruct H as [s s' E'|ts' s t s' H1 H2 H3]; intros E;
    [apply ledger_start|eapply ledger_trade; [done..|]]; congruence.
Qed.

Lemma trade_done_wf t : trade_done t -> Result_wf (trade_before t) (trade_result t).
Proof. intros [Hwf Hu [n' Hx]]. by apply (executed_wf _ _ _ _ _ _ _ Hwf Hu Hx). Qed.

(** What an equal account says. *)
Lemma accounts_facts st st' :
  accounts st' = accounts st ->
  fills_ st' = fills_ st /\ cash_ st' = cash_ st /\ margin_in_use_ st' = margin_in_use_ st /\
  margin_drift st' = margin_drift st.
Proof. intros E. injection E as E1 E2 E3 _ _ E4 _ _. unfold margin_drift. by rewrite E3, E4. Qed.

Lemma ledger_fills ts st st' : ledger ts st st' -> fills_ st' = fills_ st ++ (trade_fill <$> ts).
Proof.
  induction 1 as [st st' E|ts st t st' _ IH Ht E]; destruct (accounts_facts _ _ E) as (-> & _).
  - by rewrite app_nil_r.
  - destruct (update_state_fields (trade_result t) (trade_before t)) as (_ & Ef & _).
    unfold trade_after. by rewrite Ef, IH, fmap_app, app_assoc.
Qed.

Lemma ledger_cash ts st st' :
  Money_ok (cash_ st) -> ledger ts st st' ->
  microdollars_ (cash_ st') = wrap64 (microdollars_ (cash_ st) + total trade_cash ts).
Proof.
  intros Hok. induction 1 as [st st' E|ts st t st' _ IH Ht E]; destruct (accounts_facts _ _ E) as (_ & -> & _).
  - rewrite Z.add_0_r. symmetry. by apply wrap64_id.
  - destruct (update_state_fields (trade_result t) (trade_before t)) as (Ec & _).
    unfold trade_after. rewrite Ec, total_snoc. simpl. rewrite IH by done. unfold trade_cash. wrap64_solve.
Qed.

Lemma ledger_drift ts st st' :
  ledger ts st st' -> margin_drift st' = wrap64 (margin_drift st + total trade_dust ts).
Proof.
  induction 1 as [st st' E|ts st t st' _ IH Ht E]; destruct (accounts_facts _ _ E) as (_ & _ & _ & ->).
  - simpl. unfold margin_drift. wrap64_solve.
  - unfold trade_after. rewrite (update_state_drift _ _ (td_wf _ Ht) (trade_done_wf _ Ht)), IH, total_snoc.
    unfold trade_dust. wrap64_solve.
Qed.

Lemma plain_trade_net t :
  trade_done t -> trade_plain t ->
  wrap64 (microdollars_ (cash_ (trade_after t)) + microdollars_ (margin_in_use_ (trade_after t))) =
  wrap64 (microdollars_ (cash_ (trade_before t)) + microdollars_ (margin_in_use_ (trade_before t))
          + trade_pnl t - trade_commission t).
Proof.
  intros [Hwf Hu [n' Hx]] [Ht [Hp|Hp]]; unfold trade_after, trade_pnl, trade_commission, trade_fill.
  - pose proof (opening_conserves _ _ _ _ _ _ _ Hwf Hu Hx Ht Hp) as E. destruct Hp as (_ & _ & _ & -> & _).
    apply (f_equal microdollars_) in E. simpl in E. rewrite E. wrap64_solve.
  - pose proof (closing_conserves _ _ _ _ _ _ _ Hwf Hu Hx Ht Hp) as E. destruct Hp as (_ & _ & -> & _).
    apply (f_equal microdollars_) in E. simpl in E. rewrite E. wrap64_solve.
Qed.

Lemma ledger_conserves ts st st' :
  ledger ts st st' -> Forall trade_plain ts ->
  wrap64 (microdollars_ (cash_ st') + microdollars_ (margin_in_use_ st')) =
  wrap64 (microdollars_ (cash_ st) + microdollars_ (margin_in_use_ st)
          + total trade_pnl ts - total trade_commission ts).
Proof.
  induction 1 as [st st' E|ts st t st' _ IH Ht E]; destruct (accounts_facts _ _ E) as (_ & -> & -> & _).
  - intros _. simpl. wrap64_solve.
  - intros [Hts Hp]%Forall_app. rewrite Forall_singleton in Hp.
    rewrite (plain_trade_net t Ht Hp), !total_snoc.
    transitivity (wrap64 (wrap64 (microdollars_ (cash_ (trade_before t))
      + microdollars_ (margin_in_use_ (trade_before t))) + (trade_pnl t - trade_commission t)));
      [|rewrite (IH Hts)]; wrap64_solve.
Qed.
End Ledger.

(** C3: a backtest is its ledger.  With any plugin and data, the state at the end of a
    run comes from the initial capital by a sequence of trades, each a successful
    [execute_order] on the state the trades before it left; the fill history is the
    fills of these trades in order, and the cash is the capital plus their cash
    deltas.  The margin total is off the sum of the per-fill margins by the residues
    that closings forget, and by nothing else.  When every trade is a plain buy or
    sell, the cash and the margin together are the capital plus the realized profits
    less the commissions. *)
Theorem run_is_its_ledger create_uuid `{!Inj (=) (=) create_uuid} clock {P} `{!PluginLoader P}
    data fuel (p p' : P) e' :
  let hp := loader_get_host_params p in
  in_int64 (initial_capital_ hp) ->
  run create_uuid clock data fuel (new_engine, p) = Ret (e', p') ->
  exists trades,
    ledger create_uuid hp trades (prepare_initial_state hp initial_state) (state_ e') /\
    fills_ (state_ e') = (trade_fill <$> trades) /\
    microdollars_ (cash_ (state_ e')) = wrap64 (initial_capital_ hp + total trade_cash trades) /\
    margin_drift (state_ e') = wrap64 (total trade_dust trades) /\
    (Forall trade_plain trades ->
       wrap64 (microdollars_ (cash_ (state_ e')) + microdollars_ (margin_in_use_ (state_ e')))
       = wrap64 (initial_capital_ hp + total trade_pnl trades - total (trade_commission hp) trades)).
Proof.
  intros hp Hc. unfold run. fold hp. set (st0 := prepare_initial_state hp (state_ new_engine)).
  intros (bars & _ & H)%obind_ret. apply obind_ret in H as ([e1 p1] & Hr & H).
  apply obind_ret in H as ([[res json] p2] & _ & H). destruct (negb _); [done|]. injection H as <- _.
  assert (exists trades, ledger create_uuid hp trades st0 (state_ e1)) as [trades Hl].
  { refine (run_bars_keep create_uuid hp (fun st => exists trades, ledger create_uuid hp trades st0 st)
      _ _ clock _ _ _ _ _ _ (new_engine_wf create_uuid hp Hc) _ Hr).
    - intros st st' E [ts Hl]. exists ts. by eapply ledger_accounts.
    - intros n n' o st r Hwf Hu [ts Hl] Hx. exists (ts ++ [mkTrade st n o r]).
      apply (ledger_trade create_uuid hp ts st0 (mkTrade st n o r)); [done| |done].
      split; [done|done|by exists n'].
    - exists []. by apply ledger_start. }
  exists trades. split; [exact Hl|]. simpl state_. split_and!.
  - exact (ledger_fills _ _ _ _ _ Hl).
  - exact (ledger_cash create_uuid hp trades st0 _ Hc Hl).
  - exact (ledger_drift create_uuid hp trades st0 _ Hl).
  - intros Hp. rewrite (ledger_conserves _ _ _ _ _ Hl Hp). simpl. by rewrite Z.add_0_r.
Qed.

Lemma run_is_its_ledger_witness :
  exists trades, length trades = 2%nat /\
    ledger demo_uuid demo_hp trades (prepare_initial_state demo_hp initial_state) (state_ demo_final) /\
    wrap64 (initial_capital_ demo_hp + total trade_cash trades) = 100000000000 + 130000000 - 2000000.
Proof.
  destruct (run_is_its_ledger demo_uuid demo_clock demo_data 5 0%nat 4%nat demo_final) as (ts & Hl & Hf & Hc & _).
  - vm_compute. split; discriminate.
  - apply demo_run.
  - exists ts. split; [|split; [exact Hl|]].
    + apply (f_equal length) in Hf. rewrite length_fmap in Hf. rewrite <- Hf. vm_compute. reflexivity.
    + change (loader_get_host_params 0%nat) with demo_hp in Hc. rewrite <- Hc. vm_compute. reflexivity.
Defined.

(** ** The ledger of that run, written out: a purchase and a sale, both plain *)
Definition demo_engine_after (n : nat) : BackTestEngine :=
  match ofold (run_bar demo_uuid demo_clock demo_hp 5)
          (set_state (prepare_initial_state demo_hp initial_state) new_engine, 0%nat) (firstn n demo_bars) with
  | Ret (e, _) => e
  | _ => new_engine
  end.

(** The first order due at bar [n + 1], executed there. *)
Definition demo_trade (n : nat) (default_order : Order) : trade :=
  let e := demo_engine_after n in
  let st := match demo_bars !! n with
            | Some bar => prepare_next_bar_state bar (state_ e)
            | None => state_ e
            end in
  let order := match order_book_ e with o :: _ => ScheduledOrder_order_ o | [] => default_order end in
  mkTrade st (uuids_drawn e) order (default demo_result (result_of order demo_hp (uuids_drawn e) st)).

Definition demo_trades : list trade := [demo_trade 1 demo_buy; demo_trade 3 demo_sell].

Lemma demo_engine_after_wf n p' :
  ofold (run_bar demo_uuid demo_clock demo_hp 5)
    (set_state (prepare_initial_state demo_hp initial_state) new_engine, 0%nat) (firstn n demo_bars)
  = Ret (demo_engine_after n, p') -> Engine_wf demo_uuid (demo_engine_after n).
Proof.
  apply run_bars_wf; [apply _|]. apply (new_engine_wf demo_uuid demo_hp). vm_compute. split; discriminate.
Qed.

Lemma demo_trade_done n o p' n' :
  ofold (run_bar demo_uuid demo_clock demo_hp 5)
    (set_state (prepare_initial_state demo_hp initial_state) new_engine, 0%nat) (firstn n demo_bars)
  = Ret (demo_engine_after n, p') ->
  let t := demo_trade n o in
  execute_order demo_uuid (trade_draws t) (trade_order t) demo_hp (trade_before t)
    = Ret (ExecutionResult_Success (trade_result t), n') ->
  trade_done demo_uuid demo_hp t.
Proof.
  intros Hwf%demo_engine_after_wf t Hx.
  assert (Engine_wf demo_uuid (set_state (trade_before t) (demo_engine_after n))) as Hwf'.
  { subst t. simpl. destruct (demo_bars !! n) as [bar|]; [by apply prepare_bar_wf|].
    by destruct Hwf; split. }
  split; [exact (ewf_state _ _ Hwf')| |by exists n'].
  apply (fresh_uuid demo_uuid (set_state (trade_before t) (demo_engine_after n))); [done|]. subst t. simpl. lia.
Qed.

Example demo_ledger :
  ledger demo_uuid demo_hp demo_trades (prepare_initial_state demo_hp initial_state) (state_ demo_final).
Proof.
  apply (ledger_trade _ _ [demo_trade 1 demo_buy] _ (demo_trade 3 demo_sell));
    [apply (ledger_trade _ _ [] _ (demo_trade 1 demo_buy)); [apply ledger_start| |]| |].
  - vm_compute. reflexivity.
  - apply (demo_trade_done 1 demo_buy 1%nat 2%nat); vm_compute; reflexivity.
  - vm_compute. reflexivity.
  - apply (demo_trade_done 3 demo_sell 3%nat 4%nat); vm_compute; reflexivity.
  - vm_compute. reflexivity.
Qed.

Example demo_trades_plain : Forall trade_plain demo_trades.
Proof.
  unfold demo_trades. rewrite !Forall_cons. split_and!; [| |by constructor]; (split; [vm_compute; reflexivity|]);
    [left; unfold plain_opening|right; unfold plain_closing]; vm_compute; by split_and!.
Qed.

Example demo_trades_totals :
  total trade_cash demo_trades = 130000000 - 2000000 /\ total trade_pnl demo_trades = 130000000 /\
  total (trade_commission demo_hp) demo_trades = 2000000.
Proof. vm_compute. by split_and!. Qed.
