(* ===== verification/NativeSession.v ===== *)
(** * The life of a native plugin, from loading to unloading

    [RunProtocol] says how a run drives a plugin and [NativeLoader] what each call logs:
    together they give the complete log of a plugin that is loaded, initialised, run and
    unloaded. *)
From Stdlib Require Import ZArith Lia Ascii String.
From stdpp Require Import base tactics list gmap strings.
From S2P Require Import Prelude Double CppString Money Manifest Abi StockApi Models State AbiConverter Engine Effects StringStore ManifestParser ManifestScenario NativeLoader RunProtocol Scenario EngineProps.
Open Scope string_scope.
Open Scope Z_scope.

(** A function of the table that is called when it is there. *)
Definition calls_if {A} (f : option A) : nat := match f with Some _ => 1 | None => 0 end.

Section Session.
Context {M : Type} `{DynamicLoader M, StringLayout, InvalidMemory}.

(** [n] calls of the loader's instance, and nothing else. *)
Definition calls_made (n : nat) (w w' : LoaderWorld M) : Prop :=
  exp_ (native w') = exp_ (native w) /\ lib_ (native w') = lib_ (native w) /\
  events w' = (events w ++ replicate n (Called (instance_ (exp_ (native w)))))%list.

Lemma calls_made_refl w : calls_made 0 w w.
Proof. split_and!; [done..|]. by rewrite app_nil_r. Qed.

Lemma calls_made_trans n n' w w1 w2 : calls_made n w w1 -> calls_made n' w1 w2 -> calls_made (n + n') w w2.
Proof.
  intros (He & Hl & Hev) (He' & Hl' & Hev'). split_and!; [congruence..|].
  by rewrite Hev', Hev, He, replicate_add, app_assoc.
Qed.

Lemma call_plugin_made {A} (c : io M A) w : calls_made 1 w (call_plugin c w).2.
Proof. unfold call_plugin, io_lift. by destruct (c _). Qed.

Lemma io_outcome_ret {W A} (r : outcome A * W) a w : io_outcome r = Ret (a, w) <-> r = (Ret a, w).
Proof. unfold io_outcome. destruct r as [[x|e|] w0]; simpl; split; congruence. Qed.

(** A zero status comes from the plugin: the loader's own answers have status one. *)
Lemma on_bar_made bar st w result w1 :
  loader_on_bar bar st w = Ret (result, w1) -> PluginResult_code_ result = 0 -> calls_made 1 w w1.
Proof.
  simpl. intros Hr%io_outcome_ret Hc. unfold native_on_bar, io_bind at 1, io_get in Hr.
  destruct (negb _); [by injection Hr as <- _|]. destruct (vt_on_bar _) as [f|]; [|by injection Hr as <- _].
  change w1 with (result, w1).2. replace w1 with (Ret result, w1).2 by done. rewrite <- Hr. apply call_plugin_made.
Qed.

Lemma on_end_made w result json w1 :
  loader_on_end w = Ret (result, json, w1) -> PluginResult_code_ result = 0 ->
  calls_made 1 w w1 /\ PluginExport_api_version_ (exp_ (native w)) = PLUGIN_API_VERSION.
Proof.
  simpl. intros Hr%io_outcome_ret Hc. unfold native_on_end, io_bind at 1, io_get in Hr.
  destruct (Z.eqb_spec (PluginExport_api_version_ (exp_ (native w))) PLUGIN_API_VERSION) as [Hv|]; cbn [negb] in Hr;
    [|by injection Hr as <- _ _]. destruct (vt_on_end _) as [f|]; [|by injection Hr as <- _ _].
  split; [|done]. replace w1 with (Ret (result, json), w1).2 by done. rewrite <- Hr. apply call_plugin_made.
Qed.

Lemma free_string_made json w :
  PluginExport_api_version_ (exp_ (native w)) = PLUGIN_API_VERSION ->
  calls_made (calls_if (vt_free_string (vtable_ (exp_ (native w))))) w (loader_free_string json w).
Proof.
  intros Hv. simpl. unfold native_free_string, io_bind at 1, io_get. rewrite Hv.
  change (negb (PLUGIN_API_VERSION =? PLUGIN_API_VERSION)) with false. simpl.
  destruct (vt_free_string _) as [f|]; [apply call_plugin_made|apply calls_made_refl].
Qed.

Lemma bar_calls_made bars w w' : bar_calls bars w w' -> calls_made (length bars) w w'.
Proof.
  induction 1 as [w|bar bars st result w w1 w2 Hb Hc _ IH]; [apply calls_made_refl|].
  apply (calls_made_trans 1 (length bars) w w1 w2); [by eapply on_bar_made|done].
Qed.

(** A run calls the plugin once per bar in hours, once more at the end, and once to free
    the string it was given. *)
Lemma run_calls_made create_uuid clock data fuel e w e' w' :
  run create_uuid clock data fuel (e, w) = Ret (e', w') ->
  exists bars, data (native_get_plugin_name w) = Ret bars /\
    calls_made (length (bars_in_hours (native_get_host_params w) bars) + 1
                + calls_if (vt_free_string (vtable_ (exp_ (native w))))) w w'.
Proof.
  intros (bars & Hd & [w1 w2 result json Hb Hend Hc ->])%run_drives_plugin. exists bars. split; [done|].
  apply bar_calls_made in Hb. destruct (on_end_made _ _ _ _ Hend Hc) as [Hone Hv].
  pose proof (calls_made_trans _ _ _ _ _ Hb Hone) as Ht. destruct Hone as (He2 & _), Hb as (He1 & _).
  rewrite <- He1, <- He2. eapply calls_made_trans; [exact Ht|]. apply free_string_made. by rewrite He2.
Qed.

Lemma load_log ctx m mem w0 :
  load_plugin ctx (mkLoaderWorld (new_native_loader m) mem []) = (Ret tt, w0) ->
  exists h i, events w0 = [Opened h; Created (Some i)] /\
    PluginExport_api_version_ (exp_ (native w0)) = PLUGIN_API_VERSION /\
    instance_ (exp_ (native w0)) = Some i /\ is_Some (vt_destroy (vtable_ (exp_ (native w0)))) /\
    lib_ (native w0) = Some h.
Proof.
  unfold load_plugin, lib_open, lib_sym, io_bind, io_get, io_modify, io_throw, io_ret. cbn [memory].
  destruct (dlopen _ mem) as [[err|h] mem1]; simpl; [done|].
  destruct (dlsym h PLUGIN_CREATE_SYMBOL) as [create|]; simpl; [|done].
  destruct (create ctx mem1) as [e mem2]. simpl.
  destruct (Z.eqb_spec (PluginExport_api_version_ e) PLUGIN_API_VERSION) as [Hv|Hv]; simpl; [|done].
  destruct (instance_ e) as [i|] eqn:Hi; simpl; [|done].
  destruct (vt_destroy (vtable_ e)) as [d|] eqn:Hd, (vt_on_end (vtable_ e)) as [g|]; simpl; try done.
  intros [= <-]. simpl. exists h, i. rewrite Hi, Hd. split_and!; eauto.
Qed.

Lemma on_init_made w r w1 :
  native_on_init w = (r, w1) -> PluginExport_api_version_ (exp_ (native w)) = PLUGIN_API_VERSION ->
  calls_made (calls_if (vt_on_init (vtable_ (exp_ (native w))))) w w1.
Proof.
  intros Hr Hv. unfold native_on_init, io_bind at 1, io_get in Hr. rewrite Hv in Hr.
  change (negb (PLUGIN_API_VERSION =? PLUGIN_API_VERSION)) with false in Hr. cbn iota in Hr.
  destruct (vt_on_init _) as [f|]; [|injection Hr as _ <-; apply calls_made_refl].
  destruct (get_options _) as [o mf]. unfold io_bind, io_modify, io_ret in Hr.
  match type of Hr with context [call_plugin ?c ?w0] =>
    pose proof (call_plugin_made c w0) as Hc; destruct (call_plugin c w0) as [[?|?|] w2] end; by injection Hr as _ <-.
Qed.

Lemma unload_log w h i :
  PluginExport_api_version_ (exp_ (native w)) = PLUGIN_API_VERSION -> instance_ (exp_ (native w)) = Some i ->
  is_Some (vt_destroy (vtable_ (exp_ (native w)))) -> lib_ (native w) = Some h ->
  exists w1, native_unload_plugin w = (Ret tt, w1) /\
    events w1 = (events w ++ [Destroyed (Some i); Closed h])%list.
Proof.
  intros Hv Hi [d Hd] Hl. unfold native_unload_plugin. unfold io_bind at 1, io_get. rewrite Hv.
  change (negb (PLUGIN_API_VERSION =? PLUGIN_API_VERSION)) with false. cbn iota. rewrite Hi, Hd.
  unfold io_bind, io_modify, lib_close, io_modify. simpl. rewrite Hl. simpl.
  eexists. split; [done|]. simpl. by rewrite <- app_assoc.
Qed.

(** C17: the complete log of a native plugin that is loaded, initialised, run to the end
    and unloaded.  Its library is opened and its instance created; the instance is called
    once to initialise it if it has such a function, once for every bar of the data inside
    the permitted hours, once at the end, and once to free the string it returned if it
    has such a function; then it is destroyed and the library closed. *)
Theorem native_session_log ctx m mem w0 w1 create_uuid clock data fuel e' w' :
  load_plugin ctx (mkLoaderWorld (new_native_loader m) mem []) = (Ret tt, w0) ->
  native_on_init w0 = (Ret tt, w1) ->
  run create_uuid clock data fuel (new_engine, w1) = Ret (e', w') ->
  let table := vtable_ (exp_ (native w0)) in
  exists h i bars, events w0 = [Opened h; Created (Some i)] /\
    data (native_get_plugin_name w1) = Ret bars /\ (native_unload_plugin w').1 = Ret tt /\
    events (native_unload_plugin w').2 =
    ([Opened h; Created (Some i)]
     ++ replicate (calls_if (vt_on_init table)
                   + (length (bars_in_hours (native_get_host_params w1) bars) + 1 + calls_if (vt_free_string table)))
          (Called (Some i))
     ++ [Destroyed (Some i); Closed h])%list.
Proof.
  intros (h & i & Hlog & Hv & Hi & Hd & Hl)%load_log Hinit Hrun table.
  apply on_init_made in Hinit; [|done]. apply run_calls_made in Hrun as (bars & Hbars & Hrun).
  exists h, i, bars. split; [done|]. split; [done|]. pose proof Hinit as (He1 & _). rewrite He1 in Hrun.
  destruct (calls_made_trans _ _ _ _ _ Hinit Hrun) as (He & Hl' & Hev).
  destruct (unload_log w' h i) as (w2 & -> & Hun); [by rewrite ?He, ?Hl'..|]. split; [done|].
  cbn [snd]. rewrite Hun, Hev, Hlog, Hi. by rewrite <- !app_assoc.
Qed.
End Session.

(** ** A plugin with every function of the table, on four bars *)
Definition quiet_export : PluginExport nat :=
  mkPluginExport 1 (Some 5%nat)
    (mkPluginVTable (Some (fun _ m => m))
       (Some (fun _ _ => io_ret (mkPluginResult 0 None [])))
       None
       (Some (fun _ _ _ => io_ret (mkPluginResult 0 None [])))
       (Some (fun _ => io_ret (mkPluginResult 0 None [], Some "{}")))
       (Some (fun _ _ m => m))).

Definition quiet_library : DynamicLoader nat :=
  Build_DynamicLoader nat (fun _ m => (inr 7%nat, m)) (fun _ _ => Some (fun _ m => (quiet_export, m))) (fun _ m => m).

Definition quiet_strings : StringLayout := libstdcxx.
Definition quiet_memory : InvalidMemory :=
  Build_InvalidMemory (fun _ => "?") (fun _ => []) (fun _ => []) (fun _ => []) (fun _ => []).

Definition quiet_loaded : outcome unit * LoaderWorld nat :=
  load_plugin (H := quiet_library) (mkSimulatorContext 1) (mkLoaderWorld (new_native_loader parsed_good) 0%nat []).
Definition quiet_initialized : outcome unit * LoaderWorld nat :=
  native_on_init (H0 := quiet_strings) (H1 := quiet_memory) quiet_loaded.2.
Definition quiet_run :=
  run (H := native_plugin_loader (H1 := quiet_memory)) demo_uuid demo_clock demo_data 5
    (new_engine, quiet_initialized.2).

Lemma native_session_log_witness :
  exists e' w', quiet_run = Ret (e', w') /\
    events (native_unload_plugin (H := quiet_library) w').2 =
    ([Opened 7; Created (Some 5%nat)] ++ replicate 7 (Called (Some 5%nat)) ++ [Destroyed (Some 5%nat); Closed 7])%list.
Proof.
  destruct quiet_run as [[e' w']|x|] eqn:Hrun; [|vm_compute in Hrun; discriminate Hrun..].
  exists e', w'. split; [reflexivity|].
  destruct (native_session_log (H := quiet_library) (H0 := quiet_strings) (H1 := quiet_memory)
    (mkSimulatorContext 1) parsed_good 0%nat quiet_loaded.2 quiet_initialized.2 demo_uuid demo_clock demo_data 5 e' w')
    as (h & i & bars & Hevents & Hbars & _ & Hlog).
  - vm_compute. reflexivity.
  - vm_compute. reflexivity.
  - exact Hrun.
  - vm_compute in Hevents. injection Hevents as <- <-. injection Hbars as <-. rewrite Hlog. vm_compute. reflexivity.
Defined.
