(* ===== verification/PythonLock.v ===== *)
(** * The lock of the Python interpreter

    CPython may only be called by the thread that holds its global lock.  What
    [pybind11] documents of it: [initialize_interpreter] leaves the lock with the calling
    thread; [gil_scoped_acquire] waits for the lock unless the thread has it already, and
    its destructor gives back what it took.  [ThreadWorld] adds to any Python the thread
    that is running, the lock, and for every call into the interpreter whether the thread
    had the lock; the loader is the one of [PythonLoader] on such a Python.

    The plugins are loaded by the main thread, which starts the interpreter and never
    gives up its lock; the back tests run on the threads of a pool, and no function of the
    table but [load_plugin] asks for the lock. *)
From Stdlib Require Import ZArith Lia Ascii String.
From stdpp Require Import base tactics list gmap strings.
From S2P Require Import Prelude Double CppString Money Manifest Abi StockApi Models State AbiConverter Engine Effects Json StringStore ManifestParser ManifestScenario NativeLoader PythonLoader PluginManager ManagerProps RunProtocol NativeSession PluginScenario Scenario EngineProps.
Open Scope string_scope.
Open Scope Z_scope.

Record ThreadWorld (W : Type) : Type := mkThreadWorld {
  interpreter : W;
  gil_holder : option nat;
  gil_depth : nat;
  this_thread : nat;
  api_calls : list bool              (* was the lock held by the caller? *)
}.
Arguments mkThreadWorld {W}.
Arguments interpreter {W}.
Arguments gil_holder {W}.
Arguments gil_depth {W}.
Arguments this_thread {W}.
Arguments api_calls {W}.

Definition holds_gil {W} (t : ThreadWorld W) : bool := bool_decide (gil_holder t = Some (this_thread t)).

(** A call into the interpreter. *)
Definition api {W A} (c : io W A) : io (ThreadWorld W) A := fun t =>
  let '(r, i) := c (interpreter t) in
  (r, mkThreadWorld i (gil_holder t) (gil_depth t) (this_thread t) (api_calls t ++ [holds_gil t])%list).

Definition gil_acquire {W} : io (ThreadWorld W) unit := fun t =>
  match gil_holder t with
  | None => (Ret tt, mkThreadWorld (interpreter t) (Some (this_thread t)) 1 (this_thread t) (api_calls t))
  | Some thread =>
      if Nat.eqb thread (this_thread t)
      then (Ret tt, mkThreadWorld (interpreter t) (gil_holder t) (S (gil_depth t)) (this_thread t) (api_calls t))
      else (OutOfFuel, t)
  end.

Definition gil_release {W} (t : ThreadWorld W) : ThreadWorld W :=
  match gil_depth t with
  | S (S depth) => mkThreadWorld (interpreter t) (gil_holder t) (S depth) (this_thread t) (api_calls t)
  | _ => mkThreadWorld (interpreter t) None 0 (this_thread t) (api_calls t)
  end.

Definition threaded_python {W} (py : Python W) : Python (ThreadWorld W) := {|
  pyobj := pyobj (W := W);
  py_initialize t := mkThreadWorld (py_initialize (interpreter t)) (Some (this_thread t)) 1 (this_thread t) (api_calls t);
  py_gil_acquire := gil_acquire;
  py_gil_release := gil_release;
  py_import name := api (py_import name);
  py_attr o name := api (py_attr o name);
  py_call f args := api (py_call f args);
  cast_tuple := cast_tuple;
  cast_list := cast_list;
  cast_dict := cast_dict;
  cast_int := cast_int;
  cast_int64 := cast_int64;
  cast_double := cast_double;
  cast_string := cast_string;
  cast_enum := cast_enum;
  wild_access := wild_access;
  unset_signal := unset_signal;
  unset_order := unset_order
|}.

Section Lock.
Context {W : Type} {py : Python W} `{StringLayout, InvalidMemory}.
#[local] Existing Instance threaded_python.

Abbreviation PyMem := (PyMemory (W := ThreadWorld W)).
Abbreviation PyWorld := (PythonWorld (W := ThreadWorld W)).

(** ** Loading, on the main thread *)

(** Every call so far was made with the lock; the thread has taken it [d] times. *)
Definition locked_at (thread d : nat) (m : PyMem) : Prop :=
  Forall (fun held => held = true) (api_calls (python m)) /\ interpreter_up m = true /\
  this_thread (python m) = thread /\ gil_holder (python m) = Some thread /\ (d <= gil_depth (python m))%nat.

(** The same, or the interpreter has not been started. *)
Definition main_locked (thread : nat) (m : PyMem) : Prop :=
  locked_at thread 1 m \/
  interpreter_up m = false /\ Forall (fun held => held = true) (api_calls (python m)) /\ this_thread (python m) = thread.

Lemma locked_at_less thread d d' m : (d' <= d)%nat -> locked_at thread d m -> locked_at thread d' m.
Proof. intros Hd (? & ? & ? & ? & ?). split_and!; [done..|lia]. Qed.

Lemma api_locked {A} thread d (c : io W A) : io_keeps (locked_at thread d) (on_python (api c)).
Proof.
  intros m (Hc & Hu & Ht & Hh & Hd). unfold on_python, io_lift, api.
  destruct (c _) as [r i]. split_and!; simpl; [|done..].
  apply Forall_app. split; [done|]. apply Forall_singleton. unfold holds_gil. rewrite Ht. by apply bool_decide_true.
Qed.

Lemma acquire_locked thread d m :
  locked_at thread (S d) m ->
  exists m', on_python gil_acquire m = (Ret tt, m') /\ locked_at thread (S (S d)) m'.
Proof.
  intros (Hc & Hu & Ht & Hh & Hd). unfold on_python, io_lift, gil_acquire. rewrite Hh, Ht, Nat.eqb_refl.
  eexists. split; [done|]. split_and!; simpl; [done..|lia].
Qed.

Lemma release_locked thread d :
  io_leads (locked_at thread (S (S d))) (locked_at thread (S d)) (on_python (io_modify gil_release)).
Proof.
  intros m (Hc & Hu & Ht & Hh & Hd). unfold on_python, io_lift, io_modify, gil_release.
  destruct (gil_depth (python m)) as [|[|k]] eqn:Ek; [lia..|]. split_and!; simpl; [done..|lia].
Qed.

Definition world_at (P : PyMem -> Prop) (w : PyWorld) : Prop := P (py_memory w).

Lemma on_memory_keeps {A} P (c : io PyMem A) : io_keeps P c -> io_keeps (world_at P) (on_memory c).
Proof. intros Hc w Hw. unfold on_memory, io_lift, world_at. specialize (Hc (py_memory w) Hw). by destruct (c _). Qed.

Lemma on_plugin_keeps {A} (P : PyMem -> Prop) i pp (c : io (PyPlugin (W := ThreadWorld W)) A) :
  (forall m h, P m -> P (mkPyMemory (python m) (interpreter_up m) h (py_next m))) -> io_keeps P (on_plugin i pp c).
Proof. intros HP m Hm. unfold on_plugin, io_lift. destruct (c _). by apply HP. Qed.

(** Loading keeps the lock where it is, whatever fails. *)
Lemma load_locked thread ctx w :
  world_at (main_locked thread) w -> world_at (locked_at thread 1) (python_load_plugin ctx w).2.
Proof.
  intros Hw. unfold python_load_plugin. unfold io_bind at 1, on_memory at 1, io_lift at 1, io_modify at 1.
  set (m0 := if interpreter_up (py_memory w) then py_memory w else _).
  assert (locked_at thread 1 m0) as H0'.
  { unfold m0. destruct Hw as [Hw|(Hu & Hc & Ht)]; [by rewrite (proj1 (proj2 Hw))|]. rewrite Hu.
    split_and!; simpl; [done..| |lia]. by rewrite Ht. }
  clearbody m0. unfold io_bind at 1, io_get at 1. unfold io_catch. unfold io_bind at 1.
  destruct (acquire_locked thread 0 m0 H0') as (m1 & Hacq & H1').
  unfold on_memory at 1, io_lift at 1. cbn [py_memory py_loader]. change (@py_gil_acquire _ _) with (@gil_acquire W).
  rewrite Hacq. cbn [py_loader]. set (w1 := mkPythonWorld (py_loader w) m1).
  match goal with |- context [io_finally ?c _ w1] => set (body := c) end.
  assert (io_keeps (world_at (locked_at thread 2)) body) as Hbody.
  { unfold body. do 3 (apply io_keeps_bind; [apply on_memory_keeps, api_locked|]; intros ?).
    apply io_keeps_bind; [|by intros ? w2 ?]. apply on_memory_keeps. by intros m ?. }
  specialize (Hbody w1 H1'). unfold io_finally. destruct (body w1) as [[[]|e|] w2]; cbn [snd] in Hbody.
  3: { exact (locked_at_less _ 2 1 _ ltac:(lia) Hbody). }
  all: apply (release_locked thread 0), Hbody.
Qed.

(** [on_init] of a plugin that was loaded. *)
Lemma call_method_locked thread d pp name args : io_keeps (locked_at thread d) (call_method pp name args).
Proof.
  intros m Hm. unfold call_method, on_python, io_lift, io_bind.
  pose proof (api_locked thread d (py_attr (W := W) (obj_ pp) name) m Hm) as Ha. unfold on_python, io_lift in Ha.
  change (@py_attr _ _ ?o ?n) with (api (py_attr (W := W) o n)).
  destruct (api _ _) as [[f|e|] t1]; simpl in *; [|done..].
  pose proof (api_locked thread d (py_call (W := W) f args) (mkPyMemory t1 (interpreter_up m) (py_heap m) (py_next m)) Ha) as Hc.
  unfold on_python, io_lift in Hc. simpl in Hc. by destruct (api _ t1).
Qed.

Lemma py_on_init_locked thread d self opts : io_keeps (locked_at thread d) (py_on_init self opts).
Proof.
  unfold py_on_init. apply io_keeps_bind.
  { intros m Hm. unfold py_plugin. by destruct (i ← self; _) as [[]|]. }
  intros plugin. apply io_keeps_bind; [apply call_method_locked|]. intros result. by apply on_plugin_keeps.
Qed.

(** An export with the supported version came from a load, so the interpreter is up; its
    table is the loader's. *)
Definition export_loaded (l : PythonLoader (W := ThreadWorld W)) : Prop :=
  PluginExport_api_version_ (py_exp_ l) = PLUGIN_API_VERSION -> vtable_ (py_exp_ l) = python_vtable.

Lemma load_export ctx (w : PyWorld) :
  export_loaded (py_loader w) -> export_loaded (py_loader (python_load_plugin ctx w).2).
Proof.
  intros Hw. unfold python_load_plugin.
  assert (forall A (c : io PyMem A), io_keeps (fun w : PyWorld => export_loaded (py_loader w)) (on_memory c)) as Hmem.
  { intros A c w1 Hw1. unfold on_memory, io_lift. by destruct (c _). }
  revert w Hw. change (io_keeps (fun w : PyWorld => export_loaded (py_loader w)) (python_load_plugin ctx)).
  unfold python_load_plugin. apply io_keeps_bind; [apply Hmem|]. intros _.
  apply io_keeps_bind; [by intros ?|]. intros w. apply io_keeps_catch.
  2: { intros e w1 _. by intros ?. }
  apply io_keeps_bind; [apply Hmem|]. intros _. apply io_keeps_finally; [|apply Hmem].
  do 4 (apply io_keeps_bind; [apply Hmem|]; intros ?). intros w1 _. by intros ?.
Qed.

Lemma init_export (w : PyWorld) : py_exp_ (py_loader (python_on_init w).2) = py_exp_ (py_loader w).
Proof.
  unfold python_on_init. unfold io_bind at 1, io_get. destruct (negb _); [done|].
  destruct (vt_on_init _) as [f|]; [|done]. destruct (get_options _) as [o m].
  unfold io_bind, io_modify, on_memory, io_lift. destruct (f _ _ _) as [[?|?|] ?]; done.
Qed.

Lemma init_locked thread (w : PyWorld) :
  export_loaded (py_loader w) -> world_at (locked_at thread 1) w -> world_at (locked_at thread 1) (python_on_init w).2.
Proof.
  intros Hexp Hw. unfold python_on_init. unfold io_bind at 1, io_get.
  destruct (Z.eqb_spec (PluginExport_api_version_ (py_exp_ (py_loader w))) PLUGIN_API_VERSION) as [Hv|]; cbn [negb]; [|done].
  rewrite (Hexp Hv). cbn [vt_on_init python_vtable]. destruct (get_options _) as [o m].
  unfold io_bind at 1, io_modify. apply io_keeps_bind; [|by intros ? w1 ?|done].
  apply on_memory_keeps, py_on_init_locked.
Qed.

Section Manager.
Context {M : Type} `{DynamicLoader M, Json, PluginFiles}.

Definition manager_locked (thread : nat) (w : PluginManager M (ThreadWorld W)) : Prop :=
  main_locked thread (python_memory w).

Definition any_loaded (l : AnyLoader M (ThreadWorld W)) : Prop :=
  match l with ANative _ => True | APython l => export_loaded l end.

Lemma export_loaded_fresh m : export_loaded (mkPythonLoader m empty_export).
Proof. done. Qed.

Lemma any_load_locked thread l ctx w :
  (exists m, make_loader m = Ret l) -> manager_locked thread w ->
  manager_locked thread (any_load_plugin l ctx w).2 /\
  forall a l' w', any_load_plugin l ctx w = (Ret (a, l'), w') ->
    match l' with
    | ANative _ => True
    | APython l' => export_loaded l' /\ locked_at thread 1 (python_memory w')
    end.
Proof.
  intros [m Hm] Hw. unfold make_loader in Hm. destruct (is_python m); [|destruct (is_native m)]; simplify_eq; simpl.
  - unfold on_python_loader.
    pose proof (load_locked thread ctx (mkPythonWorld (mkPythonLoader m empty_export) (python_memory w)) Hw) as Hl.
    pose proof (load_export ctx (mkPythonWorld (mkPythonLoader m empty_export) (python_memory w)) (export_loaded_fresh m)) as He.
    destruct (python_load_plugin ctx _) as [r pw]. split; [by left|].
    intros a l' w'. destruct r; simpl; [|done..]. by intros [= <- <- <-].
  - unfold on_native. destruct (load_plugin ctx _) as [r lw]. split; [done|].
    intros a l' w'. destruct r; simpl; [|done..]. by intros [= <- <- <-].
Qed.

Lemma any_init_locked thread l w :
  match l with ANative _ => True | APython l => export_loaded l /\ locked_at thread 1 (python_memory w) end ->
  manager_locked thread w ->
  manager_locked thread (any_on_init l w).2 /\
  forall a l' w', any_on_init l w = (Ret (a, l'), w') -> any_loaded l'.
Proof.
  intros Hl Hw. destruct l as [l|l]; simpl.
  - unfold on_native. destruct (native_on_init _) as [r lw]. split; [done|].
    intros a l' w'. destruct r; simpl; [|done..]. by intros [= <- <- <-].
  - destruct Hl as [He Hm]. pose proof (init_locked thread (mkPythonWorld l (python_memory w)) He Hm) as Hi.
    pose proof (init_export (mkPythonWorld l (python_memory w))) as Hx.
    unfold on_python_loader. destruct (python_on_init _) as [r pw]. split; [by left|].
    intros a l' w'. destruct r; simpl in *; [|done..]. intros [= <- <- <-]. simpl. unfold export_loaded in *. by rewrite Hx.
Qed.

Definition manager_ready (thread : nat) (w : PluginManager M (ThreadWorld W)) : Prop :=
  manager_locked thread w /\ map_Forall (fun _ l => any_loaded l) (plugin_map_by_name_ w).

Lemma load_entry_ready thread dir : io_keeps (manager_ready thread) (load_entry dir).
Proof.
  unfold load_entry. destruct (negb _); [auto with io|].
  apply io_keeps_bind; [by intros w|]. intros m. apply io_keeps_bind; [by intros w|]. intros w0.
  destruct (negb _); [auto with io|]. intros w [Hw Hmap]. unfold io_bind at 1, io_of at 1.
  destruct (make_loader m) as [l|e|] eqn:Hl; [|done..].
  destruct (any_load_locked thread l (ctx_ w0) w (ex_intro _ m Hl) Hw) as [Hw1 Hl1].
  unfold io_bind at 1. destruct (any_load_plugin l (ctx_ w0) w) as [r1 w1] eqn:E1.
  destruct (any_load_named l (ctx_ w0) w r1 w1 E1) as [[Hm1 _] _].
  destruct r1 as [[a l1]|e|]; [|split; [done|cbn [snd]; by rewrite Hm1]..].
  specialize (Hl1 _ _ _ eq_refl). destruct (any_init_locked thread l1 w1 Hl1 Hw1) as [Hw2 Hl2].
  unfold io_bind at 1. cbn [snd] in *. destruct (any_on_init l1 w1) as [r2 w2] eqn:E2.
  destruct (any_on_init_named l1 w1 r2 w2 E2) as [[Hm2 _] _].
  destruct r2 as [[a2 l2]|e|]; [|split; [done|cbn [snd]; by rewrite Hm2, Hm1]..].
  specialize (Hl2 _ _ _ eq_refl). split; [done|]. cbn. unfold map_emplace. rewrite Hm2, Hm1.
  destruct (plugin_map_by_name_ w !! _); [done|]. by apply map_Forall_insert_2.
Qed.

(** Loading a directory on the thread that has or will start the interpreter. *)
Lemma load_dir_ready thread root : io_keeps (manager_ready thread) (load_plugins_from_dir root).
Proof.
  unfold load_plugins_from_dir. apply io_keeps_bind; [by intros w|]. intros w.
  destruct (manager_plugin_names_ w); [auto with io|].
  apply io_keeps_bind; [by intros w1|]. intros dirs. apply io_keeps_each. apply load_entry_ready.
Qed.
End Manager.

(** ** Running, on another thread *)

(** [n] calls into the interpreter, all of them without the lock. *)
Definition unlocked_calls (n : nat) (m m' : PyMem) : Prop :=
  this_thread (python m') = this_thread (python m) /\ gil_holder (python m') = gil_holder (python m) /\
  api_calls (python m') = (api_calls (python m) ++ replicate n false)%list.

Definition only_unlocked (m m' : PyMem) : Prop := holds_gil (python m) = false -> exists n, unlocked_calls n m m'.

#[local] Instance only_unlocked_preorder : PreOrder only_unlocked.
Proof.
  split.
  - intros m _. exists 0%nat. split_and!; [done..|]. by rewrite app_nil_r.
  - intros m m1 m2 H1 H2 Hm. destruct (H1 Hm) as (n & Ht & Hh & Hc).
    destruct H2 as (n' & Ht' & Hh' & Hc'). { unfold holds_gil in *. by rewrite Ht, Hh. }
    exists (n + n')%nat. split_and!; [congruence..|]. by rewrite Hc', Hc, replicate_add, app_assoc.
Qed.

(** A call that, whatever its outcome, only adds such calls. *)
Definition unlocked {A} (c : io PyMem A) : Prop := forall m, only_unlocked m (c m).2.

Lemma unlocked_bind {A B} (c : io PyMem A) (k : A -> io PyMem B) :
  unlocked c -> (forall a, unlocked (k a)) -> unlocked (io_bind c k).
Proof.
  intros Hc Hk m. unfold io_bind. specialize (Hc m). destruct (c m) as [[a|e|] m1]; simpl in *; [|done..].
  etrans; [exact Hc|apply Hk].
Qed.

Lemma unlocked_pure {A} (c : io PyMem A) : (forall m, python (c m).2 = python m) -> unlocked c.
Proof.
  intros Hc m _. exists 0%nat. unfold unlocked_calls. rewrite Hc. split_and!; [done..|]. by rewrite app_nil_r.
Qed.

Lemma unlocked_api {A} (c : io W A) m :
  holds_gil (python m) = false -> unlocked_calls 1 m (on_python (api c) m).2.
Proof. intros Hm. unfold on_python, io_lift, api. destruct (c _) as [r i]. by rewrite Hm. Qed.

(** A method is looked up, so there is a call. *)
Lemma call_method_unlocked pp name args m :
  holds_gil (python m) = false -> exists n, unlocked_calls (S n) m (call_method pp name args m).2.
Proof.
  intros Hm. pose proof (unlocked_api (py_attr (W := W) (obj_ pp) name) m Hm) as Ha.
  unfold call_method, on_python, io_lift, io_bind in *.
  change (@py_attr _ _ ?o ?n) with (api (py_attr (W := W) o n)).
  destruct (api _ _) as [[f|e|] t1]; simpl in *; [|by exists 0%nat..].
  set (m1 := mkPyMemory t1 (interpreter_up m) (py_heap m) (py_next m)) in *.
  assert (holds_gil (python m1) = false) as Hm1.
  { destruct Ha as (Ht & Hh & _). unfold holds_gil in *. by rewrite Ht, Hh. }
  pose proof (unlocked_api (py_call (W := W) f args) m1 Hm1) as Hc. unfold on_python, io_lift in Hc. simpl in Hc.
  exists 1%nat. destruct (api _ t1) as [r t2]. simpl in *.
  destruct Ha as (Ht & Hh & Hc1), Hc as (Ht' & Hh' & Hc2). split_and!; simpl in *; [congruence..|].
  by rewrite Hc2, Hc1, <- app_assoc.
Qed.

Lemma call_method_only pp name args : unlocked (call_method pp name args).
Proof. intros m Hm. destruct (call_method_unlocked pp name args m Hm) as [n Hn]. by exists (S n). Qed.

Lemma py_plugin_only self : unlocked (py_plugin self).
Proof. apply unlocked_pure. intros m. unfold py_plugin. by destruct (i ← self; _) as [[]|]. Qed.

Lemma on_plugin_only {A} i pp (c : io (PyPlugin (W := ThreadWorld W)) A) : unlocked (on_plugin i pp c).
Proof. apply unlocked_pure. intros m. unfold on_plugin, io_lift. by destruct (c _). Qed.

Lemma py_on_bar_only self bar st : unlocked (py_on_bar self bar st).
Proof.
  unfold py_on_bar. apply unlocked_bind; [apply py_plugin_only|]. intros plugin.
  apply unlocked_bind; [by apply unlocked_pure|]. intros d.
  apply unlocked_bind; [apply call_method_only|]. intros r. apply on_plugin_only.
Qed.

(** Between the loader before and after: the export stays, and the calls are unlocked. *)
Definition loader_unlocked (w w' : PyWorld) : Prop :=
  export_loaded (py_loader w) ->
  py_exp_ (py_loader w') = py_exp_ (py_loader w) /\ only_unlocked (py_memory w) (py_memory w').

#[local] Instance loader_unlocked_preorder : PreOrder loader_unlocked.
Proof.
  split; [by intros w|]. intros w w1 w2 H1 H2 Hw. destruct (H1 Hw) as [He Ho].
  destruct H2 as [He' Ho']; [unfold export_loaded in *; by rewrite He|]. split; [congruence|by etrans].
Qed.

Lemma on_memory_unlocked {A} (c : io PyMem A) (w : PyWorld) : unlocked c -> loader_unlocked w (on_memory c w).2.
Proof. intros Hc _. unfold on_memory, io_lift. specialize (Hc (py_memory w)). by destruct (c _). Qed.

Lemma python_on_bar_unlocked bar st (w : PyWorld) : loader_unlocked w (python_on_bar bar st w).2.
Proof.
  unfold python_on_bar, io_bind at 1, io_get. destruct (Z.eqb_spec (PluginExport_api_version_ (py_exp_ (py_loader w))) PLUGIN_API_VERSION) as [Hv|]; cbn [negb]; [|done].
  intros Hexp. rewrite (Hexp Hv). cbn [vt_on_bar python_vtable]. by apply on_memory_unlocked, Hexp; apply py_on_bar_only.
Qed.

Lemma python_free_unlocked json (w : PyWorld) : loader_unlocked w (python_free_string json w).2.
Proof.
  unfold python_free_string, io_bind at 1, io_get. destruct (Z.eqb_spec (PluginExport_api_version_ (py_exp_ (py_loader w))) PLUGIN_API_VERSION) as [Hv|]; cbn [negb]; [|done].
  intros Hexp. rewrite (Hexp Hv). cbn [vt_free_string python_vtable]. apply on_memory_unlocked, Hexp. by apply unlocked_pure.
Qed.

(** A successful [on_end] has called the interpreter. *)
Lemma python_on_end_unlocked (w : PyWorld) result json w1 :
  python_on_end w = (Ret (result, json), w1) -> PluginResult_code_ result = 0 -> export_loaded (py_loader w) ->
  py_exp_ (py_loader w1) = py_exp_ (py_loader w) /\
  (holds_gil (python (py_memory w)) = false -> exists n, unlocked_calls (S n) (py_memory w) (py_memory w1)).
Proof.
  intros Hr Hc Hexp. unfold python_on_end, io_bind at 1, io_get in Hr.
  destruct (Z.eqb_spec (PluginExport_api_version_ (py_exp_ (py_loader w))) PLUGIN_API_VERSION) as [Hv|]; cbn [negb] in Hr;
    [|by injection Hr as <- _ _].
  rewrite (Hexp Hv) in Hr. cbn [vt_on_end python_vtable] in Hr. unfold on_memory, io_lift in Hr.
  destruct (py_on_end _ _) as [r m1] eqn:He. injection Hr as -> <-. split; [done|]. intros Hm.
  unfold py_on_end in He. apply io_bind_ret in He as (plugin & m0 & Hp & He).
  assert (m0 = py_memory w) as -> by (unfold py_plugin in Hp; by destruct (i ← _; _) as [[]|]; injection Hp).
  apply io_bind_ret in He as (out & m2 & Hcall & He).
  destruct (call_method_unlocked (snd plugin) "on_end" [] (py_memory w) Hm) as [n Hn]. rewrite Hcall in Hn.
  exists n. unfold io_bind, io_of in He. destruct (cast_string out); [|done..]. by injection He as _ _ <-.
Qed.

(** Every call of a run is made without the lock, and there is at least one. *)
Lemma run_unlocked create_uuid clock data fuel e (w : PyWorld) e' w' :
  export_loaded (py_loader w) -> holds_gil (python (py_memory w)) = false ->
  run create_uuid clock data fuel (e, w) = Ret (e', w') ->
  exists n, unlocked_calls (S n) (py_memory w) (py_memory w').
Proof.
  intros Hexp Hm (bars & _ & [w1 w2 result json Hb Hend Hc ->])%run_drives_plugin.
  apply (bar_calls_relate loader_unlocked) in Hb.
  2: { intros bar st p r p1 Hr%io_outcome_ret. pose proof (python_on_bar_unlocked bar st p) as H1. by rewrite Hr in H1. }
  destruct (Hb Hexp) as [He1 Ho1]. destruct (Ho1 Hm) as (n1 & Ht1 & Hh1 & Hc1).
  assert (export_loaded (py_loader w1)) as Hexp1 by (unfold export_loaded in *; by rewrite He1).
  apply io_outcome_ret in Hend. destruct (python_on_end_unlocked w1 result json w2 Hend Hc Hexp1) as [He2 Ho2].
  destruct Ho2 as (n2 & Ht2 & Hh2 & Hc2). { unfold holds_gil in *. by rewrite Ht1, Hh1. }
  destruct (python_free_unlocked json w2) as [_ Ho3]; [unfold export_loaded in *; by rewrite He2|].
  destruct Ho3 as (n3 & Ht3 & Hh3 & Hc3). { unfold holds_gil in *. by rewrite Ht2, Hh2, Ht1, Hh1. }
  exists (n1 + n2 + n3)%nat. split_and!; [simpl; congruence..|]. simpl loader_free_string.
  rewrite Hc3, Hc2, Hc1, <- !app_assoc, <- !replicate_add. do 2 f_equal. lia.
Qed.

(** The thread that runs next. *)
Definition on_thread (thread : nat) (m : PyMem) : PyMem :=
  let t := python m in
  mkPyMemory (mkThreadWorld (interpreter t) (gil_holder t) (gil_depth t) thread (api_calls t))
    (interpreter_up m) (py_heap m) (py_next m).

(** C31: loading plugins calls Python with the lock only, and leaves the lock with the
    main thread; every call of the back test of a Python plugin, which a worker thread of
    the pool runs, is made without it, and there is at least one. *)
Theorem python_plugins_run_unlocked {M} `{DynamicLoader M, Json, PluginFiles} create_uuid clock data fuel
    root names mem (start : PyMem) r w name l worker e' w' :
  interpreter_up start = false -> api_calls (python start) = [] ->
  load_plugins_from_dir root (new_plugin_manager (M := M) names mem start) = (r, w) ->
  interpreter_up (python_memory w) = true ->
  plugin_map_by_name_ w !! name = Some (APython l) -> worker <> this_thread (python start) ->
  run create_uuid clock data fuel (new_engine, mkPythonWorld l (on_thread worker (python_memory w))) = Ret (e', w') ->
  Forall (fun held => held = true) (api_calls (python (python_memory w))) /\
  gil_holder (python (python_memory w)) = Some (this_thread (python start)) /\
  exists n, api_calls (python (py_memory w'))
    = (api_calls (python (python_memory w)) ++ replicate (S n) false)%list.
Proof.
  intros Hu Hc Hload Hup Hl Hne Hrun.
  assert (manager_ready (this_thread (python start)) (new_plugin_manager (M := M) names mem start)) as H0'.
  { split; [right; simpl; split_and!; [done|by rewrite Hc|done]|apply map_Forall_empty]. }
  pose proof (load_dir_ready (M := M) (this_thread (python start)) root _ H0') as [Hw Hmap].
  rewrite Hload in Hw, Hmap. destruct Hw as [(Hall & _ & _ & Hh & _)|(Hd & _)]; [|simpl in Hd; congruence].
  cbn [snd] in *. split_and!; [done..|].
  destruct (run_unlocked create_uuid clock data fuel new_engine
    (mkPythonWorld l (on_thread worker (python_memory w))) e' w' (Hmap _ _ Hl)) as (n & _ & _ & Hcalls); [|exact Hrun|].
  - apply bool_decide_false. simpl. congruence.
  - by exists n.
Qed.
End Lock.

(** ** The directory of [PluginScenario], loaded on thread 0 and run on thread 1 *)
#[local] Existing Instance no_libraries.
#[local] Existing Instance one_manifest.
#[local] Existing Instance plugin_root.
#[local] Existing Instance junk_memory.
#[local] Existing Instance libstdcxx.
#[local] Existing Instance small_python.
#[local] Existing Instance threaded_python.

Definition main_python : PyMemory (W := ThreadWorld unit) :=
  mkPyMemory (mkThreadWorld tt None 0 0 []) false ∅ 0.

Definition loaded_on_main : outcome unit * PluginManager unit (ThreadWorld unit) :=
  load_plugins_from_dir "plugins" (new_plugin_manager ["sma_python"] tt main_python).

Definition main_plugin : PythonLoader (W := ThreadWorld unit) :=
  match plugin_map_by_name_ loaded_on_main.2 !! "sma_python" with
  | Some (APython l) => l
  | _ => mkPythonLoader parsed_good empty_export
  end.

#[local] Abbreviation run_on_worker :=
  (run demo_uuid demo_clock demo_data 5
    (new_engine, mkPythonWorld main_plugin (on_thread 1 (python_memory loaded_on_main.2)))).

Lemma main_plugin_loaded : plugin_map_by_name_ loaded_on_main.2 !! "sma_python" = Some (APython main_plugin).
Proof.
  assert (match plugin_map_by_name_ loaded_on_main.2 !! "sma_python" with Some (APython _) => true | _ => false end = true) as H
    by (vm_compute; reflexivity).
  unfold main_plugin. by destruct (plugin_map_by_name_ loaded_on_main.2 !! "sma_python") as [[|]|].
Qed.

Lemma run_on_worker_ends : exists e' w', run_on_worker = Ret (e', w').
Proof.
  assert (match run_on_worker with Ret _ => true | _ => false end = true) as H by (vm_compute; reflexivity).
  destruct run_on_worker as [[e' w']| |]; [by exists e', w'|done..].
Qed.

Lemma main_load_ends :
  load_plugins_from_dir "plugins" (new_plugin_manager ["sma_python"] tt main_python) = (loaded_on_main.1, loaded_on_main.2).
Proof. unfold loaded_on_main. by destruct (load_plugins_from_dir _ _). Qed.

Lemma main_started : interpreter_up (python_memory loaded_on_main.2) = true.
Proof. vm_compute. reflexivity. Qed.

Lemma main_calls : api_calls (python (python_memory loaded_on_main.2)) = replicate 5 true.
Proof. vm_compute. reflexivity. Qed.

Lemma python_plugins_run_unlocked_witness :
  exists e' w' n, run_on_worker = Ret (e', w') /\
    api_calls (python (py_memory w')) = (replicate 5 true ++ replicate (S n) false)%list.
Proof.
  destruct run_on_worker_ends as (e' & w' & Hrun).
  destruct (python_plugins_run_unlocked (py := small_python) demo_uuid demo_clock demo_data 5 "plugins" ["sma_python"] tt
    main_python loaded_on_main.1 loaded_on_main.2 "sma_python" main_plugin 1 e' w' eq_refl eq_refl main_load_ends
    main_started main_plugin_loaded ltac:(discriminate) Hrun) as (_ & _ & n & Hn).
  rewrite main_calls in Hn. exact (ex_intro _ e' (ex_intro _ w' (ex_intro _ n (conj Hrun Hn)))).
Defined.
