(* ===== verification/SmaNative.v ===== *)
(** * [.plugins/sma_native/sma_native.cpp]

    The example plugin: a crossover of two moving averages.  It is written against a
    header [plugin_api.h] that the repository does not have; of that header the model has
    what the file uses, namely the members it reads, the order of the function table it
    fills and the version constant (a parameter).

    The plugin's memory is a heap of [SMAState] objects and of the texts it returns.
    [None] is undefined behaviour: a null or freed object, a freed text, or a read outside
    the vector of closes.  A [std::vector] of closes is a list, [int] arithmetic is kept at
    its width, and [double] arithmetic is that of [Double]. *)
From Stdlib Require Import ZArith Lia Ascii String.
From stdpp Require Import base tactics list gmap strings.
From S2P Require Import Prelude Double CppString CppFormat.
Open Scope string_scope.
Open Scope Z_scope.

(** ** What the file uses of [plugin_api.h] *)
Record OptionItem : Type := mkOptionItem { item_key : string; item_value : string }.

(** [o->items] with [o->count]. *)
Abbreviation Options := (list OptionItem).

Record Bar : Type := mkBar { close : double }.
Record Result : Type := mkResult { code : Z; message : option string }.

(** ** The plugin *)
Record SMAState : Type := mkSMAState {
  fast : Z;
  slow : Z;
  symbol : string;
  closes : list double;
  long_on : bool;
  entry_px : double;
  pnl : double
}.

Definition new_SMAState : SMAState := mkSMAState 10 30 "" [] false dzero dzero.

Definition set_fast (w : Z) (S : SMAState) : SMAState :=
  mkSMAState w (slow S) (symbol S) (closes S) (long_on S) (entry_px S) (pnl S).
Definition set_slow (w : Z) (S : SMAState) : SMAState :=
  mkSMAState (fast S) w (symbol S) (closes S) (long_on S) (entry_px S) (pnl S).
Definition set_symbol (s : string) (S : SMAState) : SMAState :=
  mkSMAState (fast S) (slow S) s (closes S) (long_on S) (entry_px S) (pnl S).
Definition push_close (c : double) (S : SMAState) : SMAState :=
  mkSMAState (fast S) (slow S) (symbol S) (closes S ++ [c])%list (long_on S) (entry_px S) (pnl S).
Definition go_long (px : double) (S : SMAState) : SMAState :=
  mkSMAState (fast S) (slow S) (symbol S) (closes S) true px (pnl S).
(** [S.pnl += px - S.entry_px; S.long_on = false;] *)
Definition go_flat (px : double) (S : SMAState) : SMAState :=
  mkSMAState (fast S) (slow S) (symbol S) (closes S) false (entry_px S) (dadd (pnl S) (dsub px (entry_px S))).

(** [v[i]] with an [int] index, which is converted to [size_t]. *)
Definition vector_at (v : list double) (i : Z) : option double :=
  let index := i mod 2 ^ 64 in
  if index <? Z.of_nat (length v) then v !! Z.to_nat index else None.

(** The loop of [sma] from [i] on, of which [rounds] are left. *)
Fixpoint sma_loop (rounds : nat) (v : list double) (i : Z) (s : double) : option double :=
  match rounds with
  | O => Some s
  | S rounds => x ← vector_at v i; sma_loop rounds v (i + 1) (dadd s x)
  end.

(** [int i = v.size() - w] is computed in [size_t]. *)
Definition sma (v : list double) (w : Z) : option double :=
  let size := Z.of_nat (length v) in
  if to_int size <? w then Some dzero
  else
    let i := to_int ((size - w) mod 2 ^ 64) in
    s ← sma_loop (Z.to_nat (to_int size - i)) v i dzero;
    Some (ddiv s (d_of_Z w)).

(** [std::atoi]: the low half of what [strtol] reads. *)
Definition atoi (s : string) : Z := to_int (fst (strtol s)).

Definition init_item (S : SMAState) (item : OptionItem) : SMAState :=
  let k := item_key item in
  let v := item_value item in
  if String.eqb k "fast" then set_fast (atoi v) S
  else if String.eqb k "slow" then set_slow (atoi v) S
  else if String.eqb k "symbol" then set_symbol v S
  else S.

(** ** The memory *)
Record SmaMemory : Type := mkSmaMemory {
  instances : gmap nat SMAState;
  texts : gmap nat string;
  next_address : nat
}.

Definition call (A : Type) : Type := SmaMemory -> option (A * SmaMemory).

(** [auto& S = *static_cast<SMAState*>(self)] *)
Definition with_self (self : option nat) (f : SMAState -> option SMAState) : SmaMemory -> option SmaMemory := fun m =>
  id ← self;
  S ← instances m !! id;
  S ← f S;
  Some (mkSmaMemory (<[id := S]> (instances m)) (texts m) (next_address m)).

Definition init_fn (self : option nat) (o : option Options) : call Result := fun m =>
  m ← with_self self (fun S => Some (fold_left init_item (default [] o) S)) m;
  Some (mkResult 0 None, m).

Definition prep_fn (self : option nat) (name : option string) (from to : Z) (timespan : Z) : call Result := fun m =>
  Some (mkResult 0 None, m).

Definition on_bar_state (b : Bar) (S : SMAState) : option SMAState :=
  let S := push_close (close b) S in
  f ← sma (closes S) (fast S);
  s ← sma (closes S) (slow S);
  if deqb f dzero || deqb s dzero then Some S
  else if negb (long_on S) && dltb s f then Some (go_long (close b) S)
  else if long_on S && dltb f s then Some (go_flat (close b) S)
  else Some S.

Definition on_bar_fn (self : option nat) (b : Bar) : call Result := fun m =>
  m ← with_self self (on_bar_state b) m;
  Some (mkResult 0 None, m).

Definition on_tick_fn {Tick : Type} (self : option nat) (t : Tick) : call Result := fun m =>
  Some (mkResult 0 None, m).

(** [finalize_fn] closes what is open and makes a text of the result. *)
Definition finalize_state (S : SMAState) : SMAState :=
  match last (closes S) with
  | Some back => if long_on S then go_flat back S else S
  | None => S
  end.

Definition dquote : string := String (ascii_of_nat 34) EmptyString.
Definition quote (s : string) : string := dquote +:+ s +:+ dquote.

Definition finalize_text (S : SMAState) : string :=
  "{" +:+ quote "symbol" +:+ ":" +:+ quote (symbol S) +:+
  "," +:+ quote "pnl" +:+ ":" +:+ to_string_double (pnl S) +:+
  "," +:+ quote "fast" +:+ ":" +:+ to_string (fast S) +:+
  "," +:+ quote "slow" +:+ ":" +:+ to_string (slow S) +:+ "}".

(** The second component of the result is [*out]. *)
Definition finalize_fn (self : option nat) : call (Result * nat) := fun m =>
  m ← with_self self (fun S => Some (finalize_state S)) m;
  id ← self;
  S ← instances m !! id;
  let heap := next_address m in
  Some ((mkResult 0 None, heap), mkSmaMemory (instances m) (<[heap := finalize_text S]> (texts m)) (heap + 1)%nat).

(** [delete[]] and [delete]: nothing for a null pointer, undefined for a freed one. *)
Definition free_str_fn (self p : option nat) : SmaMemory -> option SmaMemory := fun m =>
  match p with
  | None => Some m
  | Some p => _ ← texts m !! p; Some (mkSmaMemory (instances m) (delete p (texts m)) (next_address m))
  end.

Definition destroy_fn (self : option nat) : SmaMemory -> option SmaMemory := fun m =>
  match self with
  | None => Some m
  | Some id => _ ← instances m !! id; Some (mkSmaMemory (delete id (instances m)) (texts m) (next_address m))
  end.

Record VTable (Tick : Type) : Type := mkVTable {
  vt_destroy : option nat -> SmaMemory -> option SmaMemory;
  vt_init : option nat -> option Options -> call Result;
  vt_prep : option nat -> option string -> Z -> Z -> Z -> call Result;
  vt_on_bar : option nat -> Bar -> call Result;
  vt_on_tick : option nat -> Tick -> call Result;
  vt_finalize : option nat -> call (Result * nat);
  vt_free_str : option nat -> option nat -> SmaMemory -> option SmaMemory
}.
Arguments mkVTable {Tick}.
Arguments vt_destroy {Tick}.
Arguments vt_init {Tick}.
Arguments vt_prep {Tick}.
Arguments vt_on_bar {Tick}.
Arguments vt_on_tick {Tick}.
Arguments vt_finalize {Tick}.
Arguments vt_free_str {Tick}.

Record Export (Tick : Type) : Type := mkExport {
  api_version : Z;
  instance : option nat;
  vtable : VTable Tick
}.
Arguments mkExport {Tick}.
Arguments api_version {Tick}.
Arguments instance {Tick}.
Arguments vtable {Tick}.

Definition sma_vtable {Tick : Type} : VTable Tick :=
  mkVTable destroy_fn init_fn prep_fn on_bar_fn on_tick_fn finalize_fn free_str_fn.

(** The address of [new SMAState{}] is one that was never used. *)
Definition create_plugin {PluginContext Tick : Type} (API_VERSION : Z) (ctx : PluginContext) (m : SmaMemory)
  : Export Tick * SmaMemory :=
  let S := next_address m in
  (mkExport API_VERSION (Some S) sma_vtable, mkSmaMemory (<[S := new_SMAState]> (instances m)) (texts m) (S + 1)%nat).
