(* ===== verification/SmaProps.v ===== *)
(** * The example plugin: properties

    What a whole session with the plugin returns, in terms of the crosses of its two
    averages, and that a session uses its memory properly and leaves nothing behind. *)
From Stdlib Require Import ZArith Lia Ascii String SpecFloat.
From stdpp Require Import base tactics list gmap strings.
From S2P Require Import Prelude Double CppString CppFormat SmaNative.
Open Scope string_scope.
Open Scope Z_scope.

(** ** Averages and crosses *)

(** The sum of the last [w] closes over [w]; 0 while there are fewer. *)
Definition average (v : list double) (w : Z) : double :=
  let size := Z.of_nat (length v) in
  if size <? w then dzero else ddiv (fold_left dadd (drop (Z.to_nat (size - w)) v) dzero) (d_of_Z w).

(** Windows for which [int] holds the index [size - w]. *)
Definition window_ok (n : nat) (w : Z) : Prop := Z.of_nat n - w < 2 ^ 31.

Lemma vector_at_in v (k : nat) : (k < length v)%nat -> Z.of_nat (length v) < 2 ^ 31 -> vector_at v (Z.of_nat k) = v !! k.
Proof.
  intros Hk Hv. unfold vector_at. rewrite Z.mod_small by lia.
  rewrite (proj2 (Z.ltb_lt _ _)) by lia. by rewrite Nat2Z.id.
Qed.

Lemma sma_loop_sum v rounds (k : nat) s :
  Z.of_nat (length v) < 2 ^ 31 -> (k + rounds = length v)%nat ->
  sma_loop rounds v (Z.of_nat k) s = Some (fold_left dadd (drop k v) s).
Proof.
  intros Hv. revert k s. induction rounds as [|rounds IH]; intros k s Hk; cbn [sma_loop].
  - by rewrite drop_ge by lia.
  - rewrite vector_at_in by lia. destruct (lookup_lt_is_Some_2 v k) as [x Hx]; [lia|].
    rewrite Hx. cbn [mbind option_bind]. rewrite (drop_S v x k Hx). cbn [fold_left].
    replace (Z.of_nat k + 1) with (Z.of_nat (S k)) by lia. apply IH. lia.
Qed.

Lemma sma_average v w : Z.of_nat (length v) < 2 ^ 31 -> window_ok (length v) w -> sma v w = Some (average v w).
Proof.
  unfold window_ok, sma, average. intros Hv Hw. rewrite to_int_small by (unfold in_int32; lia).
  destruct (Z.ltb_spec (Z.of_nat (length v)) w) as [|Hle]; [done|].
  rewrite Z.mod_small by lia. rewrite to_int_small by (unfold in_int32; lia).
  replace (Z.of_nat (length v) - w) with (Z.of_nat (Z.to_nat (Z.of_nat (length v) - w))) at 1 2 by lia.
  destruct (Z.lt_ge_cases w 0) as [Hn|Hn].
  - replace (Z.to_nat _) with 0%nat by lia. cbn [sma_loop mbind option_bind]. rewrite drop_ge by lia. done.
  - rewrite sma_loop_sum; [done|lia|lia].
Qed.

(** Any other window makes the first index negative, and that is read. *)
Lemma sma_undefined v w :
  Z.of_nat (length v) < 2 ^ 31 -> in_int32 w -> ~ window_ok (length v) w -> sma v w = None.
Proof.
  unfold window_ok, in_int32, sma. intros Hv Hw Hn. rewrite to_int_small by (unfold in_int32; lia).
  rewrite (proj2 (Z.ltb_ge _ _)) by lia. rewrite (Z.mod_small _ (2 ^ 64)) by lia.
  assert (to_int (Z.of_nat (length v) - w) = Z.of_nat (length v) - w - 2 ^ 32) as ->.
  { unfold to_int. replace (Z.of_nat (length v) - w + 2 ^ 31) with (Z.of_nat (length v) - w - 2 ^ 31 + 1 * 2 ^ 32) by lia.
    rewrite Z_mod_plus_full, Z.mod_small by lia. lia. }
  destruct (Z.to_nat _) as [|rounds] eqn:Hr; [lia|]. cbn [sma_loop].
  unfold vector_at. rewrite <- (Z_mod_plus_full _ 1), Z.mod_small by lia.
  by rewrite (proj2 (Z.ltb_ge _ _)) by lia.
Qed.

Lemma average_cold v w : Z.of_nat (length v) < w \/ w <= 0 ->
  is_nan (average v w) = true \/ deqb (average v w) dzero = true.
Proof.
  unfold average. intros [Hlt|Hw].
  - rewrite (proj2 (Z.ltb_lt _ _)) by lia. by right.
  - rewrite (proj2 (Z.ltb_ge _ _)) by lia. rewrite drop_ge by lia. cbn [fold_left].
    unfold ddiv, dzero. by destruct (d_of_Z w) as [[]|[]| |[]]; auto.
Qed.

Section Crosses.
Context (all : list double) (fast_ slow_ : Z).

(** The first average is above the second after [k] closes, and both are known. *)
Definition above (w1 w2 : Z) (k : nat) : bool :=
  let a1 := average (take k all) w1 in
  let a2 := average (take k all) w2 in
  negb (deqb a1 dzero || deqb a2 dzero) && dltb a2 a1.

Definition golden : nat -> bool := above fast_ slow_.
Definition death : nat -> bool := above slow_ fast_.

Lemma above_warm w1 w2 k : above w1 w2 k = true -> 0 < w1 <= Z.of_nat k /\ 0 < w2 <= Z.of_nat k.
Proof.
  unfold above. intros [[Hz1 Hz2]%negb_true_iff%orb_false_iff Hlt]%andb_true_iff.
  apply dltb_key in Hlt as (Hn2 & Hn1 & _).
  assert (forall w, is_nan (average (take k all) w) = false -> deqb (average (take k all) w) dzero = false ->
    0 < w <= Z.of_nat k) as Hw; [|by split; apply Hw].
  intros w Hn Hz. destruct (decide (Z.of_nat (length (take k all)) < w \/ w <= 0)) as [Hc|Hc].
  - destruct (average_cold _ _ Hc); congruence.
  - rewrite length_take in Hc. lia.
Qed.

(** ** Round trips *)

(** [j] is the first after [i] where [p] holds. *)
Definition first_after (p : nat -> bool) (i j : nat) : Prop :=
  (i < j)%nat /\ p j = true /\ forall k, (i < k < j)%nat -> p k = false.
Definition none_after (p : nat -> bool) (i n : nat) : Prop := forall k, (i < k <= n)%nat -> p k = false.

(** Each trip is bought at the first golden cross after the previous one was sold and sold
    at the first death cross after that; [open] is where the last one was bought that is
    not sold by bar [n]. *)
Fixpoint trips_ok (since : nat) (trips : list (nat * nat)) (open : option nat) (n : nat) : Prop :=
  match trips with
  | [] => match open with
          | None => none_after golden since n
          | Some i => first_after golden since i /\ (i <= n)%nat /\ none_after death i n
          end
  | (i, j) :: trips => first_after golden since i /\ first_after death i j /\ (j <= n)%nat /\ trips_ok j trips open n
  end.

Definition close_at (k : nat) : double := default dzero (all !! (k - 1)%nat).
Definition gain (p : double) (trip : nat * nat) : double := dadd p (dsub (close_at (snd trip)) (close_at (fst trip))).
Definition profit (trips : list (nat * nat)) : double := fold_left gain trips dzero.

Lemma none_after_S p i n : none_after p i n -> p (S n) = false -> none_after p i (S n).
Proof. intros Hn Hp k Hk. destruct (decide (k = S n)) as [->|]; [done|]. apply Hn. lia. Qed.

Lemma none_after_first p i n : none_after p i n -> p (S n) = true -> (i <= n)%nat -> first_after p i (S n).
Proof. intros Hn Hp Hi. split; [lia|]. split; [done|]. intros k Hk. apply Hn. lia. Qed.

Lemma none_after_self p n : none_after p n n.
Proof. intros k Hk. lia. Qed.
#[local] Hint Resolve none_after_S none_after_first none_after_self : core.

(** The next bar, by whether a position is open. *)
Lemma trips_flat_next since trips n :
  (since <= n)%nat -> trips_ok since trips None n ->
  trips_ok since trips (if golden (S n) then Some (S n) else None) (S n).
Proof.
  revert since. induction trips as [|[i j] trips IH]; intros since Hs; simpl.
  - intros Hn. destruct (golden (S n)) eqn:Hg; [|by auto]. split_and!; auto.
  - intros (Hi & Hj & Hjn & Hr). split_and!; auto with lia.
Qed.

Lemma trips_long_next since trips i n :
  (since <= n)%nat -> trips_ok since trips (Some i) n ->
  if death (S n) then trips_ok since (trips ++ [(i, S n)]) None (S n) else trips_ok since trips (Some i) (S n).
Proof.
  revert since. induction trips as [|[i' j'] trips IH]; intros since Hs; simpl.
  - intros (Hi & Hin & Hn). destruct (death (S n)) eqn:Hd; split_and!; auto with lia.
  - intros (Hi & Hj & Hjn & Hr). specialize (IH j' Hjn Hr). destruct (death (S n)); split_and!; auto with lia.
Qed.

Lemma profit_snoc trips i j : profit (trips ++ [(i, j)]) = dadd (profit trips) (dsub (close_at j) (close_at i)).
Proof. unfold profit. by rewrite fold_left_app. Qed.

(** ** The state follows the trips *)
Definition follows (n : nat) (trips : list (nat * nat)) (open : option nat) (S : SMAState) : Prop :=
  closes S = take n all /\ fast S = fast_ /\ slow S = slow_ /\ trips_ok 0 trips open n /\
  pnl S = profit trips /\ long_on S = match open with Some _ => true | None => false end /\
  forall i, open = Some i -> entry_px S = close_at i.

Lemma trips_open since trips i n : trips_ok since trips (Some i) n -> (0 < i <= n)%nat.
Proof.
  revert since. induction trips as [|[i' j'] trips IH]; intros since; simpl.
  - intros ((Hi & _) & Hn & _). lia.
  - intros (_ & _ & _ & Hr). by apply (IH j').
Qed.

(** What [finalize_fn] makes of it. *)
Definition sold_at_the_end (trips : list (nat * nat)) (open : option nat) : list (nat * nat) :=
  match open with Some i => trips ++ [(i, length all)] | None => trips end.

Lemma finalize_follows trips open st :
  follows (length all) trips open st ->
  symbol (finalize_state st) = symbol st /\ fast (finalize_state st) = fast_ /\ slow (finalize_state st) = slow_ /\
  pnl (finalize_state st) = profit (sold_at_the_end trips open).
Proof.
  intros (Hcl & Hf & Hs & Ht & Hp & Hl & He). unfold finalize_state, sold_at_the_end.
  rewrite Hcl, firstn_all, Hl. destruct open as [i|]; [|by destruct (last all)].
  apply trips_open in Ht. destruct (last all) as [back|] eqn:Hb;
    [|apply last_None in Hb; rewrite Hb in Ht; simpl in Ht; lia].
  split_and!; try done. cbn. rewrite profit_snoc, Hp, (He i eq_refl). unfold close_at at 2.
  rewrite last_lookup, <- Nat.sub_1_r in Hb. by rewrite Hb.
Qed.

Context (short : Z.of_nat (length all) < 2 ^ 31).
Context (fast_ok : window_ok (length all) fast_) (slow_ok : window_ok (length all) slow_).

Lemma on_bar_follows n trips open (st : SMAState) c :
  all !! n = Some c -> follows n trips open st ->
  exists trips' open' st', on_bar_state (mkBar c) st = Some st' /\ follows (S n) trips' open' st' /\
    symbol st' = symbol st.
Proof.
  intros Hc (Hcl & Hf & Hs & Ht & Hp & Hl & He).
  pose proof (lookup_lt_Some _ _ _ Hc) as Hlt.
  assert ((closes st ++ [c])%list = take (S n) all) as Htake by (by rewrite Hcl, (take_S_r _ _ _ Hc)).
  assert (length (take (S n) all) = S n) as Hlen by (rewrite length_take; lia).
  assert (close_at (S n) = c) as Hcat by (unfold close_at; replace (S n - 1)%nat with n by lia; by rewrite Hc).
  unfold on_bar_state, window_ok in *. cbn [close push_close closes fast slow long_on]. rewrite Htake, Hf, Hs.
  rewrite !sma_average by (unfold window_ok; lia). cbn [mbind option_bind].
  pose proof (trips_flat_next 0 trips n (Nat.le_0_l n)) as Hflat.
  pose proof (fun i => trips_long_next 0 trips i n (Nat.le_0_l n)) as Hlong.
  unfold golden, death, above in Hflat, Hlong.
  set (f := average _ fast_) in *. set (s := average _ slow_) in *.
  destruct open as [i|]; rewrite Hl.
  - specialize (Hlong i Ht). rewrite (orb_comm (deqb s dzero)) in Hlong. destruct (deqb f dzero || deqb s dzero); cbn [negb andb] in *.
    + exists trips, (Some i). eexists. split; [done|]. by split_and!.
    + destruct (dltb f s).
      * exists (trips ++ [(i, S n)])%list, None. eexists. split; [done|]. split; [|done]. split_and!; try done.
        cbn. by rewrite profit_snoc, Hp, Hcat, (He i eq_refl).
      * exists trips, (Some i). eexists. split; [done|]. by split_and!.
  - specialize (Hflat Ht). destruct (deqb f dzero || deqb s dzero); cbn [negb andb] in *.
    + exists trips, None. eexists. split; [done|]. by split_and!.
    + destruct (dltb s f).
      * exists trips, (Some (S n)). eexists. split; [done|]. split; [|done]. split_and!; try done.
        intros i [= <-]. by rewrite Hcat.
      * exists trips, None. eexists. split; [done|]. by split_and!.
Qed.
End Crosses.

(** ** Options *)

(** The last value given for a key. *)
Definition option_given (key : string) (o : Options) : option string :=
  last (item_value <$> filter (fun item => item_key item = key) o).

Definition window_given (key : string) (o : Options) (default_ : Z) : Z := default default_ (atoi <$> option_given key o).

Lemma option_given_snoc key o item :
  option_given key (o ++ [item]) = if decide (item_key item = key) then Some (item_value item) else option_given key o.
Proof.
  unfold option_given. rewrite filter_app, fmap_app, filter_cons, filter_nil. case_decide.
  - by rewrite fmap_cons, fmap_nil, last_snoc.
  - rewrite fmap_nil. by rewrite app_nil_r.
Qed.

Lemma init_items o :
  fold_left init_item o new_SMAState =
  mkSMAState (window_given "fast" o 10) (window_given "slow" o 30) (default "" (option_given "symbol" o)) [] false dzero dzero.
Proof.
  induction o as [|item o IH] using rev_ind; [done|]. rewrite fold_left_app. cbn [fold_left]. rewrite IH.
  unfold init_item, window_given. rewrite !option_given_snoc.
  repeat match goal with
  | |- context [if String.eqb ?k ?c then _ else _] =>
      destruct (String.eqb_spec k c) as [E|E]; [rewrite E; reflexivity|rewrite ?(decide_False _ _ E); clear E]
  end.
  done.
Qed.

(** ** The plugin's memory *)
Definition memory_ok (m : SmaMemory) : Prop :=
  forall a, (next_address m <= a)%nat -> instances m !! a = None /\ texts m !! a = None.

Lemma with_self_at id st m f :
  instances m !! id = Some st ->
  with_self (Some id) f m =
  st' ← f st; Some (mkSmaMemory (<[id := st']> (instances m)) (texts m) (next_address m)).
Proof. intros Hs. unfold with_self. cbn. by rewrite Hs. Qed.

Section Session.
Context {PluginContext Tick : Type} (API_VERSION : Z) (ctx : PluginContext).

(** A host that uses the table as its entries are named: create, initialise, prepare, one
    call per bar, finalise, read the text and give it back, destroy. *)
Fixpoint feed (vt : VTable Tick) (self : option nat) (bars : list double) (m : SmaMemory) : option SmaMemory :=
  match bars with
  | [] => Some m
  | c :: bars => '(_, m) ← vt_on_bar vt self (mkBar c) m; feed vt self bars m
  end.

Definition plugin_session (o : option Options) (bars : list double) (m : SmaMemory) : option (string * SmaMemory) :=
  let '(e, m) := create_plugin (Tick := Tick) API_VERSION ctx m in
  let vt := vtable e in
  let self := instance e in
  '(_, m) ← vt_init vt self o m;
  '(_, m) ← vt_prep vt self None 0 0 0 m;
  m ← feed vt self bars m;
  '(_, out, m) ← vt_finalize vt self m;
  text ← texts m !! out;
  m ← vt_free_str vt self (Some out) m;
  m ← vt_destroy vt self m;
  Some (text, m).

Lemma feed_follows all fast_ slow_ id rest n trips open st m :
  Z.of_nat (length all) < 2 ^ 31 -> window_ok (length all) fast_ -> window_ok (length all) slow_ ->
  drop n all = rest -> (n <= length all)%nat -> follows all fast_ slow_ n trips open st ->
  instances m !! id = Some st ->
  exists trips' open' st', feed sma_vtable (Some id) rest m =
    Some (mkSmaMemory (<[id := st']> (instances m)) (texts m) (next_address m)) /\
    follows all fast_ slow_ (length all) trips' open' st' /\ symbol st' = symbol st.
Proof.
  intros Hsh Hfo Hso. revert n trips open st m. induction rest as [|c rest IH]; intros n trips open st m Hr Hn Hst Hm.
  - exists trips, open, st. assert (n = length all) as <-.
    { apply (f_equal length) in Hr. rewrite length_drop in Hr. simpl in Hr. lia. }
    split; [|done]. cbn [feed]. rewrite insert_id by done. by destruct m.
  - assert (all !! n = Some c) as Hc.
    { rewrite <- (Nat.add_0_r n), <- lookup_drop, Hr. done. }
    pose proof (lookup_lt_Some _ _ _ Hc).
    destruct (on_bar_follows all fast_ slow_ Hsh Hfo Hso n trips open st c Hc Hst) as (t1 & o1 & st1 & Hb & Hst1 & Hsy).
    cbn [feed vt_on_bar sma_vtable]. unfold on_bar_fn. rewrite (with_self_at _ st) by done. rewrite Hb.
    cbn [mbind option_bind].
    destruct (IH (S n) t1 o1 st1 (mkSmaMemory (<[id := st1]> (instances m)) (texts m) (next_address m)))
      as (t2 & o2 & st2 & Hf & Hst2 & Hsy2); [|lia|done|apply lookup_insert_eq|].
    { rewrite <- (Nat.add_1_r n), <- drop_drop, Hr. done. }
    exists t2, o2, st2. cbn [instances texts next_address] in Hf. rewrite insert_insert_eq in Hf.
    split; [exact Hf|]. split; [done|]. by rewrite Hsy2.
Qed.

(** C19: a session never reads outside the closes, never uses what it freed, returns one
    text and leaves the memory as it found it; the text names the symbol and the windows
    that were given last, and the profit of the round trips that the crosses of the two
    averages make, the one still open at the end sold at the last close.  Every cross needs
    both windows full. *)
Theorem session_reports_crosses o bars m :
  let given := default [] o in
  let fast_ := window_given "fast" given 10 in
  let slow_ := window_given "slow" given 30 in
  let n := length bars in
  Z.of_nat n < 2 ^ 31 -> window_ok n fast_ -> window_ok n slow_ -> memory_ok m ->
  exists trips open st m',
    plugin_session o bars m = Some (finalize_text st, m') /\
    symbol st = default "" (option_given "symbol" given) /\ fast st = fast_ /\ slow st = slow_ /\
    pnl st = profit bars (sold_at_the_end bars trips open) /\
    trips_ok bars fast_ slow_ 0 trips open n /\
    (forall k, golden bars fast_ slow_ k = true \/ death bars fast_ slow_ k = true ->
       0 < fast_ <= Z.of_nat k /\ 0 < slow_ <= Z.of_nat k) /\
    instances m' = instances m /\ texts m' = texts m /\ memory_ok m'.
Proof.
  intros given fast_ slow_ n Hn Hf Hs Hm.
  destruct (Hm _ (le_n _)) as [Hi0 _]. destruct (Hm (next_address m + 1)%nat ltac:(lia)) as [_ Ht0].
  assert (follows bars fast_ slow_ 0 [] None (fold_left init_item given new_SMAState)) as Hst0.
  { rewrite init_items. split_and!; try done. simpl. intros k Hk. lia. }
  unfold plugin_session, create_plugin. cbn [vtable instance sma_vtable vt_init vt_prep vt_finalize vt_free_str vt_destroy].
  unfold init_fn, prep_fn. rewrite (with_self_at _ new_SMAState) by apply lookup_insert_eq.
  cbn [mbind option_bind instances texts next_address]. rewrite insert_insert_eq.
  set (m1 := mkSmaMemory _ _ _).
  destruct (feed_follows bars fast_ slow_ (next_address m) bars 0 [] None (fold_left init_item given new_SMAState) m1)
    as (trips & open & st & -> & Hst & Hsy); try done; [lia|apply lookup_insert_eq|].
  rewrite init_items in Hsy. destruct (finalize_follows _ _ _ _ _ _ Hst) as (Hfs & Hff & Hfw & Hfp).
  destruct Hst as (_ & _ & _ & Ht & _).
  unfold finalize_fn. cbn [mbind option_bind m1 instances texts next_address]. rewrite insert_insert_eq.
  rewrite (with_self_at _ st) by apply lookup_insert_eq. cbn [mbind option_bind instances texts next_address].
  rewrite insert_insert_eq, lookup_insert_eq. cbn [mbind option_bind texts].
  rewrite lookup_insert_eq. unfold free_str_fn, destroy_fn. cbn [mbind option_bind texts instances next_address].
  rewrite lookup_insert_eq. cbn [mbind option_bind texts instances next_address]. rewrite lookup_insert_eq.
  cbn [mbind option_bind texts instances next_address].
  exists trips, open, (finalize_state st). eexists. split; [reflexivity|]. cbn [instances texts].
  rewrite !delete_insert_id by done. rewrite Hfs, Hsy. split_and!; try done.
  - intros k [Hk|Hk]; apply above_warm in Hk as [? ?]; by split.
  - intros a Ha. cbn in *. apply Hm. lia.
Qed.
End Session.

(** ** Examples *)
Definition option_items (fast_ slow_ symbol_ : string) : Options :=
  [mkOptionItem "fast" fast_; mkOptionItem "slow" slow_; mkOptionItem "symbol" symbol_].

Definition empty_memory : SmaMemory := mkSmaMemory ∅ ∅ 1.

(** A cross upwards at the second bar, downwards at the third. *)
Definition up_and_down : list double := d_of_Z <$> [1; 2; 1].

Lemma session_reports_crosses_witness :
  exists trips open st m',
    plugin_session (Tick := unit) 1 tt (Some (option_items "1" "2" "AAPL")) up_and_down empty_memory = Some (finalize_text st, m') /\
    symbol st = "AAPL" /\ fast st = 1 /\ slow st = 2 /\
    pnl st = profit up_and_down (sold_at_the_end up_and_down trips open) /\
    trips_ok up_and_down 1 2 0 trips open 3 /\
    (forall k, golden up_and_down 1 2 k = true \/ death up_and_down 1 2 k = true ->
       0 < 1 <= Z.of_nat k /\ 0 < 2 <= Z.of_nat k) /\
    instances m' = instances empty_memory /\ texts m' = texts empty_memory /\ memory_ok m'.
Proof.
  apply (session_reports_crosses (Tick := unit) 1 tt (Some (option_items "1" "2" "AAPL")) up_and_down empty_memory).
  - reflexivity.
  - reflexivity.
  - reflexivity.
  - intros a _. split; apply lookup_empty.
Defined.

Example session_text :
  fst <$> plugin_session (Tick := unit) 1 tt (Some (option_items "1" "2" "AAPL")) up_and_down empty_memory =
  Some ("{" +:+ quote "symbol" +:+ ":" +:+ quote "AAPL" +:+ "," +:+ quote "pnl" +:+ ":-1.000000," +:+
        quote "fast" +:+ ":1," +:+ quote "slow" +:+ ":2}").
Proof. vm_compute. reflexivity. Qed.

(** The symbol is copied into the text as it is, quotes included. *)
Example symbol_not_escaped :
  fst <$> plugin_session (Tick := unit) 1 tt (Some (option_items "1" "2" ("A" +:+ dquote +:+ "," +:+ quote "pnl" +:+ ":9")))
    [] empty_memory =
  Some ("{" +:+ quote "symbol" +:+ ":" +:+ quote "A" +:+ "," +:+ quote "pnl" +:+ ":9" +:+ dquote +:+ "," +:+
        quote "pnl" +:+ ":0.000000," +:+ quote "fast" +:+ ":1," +:+ quote "slow" +:+ ":2}").
Proof. vm_compute. reflexivity. Qed.

(** The smallest [int] as a window is a read outside the closes at the first bar. *)
Lemma window_min_undefined c m :
  plugin_session (Tick := unit) 1 tt (Some (option_items "-2147483648" "30" "AAPL")) [c] m = None.
Proof.
  assert (sma [c] (-2147483648) = None) as Hs.
  { apply sma_undefined; [done|unfold in_int32; lia|unfold window_ok; simpl; lia]. }
  unfold plugin_session, create_plugin. cbn [vtable instance sma_vtable vt_init vt_prep feed vt_on_bar].
  unfold init_fn, prep_fn, on_bar_fn. rewrite (with_self_at _ new_SMAState) by apply lookup_insert_eq.
  cbn [mbind option_bind instances]. rewrite insert_insert_eq.
  erewrite with_self_at by apply lookup_insert_eq.
  unfold on_bar_state. cbn -[sma]. change (atoi "-2147483648") with (-2147483648). by rewrite Hs.
Qed.
